(* ===== verification/_CoqProject ===== *)
-Q . S2P
Prelude.v
GoStrings.v
Netip.v
Acl.v
Keys.v
Types.v
NodeData.v
Errors.v
Events.v
Options.v
ClientState.v
Reconcile.v
MapReducer.v
Cache.v
Lifecycle.v
Invariants.v
Shutdown.v
Views.v
Dns.v
Stun.v
Transport.v
Disco.v
DiscoProtocol.v
Netcheck.v
TransportOps.v
TransportInv.v
TransportProps.v
Derp.v
DerpInv.v
Noise.v
NoiseProps.v
ControlClient.v
