(* ===== verification/Prelude.v ===== *)
(** * wgo-tailscale: a verification development (root file)

    The program is a Go library that joins a WireGuard device (wgo) to a
    Tailscale network.  A [Client] registers with a control server, follows the
    stream of network maps, keeps the peers of the attached device in line with
    them, and answers questions about the network (snapshots, MagicDNS, ACLs).
    Packets travel through a multipath transport: direct UDP paths found with
    the disco protocol and STUN, or DERP relays.

    ** The files

    Foundations:
    - [Prelude]: scopes, tactics, hint databases; results, machine integers,
      bytes, slices, the iteration order of Go maps ([RangeOrder]), sorting and
      record updates;
    - [GoStrings], [Netip]: the functions of [strings], [strconv], [net] and
      [net/netip] that the program calls;
    - [Errors]: error values, wrapping and [errors.Is] (errors.go), [io.ReadFull].

    The client (package [tailscale]):
    - [Types]: the records of the control protocol (controlproto/types.go);
    - [Keys]: keys and sealed boxes (controlproto/key.go);
    - [NodeData]: copies, normal forms, patches, choice of the home relay (map.go);
    - [Acl]: ACL queries and their conversion to firewall rules (acl.go);
    - [Events]: the event hub (events.go);  [Options]: validation (options.go);
    - [ClientState]: the fields of [Client];  [Reconcile]: the device interface
      and the reconciliation of its peers (map.go, client.go, device.go);
    - [MapReducer]: [applyMapResponse] as the composition of its phases (map.go);
    - [Cache]: the identity cache (cache.go);
    - [Lifecycle]: start, workers, close, attachment, confirmation (client.go,
      device.go, confirmation.go);  [Invariants], [Shutdown]: what holds in every
      reachable state, and what closing and reconnecting do;
    - [Views], [Dns]: snapshots and the MagicDNS resolver (views.go, dns.go).

    The transport (package [tailnet]):
    - [Stun]: the parser of STUN messages (stun.go);
    - [Transport]: the state of [Bind], its three indexes and the operations that
      maintain them (bind.go, disco.go);  [Disco]: path discovery (disco.go);
      [Netcheck]: rounds of latency checks, STUN probes (netcheck.go, stun.go);
      [TransportOps]: the methods and loops of [Bind] (bind.go);
    - [DiscoProtocol], [TransportInv], [TransportProps]: their theorems;
    - [Derp]: frames, handshake, receive loop and manager of the relay client
      (derp.go);  [DerpInv]: its invariant.

    The control connection (package [controlproto]):
    - [Noise]: the handshake and the record layer (noise.go);  [NoiseProps]: their
      theorems;
    - [ControlClient]: the requests to the control server (client.go).

    ** How code becomes definitions

    A struct is a record, with the prefix of its fields in place of the
    receiver.  A method is a function on the state: on [World] (the client, its
    device and the trace of its outputs) or on [BindWorld] (the transport and
    the trace of its outputs).  What a method does while it holds a mutex is one
    step; work that a method hands to a goroutine, or does after it has released
    the mutex for a call into another component, is recorded as an output or is
    a definition of its own, so that the step relations ([client_step],
    [bind_step], [derp_step]) interleave them in any order.  One clock reading
    serves a whole step.  An error is a value ([result], [option error]), and a
    slice expression that could panic is a partial operation.  Pointers that are
    shared across steps are modelled as such: the region slots of the DERP
    manager live in a heap, a round of latency checks is its number.  Integers of
    the wire formats and counters wrap at their width.

    Code outside the repository is a parameter with its documented behaviour:
    [DevicePkg] and [DeviceAPI]/[DeviceLaws] (the wgo device package and its
    tracked peers; [ReliableDevice] where a theorem needs calls to succeed),
    [BoxOps]/[BoxLaws] (curve25519, NaCl box), [NoiseCrypto]/[NoiseLaws]
    (BLAKE2s, HKDF, X25519, ChaCha20-Poly1305), [CacheCodec]/[CacheCodecLaws]
    (JSON of the cache), [SliceSort] (sort.Slice, which is not stable) and
    [RangeOrder] (the order in which a [range] loop visits a map).  Each has an
    instance, which the witnesses use.  Network calls, clocks and random bytes
    are arguments.

    ** What is proved

    - Reconciliation never touches peers of other controllers, and on a reliable
      device converges to the desired peers; closing withdraws exactly the
      client's own.
    - A map response changes the network data as its specification says, and
      publishes one new revision with the events of what changed; an invariant
      holds in every reachable state of a client; a closed client stays closed.
    - The firewall rules admit exactly the packets the ACL queries allow; address
      ranges become prefixes that cover exactly the range.
    - The home relay has hysteresis and does not depend on map order; back-off and
      event queues are bounded; cache and keys survive being written and read.
    - Names resolve exactly to what the records reach, also through CNAME cycles.
    - Disco: no packet can panic the handler or change anything unless a known
      peer sealed it, and one round trip makes a path direct at both ends.
    - Transport: an invariant of all reachable states; [Send] finds a path exactly
      when there is one; endpoints can be written and read back.
    - STUN and latency checks: no datagram panics the parser, an answered probe
      yields endpoint and latency, rounds are bounded and contain the home
      region, reports are exact.
    - DERP: connections never leak; the receive loop ends and delivers exactly the
      frames' packets; the handshake authenticates to the relay that greeted.
    - Noise: both sides derive the same keys, the channel is a byte stream, nonces
      are not reused and errors are final.
    - Control client: the map stream hands over the framed responses in order;
      a channel needs a nonzero server key.

    Theorems about defects of the code are in [Acl] (a zoned range that never
    ends), [Dns] (an IPv6 value in an A record), [TransportProps] (an address and
    a disco key that lose their index entry) and [ControlClient] (an escaped
    path that is escaped twice).

    ** Bounds and fuel

    Loops that are not structural take fuel: the blocks of an address range and
    the records of a CNAME chain (bounded by the address width and the number of
    records), the STUN attributes, the frames of a DERP, map or Noise stream and
    the chunks of a Noise write (each takes at least one byte of a finite input).
    Every one of them has a theorem or lemma that the fuel suffices, so no
    statement holds for lack of it.

    ** Not modelled

    The programs under cmd/ and tests/ (flags, files and processes around the
    library), doc.go, JSON struct tags, TLS and HTTP themselves, logging, real
    time (a timer is the choice of when a step happens), and methods that return
    a constant or only forward to a connection.  The client and the transport
    are joined by the outputs of the one and the calls of the other; a step
    relation of both together is future work.  Case mapping and white space of
    strings are modelled on ASCII. *)

From Stdlib Require Import ZArith Lia Strings.Byte.
From stdpp Require Export prelude gmap strings list sorting.

#[export] Set Default Goal Selector "!".
#[export] Unset Program Cases.

(** ** Scopes, hint databases and tactics *)

Declare Scope go_scope.
Delimit Scope go_scope with go.

(** Lemmas that simplify Go library calls ([goslice]) and machine integers ([gonum]). *)
Create HintDb goslice.
Create Rewrite HintDb goslice.
Create HintDb gonum.

(** Case analysis on the scrutinee of every [match] and [if] of the goal. *)
Ltac split_matches :=
  repeat match goal with
  | |- context [match ?x with _ => _ end] => destruct x eqn:?
  end.

(** The same in the hypotheses, with the contradictory cases closed. *)
Ltac split_matches_in H :=
  repeat match type of H with
  | context [match ?x with _ => _ end] => destruct x eqn:?; simplify_eq/=
  end.

(** Turns boolean connectives and comparisons of the context into propositions. *)
Ltac bool_to_prop :=
  repeat match goal with
  | H : _ && _ = true |- _ => apply andb_true_iff in H as [? ?]
  | H : _ || _ = false |- _ => apply orb_false_iff in H as [? ?]
  | H : negb _ = true |- _ => apply negb_true_iff in H
  | H : negb _ = false |- _ => apply negb_false_iff in H
  | H : bool_decide _ = true |- _ => apply bool_decide_eq_true in H
  | H : bool_decide _ = false |- _ => apply bool_decide_eq_false in H
  | H : (_ <? _)%Z = true |- _ => apply Z.ltb_lt in H
  | H : (_ <? _)%Z = false |- _ => apply Z.ltb_ge in H
  | H : (_ <=? _)%Z = true |- _ => apply Z.leb_le in H
  | H : (_ <=? _)%Z = false |- _ => apply Z.leb_gt in H
  | H : (_ =? _)%Z = true |- _ => apply Z.eqb_eq in H
  | H : (_ =? _)%Z = false |- _ => apply Z.eqb_neq in H
  end.

(** ** Errors as values *)

(** A Go function with results [(A, error)] returns [Ok a] for a nil error and
    [Err e] otherwise. *)
Inductive result (E A : Type) : Type :=
| Ok (a : A)
| Err (e : E).
Arguments Ok {E A} a.
Arguments Err {E A} e.

Definition result_bind {E A B} (r : result E A) (k : A → result E B) : result E B :=
  match r with Ok a => k a | Err e => Err e end.

Notation "'let!' x ':=' r 'in' k" := (result_bind r (λ x, k))
  (at level 10, x pattern, r at level 100, k at level 200) : go_scope.

#[export] Instance result_eq_dec {E A} `{EqDecision E, EqDecision A} : EqDecision (result E A).
Proof. solve_decision. Defined.

(** ** Machine integers *)

(** [w]-bit unsigned wrap-around. *)
Definition uwrap (w z : Z) : Z := z mod 2 ^ w.

Lemma uwrap_small w z : (0 ≤ z < 2 ^ w)%Z → uwrap w z = z.
Proof. apply Z.mod_small. Qed.

Lemma uwrap_range w z : (0 ≤ w)%Z → (0 ≤ uwrap w z < 2 ^ w)%Z.
Proof. intros. apply Z.mod_pos_bound. lia. Qed.

#[export] Hint Resolve uwrap_range : gonum.

Definition maxInt64 : Z := 2 ^ 63 - 1.
Definition minInt64 : Z := - 2 ^ 63.

(** Signed 64-bit wrap-around, the result of [int64] arithmetic. *)
Definition iwrap64 (z : Z) : Z := (z + 2 ^ 63) mod 2 ^ 64 - 2 ^ 63.

Lemma iwrap64_small z : (minInt64 ≤ z ≤ maxInt64)%Z → iwrap64 z = z.
Proof. unfold iwrap64, minInt64, maxInt64. intros. rewrite Z.mod_small; lia. Qed.

(** ** Time *)

(** [time.Time] as nanoseconds since the zero time (January 1, year 1, UTC), so
    that [Time{}] is [0]; [time.Duration] as a signed nanosecond count. *)
Definition time_is_zero (t : Z) : bool := (t =? 0)%Z.

(** [Time.Sub] saturates at the 64-bit duration range. *)
Definition time_sub (t u : Z) : Z := Z.max minInt64 (Z.min maxInt64 (t - u)).

Definition Nanosecond : Z := 1.
Definition Millisecond : Z := 1000000.
Definition Second : Z := 1000000000.
Definition Minute : Z := 60 * Second.

Lemma time_sub_small t u :
  (minInt64 ≤ t - u ≤ maxInt64)%Z → time_sub t u = (t - u)%Z.
Proof. unfold time_sub. lia. Qed.

Lemma time_sub_refl t : time_sub t t = 0%Z.
Proof. rewrite time_sub_small; unfold minInt64, maxInt64; lia. Qed.

Lemma time_sub_mono t u t' : (t ≤ t')%Z → (time_sub t u ≤ time_sub t' u)%Z.
Proof. unfold time_sub. lia. Qed.

Lemma lxor_range w x y :
  (0 ≤ w)%Z → (0 ≤ x < 2 ^ w)%Z → (0 ≤ y < 2 ^ w)%Z → (0 ≤ Z.lxor x y < 2 ^ w)%Z.
Proof.
  intros Hw Hx Hy. assert (Z.lxor x y = Z.lxor x y mod 2 ^ w)%Z as ->; [|apply Z.mod_pos_bound; lia].
  rewrite <-Z.land_ones by lia. apply Z.bits_inj'. intros i Hi.
  rewrite Z.land_spec, Z.lxor_spec, Z.testbit_ones_nonneg by lia.
  destruct (Z.ltb_spec i w) as [|Hge]; [by rewrite andb_true_r|].
  rewrite <-(Z.mod_small x (2 ^ w)), <-(Z.mod_small y (2 ^ w)) by lia.
  by rewrite !Z.mod_pow2_bits_high by lia.
Qed.

(** ** Bytes *)

Definition b2z (b : byte) : Z := Z.of_N (Byte.to_N b).

(** [byte(z)]: conversion keeps the low eight bits. *)
Definition z2b (z : Z) : byte := default x00 (Byte.of_N (Z.to_N (uwrap 8 z))).

Lemma b2z_range b : (0 ≤ b2z b < 256)%Z.
Proof. unfold b2z. pose proof (Byte.to_N_bounded b). lia. Qed.

Lemma z2b_b2z b : z2b (b2z b) = b.
Proof.
  unfold z2b. rewrite uwrap_small by (pose proof (b2z_range b); lia).
  unfold b2z. by rewrite N2Z.id, Byte.of_to_N.
Qed.

Lemma b2z_z2b z : b2z (z2b z) = uwrap 8 z.
Proof.
  unfold z2b. pose proof (uwrap_range 8 z ltac:(lia)) as Hr.
  destruct (Byte.of_N _) as [b|] eqn:E.
  - apply Byte.to_of_N in E. unfold b2z; cbn. rewrite E. lia.
  - apply Byte.of_N_None_iff in E. lia.
Qed.

Lemma b2z_inj a b : b2z a = b2z b → a = b.
Proof. intros H. by rewrite <-(z2b_b2z a), H, z2b_b2z. Qed.

#[export] Instance byte_eq_dec : EqDecision byte := Byte.byte_eq_dec.

#[export] Program Instance byte_countable : Countable byte :=
  inj_countable Byte.to_N Byte.of_N _.
Next Obligation. apply Byte.of_to_N. Qed.

#[export] Instance byte_inhabited : Inhabited byte := populate x00.

(** [binary.BigEndian]: [be_decode] is [Uint16], [Uint32], [Uint64] on the bytes
    of a field, [be_encode n] is the [PutUint] of an [n]-byte field. *)
Definition be_decode (l : list byte) : Z :=
  fold_left (λ acc b, acc * 256 + b2z b)%Z l 0%Z.

Fixpoint le_encode (n : nat) (z : Z) : list byte :=
  match n with
  | O => []
  | S n => z2b z :: le_encode n (z / 256)
  end.

Definition be_encode (n : nat) (z : Z) : list byte := reverse (le_encode n z).

(** [binary.LittleEndian]. *)
Fixpoint le_decode (l : list byte) : Z :=
  match l with
  | [] => 0
  | b :: l => b2z b + 256 * le_decode l
  end.

Lemma length_le_encode n z : length (le_encode n z) = n.
Proof. revert z; induction n; intros; simpl; auto. Qed.

Lemma length_be_encode n z : length (be_encode n z) = n.
Proof. unfold be_encode. by rewrite length_reverse, length_le_encode. Qed.

Lemma le_decode_range l : (0 ≤ le_decode l < 256 ^ Z.of_nat (length l))%Z.
Proof.
  induction l as [|b l IH]; cbn [le_decode length].
  - lia.
  - rewrite Nat2Z.inj_succ, Z.pow_succ_r by lia. pose proof (b2z_range b). lia.
Qed.

Lemma le_decode_encode n z :
  (0 ≤ z < 256 ^ Z.of_nat n)%Z → le_decode (le_encode n z) = z.
Proof.
  revert z; induction n as [|n IH]; intros z Hz.
  - cbn in *. lia.
  - rewrite Nat2Z.inj_succ, Z.pow_succ_r in Hz by lia. cbn [le_encode le_decode].
    rewrite IH; [|split; [apply Z.div_pos|apply Z.div_lt_upper_bound]; lia].
    rewrite b2z_z2b. unfold uwrap. change (2 ^ 8)%Z with 256%Z.
    pose proof (Z.div_mod z 256 ltac:(lia)). lia.
Qed.

Lemma le_encode_decode l : le_encode (length l) (le_decode l) = l.
Proof.
  induction l as [|b l IH]; cbn [le_encode le_decode length]; [done|].
  pose proof (b2z_range b). f_equal.
  - rewrite <-(z2b_b2z b) at 2. unfold z2b, uwrap. do 3 f_equal.
    change (2 ^ 8)%Z with 256%Z. rewrite (Z.mul_comm 256), Z.mod_add by lia.
    done.
  - rewrite (Z.mul_comm 256), Z.div_add, Z.div_small by lia. by rewrite Z.add_0_l.
Qed.

Lemma be_decode_app_gen l z :
  fold_left (λ acc b, acc * 256 + b2z b)%Z l z = (z * 256 ^ Z.of_nat (length l) + be_decode l)%Z.
Proof.
  unfold be_decode. revert z. induction l as [|b l IH]; intros z; cbn [fold_left length].
  - lia.
  - rewrite IH, (IH (0 * 256 + b2z b)%Z), Nat2Z.inj_succ, Z.pow_succ_r by lia. lia.
Qed.

Lemma be_decode_reverse l : be_decode (reverse l) = le_decode l.
Proof.
  induction l as [|b l IH]; [done|].
  rewrite reverse_cons. unfold be_decode in *. rewrite fold_left_app. cbn [fold_left le_decode].
  rewrite IH. lia.
Qed.

Lemma be_decode_range l : (0 ≤ be_decode l < 256 ^ Z.of_nat (length l))%Z.
Proof.
  rewrite <-(reverse_involutive l), be_decode_reverse, length_reverse. apply le_decode_range.
Qed.

Lemma be_decode_encode n z :
  (0 ≤ z < 256 ^ Z.of_nat n)%Z → be_decode (be_encode n z) = z.
Proof. intros. unfold be_encode. rewrite be_decode_reverse. by apply le_decode_encode. Qed.

Lemma be_encode_decode l : be_encode (length l) (be_decode l) = l.
Proof.
  unfold be_encode. rewrite <-(reverse_involutive l), be_decode_reverse, length_reverse.
  by rewrite le_encode_decode.
Qed.

#[export] Hint Rewrite length_le_encode length_be_encode @length_app @length_take @length_drop
  @length_replicate : goslice.

(** ** Fixed-size byte arrays *)

(** [[n]byte]: a byte list with its length in the type, so that map keys, keys
    and transaction ids are compared as Go compares arrays. *)
Definition array (n : nat) : Type := dsig (λ l : list byte, length l = n).

Definition arr_bytes {n} (a : array n) : list byte := `a.

(** [copy(a[:], l)] into a fresh zero array: short input leaves zero bytes. *)
Definition to_array (n : nat) (l : list byte) : array n.
Proof.
  refine (dexist (take n (l ++ replicate n x00)) _).
  abstract (rewrite length_take, length_app, length_replicate; lia).
Defined.

Definition zero_array (n : nat) : array n := to_array n [].

Lemma arr_eq {n} (a b : array n) : arr_bytes a = arr_bytes b → a = b.
Proof. apply dsig_eq. Qed.

Lemma arr_length {n} (a : array n) : length (arr_bytes a) = n.
Proof. exact (proj2_dsig a). Qed.

Lemma arr_bytes_to_array n l : length l = n → arr_bytes (to_array n l) = l.
Proof. intros <-. unfold arr_bytes, to_array; cbn. by rewrite take_app_length. Qed.

Lemma to_array_arr_bytes n (a : array n) : to_array n (arr_bytes a) = a.
Proof. apply arr_eq, arr_bytes_to_array, arr_length. Qed.

#[export] Instance array_eq_dec n : EqDecision (array n).
Proof. unfold array, dsig. apply _. Defined.

#[export] Program Instance array_countable n : Countable (array n) :=
  inj_countable arr_bytes (λ l, Some (to_array n l)) _.
Next Obligation. intros. cbn. by rewrite to_array_arr_bytes. Qed.

#[export] Instance array_inhabited n : Inhabited (array n) := populate (zero_array n).

Definition arr_is_zero {n} (a : array n) : bool := bool_decide (a = zero_array n).

(** ** Slices *)

(** A Go slice is nil or a list: [reflect.DeepEqual] and nil tests tell a nil
    slice from an empty one, so the model keeps the difference. *)
Abbreviation slice A := (option (list A)).

(** The elements a [range] loop visits. *)
Definition elems {A} (s : slice A) : list A := default [] s.

(** [append(s, l...)]: stays nil when both are empty. *)
Definition append {A} (s : slice A) (l : list A) : slice A :=
  match s, l with
  | None, [] => None
  | _, _ => Some (elems s ++ l)
  end.

(** [l[i:j]] panics ([None]) outside [0 <= i <= j <= len(l)]. *)
Definition subslice {A} (i j : nat) (l : list A) : option (list A) :=
  if bool_decide (i ≤ j ∧ j ≤ length l) then Some (take (j - i) (drop i l)) else None.

Lemma subslice_Some {A} i j (l : list A) :
  i ≤ j → j ≤ length l → subslice i j l = Some (take (j - i) (drop i l)).
Proof. intros. unfold subslice. by rewrite bool_decide_true. Qed.

Lemma elems_append {A} (s : slice A) l : elems (append s l) = elems s ++ l.
Proof. by destruct s, l. Qed.

#[export] Hint Rewrite @elems_append : goslice.

Lemma elem_of_snoc {A} (x y : A) l : x ∈ l ++ [y] ↔ x ∈ l ∨ x = y.
Proof. set_solver. Qed.

(** ** [slices.Compact], [slices.Sort] and duplicate removal *)

Section Compact.
Context {A : Type}.

(** [slices.CompactFunc] drops an element equal to its predecessor. *)
Fixpoint compact_from (eqf : A → A → bool) (prev : A) (l : list A) : list A :=
  match l with
  | [] => []
  | x :: l => if eqf x prev then compact_from eqf x l else x :: compact_from eqf x l
  end.

Definition compact_func (eqf : A → A → bool) (l : list A) : list A :=
  match l with [] => [] | x :: l => x :: compact_from eqf x l end.

Context `{EqDecision A}.

(** [slices.Compact]. *)
Definition compact (l : list A) : list A := compact_func (λ x y, bool_decide (x = y)) l.

Lemma elem_of_compact_from (x prev : A) l :
  x ∈ prev :: compact_from (λ x y, bool_decide (x = y)) prev l ↔ x ∈ prev :: l.
Proof.
  revert prev. induction l as [|y l IH]; intros prev; cbn; [done|].
  case_bool_decide; subst.
  - rewrite IH. set_solver.
  - specialize (IH y). set_solver.
Qed.

Lemma elem_of_compact (x : A) l : x ∈ compact l ↔ x ∈ l.
Proof. destruct l; [done|]. apply elem_of_compact_from. Qed.

Lemma compact_nil_iff (l : list A) : compact l = [] ↔ l = [].
Proof. by destruct l. Qed.

Lemma compact_from_sublist (prev : A) l :
  compact_from (λ x y, bool_decide (x = y)) prev l `sublist_of` l.
Proof.
  revert prev. induction l as [|y l IH]; intros prev; cbn; [done|].
  case_bool_decide; [by apply sublist_cons|by apply sublist_skip].
Qed.

(** On a sorted list compaction removes every duplicate. *)
Lemma compact_NoDup (R : relation A) `{!Transitive R, !AntiSymm (=) R} l :
  StronglySorted R l → NoDup (compact l).
Proof.
  destruct l as [|x l]; [constructor|]. unfold compact; cbn.
  revert x. induction l as [|y l IH]; intros x Hs; cbn.
  { repeat constructor. set_solver. }
  apply StronglySorted_cons in Hs as [Hx Hs].
  case_bool_decide; subst; [by apply IH|].
  apply NoDup_cons; split; [|by apply IH].
  intros Hin. rewrite elem_of_compact_from, elem_of_cons in Hin.
  destruct Hin as [->|Hin]; [done|].
  apply StronglySorted_cons in Hs as [Hy Hs].
  rewrite Forall_forall in Hx, Hy.
  apply H. apply (anti_symm R); [by apply Hy|apply Hx; set_solver].
Qed.

Lemma compact_sublist (l : list A) : compact l `sublist_of` l.
Proof. destruct l as [|x l]; [done|]. unfold compact; cbn. apply sublist_skip, compact_from_sublist. Qed.

Lemma compact_sorted (R : relation A) l : StronglySorted R l → StronglySorted R (compact l).
Proof.
  intros Hs. generalize (compact_sublist l). generalize (compact l). intros k Hk. revert Hs.
  induction Hk as [|x k l Hk IH|x k l Hk IH]; intros Hs; [done| |].
  - apply StronglySorted_cons in Hs as [Hx Hs]. constructor; [by apply IH|].
    rewrite Forall_forall in *. intros y Hy. apply Hx. by eapply elem_of_sublist.
  - apply StronglySorted_cons in Hs as [_ Hs]. by apply IH.
Qed.

(** The [seen] map of the source's deduplication loops. *)
Fixpoint dedup_from (seen : list A) (l : list A) : list A :=
  match l with
  | [] => []
  | x :: l =>
      if bool_decide (x ∈ seen) then dedup_from seen l else x :: dedup_from (x :: seen) l
  end.

Definition dedup (l : list A) : list A := dedup_from [] l.

Lemma elem_of_dedup_from x seen l : x ∈ dedup_from seen l ↔ x ∈ l ∧ x ∉ seen.
Proof.
  revert seen. induction l as [|y l IH]; intros seen; cbn; [set_solver|].
  case_bool_decide; [rewrite IH; set_solver|].
  rewrite !elem_of_cons, IH.
  destruct (decide (x = y)); set_solver.
Qed.

Lemma elem_of_dedup x l : x ∈ dedup l ↔ x ∈ l.
Proof. unfold dedup. rewrite elem_of_dedup_from. set_solver. Qed.

Lemma NoDup_dedup_from seen l : NoDup (dedup_from seen l).
Proof.
  revert seen. induction l as [|y l IH]; intros seen; cbn; [constructor|].
  case_bool_decide; [done|]. constructor; [|done].
  rewrite elem_of_dedup_from. set_solver.
Qed.

Lemma NoDup_dedup l : NoDup (dedup l).
Proof. apply NoDup_dedup_from. Qed.

Lemma dedup_from_id seen l :
  NoDup l → (∀ x, x ∈ l → x ∉ seen) → dedup_from seen l = l.
Proof.
  revert seen. induction l as [|y l IH]; intros seen Hnd Hs; cbn; [done|].
  apply NoDup_cons in Hnd as [Hy Hnd].
  rewrite bool_decide_false by (apply Hs; set_solver).
  f_equal. apply IH; [done|]. set_solver.
Qed.

Lemma dedup_id l : NoDup l → dedup l = l.
Proof. intros. apply dedup_from_id; set_solver. Qed.
End Compact.

#[export] Hint Resolve NoDup_dedup : goslice.

(** A Go three-way comparison function [cmp] used as an order. *)
Definition cmp_le {A} (cmp : A → A → Z) : relation A := λ x y, (cmp x y ≤ 0)%Z.

#[export] Instance cmp_le_dec {A} (cmp : A → A → Z) x y : Decision (cmp_le cmp x y).
Proof. unfold cmp_le. apply _. Defined.

(** [slices.SortFunc(l, cmp)]; with a total order the result is the only sorted
    permutation, whichever algorithm computes it. *)
Definition sort_func {A} (cmp : A → A → Z) (l : list A) : list A := merge_sort (cmp_le cmp) l.

Lemma sort_func_perm {A} (cmp : A → A → Z) l : sort_func cmp l ≡ₚ l.
Proof. apply merge_sort_Permutation. Qed.

Lemma elem_of_sort_func {A} (cmp : A → A → Z) x l : x ∈ sort_func cmp l ↔ x ∈ l.
Proof. by rewrite sort_func_perm. Qed.

Lemma sort_func_sorted {A} (cmp : A → A → Z) `{!Total (cmp_le cmp), !Transitive (cmp_le cmp)} l :
  StronglySorted (cmp_le cmp) (sort_func cmp l).
Proof. apply Sorted_StronglySorted; [apply _|]. apply Sorted_merge_sort; apply _. Qed.

Lemma sort_func_unique {A} (cmp : A → A → Z)
    `{!Total (cmp_le cmp), !Transitive (cmp_le cmp), !AntiSymm (=) (cmp_le cmp)} l l' :
  l ≡ₚ l' → sort_func cmp l = sort_func cmp l'.
Proof.
  intros Hp. apply (StronglySorted_unique (cmp_le cmp) _ _ (sort_func_sorted cmp l)
    (sort_func_sorted cmp l')).
  by rewrite !sort_func_perm.
Qed.

(** [cmp.Compare] on integers. *)
Definition zcmp (x y : Z) : Z := match (x ?= y)%Z with Lt => -1 | Eq => 0 | Gt => 1 end.

Lemma zcmp_le x y : (zcmp x y ≤ 0)%Z ↔ (x ≤ y)%Z.
Proof. unfold zcmp. destruct (Z.compare_spec x y); lia. Qed.

Lemma zcmp_eq x y : zcmp x y = 0%Z ↔ x = y.
Proof. unfold zcmp. destruct (Z.compare_spec x y); lia. Qed.

Lemma zcmp_lt x y : (zcmp x y < 0)%Z ↔ (x < y)%Z.
Proof. unfold zcmp. destruct (Z.compare_spec x y); lia. Qed.

Lemma zcmp_refl x : zcmp x x = 0%Z.
Proof. by apply zcmp_eq. Qed.

#[export] Instance zcmp_total : Total (cmp_le zcmp).
Proof. intros x y. unfold cmp_le. rewrite !zcmp_le. lia. Qed.
#[export] Instance zcmp_trans : Transitive (cmp_le zcmp).
Proof. intros x y z. unfold cmp_le. rewrite !zcmp_le. lia. Qed.
#[export] Instance zcmp_antisymm : AntiSymm (=) (cmp_le zcmp).
Proof. intros x y. unfold cmp_le. rewrite !zcmp_le. lia. Qed.

(** Byte-wise string comparison, as [<] on Go strings. *)
Definition scmp (x y : string) : Z :=
  match String.compare x y with Lt => -1 | Eq => 0 | Gt => 1 end.

Lemma scmp_le x y : (scmp x y ≤ 0)%Z ↔ (x ≤ y)%string.
Proof.
  unfold scmp, String.le, String.leb. destruct (String.compare x y); cbn; split; try done; lia.
Qed.

Lemma scmp_refl x : scmp x x = 0%Z.
Proof.
  unfold scmp. induction x as [|c x IH]; cbn; [done|].
  unfold Ascii.compare. by rewrite N.compare_refl.
Qed.

Lemma scmp_eq x y : scmp x y = 0%Z ↔ x = y.
Proof.
  split; [|intros ->; apply scmp_refl].
  unfold scmp. destruct (String.compare x y) eqn:E; try done.
  intros _. by apply String.compare_eq_iff.
Qed.

#[export] Instance scmp_total : Total (cmp_le scmp).
Proof. intros x y. unfold cmp_le. rewrite !scmp_le. apply (total String.le). Qed.
#[export] Instance scmp_trans : Transitive (cmp_le scmp).
Proof. intros x y z. unfold cmp_le. rewrite !scmp_le. apply transitivity. Qed.
#[export] Instance scmp_antisymm : AntiSymm (=) (cmp_le scmp).
Proof. intros x y. unfold cmp_le. rewrite !scmp_le. apply (anti_symm String.le). Qed.

(** [slices.Sort] on strings and integers. *)
Definition sort_strings : list string → list string := sort_func scmp.
Definition sort_ints : list Z → list Z := sort_func zcmp.

(** ** Map iteration *)

(** A Go [range] over a map visits every entry once in an unspecified order.
    An operation that depends on that order takes the visited entries as an
    argument [order] with [range_of m order]. *)
Definition range_of `{Countable K} {V} (m : gmap K V) (order : list (K * V)) : Prop :=
  order ≡ₚ map_to_list m.

Lemma range_of_lookup `{Countable K} {V} (m : gmap K V) order k v :
  range_of m order → (k, v) ∈ order ↔ m !! k = Some v.
Proof. intros ->. apply elem_of_map_to_list. Qed.

Lemma range_of_NoDup `{Countable K} {V} (m : gmap K V) order :
  range_of m order → NoDup order.*1.
Proof. intros Hp. rewrite Hp. apply NoDup_fst_map_to_list. Qed.

Lemma range_of_refl `{Countable K} {V} (m : gmap K V) : range_of m (map_to_list m).
Proof. unfold range_of. reflexivity. Qed.

#[export] Hint Resolve range_of_refl range_of_NoDup : goslice.

(** The order in which a program ranges over its maps.  [range site m] is the
    order of the loop numbered [site] over [m]; theorems quantify over every
    instance, so they hold for each order Go may choose. *)
Class RangeOrder := {
  range (site : nat) {K V : Type} `{Countable K} (m : gmap K V) : list (K * V);
  range_ok site {K V : Type} `{Countable K} (m : gmap K V) : range_of m (range site m)
}.

(** One such order, to evaluate examples. *)
Definition canonical_order : RangeOrder := {|
  range := λ _ _ _ _ _ m, map_to_list m;
  range_ok := λ _ _ _ _ _ m, range_of_refl m |}.

Lemma elem_of_range `{RangeOrder} site `{Countable K} {V} (m : gmap K V) k v :
  (k, v) ∈ range site m ↔ m !! k = Some v.
Proof. apply range_of_lookup, range_ok. Qed.

Lemma NoDup_range `{RangeOrder} site `{Countable K} {V} (m : gmap K V) : NoDup (range site m).*1.
Proof. eapply range_of_NoDup, range_ok. Qed.

(** ** Setting bits of big-endian byte lists *)

Lemma be_decode_app l l' :
  be_decode (l ++ l') = (be_decode l * 256 ^ Z.of_nat (length l') + be_decode l')%Z.
Proof. unfold be_decode at 1. rewrite fold_left_app. apply be_decode_app_gen. Qed.

Lemma be_decode_split l b l' :
  be_decode (l ++ b :: l') =
  ((be_decode l * 256 + b2z b) * 2 ^ (8 * Z.of_nat (length l')) + be_decode l')%Z.
Proof.
  rewrite be_decode_app. cbn [length]. rewrite Nat2Z.inj_succ, Z.pow_succ_r by lia.
  change (b :: l') with ([b] ++ l'). rewrite be_decode_app.
  rewrite (Z.pow_mul_r 2 8) by lia. change (be_decode [b]) with (b2z b). change (2 ^ 8)%Z with 256%Z. lia.
Qed.

Lemma lor_pow2 x j :
  (0 ≤ j)%Z → Z.lor x (2 ^ j) = (x + (if Z.testbit x j then 0 else 2 ^ j))%Z.
Proof.
  intros Hj. destruct (Z.testbit x j) eqn:E.
  - rewrite Z.add_0_r. apply Z.bits_inj'. intros i Hi. rewrite Z.lor_spec, Z.pow2_bits_eqb by lia.
    destruct (Z.eqb_spec j i) as [->|]; [by rewrite E|by rewrite orb_false_r].
  - assert (Z.land x (2 ^ j) = 0%Z) as Hd; [|by rewrite Z.add_nocarry_lxor, Z.lxor_lor].
    apply Z.bits_inj'. intros i Hi. rewrite Z.land_spec, Z.bits_0, Z.pow2_bits_eqb by lia.
    destruct (Z.eqb_spec j i) as [->|]; [by rewrite E|by rewrite andb_false_r].
Qed.

Lemma lor_ones_succ m : (0 ≤ m)%Z → Z.lor (2 ^ m) (Z.ones m) = Z.ones (m + 1).
Proof.
  intros Hm. apply Z.bits_inj'. intros i Hi.
  rewrite Z.lor_spec, Z.pow2_bits_eqb, !Z.testbit_ones_nonneg by lia.
  destruct (Z.eqb_spec m i), (Z.ltb_spec i m), (Z.ltb_spec i (m + 1)); cbn; lia || done.
Qed.

(** Setting bit [t] of one byte sets the corresponding bit of the whole number. *)
Lemma be_decode_set_bit l b l' t :
  (0 ≤ t < 8)%Z →
  be_decode (l ++ z2b (Z.lor (b2z b) (2 ^ t)) :: l') =
  Z.lor (be_decode (l ++ b :: l')) (2 ^ (8 * Z.of_nat (length l') + t)).
Proof.
  intros Ht. pose proof (b2z_range b) as Hb.
  assert (0 ≤ Z.lor (b2z b) (2 ^ t) < 2 ^ 8)%Z as Hr.
  { split; [apply Z.lor_nonneg; lia|]. apply Z.log2_lt_cancel.
    rewrite Z.log2_lor, Z.log2_pow2 by lia.
    pose proof (Z.log2_le_mono (b2z b) 255 ltac:(lia)) as Hlog.
    change (Z.log2 255) with 7%Z in Hlog.
    change (Z.log2 (2 ^ 8))%Z with 8%Z. lia. }
  rewrite !be_decode_split, b2z_z2b, (uwrap_small 8 _ Hr), !lor_pow2 by lia.
  pose proof (be_decode_range l') as Hl'. change 256%Z with (2 ^ 8)%Z in Hl'.
  rewrite <-(Z.pow_mul_r 2 8) in Hl' by lia.
  set (n := (8 * Z.of_nat (length l'))%Z) in *.
  assert (Z.testbit ((be_decode l * 256 + b2z b) * 2 ^ n + be_decode l') (n + t) =
          Z.testbit (b2z b) t) as ->.
  { rewrite Z.add_comm, (Z.add_comm n t), <-Z.div_pow2_bits, Z.div_add, Z.div_small by lia.
    rewrite Z.add_0_l, <-(Z.mod_pow2_bits_low _ 8) by lia. f_equal.
    change (2 ^ 8)%Z with 256%Z. rewrite Z.add_comm, Z.mod_add, Z.mod_small by lia. done. }
  rewrite Z.pow_add_r by lia. destruct (Z.testbit (b2z b) t); lia.
Qed.

(** ** Assignment to record fields *)

(** [r <| f := v |>] is [r] after the Go assignment [r.f = v].  [Fields R]
    rebuilds a record from its projections; the updater of a field takes the
    record apart and replaces that one field. *)
Class Fields (R : Type) := rebuild : R → R.
Class Updater {R T : Type} (f : R → T) := update : T → R → R.
Arguments update {R T} f {_} v !r /.

(** The goal of [derive_updater] keeps the record it has taken apart. *)
Definition type_of {R : Type} (_ : R) : Type := R.

Ltac derive_updater :=
  lazymatch goal with
  | |- @Updater ?R ?T ?f =>
      let F := constr:(ltac:(typeclasses eauto) : Fields R) in
      let body := eval cbv beta delta [rebuild] in (@rebuild R F) in
      let body := eval hnf in body in
      lazymatch eval pattern f in body with
      | ?abs _ =>
          let v := fresh "v" in let r := fresh "r" in
          intros v r; change (type_of r); case r; intros;
          lazymatch goal with
          | |- type_of ?record =>
              let u := eval cbn in (abs (λ _ : R, v) record) in exact u
          end
      end
  end.

#[export] Hint Extern 0 (Updater _) => derive_updater : typeclass_instances.

Notation "r <| f := v |>" := (update f v r)
  (at level 12, left associativity, f at next level, v at level 200, format "r  <| f  :=  v |>") : go_scope.
Open Scope go_scope.

(** ** Conditional assignments *)

(** [when c f s] is the state after [if c { s = f(s) }], [on_some o f s] after
    [if o != nil { s = f(o, s) }]. *)
Definition when {S} (c : bool) (f : S → S) (s : S) : S := if c then f s else s.

Definition on_some {A S} (o : option A) (f : A → S → S) (s : S) : S :=
  match o with Some a => f a s | None => s end.

Lemma when_preserves {S} (P : S → Prop) c f s : P s → (c = true → P s → P (f s)) → P (when c f s).
Proof. destruct c; cbn; auto. Qed.

Lemma on_some_preserves {A S} (P : S → Prop) (o : option A) f s :
  P s → (∀ a, o = Some a → P s → P (f a s)) → P (on_some o f s).
Proof. destruct o; cbn; auto. Qed.

Lemma foldl_preserves {A S} (P : S → Prop) (f : S → A → S) (l : list A) s :
  P s → (∀ a s, a ∈ l → P s → P (f s a)) → P (foldl f s l).
Proof.
  revert s. induction l as [|a l IH]; intros s Hs Hf; cbn; [done|].
  apply IH; [apply Hf; [left|done]|]. intros. apply Hf; [by right|done].
Qed.

(** A loop whose iterations each work on one key: [I] holds of the state until
    the iteration of key [k], which establishes [J], and the others keep both. *)
Lemma foldl_key {A K S} (key : A → K) (step : S → A → S) (I J : S → Prop) (k : K) (l : list A) s :
  NoDup (key <$> l) → I s →
  (∀ a s, a ∈ l → key a ≠ k → I s → I (step s a)) →
  (∀ a s, a ∈ l → key a = k → I s → J (step s a)) →
  (∀ a s, a ∈ l → key a ≠ k → J s → J (step s a)) →
  (k ∈ key <$> l → J (foldl step s l)) ∧ (k ∉ key <$> l → I (foldl step s l)).
Proof.
  revert s. induction l as [|a l IH]; intros s Hnd HI Hf Hk Hj; cbn.
  { split; [set_solver|done]. }
  apply NoDup_cons in Hnd as [Ha Hnd].
  assert (∀ b, b ∈ l → b ∈ a :: l) as Hsub by (intros; by right).
  split; intros Hin.
  - apply elem_of_cons in Hin as [->|Hin].
    + apply (foldl_preserves J); [apply Hk; [by left|done..]|].
      intros b s' Hb. apply Hj; [auto|]. intros E. apply Ha. rewrite <-E. by apply list_elem_of_fmap_2.
    + apply IH; eauto. apply Hf; [by left| |done]. by intros <-.
  - apply not_elem_of_cons in Hin as [? Hin]. apply IH; eauto. apply Hf; [by left|congruence|done].
Qed.
