(* ===== verification/GoStrings.v ===== *)
(** * The Go string functions the program calls

    Go strings are byte sequences; the model uses [string], whose characters
    are bytes.  [strings.ToLower], [ToUpper], [TrimSpace] and [unicode.IsSpace]
    are modelled on ASCII (every byte above 127 is left alone), which is what
    host names, DNS record types and keys are made of. *)

From Stdlib Require Import ZArith Lia Ascii String Strings.Byte.
From stdpp Require Import pretty.
From S2P Require Export Prelude.

Local Open Scope string_scope.

(** ** Characters *)

Definition chr (c : ascii) : Z := Z.of_N (N_of_ascii c).

Definition is_digit (c : ascii) : bool := (48 <=? chr c)%Z && (chr c <=? 57)%Z.

Definition to_lower_char (c : ascii) : ascii :=
  if (65 <=? chr c)%Z && (chr c <=? 90)%Z then ascii_of_N (N_of_ascii c + 32) else c.

Definition to_upper_char (c : ascii) : ascii :=
  if (97 <=? chr c)%Z && (chr c <=? 122)%Z then ascii_of_N (N_of_ascii c - 32) else c.

(** [unicode.IsSpace] on ASCII: tab, newline, vertical tab, form feed, carriage
    return and space. *)
Definition is_space (c : ascii) : bool :=
  ((9 <=? chr c) && (chr c <=? 13) || (chr c =? 32))%Z.

(** ** Searching and cutting *)

Fixpoint string_map (f : ascii → ascii) (s : string) : string :=
  match s with
  | EmptyString => EmptyString
  | String c s => String (f c) (string_map f s)
  end.

Definition ToLower : string → string := string_map to_lower_char.
Definition ToUpper : string → string := string_map to_upper_char.

(** [strings.Contains(s, sep)] and [strings.Cut(s, sep)] for a one-byte [sep]. *)
Fixpoint ContainsChar (sep : ascii) (s : string) : bool :=
  match s with
  | EmptyString => false
  | String c s => bool_decide (c = sep) || ContainsChar sep s
  end.

Fixpoint CutChar (sep : ascii) (s : string) : option (string * string) :=
  match s with
  | EmptyString => None
  | String c s =>
      if bool_decide (c = sep) then Some (EmptyString, s)
      else match CutChar sep s with
           | Some (before, after) => Some (String c before, after)
           | None => None
           end
  end.

(** Split at the last occurrence, as [LastIndexByteString] does. *)
Fixpoint CutLastChar (sep : ascii) (s : string) : option (string * string) :=
  match s with
  | EmptyString => None
  | String c s =>
      match CutLastChar sep s with
      | Some (before, after) => Some (String c before, after)
      | None => if bool_decide (c = sep) then Some (EmptyString, s) else None
      end
  end.

Definition HasPrefix (s p : string) : bool := String.prefix p s.

(** [strings.CutPrefix]. *)
Fixpoint CutPrefix (s p : string) : option string :=
  match p, s with
  | EmptyString, _ => Some s
  | String a p, String b s => if bool_decide (a = b) then CutPrefix s p else None
  | String _ _, EmptyString => None
  end.

Fixpoint TrimLeft (f : ascii → bool) (s : string) : string :=
  match s with
  | EmptyString => EmptyString
  | String c s' => if f c then TrimLeft f s' else s
  end.

Fixpoint TrimRight (f : ascii → bool) (s : string) : string :=
  match s with
  | EmptyString => EmptyString
  | String c s =>
      match TrimRight f s with
      | EmptyString => if f c then EmptyString else String c EmptyString
      | t => String c t
      end
  end.

Definition TrimSpace (s : string) : string := TrimRight is_space (TrimLeft is_space s).

(** The last byte, for [strings.HasSuffix(s, ".")]. *)
Fixpoint last_char (s : string) : option ascii :=
  match s with
  | EmptyString => None
  | String c EmptyString => Some c
  | String _ s => last_char s
  end.

Definition HasSuffixChar (c : ascii) (s : string) : bool := bool_decide (last_char s = Some c).

Lemma string_app_cons c s t : String c s ++ t = String c (s ++ t).
Proof. done. Qed.

Lemma string_app_nil_l s : "" ++ s = s.
Proof. done. Qed.

Lemma string_app_nil_r s : s ++ "" = s.
Proof. induction s as [|c s IH]; [done|]. by rewrite string_app_cons, IH. Qed.

Lemma string_app_assoc s t u : (s ++ t) ++ u = s ++ (t ++ u).
Proof. induction s as [|c s IH]; [done|]. by rewrite !string_app_cons, IH. Qed.

Lemma CutPrefix_app p s : CutPrefix (p ++ s) p = Some s.
Proof.
  induction p as [|c p IH]; [by destruct s|].
  rewrite string_app_cons. cbn. by rewrite bool_decide_true.
Qed.

Lemma CutPrefix_Some s p rest : CutPrefix s p = Some rest → s = p ++ rest.
Proof.
  revert s. induction p as [|c p IH]; intros s; cbn; [by destruct s; intros [= <-]|].
  destruct s as [|d s]; cbn; [done|]. case_bool_decide; [|done]. intros ?%IH. by subst.
Qed.

Lemma CutPrefix_None s p : CutPrefix s p = None → HasPrefix s p = false.
Proof.
  unfold HasPrefix. revert s. induction p as [|c p IH]; intros s; cbn; [by destruct s|].
  destruct s as [|d s]; cbn; [done|]. case_bool_decide as E; subst.
  - intros H. destruct (ascii_dec d d); [auto|done].
  - intros _. by destruct (ascii_dec c d).
Qed.

Lemma ContainsChar_app sep s t :
  ContainsChar sep (s ++ t) = ContainsChar sep s || ContainsChar sep t.
Proof.
  induction s as [|c s IH]; [done|].
  rewrite string_app_cons. cbn. by rewrite IH, orb_assoc.
Qed.

Lemma CutChar_None sep s : CutChar sep s = None ↔ ContainsChar sep s = false.
Proof.
  induction s as [|c s IH]; cbn; [done|].
  case_bool_decide; cbn; [done|]. rewrite <-IH. by destruct (CutChar sep s) as [[]|].
Qed.

Lemma CutChar_Some sep s before after :
  CutChar sep s = Some (before, after) →
  s = before ++ String sep after ∧ ContainsChar sep before = false.
Proof.
  revert before. induction s as [|c s IH]; intros before; cbn; [done|].
  case_bool_decide; [by intros [= <- <-]; subst|].
  destruct (CutChar sep s) as [[b a]|]; [|done]. intros [= <- <-].
  destruct (IH b eq_refl) as [-> Hb]. cbn. rewrite Hb, bool_decide_false; auto.
Qed.

Lemma CutChar_app sep before after :
  ContainsChar sep before = false →
  CutChar sep (before ++ String sep after) = Some (before, after).
Proof.
  induction before as [|c b IH].
  - intros _. rewrite string_app_nil_l. cbn. by rewrite bool_decide_true.
  - rewrite string_app_cons. cbn. intros [Hc Hb]%orb_false_iff. by rewrite Hc, IH.
Qed.

(** ** Decimal numbers *)

(** [strconv.Itoa]. *)
Definition Itoa (z : Z) : string := pretty z.

Definition digit_val (c : ascii) : Z := (chr c - 48)%Z.

Fixpoint parse_digits (acc : Z) (s : string) : option Z :=
  match s with
  | EmptyString => Some acc
  | String c s => if is_digit c then parse_digits (acc * 10 + digit_val c)%Z s else None
  end.

(** [strconv.ParseInt(s, 10, 64)] and [strconv.Atoi]: optional sign, at least
    one digit, and a range error outside 64 bits.  On a range error [ParseInt]
    also returns the nearest bound, which [homeDERP] uses; [ParseInt_val] is
    that first result. *)
Definition parse_signed (s : string) : option Z :=
  match s with
  | EmptyString => None
  | String "-" EmptyString | String "+" EmptyString => None
  | String "-" s => Z.opp <$> parse_digits 0 s
  | String "+" s => parse_digits 0 s
  | _ => parse_digits 0 s
  end.

Definition Atoi (s : string) : option Z :=
  match parse_signed s with
  | Some z => if (minInt64 <=? z)%Z && (z <=? maxInt64)%Z then Some z else None
  | None => None
  end.

Definition ParseInt_val (s : string) : Z :=
  match parse_signed s with
  | Some z => Z.max minInt64 (Z.min maxInt64 z)
  | None => 0
  end.

(** ** Byte strings and hexadecimal *)

(** [string(b)] and [[]byte(s)]. *)
Definition bytes_of_string : string → list byte := String.list_byte_of_string.
Definition string_of_bytes : list byte → string := String.string_of_list_byte.

Lemma string_of_bytes_of_string s : string_of_bytes (bytes_of_string s) = s.
Proof. apply String.string_of_list_byte_of_string. Qed.

Lemma bytes_of_string_of_bytes l : bytes_of_string (string_of_bytes l) = l.
Proof. apply String.list_byte_of_string_of_list_byte. Qed.

Definition hex_digit (z : Z) : ascii :=
  ascii_of_N (Z.to_N (if (z <? 10)%Z then 48 + z else 87 + z)).

(** [strconv.Quote] (the verb [%q]) on ASCII; bytes above 127 are kept, as for
    printable characters. *)
Definition quote_char (c : ascii) (rest : string) : string :=
  let z := chr c in
  let esc (n : N) := String "\" (String (ascii_of_N n) rest) in
  if (z =? 34)%Z || (z =? 92)%Z then String "\" (String c rest)
  else if (z =? 7)%Z then esc 97%N
  else if (z =? 8)%Z then esc 98%N
  else if (z =? 9)%Z then esc 116%N
  else if (z =? 10)%Z then esc 110%N
  else if (z =? 11)%Z then esc 118%N
  else if (z =? 12)%Z then esc 102%N
  else if (z =? 13)%Z then esc 114%N
  else if (z <? 32)%Z || (z =? 127)%Z then
    String "\" (String "x" (String (hex_digit (z / 16)) (String (hex_digit (z mod 16)) rest)))
  else String c rest.

Fixpoint quote_body (s rest : string) : string :=
  match s with
  | EmptyString => rest
  | String c s => quote_char c (quote_body s rest)
  end.

Definition Quote (s : string) : string :=
  let q := ascii_of_N 34 in String q (quote_body s (String q EmptyString)).

Definition hex_val (c : ascii) : option Z :=
  let z := chr c in
  if (48 <=? z)%Z && (z <=? 57)%Z then Some (z - 48)%Z
  else if (97 <=? z)%Z && (z <=? 102)%Z then Some (z - 87)%Z
  else if (65 <=? z)%Z && (z <=? 70)%Z then Some (z - 55)%Z
  else None.

(** [hex.EncodeToString]. *)
Fixpoint hex_encode (l : list byte) : string :=
  match l with
  | [] => EmptyString
  | b :: l => String (hex_digit (b2z b / 16)) (String (hex_digit (b2z b mod 16)) (hex_encode l))
  end.

(** [hex.DecodeString]: both digit cases are accepted, an odd length is not. *)
Fixpoint hex_decode (s : string) : option (list byte) :=
  match s with
  | EmptyString => Some []
  | String _ EmptyString => None
  | String h (String l s) =>
      match hex_val h, hex_val l, hex_decode s with
      | Some h, Some l, Some r => Some (z2b (h * 16 + l) :: r)
      | _, _, _ => None
      end
  end.

Lemma hex_decode_byte b :
  hex_val (hex_digit (b2z b / 16)) = Some (b2z b / 16)%Z ∧
  hex_val (hex_digit (b2z b mod 16)) = Some (b2z b mod 16)%Z ∧
  z2b (b2z b / 16 * 16 + b2z b mod 16) = b.
Proof. by destruct b. Qed.

Lemma hex_decode_encode l : hex_decode (hex_encode l) = Some l.
Proof.
  induction l as [|b l IH]; cbn [hex_encode hex_decode]; [done|].
  destruct (hex_decode_byte b) as (-> & -> & Hb). by rewrite IH, Hb.
Qed.

Lemma hex_encode_inj : Inj (=) (=) hex_encode.
Proof. intros l l' H. apply (f_equal hex_decode) in H. rewrite !hex_decode_encode in H. congruence. Qed.

Lemma length_hex_encode l : String.length (hex_encode l) = 2 * length l.
Proof. induction l as [|b l IH]; cbn [hex_encode String.length length]; lia. Qed.

(** *** Numbers *)

Lemma pretty_digit d : (d < 10)%N → is_digit (pretty_N_char d) = true ∧ digit_val (pretty_N_char d) = Z.of_N d.
Proof.
  intros Hd. assert (d = 0 ∨ d = 1 ∨ d = 2 ∨ d = 3 ∨ d = 4 ∨ d = 5 ∨ d = 6 ∨ d = 7 ∨ d = 8 ∨ d = 9)%N as Hc by lia.
  repeat destruct Hc as [->|Hc]; [done..|]. by subst.
Qed.

(** Printing and parsing a number; the digits go in front of [s]. *)
Lemma pretty_N_go_digits x : ∀ s, parse_digits 0 (pretty_N_go x s) = parse_digits (Z.of_N x) s ∧
  (∀ sep, is_digit sep = false → ContainsChar sep (pretty_N_go x s) = ContainsChar sep s) ∧
  (x ≠ 0%N → ∃ c t, pretty_N_go x s = String c t ∧ is_digit c = true).
Proof.
  induction (N.lt_wf_0 x) as [x _ IH]. intros s. destruct (decide (x = 0%N)) as [->|Hx]; [by rewrite pretty_N_go_0|].
  rewrite pretty_N_go_step by lia. assert (x `div` 10 < x)%N as Hlt by (apply N.div_lt; lia).
  destruct (pretty_digit (x `mod` 10)) as [Hd Hv]; [by apply N.mod_lt|].
  destruct (IH _ Hlt (String (pretty_N_char (x `mod` 10)) s)) as (Hp & Hc & Hf). split_and!.
  - rewrite Hp. cbn [parse_digits]. rewrite Hd, Hv. f_equal. rewrite (N.div_mod x 10) at 3 by done. lia.
  - intros sep Hs. rewrite Hc by done. cbn [ContainsChar]. rewrite bool_decide_eq_false_2; [done|]. intros <-. congruence.
  - intros _. destruct (decide (x `div` 10 = 0)%N) as [E|]; [|auto]. rewrite E, pretty_N_go_0. eauto.
Qed.

Lemma Itoa_digits z : (0 ≤ z)%Z → parse_digits 0 (Itoa z) = Some z ∧ ContainsChar ":"%char (Itoa z) = false ∧
  ∃ c t, Itoa z = String c t ∧ is_digit c = true.
Proof.
  intros Hz. destruct z as [|p|p]; [split_and!; [done..|eauto]| |lia].
  change (Itoa (Z.pos p)) with (pretty_N_go (N.pos p) ""). destruct (pretty_N_go_digits (N.pos p) "") as (Hp & Hc & Hf).
  split_and!; [by rewrite Hp|by rewrite Hc|by apply Hf].
Qed.

Lemma CutLastChar_None sep s : ContainsChar sep s = false → CutLastChar sep s = None.
Proof.
  induction s as [|c s IH]; cbn [ContainsChar CutLastChar]; [done|]. intros Hc. apply orb_false_iff in Hc as [Hc Hs].
  by rewrite IH, Hc.
Qed.

Lemma CutLastChar_app sep before after : ContainsChar sep after = false →
  CutLastChar sep (before ++ String sep after) = Some (before, after).
Proof.
  intros Ha. induction before as [|c before IH].
  - rewrite string_app_nil_l. cbn [CutLastChar]. rewrite CutLastChar_None by done. by rewrite bool_decide_eq_true_2.
  - rewrite string_app_cons. cbn [CutLastChar]. by rewrite IH.
Qed.

(** ** Host and port *)

(** [net.SplitHostPort]: [None] for every error. *)
Definition SplitHostPort (hostport : string) : option (string * string) :=
  match CutLastChar ":"%char hostport with
  | None => None
  | Some (host, port) =>
      match hostport with
      | String "[" rest =>
          match CutChar "]"%char rest with
          | None => None
          | Some (host, after) =>
              if bool_decide (after ≠ String ":" port) || ContainsChar "["%char rest
                 || ContainsChar "]"%char after
              then None else Some (host, port)
          end
      | _ =>
          if ContainsChar ":"%char host || ContainsChar "["%char hostport
             || ContainsChar "]"%char hostport
          then None else Some (host, port)
      end
  end.

(** [net.JoinHostPort]. *)
Definition JoinHostPort (host port : string) : string :=
  if ContainsChar ":"%char host then "[" ++ host ++ "]:" ++ port else host ++ ":" ++ port.
