(* ===== verification/Netip.v ===== *)
(** * Package [net/netip] as the program uses it

    Addresses keep their 32- or 128-bit value as an integer, their family and
    their IPv6 zone; a prefix keeps an address and a bit count, [-1] when it is
    invalid.  Parsing and printing follow the library's grammar. *)

From Stdlib Require Import ZArith Lia Ascii String Strings.Byte.
From S2P Require Export GoStrings.

Local Open Scope Z_scope.

(** ** Addresses *)

(** The zero [netip.Addr], an IPv4 address, an IPv6 address with its zone. *)
Inductive Addr :=
| AddrZero
| Addr4 (v : Z)
| Addr6 (v : Z) (zone : string).

#[export] Instance Addr_eq_dec : EqDecision Addr.
Proof. solve_decision. Defined.

#[export] Program Instance Addr_countable : Countable Addr :=
  inj_countable
    (λ a, match a with AddrZero => inl () | Addr4 v => inr (inl v) | Addr6 v z => inr (inr (v, z)) end)
    (λ x, Some (match x with inl _ => AddrZero | inr (inl v) => Addr4 v | inr (inr (v, z)) => Addr6 v z end)) _.
Next Obligation. by intros []. Qed.

#[export] Instance Addr_inhabited : Inhabited Addr := populate AddrZero.

(** The representation invariant of the library. *)
Definition addr_wf (a : Addr) : Prop :=
  match a with
  | AddrZero => True
  | Addr4 v => 0 ≤ v < 2 ^ 32
  | Addr6 v _ => 0 ≤ v < 2 ^ 128
  end.

Definition IsValid (a : Addr) : bool := match a with AddrZero => false | _ => true end.
Definition Is4 (a : Addr) : bool := match a with Addr4 _ => true | _ => false end.
Definition Is6 (a : Addr) : bool := match a with Addr6 _ _ => true | _ => false end.

(** [::ffff:0:0/96]. *)
Definition Is4In6 (a : Addr) : bool :=
  match a with Addr6 v _ => Z.shiftr v 32 =? 65535 | _ => false end.

Definition Unmap (a : Addr) : Addr :=
  match a with
  | Addr6 v z => if Is4In6 a then Addr4 (Z.land v (2 ^ 32 - 1)) else a
  | _ => a
  end.

Definition BitLen (a : Addr) : Z :=
  match a with AddrZero => 0 | Addr4 _ => 32 | Addr6 _ _ => 128 end.

Definition addr_val (a : Addr) : Z :=
  match a with AddrZero => 0 | Addr4 v => v | Addr6 v _ => v end.

Definition addr_zone (a : Addr) : string := match a with Addr6 _ z => z | _ => "" end.

Definition withoutZone (a : Addr) : Addr := match a with Addr6 v _ => Addr6 v "" | _ => a end.

Definition IsUnspecified (a : Addr) : bool :=
  bool_decide (a = Addr4 0) || bool_decide (a = Addr6 0 "").

Definition IsMulticast (a : Addr) : bool :=
  match Unmap a with
  | AddrZero => false
  | Addr4 v => Z.shiftr v 28 =? 14
  | Addr6 v _ => Z.shiftr v 120 =? 255
  end.

Definition IsLoopback (a : Addr) : bool :=
  match Unmap a with
  | AddrZero => false
  | Addr4 v => Z.shiftr v 24 =? 127
  | Addr6 v _ => v =? 1
  end.

Definition IsLinkLocalUnicast (a : Addr) : bool :=
  match Unmap a with
  | AddrZero => false
  | Addr4 v => Z.shiftr v 16 =? 43518
  | Addr6 v _ => Z.shiftr v 118 =? 1018
  end.

(** [Addr.Compare]: bit length, then value, then zone. *)
Definition addr_compare (a b : Addr) : Z :=
  if negb (BitLen a =? BitLen b) then zcmp (BitLen a) (BitLen b)
  else if negb (addr_val a =? addr_val b) then zcmp (addr_val a) (addr_val b)
  else if Is6 a then scmp (addr_zone a) (addr_zone b) else 0.

(** [Addr.Next]: the zero address after the last one. *)
Definition addr_next (a : Addr) : Addr :=
  match a with
  | AddrZero => AddrZero
  | Addr4 v => if uwrap 32 (v + 1) =? 0 then AddrZero else Addr4 (v + 1)
  | Addr6 v z => if uwrap 128 (v + 1) =? 0 then AddrZero else Addr6 (v + 1) z
  end.

Definition As4 (a : Addr) : list byte := be_encode 4 (addr_val a).

(** [As16] maps an IPv4 address into [::ffff:0:0/96]. *)
Definition As16 (a : Addr) : list byte :=
  match a with
  | AddrZero => replicate 16 x00
  | Addr4 v => be_encode 16 (65535 * 2 ^ 32 + v)
  | Addr6 v _ => be_encode 16 v
  end.

Definition AddrFrom4 (raw : list byte) : Addr := Addr4 (be_decode raw).
Definition AddrFrom16 (raw : list byte) : Addr := Addr6 (be_decode raw) "".

(** ** Prefixes *)

Record Prefix := mkPrefix { p_addr : Addr; p_bits : Z }.

#[export] Instance Prefix_eq_dec : EqDecision Prefix.
Proof. solve_decision. Defined.

#[export] Program Instance Prefix_countable : Countable Prefix :=
  inj_countable (λ p, (p_addr p, p_bits p)) (λ '(a, b), Some (mkPrefix a b)) _.
Next Obligation. by intros []. Qed.

#[export] Instance Prefix_inhabited : Inhabited Prefix := populate (mkPrefix AddrZero (-1)).

Definition prefix_is_valid (p : Prefix) : bool := 0 <=? p_bits p.

Definition PrefixFrom (a : Addr) (bits : Z) : Prefix :=
  mkPrefix (withoutZone a)
    (if IsValid a && (0 <=? bits) && (bits <=? BitLen a) then bits else -1).

(** The network bits of a [w]-bit value. *)
Definition mask_val (w bits v : Z) : Z := Z.shiftl (Z.shiftr v (w - bits)) (w - bits).

(** [Addr.Prefix(b)]; [None] is the error result. *)
Definition addr_prefix (a : Addr) (b : Z) : option Prefix :=
  if b <? 0 then None
  else match a with
       | AddrZero => Some (mkPrefix AddrZero (-1))
       | Addr4 v => if 32 <? b then None else Some (PrefixFrom (Addr4 (mask_val 32 b v)) b)
       | Addr6 v _ => if 128 <? b then None else Some (PrefixFrom (Addr6 (mask_val 128 b v) "") b)
       end.

(** [Prefix.Masked] drops the error: an invalid prefix becomes the zero one. *)
Definition Masked (p : Prefix) : Prefix :=
  default (mkPrefix AddrZero (-1)) (addr_prefix (p_addr p) (p_bits p)).

(** [Prefix.Contains]. *)
Definition Contains (p : Prefix) (a : Addr) : bool :=
  if negb (prefix_is_valid p) || negb (bool_decide (addr_zone a = "")) then false
  else if (BitLen (p_addr p) =? 0) || (BitLen a =? 0) || negb (BitLen (p_addr p) =? BitLen a) then false
  else Z.shiftr (Z.lxor (addr_val a) (addr_val (p_addr p))) (BitLen a - p_bits p) =? 0.

(** ** Address and port *)

Record AddrPort := mkAddrPort { ap_addr : Addr; ap_port : Z }.

#[export] Instance AddrPort_eq_dec : EqDecision AddrPort.
Proof. solve_decision. Defined.

#[export] Program Instance AddrPort_countable : Countable AddrPort :=
  inj_countable (λ p, (ap_addr p, ap_port p)) (λ '(a, b), Some (mkAddrPort a b)) _.
Next Obligation. by intros []. Qed.

(** [netip.AddrPort{}]. *)
Definition zeroAddrPort : AddrPort := mkAddrPort AddrZero 0.

#[export] Instance AddrPort_inhabited : Inhabited AddrPort := populate zeroAddrPort.

Definition ap_is_valid (p : AddrPort) : bool := IsValid (ap_addr p).

Definition ap_compare (p q : AddrPort) : Z :=
  if negb (addr_compare (ap_addr p) (ap_addr q) =? 0) then addr_compare (ap_addr p) (ap_addr q)
  else zcmp (ap_port p) (ap_port q).

(** ** Parsing *)

Local Open Scope string_scope.

(** [parseIPv4Fields]: four decimal octets without leading zeros. [i] is the
    number of bytes already read of the input, [prevdot] whether the last one
    was a dot. *)
Fixpoint parse_ipv4 (s : string) (first prevdot : bool) (val : Z) (digits : nat) (fields : list Z)
    : option (list Z) :=
  match s with
  | EmptyString =>
      if (length fields =? 3)%nat && negb prevdot then Some (fields ++ [val])%list else None
  | String c s =>
      if is_digit c then
        if (digits =? 1)%nat && (val =? 0)%Z then None
        else let val := (val * 10 + digit_val c)%Z in
             if (255 <? val)%Z then None else parse_ipv4 s false false val (S digits) fields
      else if bool_decide (c = "."%char) then
        if first || prevdot || (length fields =? 3)%nat then None
        else parse_ipv4 s false true 0 0 (fields ++ [val])%list
      else None
  end.

Definition fields_val (base : Z) (fields : list Z) : Z :=
  fold_left (λ acc f, acc * base + f)%Z fields 0%Z.

Definition parseIPv4Fields (s : string) : option Z :=
  fields_val 256 <$> parse_ipv4 s true false 0 0 [].

(** The hexadecimal digits at the front of [s]: how many, their value, the rest. *)
Fixpoint scan_hex (s : string) (n : nat) (acc : Z) : nat * Z * string :=
  match s with
  | String c s' =>
      match hex_val c with
      | Some d => scan_hex s' (S n) (acc * 16 + d)%Z
      | None => (n, acc, s)
      end
  | EmptyString => (n, acc, s)
  end.

(** The group loop of [parseIPv6].  [groups] are the 16-bit groups read so far
    and [ellipsis] the position of [::] among them; the result is both. *)
Fixpoint parse_ipv6_groups (fuel : nat) (s : string) (groups : list Z) (ellipsis : option nat)
    : option (list Z * option nat) :=
  match fuel with
  | O => if bool_decide (s = "") then Some (groups, ellipsis) else None
  | S fuel =>
      let '(n, acc, rest) := scan_hex s 0 0 in
      if (n =? 0)%nat || (4 <? n)%nat then None
      else match rest with
           | String "." _ =>
               if (bool_decide (ellipsis = None) && negb (length groups =? 6)%nat)
                  || (6 <? length groups)%nat then None
               else v4 ← parseIPv4Fields s;
                    Some (groups ++ [v4 / 65536; v4 mod 65536]%Z, ellipsis)%list
           | EmptyString => Some (groups ++ [acc], ellipsis)%list
           | String ":" (String ":" rest) =>
               if bool_decide (ellipsis = None) then
                 let groups := (groups ++ [acc])%list in
                 if bool_decide (rest = "") then Some (groups, Some (length groups))
                 else parse_ipv6_groups fuel rest groups (Some (length groups))
               else None
           | String ":" EmptyString => None
           | String ":" rest => parse_ipv6_groups fuel rest (groups ++ [acc])%list ellipsis
           | _ => None
           end
  end.

(** Expansion of [::]; it must stand for at least one group. *)
Definition expand_groups (groups : list Z) (ellipsis : option nat) : option (list Z) :=
  match ellipsis with
  | None => if (length groups =? 8)%nat then Some groups else None
  | Some e =>
      if (length groups <? 8)%nat
      then Some (take e groups ++ replicate (8 - length groups) 0%Z ++ drop e groups)%list
      else None
  end.

Definition parseIPv6 (s : string) : option Addr :=
  let '(s, zone, zone_ok) :=
    match CutChar "%"%char s with
    | Some (s, zone) => (s, zone, negb (bool_decide (zone = "")))
    | None => (s, "", true)
    end in
  if negb zone_ok then None
  else match s with
       | String ":" (String ":" EmptyString) => Some (Addr6 0 zone)
       | _ =>
           '(groups, ellipsis) ←
             match s with
             | String ":" (String ":" rest) => parse_ipv6_groups 8 rest [] (Some 0%nat)
             | _ => parse_ipv6_groups 8 s [] None
             end;
           groups ← expand_groups groups ellipsis;
           Some (Addr6 (fields_val 65536 groups) zone)
       end.

(** The first ['.'], [':'] or ['%'] decides the family. *)
Fixpoint addr_family (s : string) : option ascii :=
  match s with
  | EmptyString => None
  | String c s =>
      if bool_decide (c ∈ ["."; ":"; "%"]%char) then Some c else addr_family s
  end.

Definition ParseAddr (s : string) : option Addr :=
  match addr_family s with
  | Some "."%char => Addr4 <$> parseIPv4Fields s
  | Some ":"%char => parseIPv6 s
  | _ => None
  end.

Definition ParsePrefix (s : string) : option Prefix :=
  '(ip, bitsStr) ← CutLastChar "/"%char s;
  a ← ParseAddr ip;
  if negb (bool_decide (addr_zone a = "")) then None
  else if (1 <? String.length bitsStr)%nat &&
          match bitsStr with String c _ => (chr c <? 49)%Z || (57 <? chr c)%Z | _ => true end
  then None
  else bits ← Atoi bitsStr;
       if (bits <? 0)%Z || (BitLen a <? bits)%Z then None else Some (PrefixFrom a bits).

(** [netip.ParseAddrPort]. *)
Definition ParseAddrPort (s : string) : option AddrPort :=
  '(ip, port) ← CutLastChar ":"%char s;
  if bool_decide (ip = "") || bool_decide (port = "") then None
  else
    '(ip, v6) ←
      match ip with
      | String "[" rest =>
          if HasSuffixChar "]"%char rest
          then Some (String.substring 0 (String.length rest - 1) rest, true) else None
      | _ => Some (ip, false)
      end;
    p ← (if is_digit (match port with String c _ => c | _ => "x"%char end)
         then parse_digits 0 port else None);
    a ← ParseAddr ip;
    if (65535 <? p)%Z || (v6 && Is4 a) || (negb v6 && Is6 a) then None
    else Some (mkAddrPort a p).

(** ** Printing *)

Definition string4 (v : Z) : string :=
  Itoa (v / 2 ^ 24 mod 256) ++ "." ++ Itoa (v / 2 ^ 16 mod 256) ++ "." ++
  Itoa (v / 2 ^ 8 mod 256) ++ "." ++ Itoa (v mod 256).

(** [appendHex]: no leading zeros. *)
Definition hex16 (v : Z) : string :=
  let d3 := (v / 4096)%Z in let d2 := (v / 256 mod 16)%Z in let d1 := (v / 16 mod 16)%Z in
  (if (d3 =? 0)%Z then "" else String (hex_digit d3) "") ++
  (if (v <? 256)%Z then "" else String (hex_digit d2) "") ++
  (if (v <? 16)%Z then "" else String (hex_digit d1) "") ++
  String (hex_digit (v mod 16)) "".

Definition groups6 (v : Z) : list Z :=
  (λ i, (v / 65536 ^ Z.of_nat (7 - i) mod 65536)%Z) <$> seq 0 8.

Fixpoint zero_run (l : list Z) : nat :=
  match l with 0%Z :: l => S (zero_run l) | _ => O end.

(** The longest run of at least two zero groups, the first among equals. *)
Fixpoint longest_zero_run (i : nat) (l : list Z) (best : nat * nat) : nat * nat :=
  match l with
  | [] => best
  | _ :: l' =>
      let n := zero_run l in
      longest_zero_run (S i) l' (if (2 <=? n)%nat && (snd best <? n)%nat then (i, n) else best)
  end.

Fixpoint join_groups (l : list Z) : string :=
  match l with
  | [] => ""
  | [g] => hex16 g
  | g :: l => hex16 g ++ ":" ++ join_groups l
  end.

Definition string6 (v : Z) : string :=
  let gs := groups6 v in
  let '(start, n) := longest_zero_run 0 gs (0, 0)%nat in
  if (n =? 0)%nat then join_groups gs
  else join_groups (take start gs) ++ "::" ++ join_groups (drop (start + n) gs).

Definition zone_suffix (z : string) : string := if bool_decide (z = "") then "" else "%" ++ z.

Definition addr_string (a : Addr) : string :=
  match a with
  | AddrZero => "invalid IP"
  | Addr4 v => string4 v
  | Addr6 v z =>
      (if Is4In6 a then "::ffff:" ++ string4 (v mod 2 ^ 32) else string6 v) ++ zone_suffix z
  end.

Definition prefix_string (p : Prefix) : string :=
  if prefix_is_valid p then addr_string (p_addr p) ++ "/" ++ Itoa (p_bits p) else "invalid Prefix".

Definition ap_string (p : AddrPort) : string :=
  match ap_addr p with
  | AddrZero => "invalid AddrPort"
  | Addr4 _ => addr_string (ap_addr p) ++ ":" ++ Itoa (ap_port p)
  | Addr6 _ _ => "[" ++ addr_string (ap_addr p) ++ "]:" ++ Itoa (ap_port p)
  end.
Local Close Scope string_scope.

(** The library's own examples. *)
Example parse_print_examples :
  (addr_string <$> ParseAddr "100.64.0.9") = Some "100.64.0.9" ∧
  (addr_string <$> ParseAddr "fd7a:115c:a1e0:0:0:0:0:1") = Some "fd7a:115c:a1e0::1" ∧
  (addr_string <$> ParseAddr "::") = Some "::" ∧
  (addr_string <$> ParseAddr "::ffff:1.2.3.4") = Some "::ffff:1.2.3.4" ∧
  (addr_string <$> ParseAddr "1:0:0:2:0:0:0:3%eth0") = Some "1:0:0:2::3%eth0" ∧
  ParseAddr "1.2.3" = None ∧ ParseAddr "01.2.3.4" = None ∧ ParseAddr "1::2::3" = None ∧
  ParseAddr "1:2:3:4:5:6:7:8:9" = None ∧ ParseAddr "12345::" = None ∧
  (prefix_string <$> ParsePrefix "10.0.0.0/8") = Some "10.0.0.0/8" ∧
  ParsePrefix "10.0.0.0/33" = None ∧ ParsePrefix "10.0.0.0/08" = None ∧
  (ap_string <$> ParseAddrPort "[fe80::1%en0]:41641") = Some "[fe80::1%en0]:41641" ∧
  (ap_string <$> ParseAddrPort "1.2.3.4:80") = Some "1.2.3.4:80" ∧
  ParseAddrPort "1.2.3.4:70000" = None.
Proof. vm_compute. repeat split. Qed.

(** ** Facts about addresses *)

Lemma addr_val_range a : addr_wf a → 0 ≤ addr_val a < 2 ^ BitLen a.
Proof. destruct a; cbn; lia. Qed.

(** Two addresses without zone are told apart by family and value. *)
Lemma addr_eq_val a b :
  addr_zone a = "" → addr_zone b = "" → BitLen a = BitLen b → addr_val a = addr_val b → a = b.
Proof. destruct a, b; cbn; intros; subst; congruence. Qed.

Lemma addr_compare_same a b :
  addr_zone a = "" → addr_zone b = "" → BitLen a = BitLen b →
  addr_compare a b = zcmp (addr_val a) (addr_val b).
Proof.
  intros Ha Hb HL. unfold addr_compare. rewrite HL, Z.eqb_refl. cbn [negb].
  destruct (Z.eqb_spec (addr_val a) (addr_val b)) as [E|E]; cbn [negb]; [|done].
  rewrite E, zcmp_refl, Ha, Hb. by destruct (Is6 a).
Qed.

Lemma addr_compare_refl a : addr_compare a a = 0.
Proof.
  unfold addr_compare. rewrite !Z.eqb_refl. cbn. destruct (Is6 a); [apply scmp_refl|done].
Qed.

(** The comparison is a total order. *)
Lemma addr_compare_le a b :
  addr_compare a b ≤ 0 ↔
  BitLen a < BitLen b ∨ BitLen a = BitLen b ∧
  (addr_val a < addr_val b ∨ addr_val a = addr_val b ∧ (addr_zone a ≤ addr_zone b)%string).
Proof.
  unfold addr_compare.
  destruct (Z.eqb_spec (BitLen a) (BitLen b)) as [E|E]; cbn [negb]; [|rewrite zcmp_le; lia].
  destruct (Z.eqb_spec (addr_val a) (addr_val b)) as [E'|E']; cbn [negb]; [|rewrite zcmp_le; lia].
  assert ((addr_zone a ≤ addr_zone b)%string ↔
    (if Is6 a then scmp (addr_zone a) (addr_zone b) else 0) ≤ 0) as Hz
    by (destruct a, b; cbn in *; rewrite ?scmp_le; try lia; split; done).
  rewrite Hz. lia.
Qed.

Lemma addr_zone_eq a b : BitLen a = BitLen b → addr_val a = addr_val b → addr_zone a = addr_zone b → a = b.
Proof. destruct a, b; cbn; congruence. Qed.

#[export] Instance addr_compare_total : Total (cmp_le addr_compare).
Proof.
  intros a b. unfold cmp_le. rewrite !addr_compare_le.
  destruct (Z.lt_trichotomy (BitLen a) (BitLen b)) as [|[|]],
    (Z.lt_trichotomy (addr_val a) (addr_val b)) as [|[|]],
    (total String.le (addr_zone a) (addr_zone b)); auto 6.
Qed.
#[export] Instance addr_compare_trans : Transitive (cmp_le addr_compare).
Proof.
  intros a b c. unfold cmp_le. rewrite !addr_compare_le.
  intros Hab Hbc.
  assert ((addr_zone a ≤ addr_zone b)%string → (addr_zone b ≤ addr_zone c)%string →
    (addr_zone a ≤ addr_zone c)%string) by apply transitivity.
  destruct Hab as [|[? [|[? ?]]]], Hbc as [|[? [|[? ?]]]];
    first [left; lia | right; split; [lia|]; first [left; lia | right; split; [lia|auto]]].
Qed.
#[export] Instance addr_compare_antisymm : AntiSymm (=) (cmp_le addr_compare).
Proof.
  intros a b. unfold cmp_le. rewrite !addr_compare_le. intros Hab Hba.
  assert (BitLen a = BitLen b ∧ addr_val a = addr_val b) as [? ?] by lia.
  apply addr_zone_eq; [done..|]. apply (anti_symm String.le); naive_solver lia.
Qed.

Lemma addr_compare_eq a b : addr_compare a b = 0 ↔ a = b.
Proof.
  split; [|intros ->; apply addr_compare_refl]. unfold addr_compare.
  destruct (Z.eqb_spec (BitLen a) (BitLen b)); cbn [negb]; [|by rewrite zcmp_eq].
  destruct (Z.eqb_spec (addr_val a) (addr_val b)); cbn [negb]; [|by rewrite zcmp_eq].
  intros Hz. apply addr_zone_eq; [done..|]. destruct a, b; cbn in *; try done. by apply scmp_eq.
Qed.

(** [netip.AddrPort.Compare] is a total order as well. *)
Lemma ap_compare_le p q : ap_compare p q ≤ 0 ↔
  cmp_le addr_compare (ap_addr p) (ap_addr q) ∧ (ap_addr p = ap_addr q → ap_port p ≤ ap_port q).
Proof.
  unfold ap_compare, cmp_le. pose proof (addr_compare_eq (ap_addr p) (ap_addr q)) as He.
  destruct (Z.eqb_spec (addr_compare (ap_addr p) (ap_addr q)) 0) as [E|E]; cbn [negb]; [rewrite zcmp_le|]; naive_solver lia.
Qed.

#[export] Instance ap_compare_total : Total (cmp_le ap_compare).
Proof.
  intros p q. unfold cmp_le. rewrite !ap_compare_le. destruct (decide (ap_addr p = ap_addr q)) as [E|E].
  - destruct (Z.le_gt_cases (ap_port p) (ap_port q)); [left|right]; (split; [|lia]); unfold cmp_le; rewrite E, addr_compare_refl; lia.
  - destruct (total (cmp_le addr_compare) (ap_addr p) (ap_addr q)); [left|right]; (split; [done|congruence]).
Qed.
#[export] Instance ap_compare_trans : Transitive (cmp_le ap_compare).
Proof.
  intros p q r. unfold cmp_le. rewrite !ap_compare_le. intros [H1 H2] [H3 H4]. split; [by etrans|].
  intros E. assert (ap_addr p = ap_addr q) as Epq.
  { apply (anti_symm (cmp_le addr_compare)); [done|]. by rewrite E. }
  specialize (H2 Epq). rewrite <-Epq in H4. specialize (H4 E). lia.
Qed.
#[export] Instance ap_compare_antisymm : AntiSymm (=) (cmp_le ap_compare).
Proof.
  intros p q. unfold cmp_le. rewrite !ap_compare_le. intros [H1 H2] [H3 H4].
  assert (ap_addr p = ap_addr q) as E by by apply (anti_symm (cmp_le addr_compare)).
  specialize (H2 E). specialize (H4 (eq_sym E)). destruct p, q; cbn in *. f_equal; [done|lia].
Qed.

(** ** Facts about prefixes *)

Lemma shiftr_div v k : 0 ≤ k → Z.shiftr v k = v / 2 ^ k.
Proof. apply Z.shiftr_div_pow2. Qed.

Lemma mask_val_spec w bits v :
  bits ≤ w → mask_val w bits v = v / 2 ^ (w - bits) * 2 ^ (w - bits).
Proof.
  intros. unfold mask_val. rewrite Z.shiftl_mul_pow2, shiftr_div by lia. lia.
Qed.

Lemma mask_val_range w bits v :
  0 ≤ bits ≤ w → 0 ≤ v < 2 ^ w → 0 ≤ mask_val w bits v ≤ v.
Proof.
  intros. rewrite mask_val_spec by lia.
  assert (0 < 2 ^ (w - bits)) by lia.
  pose proof (Z.mul_div_le v (2 ^ (w - bits)) ltac:(lia)).
  pose proof (Z.div_pos v (2 ^ (w - bits)) ltac:(lia) ltac:(lia)). nia.
Qed.

(** A masked address is unchanged exactly when it is aligned. *)
Lemma mask_val_fix w bits v :
  bits ≤ w → mask_val w bits v = v ↔ (2 ^ (w - bits) | v).
Proof.
  intros. rewrite mask_val_spec by lia. split.
  - intros E. exists (v / 2 ^ (w - bits)). lia.
  - intros [q ->]. rewrite Z.div_mul; lia.
Qed.

(** Equal network bits mean that both values lie in the same aligned block. *)
Lemma shiftr_lxor_eq0 x y k : 0 ≤ k → Z.shiftr (Z.lxor x y) k = 0 ↔ x / 2 ^ k = y / 2 ^ k.
Proof.
  intros. rewrite Z.shiftr_lxor, <-!shiftr_div by lia. apply Z.lxor_eq_0_iff.
Qed.

Lemma div_block x y m : 0 < m → x / m = y / m ↔ y / m * m ≤ x < y / m * m + m.
Proof.
  intros Hm. split.
  - intros <-. pose proof (Z.div_mod x m ltac:(lia)). pose proof (Z.mod_pos_bound x m Hm). lia.
  - intros Hx. symmetry. apply (Z.div_unique x m (y / m) (x - y / m * m)); lia.
Qed.

(** A valid prefix of a zoneless address contains exactly its block. *)
Lemma Contains_block p a :
  addr_zone a = "" → BitLen (p_addr p) = BitLen a → BitLen a ≠ 0 →
  0 ≤ p_bits p ≤ BitLen a →
  Contains p a = true ↔
  mask_val (BitLen a) (p_bits p) (addr_val (p_addr p)) ≤ addr_val a
    < mask_val (BitLen a) (p_bits p) (addr_val (p_addr p)) + 2 ^ (BitLen a - p_bits p).
Proof.
  intros Hz HL Hv Hb. unfold Contains, prefix_is_valid.
  rewrite (proj2 (Z.leb_le 0 (p_bits p))) by lia. rewrite bool_decide_true by done.
  rewrite HL, Z.eqb_refl, (proj2 (Z.eqb_neq (BitLen a) 0)) by done. cbn [negb orb].
  rewrite Z.eqb_eq, shiftr_lxor_eq0, div_block, mask_val_spec by lia. lia.
Qed.

(** Nothing of another family, and nothing with a zone, is contained. *)
Lemma Contains_family p a :
  Contains p a = true → addr_zone a = "" ∧ BitLen (p_addr p) = BitLen a ∧ BitLen a ≠ 0.
Proof.
  unfold Contains. destruct (negb _ || negb _) eqn:E1; [done|].
  destruct (_ || _ || _) eqn:E2; [done|]. intros _. bool_to_prop. auto.
Qed.

(** ** Unmapping *)

Lemma Unmap_idemp a : Unmap (Unmap a) = Unmap a.
Proof. destruct a; cbn; try done. case_match eqn:E; cbn; [done|]. by rewrite E. Qed.

Lemma Unmap_not_mapped a : Is4In6 (Unmap a) = false.
Proof. destruct a; cbn; try done. case_match eqn:E; cbn; [done|]. by rewrite E. Qed.

Lemma Unmap_wf a : addr_wf a → addr_wf (Unmap a).
Proof.
  destruct a as [|v|v z]; [done..|]. unfold Unmap.
  destruct (Is4In6 (Addr6 v z)); [|done]. intros _. unfold addr_wf.
  change (2 ^ 32 - 1) with (Z.ones 32). rewrite Z.land_ones by lia. apply Z.mod_pos_bound. lia.
Qed.

Lemma Unmap_valid a : IsValid (Unmap a) = IsValid a.
Proof. destruct a; cbn; try done. by case_match. Qed.

#[export] Hint Rewrite Unmap_idemp Unmap_not_mapped Unmap_valid : goslice.

(** ** Building prefixes *)

Lemma PrefixFrom_ok a bits :
  IsValid a = true → 0 ≤ bits ≤ BitLen a → PrefixFrom a bits = mkPrefix (withoutZone a) bits.
Proof.
  intros Hv Hb. unfold PrefixFrom. rewrite Hv.
  by rewrite (proj2 (Z.leb_le 0 bits)), (proj2 (Z.leb_le bits _)) by lia.
Qed.

(** The network address of a block. *)
Definition network_addr (a : Addr) (bits : Z) : Addr :=
  match a with
  | AddrZero => AddrZero
  | Addr4 v => Addr4 (mask_val 32 bits v)
  | Addr6 v _ => Addr6 (mask_val 128 bits v) ""
  end.

Lemma addr_prefix_ok a bits :
  IsValid a = true → 0 ≤ bits ≤ BitLen a →
  addr_prefix a bits = Some (mkPrefix (network_addr a bits) bits).
Proof.
  intros Hv Hb. unfold addr_prefix. rewrite (proj2 (Z.ltb_ge bits 0)) by lia.
  destruct a as [|v|v z]; [done|..]; cbn [BitLen] in Hb;
    rewrite (proj2 (Z.ltb_ge _ bits)) by lia; by rewrite PrefixFrom_ok by (cbn; lia || done).
Qed.

Lemma network_addr_spec a bits :
  BitLen (network_addr a bits) = BitLen a ∧ IsValid (network_addr a bits) = IsValid a ∧
  addr_zone (network_addr a bits) = "" ∧
  (IsValid a = true → addr_val (network_addr a bits) = mask_val (BitLen a) bits (addr_val a)).
Proof. by destruct a. Qed.

Lemma mask_val_idemp w bits v : bits ≤ w → mask_val w bits (mask_val w bits v) = mask_val w bits v.
Proof.
  intros Hw. apply mask_val_fix; [done|]. rewrite mask_val_spec by done. apply Z.divide_factor_r.
Qed.

Lemma network_addr_idemp a bits :
  bits ≤ BitLen a → network_addr (network_addr a bits) bits = network_addr a bits.
Proof. destruct a; cbn; intros; f_equal; by apply mask_val_idemp. Qed.

Lemma Masked_ok a bits :
  IsValid a = true → 0 ≤ bits ≤ BitLen a → Masked (mkPrefix a bits) = mkPrefix (network_addr a bits) bits.
Proof. intros. unfold Masked. cbn [p_addr p_bits]. by rewrite addr_prefix_ok. Qed.

Lemma Masked_PrefixFrom a bits :
  IsValid a = true → 0 ≤ bits ≤ BitLen a →
  Masked (PrefixFrom a bits) = mkPrefix (network_addr a bits) bits ∧
  Masked (Masked (PrefixFrom a bits)) = Masked (PrefixFrom a bits).
Proof.
  intros Hv Hb. rewrite PrefixFrom_ok by done.
  assert (Masked (mkPrefix (withoutZone a) bits) = mkPrefix (network_addr a bits) bits) as E.
  { rewrite Masked_ok; [by destruct a|by destruct a|by destruct a]. }
  rewrite E. split; [done|].
  destruct (network_addr_spec a bits) as (HL & HV & _).
  rewrite Masked_ok, network_addr_idemp by (congruence || lia). done.
Qed.

(** ** Parsing yields well-formed addresses *)

Lemma fields_val_range base l :
  0 < base → Forall (λ f, 0 ≤ f < base) l → 0 ≤ fields_val base l < base ^ Z.of_nat (length l).
Proof.
  intros Hb. unfold fields_val. rewrite <-(reverse_involutive l), Forall_reverse, length_reverse.
  induction (reverse l) as [|f r IH]; intros Hf.
  { cbn. lia. }
  apply Forall_cons in Hf as [Hf Hr]. rewrite reverse_cons, fold_left_app. cbn [fold_left length].
  specialize (IH Hr). rewrite Nat2Z.inj_succ, Z.pow_succ_r by lia. nia.
Qed.

Lemma is_digit_val c : is_digit c = true → 0 ≤ digit_val c ≤ 9.
Proof. unfold is_digit, digit_val. intros H. bool_to_prop. lia. Qed.

Lemma parse_ipv4_fields s : ∀ first prevdot val digits fields r,
  parse_ipv4 s first prevdot val digits fields = Some r →
  0 ≤ val < 256 → Forall (λ f, 0 ≤ f < 256) fields →
  length r = 4%nat ∧ Forall (λ f, 0 ≤ f < 256) r.
Proof.
  induction s as [|c s IH]; intros first prevdot val digits fields r; cbn [parse_ipv4].
  - destruct (_ && _) eqn:E; [|done]. intros [= <-] Hv Hf. bool_to_prop.
    rewrite length_app, (proj1 (Nat.eqb_eq _ _) H). split; [done|].
    apply Forall_app; auto.
  - destruct (is_digit c) eqn:Ed.
    + destruct (_ && _); [done|]. destruct (255 <? _) eqn:Ev; [done|]. intros H Hv Hf.
      apply is_digit_val in Ed. bool_to_prop. eapply IH; eauto. lia.
    + case_bool_decide; [|done]. destruct (_ || _); [done|]. intros H' Hv Hf.
      eapply IH; eauto; [lia|]. apply Forall_app; auto.
Qed.

Lemma parseIPv4Fields_range s v : parseIPv4Fields s = Some v → 0 ≤ v < 2 ^ 32.
Proof.
  unfold parseIPv4Fields. intros (r & Hr & ->)%fmap_Some.
  apply parse_ipv4_fields in Hr as [Hl Hf]; [|lia|constructor].
  apply fields_val_range in Hf; [|lia]. by rewrite Hl in Hf.
Qed.

Lemma hex_val_range c d : hex_val c = Some d → 0 ≤ d < 16.
Proof.
  unfold hex_val. cbn zeta. intros H. split_matches_in H; bool_to_prop; lia.
Qed.

Lemma scan_hex_range s : ∀ n acc n' acc' rest,
  scan_hex s n acc = (n', acc', rest) → 0 ≤ acc < 16 ^ Z.of_nat n → 0 ≤ acc' < 16 ^ Z.of_nat n'.
Proof.
  induction s as [|c s IH]; intros n acc n' acc' rest; cbn [scan_hex].
  - by intros [= <- <- <-].
  - destruct (hex_val c) eqn:Ec; [|by intros [= <- <- <-]]. intros H Ha.
    apply hex_val_range in Ec. eapply IH; [done|].
    rewrite Nat2Z.inj_succ, Z.pow_succ_r by lia. lia.
Qed.

Lemma parse_ipv6_groups_range fuel : ∀ s groups ellipsis r e,
  parse_ipv6_groups fuel s groups ellipsis = Some (r, e) →
  Forall (λ g, 0 ≤ g < 65536) groups → Forall (λ g, 0 ≤ g < 65536) r.
Proof.
  induction fuel as [|fuel IH]; intros s groups ellipsis r e; cbn [parse_ipv6_groups].
  { case_bool_decide; [|done]. by intros [= <- <-]. }
  destruct (scan_hex s 0 0) as [[n acc] rest] eqn:Es.
  destruct ((n =? 0)%nat || (4 <? n)%nat) eqn:En; [done|]. bool_to_prop.
  apply scan_hex_range in Es; [|lia].
  assert (0 ≤ acc < 65536) as Hacc.
  { apply Nat.ltb_ge in H0. pose proof (Z.pow_le_mono_r 16 (Z.of_nat n) 4). lia. }
  intros Hp Hg.
  assert (Forall (λ g, 0 ≤ g < 65536) (groups ++ [acc])) as Hg' by (apply Forall_app; auto).
  repeat match type of Hp with
    | parse_ipv6_groups _ _ _ _ = _ => fail 1
    | context [match ?x with _ => _ end] => destruct x eqn:?; simplify_eq; eauto
    end; eauto.
  apply bind_Some in Hp as (v & Hv & [= <- <-]). apply parseIPv4Fields_range in Hv.
  apply Forall_app; split; [done|]. repeat constructor; try (apply Z.mod_pos_bound; lia);
    [apply Z.div_pos|apply Z.div_lt_upper_bound]; lia.
Qed.

Lemma expand_groups_range groups e r :
  expand_groups groups e = Some r → Forall (λ g, 0 ≤ g < 65536) groups →
  length r = 8%nat ∧ Forall (λ g, 0 ≤ g < 65536) r.
Proof.
  unfold expand_groups. destruct e as [e|].
  - destruct (length groups <? 8)%nat eqn:E; [|done]. intros [= <-] Hg. apply Nat.ltb_lt in E.
    split.
    + rewrite !length_app, length_take, length_replicate, length_drop. lia.
    + repeat apply Forall_app_2; [by apply Forall_take|apply Forall_replicate; lia|by apply Forall_drop].
  - destruct (length groups =? 8)%nat eqn:E; [|done]. apply Nat.eqb_eq in E. by intros [= <-].
Qed.

Lemma parseIPv6_spec s a :
  parseIPv6 s = Some a →
  addr_wf a ∧ IsValid a = true ∧ (ContainsChar "%" s = false → addr_zone a = "").
Proof.
  unfold parseIPv6.
  destruct (match CutChar "%" s with Some _ => _ | None => _ end) as [[s' zone] ok] eqn:Ez.
  assert (ContainsChar "%" s = false → zone = "") as Hz.
  { intros Hc. apply CutChar_None in Hc. rewrite Hc in Ez. by simplify_eq. }
  destruct (negb ok); [done|]. intros H.
  assert (∃ v, a = Addr6 v zone ∧ 0 ≤ v < 2 ^ 128) as (v & -> & Hv); [|cbn; auto].
  assert (∀ s0 e0 groups e g v, parse_ipv6_groups 8 s0 [] e0 = Some (groups, e) →
    expand_groups groups e = Some g → v = fields_val 65536 g → 0 ≤ v < 2 ^ 128) as Hgen.
  { intros s0 e0 groups e g v Hp He ->. apply parse_ipv6_groups_range in Hp; [|constructor].
    apply expand_groups_range in He as [Hl Hg]; [|done].
    apply fields_val_range in Hg; [|lia]. by rewrite Hl in Hg. }
  repeat match type of H with
    | context [match ?x with String _ _ => _ | EmptyString => _ end] => destruct x; simplify_eq
    | context [match ?x with Ascii _ _ _ _ _ _ _ _ => _ end] => destruct x; simplify_eq
    | context [if ?x : bool then _ else _] => destruct x; simplify_eq
    end;
  first [ eexists; split; [reflexivity|lia]
        | apply bind_Some in H as ([groups e] & Hp & H);
          apply bind_Some in H as (g & He & [= <-]); eauto ].
Qed.

(** A parsed address is valid and well formed, and has a zone only if the text
    has one. *)
Lemma ParseAddr_spec s a :
  ParseAddr s = Some a →
  addr_wf a ∧ IsValid a = true ∧ (ContainsChar "%" s = false → addr_zone a = "").
Proof.
  unfold ParseAddr. destruct (addr_family s) as [c|]; [|done]. intros H.
  destruct (decide (c = ".")%char) as [->|Hd].
  { apply fmap_Some in H as (v & Hv & ->). apply parseIPv4Fields_range in Hv. done. }
  destruct (decide (c = ":")%char) as [->|Hc]; [by apply parseIPv6_spec|].
  destruct c as [[] [] [] [] [] [] [] []]; done.
Qed.

Lemma ParsePrefix_spec s p :
  ParsePrefix s = Some p →
  addr_wf (p_addr p) ∧ IsValid (p_addr p) = true ∧ addr_zone (p_addr p) = "" ∧
  0 ≤ p_bits p ≤ BitLen (p_addr p).
Proof.
  unfold ParsePrefix. intros ([ip bs] & _ & H)%bind_Some.
  apply bind_Some in H as (a & Ha & H). apply ParseAddr_spec in Ha as (Hwf & Hv & _).
  case_bool_decide as Ez; cbn [negb] in H; [|done].
  destruct (_ && _); [done|]. apply bind_Some in H as (bits & _ & H).
  destruct (_ || _) eqn:Eb; [done|]. simplify_eq. bool_to_prop.
  rewrite PrefixFrom_ok by (done || lia). cbn. destruct a; cbn in *; by subst.
Qed.

(** Masking a prefix does not change what it contains. *)
Lemma Contains_Masked a bits x :
  IsValid a = true → 0 ≤ bits ≤ BitLen a →
  Contains (Masked (mkPrefix a bits)) x = Contains (mkPrefix a bits) x.
Proof.
  intros Hv Hb. rewrite Masked_ok by done.
  destruct (network_addr_spec a bits) as (HL & _ & _ & Hval). specialize (Hval Hv).
  apply Bool.eq_iff_eq_true.
  destruct (decide (addr_zone x = "" ∧ BitLen a = BitLen x ∧ BitLen x ≠ 0)) as [(Hz & Hx & H0)|Hn].
  - rewrite !Contains_block by (cbn [p_addr p_bits]; congruence || lia).
    cbn [p_addr p_bits]. rewrite Hval, <-Hx, mask_val_idemp by lia. done.
  - split; intros Hc; apply Contains_family in Hc as (? & ? & ?); cbn [p_addr] in *; exfalso; apply Hn;
      split_and!; congruence.
Qed.

(** ** Printing and parsing IPv4 addresses *)

(** The digits of an octet as [parse_ipv4] reads them. *)
Fixpoint scan_octet (s : string) (val : Z) (digits : nat) : option (Z * nat) :=
  match s with
  | EmptyString => Some (val, digits)
  | String c s =>
      if is_digit c && negb ((digits =? 1)%nat && (val =? 0)) && negb (255 <? val * 10 + digit_val c)
      then scan_octet s (val * 10 + digit_val c) (S digits) else None
  end.

Lemma parse_ipv4_scan s rest : ∀ first prevdot val digits fields val' digits',
  scan_octet s val digits = Some (val', digits') → s ≠ EmptyString →
  parse_ipv4 (s +:+ rest) first prevdot val digits fields = parse_ipv4 rest false false val' digits' fields.
Proof.
  induction s as [|c s IH]; intros first prevdot val digits fields val' digits' Hs Hne; [done|].
  rewrite string_app_cons. cbn [parse_ipv4 scan_octet] in *.
  destruct (is_digit c); [|done]. destruct ((digits =? 1)%nat && (val =? 0)); [done|].
  destruct (255 <? val * 10 + digit_val c); [done|]. cbn [negb andb] in Hs.
  destruct s as [|c' s]; [by injection Hs as <- <-|]. by apply IH.
Qed.

(** Checked on all 256 octets. *)
Definition octet_ok (o : Z) : bool :=
  match scan_octet (Itoa o) 0 0 with
  | Some (v, _) => (v =? o) && negb (bool_decide (Itoa o = EmptyString)) &&
      bool_decide (addr_family (Itoa o +:+ String "." EmptyString) = Some "."%char) && bool_decide (addr_family (Itoa o) = None)
  | None => false
  end.

Lemma octets_ok : forallb octet_ok (map Z.of_nat (seq 0 256)) = true.
Proof. vm_compute. reflexivity. Qed.

Lemma octet_ok_all o : 0 ≤ o < 256 → octet_ok o = true.
Proof.
  intros Ho. pose proof octets_ok as Hall. rewrite forallb_forall in Hall. apply Hall.
  apply in_map_iff. exists (Z.to_nat o). rewrite in_seq. lia.
Qed.

Lemma addr_family_app s t : addr_family s = None → addr_family (s +:+ t) = addr_family t.
Proof.
  induction s as [|c s IH]; [done|]. rewrite string_app_cons. cbn [addr_family]. case_bool_decide; [done|]. apply IH.
Qed.

Lemma Itoa_octet o : 0 ≤ o < 256 →
  ∃ digits, scan_octet (Itoa o) 0 0 = Some (o, digits) ∧ Itoa o ≠ EmptyString ∧ addr_family (Itoa o) = None.
Proof.
  intros Ho. pose proof (octet_ok_all o Ho) as H. unfold octet_ok in H.
  destruct (scan_octet (Itoa o) 0 0) as [[v digits]|]; [|done]. bool_to_prop.
  exists digits. split_and!; [by f_equal; f_equal; lia|done|done].
Qed.

Lemma parse_octet_dot o rest first prevdot fields : 0 ≤ o < 256 → (length fields < 3)%nat →
  parse_ipv4 (Itoa o +:+ String "." rest) first prevdot 0 0 fields = parse_ipv4 rest false true 0 0 (fields ++ [o])%list.
Proof.
  intros Ho Hl. destruct (Itoa_octet o Ho) as (d & Hs & Hne & _).
  rewrite (parse_ipv4_scan _ _ _ _ _ _ _ _ _ Hs Hne). cbn [parse_ipv4].
  change (is_digit ".") with false. cbn iota. rewrite bool_decide_eq_true_2 by done. cbn [orb].
  by rewrite (proj2 (Nat.eqb_neq _ _)) by lia.
Qed.

Lemma parse_octet_last o first prevdot fields : 0 ≤ o < 256 → length fields = 3%nat →
  parse_ipv4 (Itoa o) first prevdot 0 0 fields = Some (fields ++ [o])%list.
Proof.
  intros Ho Hl. destruct (Itoa_octet o Ho) as (d & Hs & Hne & _).
  rewrite <-(string_app_nil_r (Itoa o)), (parse_ipv4_scan _ _ _ _ _ _ _ _ _ Hs Hne). cbn [parse_ipv4]. by rewrite Hl.
Qed.

Lemma ParseAddr_string4 v : 0 ≤ v < 2 ^ 32 → ParseAddr (addr_string (Addr4 v)) = Some (Addr4 v).
Proof.
  intros Hv. unfold addr_string, string4. set (a := v / 2 ^ 24 mod 256). set (b := v / 2 ^ 16 mod 256).
  set (c := v / 2 ^ 8 mod 256). set (d := v mod 256).
  assert (0 ≤ a < 256 ∧ 0 ≤ b < 256 ∧ 0 ≤ c < 256 ∧ 0 ≤ d < 256) as (Ha & Hb & Hc & Hd)
    by (unfold a, b, c, d; split_and!; apply Z.mod_pos_bound; lia).
  unfold ParseAddr. destruct (Itoa_octet a Ha) as (? & _ & _ & Hf). rewrite addr_family_app by done.
  rewrite !string_app_cons, !string_app_nil_l. change (addr_family (String "." _)) with (Some "."%char). cbn iota.
  unfold parseIPv4Fields.
  rewrite (parse_octet_dot a), (parse_octet_dot b), (parse_octet_dot c), (parse_octet_last d) by (done || cbn; lia).
  cbn. do 2 f_equal. unfold a, b, c, d. clear -Hv. change (2 ^ 24) with (2 ^ 8 * 2 ^ 16). change (2 ^ 16) with (2 ^ 8 * 2 ^ 8).
  change (2 ^ 8) with 256. rewrite <-!Z.div_div by lia.
  pose proof (Z.div_mod v 256). pose proof (Z.div_mod (v / 256) 256). pose proof (Z.div_mod (v / 256 / 256) 256).
  rewrite (Z.mod_small (v / 256 / 256 / 256) 256); [lia|]. change (2 ^ 32) with (256 * 256 * 256 * 256) in Hv.
  split; [repeat apply Z.div_pos; lia|]. repeat apply Z.div_lt_upper_bound; lia.
Qed.

(** *** Ports *)

Lemma ParseAddrPort_string4 v p : 0 ≤ v < 2 ^ 32 → 0 ≤ p < 65536 →
  ParseAddrPort (ap_string (mkAddrPort (Addr4 v) p)) = Some (mkAddrPort (Addr4 v) p).
Proof.
  intros Hv Hp. destruct (Itoa_digits p ltac:(lia)) as (Hnum & Hcolon & d & t & Et & Hd).
  unfold ap_string. cbn [ap_addr ap_port]. pose proof (ParseAddr_string4 v Hv) as Hparse.
  assert (∃ c s, addr_string (Addr4 v) = String c s ∧ is_digit c = true) as (c & s & Hs & Hc).
  { unfold addr_string, string4. set (a := v / 2 ^ 24 mod 256). assert (0 ≤ a < 256) by (apply Z.mod_pos_bound; lia).
    destruct (Itoa_digits a ltac:(lia)) as (_ & _ & c & s & Es & Hc). rewrite Es, string_app_cons. eauto. }
  rewrite string_app_cons, string_app_nil_l. unfold ParseAddrPort. rewrite CutLastChar_app by done. cbn [mbind option_bind].
  rewrite Hs in *. rewrite bool_decide_eq_false_2 by done. rewrite Et in *.
  rewrite bool_decide_eq_false_2 by done. cbn [orb].
  assert (match String c s with String "[" rest => if HasSuffixChar "]"%char rest then Some (String.substring 0 (String.length rest - 1) rest, true) else None
    | _ => Some (String c s, false) end = Some (String c s, false)) as ->.
  { destruct c as [[] [] [] [] [] [] [] []]; try done. }
  cbn [mbind option_bind]. rewrite Hd, Hnum. cbn [mbind option_bind].
  rewrite Hparse. cbn [mbind option_bind]. destruct (Z.ltb_spec 65535 p); [lia|]. done.
Qed.
