(* ===== verification/Acl.v ===== *)
(** * ACL queries and firewall conversion ([acl.go])

    [ACLAllows] answers whether the packet filter of the current map admits a
    packet; [FirewallConfig] converts the same rules into a gonnect incoming
    firewall policy, for which an address range has to be written as prefixes
    ([addressRangePrefixes]). *)

From Stdlib Require Import ZArith Znumtheory Lia Ascii String Strings.Byte.
From S2P Require Import Netip.

Local Open Scope Z_scope.

(** ** Data ([types.go]) *)

Record PortRange := mkPortRange { pr_First : Z; pr_Last : Z }.

Record ACLDestination := mkACLDestination {
  ad_IP : string;
  ad_Bits : option Z;
  ad_Ports : PortRange
}.

Record ACLRule := mkACLRule {
  ar_SourceIPs : slice string;
  ar_SourceBits : slice Z;
  ar_Destinations : slice ACLDestination;
  ar_IPProtocols : slice Z;
  ar_CapabilityGrants : slice (slice byte)
}.

Record ACLView := mkACLView {
  av_Rules : slice ACLRule;
  av_NamedRules : option (gmap string (slice ACLRule));
  av_Revision : Z
}.

(** ** Helpers of [client.go] *)

Definition unmapAddrPort (value : AddrPort) : AddrPort :=
  if negb (ap_is_valid value) then value
  else mkAddrPort (Unmap (ap_addr value)) (ap_port value).

Definition unmapPrefix (value : Prefix) : Prefix :=
  if negb (prefix_is_valid value) || negb (Is4In6 (p_addr value)) || (p_bits value <? 96) then value
  else Masked (PrefixFrom (Unmap (p_addr value)) (p_bits value - 96)).

(** ** Matching *)

Definition unmapAddressBits (address : Addr) (bits : Z) : Addr * Z :=
  let bits := if Is4In6 address && (96 <=? bits) then bits - 96 else bits in
  (Unmap address, bits).

Definition matchesIP (raw : string) (bits : Z) (address : Addr) : bool :=
  let address := Unmap address in
  if bool_decide (raw = "*") then true
  else if ContainsChar "/"%char raw then
    match ParsePrefix raw with
    | None => false
    | Some prefix => Contains (unmapPrefix prefix) address
    end
  else match CutChar "-"%char raw with
       | Some (first, last) =>
           match ParseAddr first, ParseAddr last with
           | Some start, Some finish =>
               let start := Unmap start in
               let finish := Unmap finish in
               if negb (BitLen start =? BitLen address) || negb (BitLen finish =? BitLen address)
               then false
               else (addr_compare start address <=? 0) && (addr_compare address finish <=? 0)
           | _, _ => false
           end
       | None =>
           match ParseAddr raw with
           | None => false
           | Some base =>
               if bits <? 0 then bool_decide (Unmap base = Unmap address)
               else let '(base, bits) := unmapAddressBits base bits in
                    match addr_prefix base bits with
                    | Some prefix => Contains prefix address
                    | None => false
                    end
           end
       end.

(** [bits] of the source at [index], [-1] when the parallel slice is shorter. *)
Definition sourceBits (rule : ACLRule) (index : nat) : Z :=
  default (-1) (elems (ar_SourceBits rule) !! index).

Definition matchesSource (rule : ACLRule) (address : Addr) : bool :=
  existsb (λ '(index, raw), matchesIP raw (sourceBits rule index) address)
    (imap pair (elems (ar_SourceIPs rule))).

Definition matchesProtocol (rule : ACLRule) (protocol : Z) : bool :=
  match elems (ar_IPProtocols rule) with
  | [] => (protocol =? 1) || (protocol =? 6) || (protocol =? 17) || (protocol =? 58)
  | protocols => existsb (Z.eqb protocol) protocols
  end.

Definition matchesDestination (target : ACLDestination) (address : Addr) (port : Z) : bool :=
  let bits := default (-1) (ad_Bits target) in
  if negb (matchesIP (ad_IP target) bits address) then false
  else (pr_First (ad_Ports target) <=? port) && (port <=? pr_Last (ad_Ports target)).

(** [Client.ACLAllows], over the view [Client.ACL()] returns. *)
Definition ACLAllows (view : ACLView) (source destination : Addr) (protocol port : Z) : bool :=
  existsb (λ rule,
    if negb (matchesSource rule source) || negb (matchesProtocol rule protocol) then false
    else existsb (λ target, matchesDestination target destination port) (elems (ar_Destinations rule)))
    (elems (av_Rules view)).

(** ** Ranges as prefixes *)

(** One iteration of [setHostBits]: Go's truncated division, and a shift whose
    result is a byte. *)
Definition setHostBit (address : list byte) (bit : Z) : list byte :=
  alter (λ b, z2b (Z.lor (b2z b) (uwrap 8 (Z.shiftl 1 (7 - Z.rem bit 8)))))
    (Z.to_nat (Z.quot bit 8)) address.

Definition setHostBits (address : list byte) (prefixBits : Z) : list byte :=
  let size := Z.of_nat (length address) * 8 in
  fold_left setHostBit ((λ i, prefixBits + Z.of_nat i) <$> seq 0 (Z.to_nat (size - prefixBits))) address.

Definition prefixLastAddress (prefix : Prefix) : Addr :=
  let prefix := Masked prefix in
  let address := p_addr prefix in
  if Is4 address then AddrFrom4 (setHostBits (As4 address) (p_bits prefix))
  else AddrFrom16 (setHostBits (As16 address) (p_bits prefix)).

(** The inner loop: shorten the prefix while it starts at [start] and does not
    run past [finish]. *)
Fixpoint shortenPrefix (prefixBits : nat) (start finish : Addr) : nat :=
  match prefixBits with
  | O => O
  | S bits =>
      let candidate := Masked (PrefixFrom start (Z.of_nat bits)) in
      if negb (bool_decide (p_addr candidate = start))
         || (0 <? addr_compare (prefixLastAddress candidate) finish)
      then prefixBits else shortenPrefix bits start finish
  end.

(** The outer loop; [None] when [fuel] iterations did not finish it. *)
Fixpoint rangeLoop (fuel : nat) (start finish : Addr) (result : list Prefix) : option (list Prefix) :=
  match fuel with
  | O => None
  | S fuel =>
      if 0 <? addr_compare start finish then Some result
      else
        let prefixBits := shortenPrefix (Z.to_nat (BitLen start)) start finish in
        let prefix := Masked (PrefixFrom start (Z.of_nat prefixBits)) in
        let result := (result ++ [prefix])%list in
        let last := prefixLastAddress prefix in
        if bool_decide (last = finish) then Some result
        else rangeLoop fuel (addr_next last) finish result
  end.

(** Twice the bit length bounds the iterations: first the blocks grow, then
    they shrink. *)
Definition rangeFuel (start : Addr) : nat := Z.to_nat (2 * BitLen start + 2).

(** The outer option is the fuel, the inner one a nil slice. *)
Definition addressRangePrefixes (start finish : Addr) : option (slice Prefix) :=
  let start := Unmap start in
  let finish := Unmap finish in
  if negb (IsValid start) || negb (BitLen start =? BitLen finish) || (0 <? addr_compare start finish)
  then Some None
  else Some <$> rangeLoop (rangeFuel start) start finish [].

(** ** Conversion to a gonnect firewall *)

(** The gonnect structs the conversion fills in. *)
Record FirewallPortRange := mkFirewallPortRange { fp_First : Z; fp_Last : Z }.

Record FirewallRule := mkFirewallRule {
  fr_Network : string;
  fr_Hosts : slice string;
  fr_LocalHosts : slice string;
  fr_Ports : slice Z;
  fr_PortRanges : slice FirewallPortRange
}.

Record FirewallConfig := mkFirewallConfig { fc_Include : slice FirewallRule }.

Definition pointerValue {T} (value : option T) (fallback : T) : T :=
  match value with None => fallback | Some v => v end.

Definition firewallHostSelectors (raw : string) (bits : Z) : option (slice string) :=
  if bool_decide (raw = "*") then Some (Some ["*"])
  else if ContainsChar "/"%char raw then
    match ParsePrefix raw with
    | None => Some None
    | Some prefix => Some (Some [prefix_string (Masked (unmapPrefix prefix))])
    end
  else match CutChar "-"%char raw with
       | Some (first, last) =>
           match ParseAddr first, ParseAddr last with
           | Some start, Some finish =>
               let start := Unmap start in
               let finish := Unmap finish in
               if negb (BitLen start =? BitLen finish) || (0 <? addr_compare start finish)
               then Some None
               else prefixes ← addressRangePrefixes start finish;
                    Some (Some (prefix_string <$> elems prefixes))
           | _, _ => Some None
           end
       | None =>
           match ParseAddr raw with
           | None => Some None
           | Some address =>
               let '(address, bits) := unmapAddressBits address bits in
               if bits <? 0 then Some (Some [addr_string address])
               else match addr_prefix address bits with
                    | None => Some None
                    | Some prefix => Some (Some [prefix_string (Masked prefix)])
                    end
           end
       end.

(** [firewallSourceHosts]: the selectors of all sources, in order. *)
Fixpoint collectHosts (rule : ACLRule) (index : nat) (sources : list string) (result : slice string)
    : option (slice string) :=
  match sources with
  | [] => Some result
  | raw :: sources =>
      hosts ← firewallHostSelectors raw (sourceBits rule index);
      collectHosts rule (S index) sources (append result (elems hosts))
  end.

Definition firewallSourceHosts (rule : ACLRule) : option (slice string) :=
  collectHosts rule 0 (elems (ar_SourceIPs rule)) None.

Definition firewallNetwork (protocol : Z) : option string :=
  if (protocol <? 0) || (255 <? protocol) then None
  else if protocol =? 6 then Some "tcp"
  else if protocol =? 17 then Some "udp"
  else Some ("ip:" +:+ Itoa protocol).

Definition firewallNetworks (protocols : list Z) : list string :=
  let protocols := match protocols with [] => [1; 6; 17; 58] | _ => protocols end in
  compact (omap firewallNetwork protocols).

(** The port selection of one rule: no restriction for the full range. *)
Definition firewallRule (network : string) (hosts localHosts : slice string) (ports : PortRange)
    : FirewallRule :=
  let first := pr_First ports in
  let last := pr_Last ports in
  if (first =? 0) && (last =? 65535) then mkFirewallRule network hosts localHosts None None
  else if first =? last then mkFirewallRule network hosts localHosts (Some [first]) None
  else mkFirewallRule network hosts localHosts None (Some [mkFirewallPortRange first last]).

Definition firewallDestination (networks : list string) (hosts : slice string)
    (include : slice FirewallRule) (destination : ACLDestination) : option (slice FirewallRule) :=
  localHosts ← firewallHostSelectors (ad_IP destination) (pointerValue (ad_Bits destination) (-1));
  if (length (elems localHosts) =? 0)%nat
     || (pr_Last (ad_Ports destination) <? pr_First (ad_Ports destination)) then Some include
  else Some (append include
         ((λ network, firewallRule network hosts localHosts (ad_Ports destination)) <$> networks)).

(** A fold whose step can run out of fuel. *)
Fixpoint ofold {A B} (f : B → A → option B) (l : list A) (b : B) : option B :=
  match l with
  | [] => Some b
  | x :: l => b ← f b x; ofold f l b
  end.

Definition firewallACLRule (include : slice FirewallRule) (aclRule : ACLRule) : option (slice FirewallRule) :=
  hosts ← firewallSourceHosts aclRule;
  if (length (elems hosts) =? 0)%nat then Some include
  else ofold (firewallDestination (firewallNetworks (elems (ar_IPProtocols aclRule))) hosts)
         (elems (ar_Destinations aclRule)) include.

(** [ACLView.FirewallConfig]; [optimize] is gonnect's [FirewallConfig.Optimize]. *)
Definition FirewallConfig_of (optimize : FirewallConfig → FirewallConfig) (view : ACLView)
    : option FirewallConfig :=
  include ← ofold firewallACLRule (elems (av_Rules view)) None;
  Some (optimize (mkFirewallConfig include)).

(** [Client.ACLFirewallConfig] converts the view [Client.ACL()] returns. *)
Definition ACLFirewallConfig (optimize : FirewallConfig → FirewallConfig) (view : ACLView)
    : option FirewallConfig :=
  FirewallConfig_of optimize view.

Definition parse_demo (s : string) : Addr := default AddrZero (ParseAddr s).

Example range_demo :
  (elems <$> addressRangePrefixes (parse_demo "10.0.0.1") (parse_demo "10.0.0.6")) =
  Some (default (mkPrefix AddrZero 0) <$> [ParsePrefix "10.0.0.1/32"; ParsePrefix "10.0.0.2/31";
        ParsePrefix "10.0.0.4/31"; ParsePrefix "10.0.0.6/32"])
  ∧ (elems <$> addressRangePrefixes (parse_demo "::") (parse_demo "ffff:ffff:ffff:ffff:ffff:ffff:ffff:ffff"))
    = Some [mkPrefix (Addr6 0 "") 0].
Proof. split; vm_compute; reflexivity. Qed.

(** ** The last address of a prefix *)

Lemma length_setHostBit l bit : length (setHostBit l bit) = length l.
Proof. apply length_alter. Qed.

(** One iteration sets one bit of the address. *)
Lemma setHostBit_val l bit :
  0 ≤ bit < 8 * Z.of_nat (length l) →
  be_decode (setHostBit l bit) = Z.lor (be_decode l) (2 ^ (8 * Z.of_nat (length l) - 1 - bit)).
Proof.
  intros Hb. unfold setHostBit. rewrite Z.quot_div_nonneg, Z.rem_mod_nonneg by lia.
  pose proof (Z.div_mod bit 8 ltac:(lia)). pose proof (Z.mod_pos_bound bit 8 ltac:(lia)).
  set (i := Z.to_nat (bit / 8)).
  assert (i < length l)%nat as Hi by lia.
  destruct (lookup_lt_is_Some_2 l i Hi) as [b Hl].
  rewrite <-(take_drop_middle l i b Hl) at 1 2.
  rewrite alter_app_r_alt by (rewrite length_take; lia).
  replace (i - length (take i l))%nat with 0%nat by (rewrite length_take; lia). cbn [alter list_alter].
  rewrite Z.shiftl_mul_pow2, Z.mul_1_l by lia.
  rewrite (uwrap_small 8) by (split; [lia|]; apply Z.pow_lt_mono_r; lia).
  rewrite be_decode_set_bit by lia. do 2 f_equal. rewrite length_drop. lia.
Qed.

(** [setHostBits] turns every host bit on and keeps the length. *)
Lemma setHostBits_spec l prefixBits :
  0 ≤ prefixBits ≤ 8 * Z.of_nat (length l) →
  length (setHostBits l prefixBits) = length l ∧
  be_decode (setHostBits l prefixBits) =
    Z.lor (be_decode l) (Z.ones (8 * Z.of_nat (length l) - prefixBits)).
Proof.
  intros Hp. unfold setHostBits. rewrite (Z.mul_comm _ 8).
  remember (Z.to_nat (8 * Z.of_nat (length l) - prefixBits)) as n eqn:Hn.
  replace (8 * Z.of_nat (length l) - prefixBits) with (Z.of_nat n) by lia.
  revert l prefixBits Hp Hn. induction n as [|n IH]; intros l pb Hp Hn.
  { cbn. by rewrite Z.lor_0_r. }
  cbn [seq fmap list_fmap fold_left]. rewrite Z.add_0_r.
  rewrite <-seq_shift, <-list_fmap_compose.
  rewrite (list_fmap_ext _ (λ i, pb + 1 + Z.of_nat i) (seq 0 n)) by (intros ? ? _; cbn; lia).
  destruct (IH (setHostBit l pb) (pb + 1)) as [Hl Hd]; rewrite ?length_setHostBit; [lia..|].
  rewrite Hl, Hd, length_setHostBit, setHostBit_val by lia. split; [done|].
  rewrite <-Z.lor_assoc. f_equal.
  replace (8 * Z.of_nat (length l) - 1 - pb) with (Z.of_nat n) by lia.
  rewrite lor_ones_succ by lia. f_equal. lia.
Qed.

Lemma mask_ones_last w bits v :
  0 ≤ bits ≤ w → 0 ≤ v →
  Z.lor (mask_val w bits v) (Z.ones (w - bits)) = mask_val w bits v + (2 ^ (w - bits) - 1).
Proof.
  intros Hb Hv. rewrite <-Z.lxor_lor, <-Z.add_nocarry_lxor, Z.ones_equiv; [lia|..];
    apply Z.bits_inj'; intros i Hi; unfold mask_val;
    rewrite Z.land_spec, Z.bits_0, Z.testbit_ones_nonneg by lia;
    destruct (Z.ltb_spec i (w - bits)); rewrite ?andb_false_r; try done;
    by rewrite Z.shiftl_spec_low by lia.
Qed.

(** The byte loop computes the arithmetic last address of the block. *)
Lemma prefixLastAddress_val a bits :
  addr_wf a → IsValid a = true → 0 ≤ bits ≤ BitLen a →
  let last := prefixLastAddress (Masked (PrefixFrom a bits)) in
  BitLen last = BitLen a ∧ addr_zone last = "" ∧
  addr_val last = mask_val (BitLen a) bits (addr_val a) + (2 ^ (BitLen a - bits) - 1).
Proof.
  intros Hwf Hv Hb. unfold prefixLastAddress.
  destruct (Masked_PrefixFrom a bits Hv Hb) as [E ->]. rewrite E. cbn [p_addr p_bits].
  pose proof (addr_val_range a Hwf) as Hr.
  pose proof (mask_val_range (BitLen a) bits (addr_val a) Hb Hr) as Hmr.
  destruct a as [|v|v z]; [done|..]; cbn [network_addr Is4 BitLen addr_val] in *.
  - destruct (setHostBits_spec (be_encode 4 (mask_val 32 bits v)) bits) as [Hlen Hd];
      rewrite length_be_encode in *; [lia|].
    unfold As4, AddrFrom4; cbn [BitLen addr_zone addr_val].
    rewrite Hd, be_decode_encode by (change (256 ^ Z.of_nat 4) with (2 ^ 32); lia).
    change (8 * Z.of_nat 4) with 32. rewrite mask_ones_last by lia. auto.
  - destruct (setHostBits_spec (be_encode 16 (mask_val 128 bits v)) bits) as [Hlen Hd];
      rewrite length_be_encode in *; [lia|].
    unfold As16, AddrFrom16; cbn [BitLen addr_zone addr_val].
    rewrite Hd, be_decode_encode by (change (256 ^ Z.of_nat 16) with (2 ^ 128); lia).
    change (8 * Z.of_nat 16) with 128. rewrite mask_ones_last by lia. auto.
Qed.

(** ** The range loop

    The loop is analysed on values: [with_val finish s] is the address of
    [finish]'s family with value [s]. *)

Definition with_val (a : Addr) (v : Z) : Addr :=
  match a with AddrZero => AddrZero | Addr4 _ => Addr4 v | Addr6 _ _ => Addr6 v "" end.

(** The aligned block of [2 ^ k] addresses at [s] does not run past [e]. *)
Definition block (s e k : Z) : Prop := (2 ^ k | s) ∧ s + 2 ^ k - 1 ≤ e.

(** [ps] cuts the values from [s] to the last address of [finish]'s range into
    consecutive aligned blocks. *)
Inductive tiles (finish : Addr) (e : Z) : Z → list Prefix → Prop :=
| tiles_last s k :
    0 ≤ k ≤ BitLen finish → block s e k → s + 2 ^ k - 1 = e →
    tiles finish e s [mkPrefix (with_val finish s) (BitLen finish - k)]
| tiles_cons s k ps :
    0 ≤ k ≤ BitLen finish → block s e k → s + 2 ^ k ≤ e → tiles finish e (s + 2 ^ k) ps →
    tiles finish e s (mkPrefix (with_val finish s) (BitLen finish - k) :: ps).

Section RangeLoop.
Context (finish : Addr) (Hwf : addr_wf finish) (Hvalid : IsValid finish = true)
  (Hzone : addr_zone finish = "").

Let w := BitLen finish.
Let e := addr_val finish.

Local Lemma with_val_facts v :
  BitLen (with_val finish v) = w ∧ IsValid (with_val finish v) = true ∧
  addr_zone (with_val finish v) = "" ∧ addr_val (with_val finish v) = v.
Proof. unfold w. destruct finish; done. Qed.

Local Lemma e_range : 0 ≤ e < 2 ^ w.
Proof. apply addr_val_range, Hwf. Qed.

Local Lemma w_pos : 0 < w.
Proof. unfold w. destruct finish; done. Qed.

Local Lemma with_val_wf v : 0 ≤ v < 2 ^ w → addr_wf (with_val finish v).
Proof. unfold w. destruct finish; done. Qed.

Local Lemma network_with_val v bits :
  network_addr (with_val finish v) bits = with_val finish (mask_val w bits v).
Proof. unfold w. destruct finish; done. Qed.

Local Lemma with_val_inj v v' : with_val finish v = with_val finish v' ↔ v = v'.
Proof. clear -Hvalid. destruct finish; [done|..]; cbn; split; congruence. Qed.

Local Lemma finish_with_val : with_val finish e = finish.
Proof. unfold e. destruct finish; cbn in *; congruence. Qed.

(** The last address of a block, as the code computes it. *)
Local Lemma last_with_val s k :
  0 ≤ s < 2 ^ w → 0 ≤ k ≤ w → (2 ^ k | s) →
  Masked (PrefixFrom (with_val finish s) (w - k)) = mkPrefix (with_val finish s) (w - k) ∧
  prefixLastAddress (mkPrefix (with_val finish s) (w - k)) = with_val finish (s + 2 ^ k - 1).
Proof.
  intros Hs Hk Hd. destruct (with_val_facts s) as (HL & HV & HZ & Hval).
  assert (mask_val w (w - k) s = s) as Hm
    by (apply mask_val_fix; [lia|]; by replace (w - (w - k)) with k by lia).
  destruct (Masked_PrefixFrom (with_val finish s) (w - k) HV ltac:(lia)) as [E _].
  rewrite network_with_val, Hm in E. split; [done|]. rewrite <-E.
  destruct (prefixLastAddress_val (with_val finish s) (w - k) (with_val_wf s Hs) HV ltac:(lia))
    as (HL' & HZ' & Hv'). rewrite HL, Hval, Hm in Hv'. rewrite HL in HL'.
  destruct (with_val_facts (s + 2 ^ k - 1)) as (HL2 & _ & HZ2 & Hv2).
  apply addr_eq_val; [done..|congruence|]. rewrite Hv', Hv2.
  replace (w - (w - k)) with k by lia. lia.
Qed.

Local Lemma compare_finish v : addr_compare (with_val finish v) finish = zcmp v e.
Proof.
  destruct (with_val_facts v) as (HL & _ & HZ & Hv).
  by rewrite (addr_compare_same _ _ HZ Hzone HL), Hv.
Qed.

(** The inner loop stops at the largest block that starts at [s] and fits. *)
Local Lemma shortenPrefix_spec s n :
  0 ≤ s < 2 ^ w → Z.of_nat n ≤ w → block s e (w - Z.of_nat n) →
  ∃ k, shortenPrefix n (with_val finish s) finish = Z.to_nat (w - k) ∧
    0 ≤ k ≤ w ∧ block s e k ∧ (k = w ∨ ¬ block s e (k + 1)).
Proof.
  intros Hs. induction n as [|n IH]; intros Hn Hb.
  { exists w. cbn [shortenPrefix]. rewrite Z.sub_0_r in Hb. pose proof w_pos. split_and!; auto; lia. }
  cbn [shortenPrefix]. set (m := w - Z.of_nat n).
  assert (mask_val w (Z.of_nat n) s = s ↔ (2 ^ m | s)) as Hm by (apply mask_val_fix; lia).
  destruct (with_val_facts s) as (HL & HV & _ & _).
  destruct (Masked_PrefixFrom (with_val finish s) (Z.of_nat n) HV ltac:(lia)) as [E _].
  rewrite E, network_with_val. cbn [p_addr].
  assert (Hmax : ∀ k, k = m - 1 → ¬ block s e m → k = w ∨ ¬ block s e (k + 1))
    by (intros k -> ?; right; by replace (m - 1 + 1) with m by lia).
  case_bool_decide as Ea; cbn [negb orb].
  - apply with_val_inj in Ea. rewrite Ea. replace (Z.of_nat n) with (w - m) by lia.
    destruct (last_with_val s m Hs ltac:(lia) (proj1 Hm Ea)) as [_ ->].
    rewrite compare_finish.
    destruct (Z.ltb_spec 0 (zcmp (s + 2 ^ m - 1) e)) as [Hc|Hc].
    + exists (m - 1). assert (¬ s + 2 ^ m - 1 ≤ e) by (rewrite <-zcmp_le; lia).
      replace (w - Z.of_nat (S n)) with (m - 1) in Hb by lia.
      split_and!; [lia..|done|]. apply Hmax; [done|]. unfold block. tauto.
    + rewrite zcmp_le in Hc. destruct IH as (k & Hk); [lia|split; [by apply Hm|exact Hc]|].
      exists k. by replace (Z.of_nat n) with (w - m) in Hk by lia.
  - exists (m - 1). replace (w - Z.of_nat (S n)) with (m - 1) in Hb by lia.
    split_and!; [lia..|done|]. apply Hmax; [done|]. intros [Hd _].
    apply Ea. by rewrite (proj2 Hm Hd).
Qed.

(** One iteration of the outer loop. *)
Local Lemma rangeLoop_step fuel s res :
  0 ≤ s ≤ e →
  ∃ k, 0 ≤ k ≤ w ∧ block s e k ∧ (k = w ∨ ¬ block s e (k + 1)) ∧
    rangeLoop (S fuel) (with_val finish s) finish res =
    (if bool_decide (s + 2 ^ k - 1 = e) then Some (res ++ [mkPrefix (with_val finish s) (w - k)])%list
     else rangeLoop fuel (with_val finish (s + 2 ^ k)) finish
            (res ++ [mkPrefix (with_val finish s) (w - k)])%list).
Proof.
  intros Hs. pose proof e_range as He. pose proof w_pos as Hw.
  destruct (with_val_facts s) as (HL & _).
  destruct (shortenPrefix_spec s (Z.to_nat w)) as (k & Hsp & Hk & Hb & Hmax).
  { lia. } { lia. }
  { rewrite Z2Nat.id, Z.sub_diag by lia. split; [by exists s; lia|lia]. }
  exists k. split_and!; [lia..|done|done|]. cbn [rangeLoop].
  rewrite compare_finish, (proj2 (Z.ltb_ge _ _)) by (rewrite zcmp_le; lia).
  rewrite HL, Hsp, Z2Nat.id by lia.
  destruct (last_with_val s k ltac:(lia) Hk (proj1 Hb)) as [-> ->].
  assert (with_val finish (s + 2 ^ k - 1) = finish ↔ s + 2 ^ k - 1 = e) as Hfin
    by (rewrite <-(with_val_inj _ e), finish_with_val; done).
  rewrite (bool_decide_ext _ _ Hfin). case_bool_decide as E; [done|].
  f_equal. destruct Hb as [_ Hb]. rewrite (Z.add_comm s), <-Z.add_sub_assoc in *.
  clear -He Hb E Hvalid Hk Hs. unfold w, e in *.
  assert (0 < 2 ^ k) by lia.
  destruct finish as [|v|v z]; [done|..]; cbn [with_val addr_next BitLen addr_val] in *;
    rewrite uwrap_small, (proj2 (Z.eqb_neq _ 0)) by lia; f_equal; lia.
Qed.

(** Once the block size is limited by the end of the range, every further
    block is smaller. *)
Local Lemma rangeLoop_shrinking L : ∀ fuel s res,
  0 ≤ s ≤ e → (2 ^ Z.of_nat L | s) → e - s + 1 < 2 ^ Z.of_nat L → (L ≤ fuel)%nat →
  ∃ ps, rangeLoop fuel (with_val finish s) finish res = Some (res ++ ps)%list ∧ tiles finish e s ps.
Proof.
  induction (lt_wf L) as [L _ IH]. intros [|fuel] s res Hs Hd Hn Hf.
  { replace L with 0%nat in Hn by lia. lia. }
  destruct (rangeLoop_step fuel s res Hs) as (k & Hk & Hb & Hmax & ->).
  pose proof e_range as He. destruct (Hb) as [Hkd Hke].
  case_bool_decide as E; [eauto using tiles|].
  assert (k < Z.of_nat L) as HkL by (apply (Z.pow_lt_mono_r_iff 2); lia).
  assert (e - (s + 2 ^ k) + 1 < 2 ^ k) as Hn'.
  { destruct Hmax as [->|Hmax]; [lia|].
    apply Z.nle_gt. intros ?. apply Hmax. split.
    - transitivity (2 ^ Z.of_nat L); [|done].
      exists (2 ^ (Z.of_nat L - (k + 1))). rewrite <-Z.pow_add_r by lia. f_equal. lia.
    - rewrite Z.pow_add_r by lia. lia. }
  destruct (IH (Z.to_nat k) ltac:(lia) fuel (s + 2 ^ k)
    (res ++ [mkPrefix (with_val finish s) (w - k)])%list) as (ps & -> & Ht).
  { lia. } { rewrite Z2Nat.id by lia. apply Z.divide_add_r; [done|apply Z.divide_refl]. }
  { rewrite Z2Nat.id; lia. } { lia. }
  eexists. rewrite <-app_assoc. split; [done|]. apply tiles_cons; auto; lia.
Qed.

(** While the alignment of the start limits the block size, the alignment
    grows by at least one bit per iteration. *)
Local Lemma rangeLoop_growing d : ∀ a L fuel s res,
  (a + d = L)%nat → 0 ≤ s ≤ e → (2 ^ Z.of_nat a | s) → e - s + 1 < 2 ^ Z.of_nat L →
  (d + L ≤ fuel)%nat →
  ∃ ps, rangeLoop fuel (with_val finish s) finish res = Some (res ++ ps)%list ∧ tiles finish e s ps.
Proof.
  induction d as [|d IH]; intros a L fuel s res Ha Hs Hd Hn Hf.
  { apply (rangeLoop_shrinking L); [done| |done|lia]. by replace L with a by lia. }
  destruct fuel as [|fuel]; [lia|].
  destruct (rangeLoop_step fuel s res Hs) as (k & Hk & Hb & Hmax & ->).
  pose proof e_range as He. destruct (Hb) as [[q Hq] Hke].
  case_bool_decide as E; [eauto using tiles|].
  assert (k < Z.of_nat L) as HkL by (apply (Z.pow_lt_mono_r_iff 2); lia).
  assert (k ≠ w) as Hkw by (intros ->; lia).
  destruct Hmax as [?|Hmax]; [lia|]. unfold block in Hmax. rewrite Z.pow_add_r in Hmax by lia.
  assert (∃ ps, rangeLoop fuel (with_val finish (s + 2 ^ k)) finish
      (res ++ [mkPrefix (with_val finish s) (w - k)])%list
      = Some ((res ++ [mkPrefix (with_val finish s) (w - k)]) ++ ps)%list ∧
      tiles finish e (s + 2 ^ k) ps) as (ps & -> & Ht).
  { destruct (Znumtheory.Zdivide_dec (2 ^ k * 2 ^ 1) s) as [Hd2|Hd2].
    - apply (rangeLoop_shrinking (Z.to_nat k)); rewrite ?Z2Nat.id by lia; [lia|..| |lia].
      + exists (q + 1). lia.
      + apply Z.nle_gt. intros ?. apply Hmax. split; [done|lia].
    - assert (Z.of_nat a ≤ k) as Hak.
      { apply Z.nlt_ge. intros ?. apply Hd2. transitivity (2 ^ Z.of_nat a); [|done].
        exists (2 ^ (Z.of_nat a - (k + 1))).
        rewrite <-!Z.pow_add_r by lia. f_equal. lia. }
      apply (IH (S a) L); [lia|lia| |lia|lia].
      destruct (Z.Even_or_Odd q) as [[r Hr]|[r Hr]].
      { exfalso. apply Hd2. exists r. lia. }
      transitivity (2 ^ (k + 1)).
      + exists (2 ^ (k + 1 - Z.of_nat (S a))). rewrite <-Z.pow_add_r by lia. f_equal. lia.
      + exists (r + 1). rewrite Z.pow_add_r by lia. lia. }
  eexists. rewrite <-app_assoc. split; [done|]. apply tiles_cons; auto; lia.
Qed.

(** The loop terminates within [rangeFuel] iterations and tiles the range. *)
Lemma rangeLoop_tiles s :
  0 ≤ s ≤ e →
  ∃ ps, rangeLoop (rangeFuel (with_val finish s)) (with_val finish s) finish [] = Some ps ∧
    tiles finish e s ps.
Proof.
  intros Hs. pose proof e_range. pose proof w_pos.
  destruct (with_val_facts s) as (HL & _).
  destruct (rangeLoop_growing (S (Z.to_nat w)) 0 (S (Z.to_nat w))
    (rangeFuel (with_val finish s)) s []) as (ps & -> & Ht); eauto.
  - exists s. lia.
  - replace (Z.of_nat (S (Z.to_nat w))) with (w + 1) by lia. rewrite Z.pow_add_r; lia.
  - unfold rangeFuel. rewrite HL. lia.
Qed.
End RangeLoop.

Lemma with_val_facts' finish v :
  IsValid finish = true →
  BitLen (with_val finish v) = BitLen finish ∧ addr_val (with_val finish v) = v.
Proof. by destruct finish. Qed.

(** A tiling contains exactly the addresses of its range, each in one prefix. *)
Lemma tiles_cover finish e s ps a :
  IsValid finish = true → BitLen a = BitLen finish → addr_zone a = "" → tiles finish e s ps →
  Exists (λ p, Contains p a = true) ps ↔ s ≤ addr_val a ≤ e.
Proof.
  intros Hv HL Hz Ht.
  assert (BitLen a ≠ 0) by (rewrite HL; by destruct finish).
  assert (∀ s k, 0 ≤ k ≤ BitLen finish → (2 ^ k | s) →
    Contains (mkPrefix (with_val finish s) (BitLen finish - k)) a = true ↔
    s ≤ addr_val a < s + 2 ^ k) as Hone.
  { intros s' k Hk Hd. destruct (with_val_facts' finish s' Hv) as [HL' Hval].
    rewrite Contains_block by (cbn [p_addr p_bits]; done || congruence || lia).
    cbn [p_addr p_bits]. rewrite Hval, HL.
    assert (mask_val (BitLen finish) (BitLen finish - k) s' = s') as ->.
    { apply mask_val_fix; [lia|]. by replace (BitLen finish - (BitLen finish - k)) with k by lia. }
    by replace (BitLen finish - (BitLen finish - k)) with k by lia. }
  induction Ht as [s k Hk [Hd He] Hl|s k ps Hk [Hd He] Hn Ht IH].
  - rewrite Exists_cons, Exists_nil, Hone by done. lia.
  - rewrite Exists_cons, IH, Hone by done. lia.
Qed.

(** Every prefix of a tiling is valid and masked. *)
Lemma tiles_valid finish e s ps :
  IsValid finish = true → tiles finish e s ps → Forall (λ p, prefix_is_valid p = true) ps.
Proof.
  intros Hv. induction 1; repeat constructor; try done; apply Z.leb_le; cbn; lia.
Qed.

Lemma with_val_self finish a :
  BitLen a = BitLen finish → addr_zone a = "" → IsValid finish = true →
  with_val finish (addr_val a) = a.
Proof. destruct finish, a; cbn; congruence. Qed.

(** The result of the conversion, for two addresses without zone. *)
Lemma range_prefixes_spec (start finish : Addr)
    (Hs : addr_wf start) (Hf : addr_wf finish)
    (Hzs : addr_zone (Unmap start) = "") (Hzf : addr_zone (Unmap finish) = "") :
  ∃ ps, addressRangePrefixes start finish = Some ps ∧
    ∀ a, Exists (λ p, Contains p a = true) (elems ps) ↔
      addr_zone a = "" ∧ IsValid a = true ∧
      BitLen a = BitLen (Unmap start) ∧ BitLen a = BitLen (Unmap finish) ∧
      addr_val (Unmap start) ≤ addr_val a ≤ addr_val (Unmap finish).
Proof.
  unfold addressRangePrefixes.
  apply Unmap_wf in Hs, Hf. set (s := Unmap start) in *. set (f := Unmap finish) in *.
  assert (∀ a, BitLen a = 0 ↔ IsValid a = false) as HB by (intros []; cbn; split; done || lia).
  destruct (_ || _ || _) eqn:E.
  { exists None. split; [done|]. intros a. cbn. rewrite Exists_nil. split; [done|].
    intros (Hz & Hv & HL1 & HL2 & Hr).
    assert (IsValid s = true) as Hsv
      by (apply not_false_iff_true; rewrite <-HB, <-HL1, HB; congruence).
    rewrite Hsv, <-HL1, HL2, Z.eqb_refl in E. cbn [negb orb] in E. bool_to_prop.
    rewrite addr_compare_same in E by congruence.
    assert (¬ addr_val s ≤ addr_val f) by (rewrite <-zcmp_le; lia). lia. }
  apply orb_false_iff in E as [[E1%negb_false_iff E2%negb_false_iff%Z.eqb_eq]%orb_false_iff E3%Z.ltb_ge].
  assert (IsValid f = true) as Hfv.
  { apply not_false_iff_true. rewrite <-HB, <-E2, HB. congruence. }
  rewrite addr_compare_same, zcmp_le in E3 by done.
  pose proof (addr_val_range s Hs).
  destruct (rangeLoop_tiles f Hf Hfv Hzf (addr_val s)) as (ps & Hl & Ht); [lia|].
  rewrite with_val_self in Hl by done. rewrite Hl. exists (Some ps). split; [done|].
  intros a. cbn [elems default]. split.
  - intros He. pose proof He as (p & Hp & Hc)%Exists_exists. apply Contains_family in Hc as (Hz & HL & Hn).
    assert (BitLen a = BitLen f) as HLf.
    { rewrite <-HL. clear -Ht Hp Hfv. induction Ht; apply elem_of_cons in Hp as [->|Hp]; auto;
        [by destruct f|by apply not_elem_of_nil in Hp|by destruct f]. }
    apply (tiles_cover f _ _ _ a) in Ht; [|done..].
    split_and!; [done| |congruence|done|by apply Ht..].
    apply not_false_iff_true. by rewrite <-HB.
  - intros (Hz & _ & _ & HLf & Hr). by eapply tiles_cover.
Qed.



(** ** Selectors and queries agree *)

(** What one selector string of the firewall stands for. *)
Inductive selector :=
| SelAny
| SelHost (a : Addr)
| SelNet (p : Prefix).

Definition selector_string (s : selector) : string :=
  match s with SelAny => "*" | SelHost a => addr_string a | SelNet p => prefix_string p end.

Definition selector_matches (s : selector) (a : Addr) : bool :=
  match s with SelAny => true | SelHost h => bool_decide (h = a) | SelNet p => Contains p a end.

Lemma ContainsChar_cut raw first last :
  ContainsChar "%" raw = false → CutChar "-" raw = Some (first, last) →
  ContainsChar "%" first = false ∧ ContainsChar "%" last = false.
Proof.
  intros Hz Hc. apply CutChar_Some in Hc as [-> _]. rewrite ContainsChar_app in Hz.
  cbn in Hz. by apply orb_false_iff in Hz.
Qed.

Lemma Unmap_zone a : addr_zone a = "" → addr_zone (Unmap a) = "".
Proof. destruct a; cbn; try done. by case_match. Qed.

Lemma Unmap_BitLen a : IsValid a = true → BitLen (Unmap a) ≠ 0.
Proof. destruct a; cbn; try done. by case_match. Qed.

(** Normalising a parsed prefix keeps it usable. *)
Lemma unmapPrefix_usable p :
  IsValid (p_addr p) = true → 0 ≤ p_bits p ≤ BitLen (p_addr p) →
  IsValid (p_addr (unmapPrefix p)) = true ∧ 0 ≤ p_bits (unmapPrefix p) ≤ BitLen (p_addr (unmapPrefix p)).
Proof.
  intros Hv Hb. unfold unmapPrefix. destruct (_ || _ || _) eqn:E; [done|].
  apply orb_false_iff in E as [[_ E1%negb_false_iff]%orb_false_iff E2%Z.ltb_ge].
  destruct (p_addr p) as [|v|v z] eqn:Ea; [done..|]. unfold Unmap. rewrite E1. cbn [BitLen] in Hb.
  destruct (Masked_PrefixFrom (Addr4 (Z.land v (2 ^ 32 - 1))) (p_bits p - 96)) as [-> _];
    cbn [IsValid BitLen network_addr p_addr p_bits]; done || lia.
Qed.

Lemma matchesIP_unmap raw bits a : matchesIP raw bits (Unmap a) = matchesIP raw bits a.
Proof. unfold matchesIP. by rewrite !Unmap_idemp. Qed.

(** The strings [sel] denote selectors that match an address exactly when the
    query [q] holds of it. *)
Definition selects (sel : slice string) (q : Addr → bool) : Prop :=
  ∃ sels, elems sel = selector_string <$> sels ∧
    ∀ a, addr_zone a = "" → IsValid a = true →
      q a = existsb (λ s, selector_matches s (Unmap a)) sels.

Lemma selects_nothing q : (∀ a, q a = false) → selects None q.
Proof. intros Hq. exists []. split; [done|]. intros a _ _. by rewrite Hq. Qed.

Lemma selects_net p q :
  IsValid (p_addr p) = true → 0 ≤ p_bits p ≤ BitLen (p_addr p) →
  (∀ a, q a = Contains p (Unmap a)) → selects (Some [prefix_string (Masked p)]) q.
Proof.
  intros Hv Hb Hq. exists [SelNet (Masked p)]. split; [done|]. intros a _ _. rewrite Hq. cbn.
  rewrite orb_false_r. destruct p as [pa pb]. by rewrite Contains_Masked.
Qed.

Lemma existsb_Exists {A} (f : A → bool) l : existsb f l = true ↔ Exists (λ x, f x = true) l.
Proof. rewrite existsb_exists, Exists_exists. setoid_rewrite list_elem_of_In. done. Qed.

(** The range form: [start] and [finish] are already unmapped. *)
Lemma selects_range s f ps :
  addr_zone s = "" → addr_zone f = "" → Unmap s = s → Unmap f = f →
  (∀ a, Exists (λ p, Contains p a = true) (elems ps) ↔
      addr_zone a = "" ∧ IsValid a = true ∧ BitLen a = BitLen s ∧ BitLen a = BitLen f ∧
      addr_val s ≤ addr_val a ≤ addr_val f) →
  selects (Some (prefix_string <$> elems ps)) (λ a,
    if negb (BitLen s =? BitLen (Unmap a)) || negb (BitLen f =? BitLen (Unmap a)) then false
    else (addr_compare s (Unmap a) <=? 0) && (addr_compare (Unmap a) f <=? 0)).
Proof.
  intros Hzs Hzf Hus Huf Hps. exists (SelNet <$> elems ps).
  split; [by rewrite <-list_fmap_compose|]. intros a Hz Hv.
  assert (existsb (λ x, selector_matches x (Unmap a)) (SelNet <$> elems ps) =
          existsb (λ p, Contains p (Unmap a)) (elems ps)) as ->.
  { clear. induction (elems ps) as [|p l IH]; cbn; [done|]. f_equal. exact IH. }
  apply Bool.eq_iff_eq_true. rewrite existsb_Exists, Hps, Unmap_valid.
  pose proof (Unmap_zone a Hz) as Hz'.
  destruct (Z.eqb_spec (BitLen s) (BitLen (Unmap a))) as [E1|E1]; cbn [negb orb]; [|naive_solver].
  destruct (Z.eqb_spec (BitLen f) (BitLen (Unmap a))) as [E2|E2]; cbn [negb orb]; [|naive_solver].
  rewrite andb_true_iff, !Z.leb_le, !addr_compare_same, !zcmp_le by (done || congruence). naive_solver.
Qed.

(** The single-address form with a bit count. *)
Lemma unmapAddressBits_spec address bits :
  let '(a, b) := unmapAddressBits address bits in
  a = Unmap address ∧ (b <? 0) = (bits <? 0).
Proof.
  unfold unmapAddressBits. split; [done|]. destruct (Is4In6 address && _) eqn:E; bool_to_prop; [|done].
  by rewrite !(proj2 (Z.ltb_ge _ 0)) by lia.
Qed.

Lemma selects_addr base bits :
  IsValid base = true → 0 ≤ bits →
  ∃ sel, match addr_prefix (Unmap base) bits with
         | None => Some None
         | Some prefix => Some (Some [prefix_string (Masked prefix)])
         end = Some sel ∧
    selects sel (λ a, match addr_prefix (Unmap base) bits with
                      | Some prefix => Contains prefix (Unmap a)
                      | None => false
                      end).
Proof.
  intros Hv Hb. rewrite <-Unmap_valid in Hv. destruct (decide (bits ≤ BitLen (Unmap base))) as [Hle|Hgt].
  - rewrite addr_prefix_ok by (done || lia). eexists. split; [done|].
    destruct (network_addr_spec (Unmap base) bits) as (HL & HV & _).
    apply selects_net; cbn [p_addr p_bits]; [congruence|lia|done].
  - assert (addr_prefix (Unmap base) bits = None) as ->; [|eauto using selects_nothing].
    unfold addr_prefix. rewrite (proj2 (Z.ltb_ge bits 0)) by lia.
    destruct (Unmap base); [done|..]; cbn [BitLen] in Hgt; by rewrite (proj2 (Z.ltb_lt _ bits)) by lia.
Qed.

(** All forms of a selector text. *)
Lemma host_selectors_spec (raw : string) (bits : Z)
    (Hraw : ContainsChar "%" raw = false) :
  ∃ sel, firewallHostSelectors raw bits = Some sel ∧ selects sel (matchesIP raw bits).
Proof.
  unfold firewallHostSelectors, matchesIP.
  case_bool_decide; [eexists; split; [done|]; by exists [SelAny]|].
  destruct (ContainsChar "/" raw).
  { destruct (ParsePrefix raw) as [p|] eqn:Ep; [|eauto using selects_nothing].
    apply ParsePrefix_spec in Ep as (_ & Hv & _ & Hb).
    destruct (unmapPrefix_usable p Hv Hb). eauto using selects_net. }
  destruct (CutChar "-" raw) as [[first last]|] eqn:Ec.
  { destruct (ContainsChar_cut _ _ _ Hraw Ec) as [Hcf Hcl].
    destruct (ParseAddr first) as [s|] eqn:Es; [|eauto using selects_nothing].
    destruct (ParseAddr last) as [f|] eqn:Ef; [|eauto using selects_nothing].
    apply ParseAddr_spec in Es as (Hws & _ & Hzs), Ef as (Hwf & _ & Hzf).
    specialize (Unmap_zone s (Hzs Hcf)) as Hs. specialize (Unmap_zone f (Hzf Hcl)) as Hf.
    destruct (range_prefixes_spec (Unmap s) (Unmap f)) as (ps & Eps & Hps);
      rewrite ?Unmap_idemp; auto using Unmap_wf.
    rewrite !Unmap_idemp in Hps.
    pose proof (selects_range _ _ ps Hs Hf (Unmap_idemp s) (Unmap_idemp f) Hps) as Hsel.
    destruct (_ || (0 <? _)) eqn:E; [|rewrite Eps; eauto].
    exists None. split; [done|]. unfold addressRangePrefixes in Eps. rewrite !Unmap_idemp in Eps.
    rewrite <-orb_assoc, E, orb_true_r in Eps. injection Eps as <-. exact Hsel. }
  destruct (ParseAddr raw) as [b|] eqn:Eb; [|eauto using selects_nothing].
  apply ParseAddr_spec in Eb as (_ & Hv & _).
  pose proof (unmapAddressBits_spec b bits) as Hu.
  destruct (unmapAddressBits b bits) as [b' bits'] eqn:Eu. destruct Hu as [-> <-].
  destruct (Z.ltb_spec bits' 0) as [Hneg|Hpos]; [|by apply selects_addr].
  eexists. split; [done|]. exists [SelHost (Unmap b)]. split; [done|]. intros a _ _. cbn.
  by rewrite Unmap_idemp, orb_false_r.
Qed.



(** ** The whole conversion *)

(** No text of the rule names an IPv6 zone. *)
Definition rule_zoneless (rule : ACLRule) : Prop :=
  Forall (λ raw, ContainsChar "%" raw = false) (elems (ar_SourceIPs rule)) ∧
  Forall (λ d, ContainsChar "%" (ad_IP d) = false) (elems (ar_Destinations rule)).

(** A firewall rule without ports or port ranges admits every port. *)
Definition rule_port (r : FirewallRule) (port : Z) : bool :=
  match elems (fr_Ports r), elems (fr_PortRanges r) with
  | [], [] => true
  | ports, ranges =>
      existsb (Z.eqb port) ports || existsb (λ x, (fp_First x <=? port) && (port <=? fp_Last x)) ranges
  end.

(** A firewall rule with the source and destination queries its selectors denote. *)
Record meaning := mkMeaning { m_rule : FirewallRule; m_src : Addr → bool; m_dst : Addr → bool }.

Definition meaning_ok (m : meaning) : Prop :=
  selects (fr_Hosts (m_rule m)) (m_src m) ∧ selects (fr_LocalHosts (m_rule m)) (m_dst m).

Definition admits (src dst : Addr) (protocol port : Z) (m : meaning) : bool :=
  m_src m src && m_dst m dst &&
  bool_decide (firewallNetwork protocol = Some (fr_Network (m_rule m))) && rule_port (m_rule m) port.

(** Packets the comparison ranges over: zoneless addresses, an 8-bit protocol
    and a 16-bit port. *)
Definition packet_ok (src dst : Addr) (protocol port : Z) : Prop :=
  (addr_zone src = "" ∧ IsValid src = true) ∧ (addr_zone dst = "" ∧ IsValid dst = true) ∧
  0 ≤ protocol ≤ 255 ∧ 0 ≤ port ≤ 65535.

(** [include] means the query [q] on every such packet. *)
Definition include_means (include : slice FirewallRule) (q : Addr → Addr → Z → Z → bool) : Prop :=
  ∃ ms, elems include = m_rule <$> ms ∧ Forall meaning_ok ms ∧
    ∀ src dst protocol port, packet_ok src dst protocol port →
      q src dst protocol port = existsb (admits src dst protocol port) ms.

Lemma selects_append s1 s2 q1 q2 :
  selects s1 q1 → selects s2 q2 → selects (append s1 (elems s2)) (λ a, q1 a || q2 a).
Proof.
  intros (l1 & E1 & H1) (l2 & E2 & H2). exists (l1 ++ l2). split.
  - by rewrite elems_append, E1, E2, fmap_app.
  - intros a Hz Hv. rewrite existsb_app, H1, H2; done.
Qed.

Lemma selects_ext s q q' : (∀ a, q a = q' a) → selects s q → selects s q'.
Proof. intros E (l & El & H). exists l. split; [done|]. intros. rewrite <-E. auto. Qed.

Lemma selects_empty s q a :
  elems s = [] → selects s q → addr_zone a = "" → IsValid a = true → q a = false.
Proof.
  intros E (l & El & H) Hz Hv. rewrite E in El. destruct l; [|done]. by apply H.
Qed.

(** The sources of a rule. *)
Lemma firewallSourceHosts_selects rule :
  Forall (λ raw, ContainsChar "%" raw = false) (elems (ar_SourceIPs rule)) →
  ∃ hosts, firewallSourceHosts rule = Some hosts ∧ selects hosts (matchesSource rule).
Proof.
  unfold firewallSourceHosts, matchesSource.
  assert (∀ l n res q, Forall (λ raw, ContainsChar "%" raw = false) l → selects res q →
    ∃ hosts, collectHosts rule n l res = Some hosts ∧
      selects hosts (λ a, q a || existsb (λ '(i, raw), matchesIP raw (sourceBits rule i) a)
        (imap (λ i, pair (n + i)%nat) l))) as Hgen.
  { induction l as [|raw l IH]; intros n res q Hf Hs; cbn [collectHosts].
    { eexists. split; [done|]. eapply selects_ext; [|done]. intros a. cbn. by rewrite orb_false_r. }
    apply Forall_cons in Hf as [Hr Hf].
    destruct (host_selectors_spec raw (sourceBits rule n) Hr) as (sel & -> & Hsel).
    destruct (IH (S n) _ _ Hf (selects_append _ _ _ _ Hs Hsel)) as (hosts & E & Hh).
    exists hosts. split; [done|]. eapply selects_ext; [|done]. intros a. cbn.
    rewrite Nat.add_0_r, <-orb_assoc. do 3 f_equal. apply imap_ext. intros i x _. cbn. f_equal. lia. }
  intros Hf. destruct (Hgen _ 0%nat None (λ _, false) Hf) as (hosts & E & Hh).
  { by apply selects_nothing. }
  eauto.
Qed.

(** The port part of a converted rule. *)
Lemma firewallRule_port network hosts localHosts ports port :
  0 ≤ port ≤ 65535 →
  rule_port (firewallRule network hosts localHosts ports) port =
  (pr_First ports <=? port) && (port <=? pr_Last ports).
Proof.
  intros Hp. unfold firewallRule, rule_port.
  destruct ((pr_First ports =? 0) && (pr_Last ports =? 65535)) eqn:E; cbn.
  { bool_to_prop. rewrite H, H0. symmetry. apply andb_true_iff. lia. }
  destruct (Z.eqb_spec (pr_First ports) (pr_Last ports)) as [->|Hne]; cbn; [|by rewrite orb_false_r].
  rewrite !orb_false_r. apply Bool.eq_iff_eq_true. rewrite andb_true_iff. lia.
Qed.

Lemma firewallNetwork_inj p p' n : firewallNetwork p = Some n → firewallNetwork p' = Some n → p = p'.
Proof.
  unfold firewallNetwork. intros H1 H2. split_matches_in H1; split_matches_in H2; bool_to_prop;
    try congruence; unfold Itoa in *; discriminate.
Qed.

(** The networks of a rule name exactly the protocols it matches. *)
Lemma firewallNetworks_spec rule protocol :
  0 ≤ protocol ≤ 255 →
  matchesProtocol rule protocol =
  existsb (λ n, bool_decide (firewallNetwork protocol = Some n)) (firewallNetworks (elems (ar_IPProtocols rule))).
Proof.
  intros Hp. apply Bool.eq_iff_eq_true. rewrite existsb_Exists, Exists_exists.
  unfold firewallNetworks, matchesProtocol.
  assert (∀ l, (∃ n, n ∈ compact (omap firewallNetwork l) ∧
    bool_decide (firewallNetwork protocol = Some n) = true) ↔ protocol ∈ l) as Hgen.
  { intros l. setoid_rewrite elem_of_compact. setoid_rewrite list_elem_of_omap.
    setoid_rewrite bool_decide_eq_true. split.
    - intros (n & (p & Hl & Hn) & Hn'). by rewrite (firewallNetwork_inj _ _ _ Hn' Hn).
    - intros Hl. assert (∃ n, firewallNetwork protocol = Some n) as [n Hn]; [|eauto].
      unfold firewallNetwork. rewrite (proj2 (Z.ltb_ge _ 0)), (proj2 (Z.ltb_ge 255 _)) by lia.
      cbn. split_matches; eauto. }
  rewrite Hgen. destruct (elems (ar_IPProtocols rule)) as [|p l].
  - rewrite !orb_true_iff, !Z.eqb_eq, !elem_of_cons. set_solver.
  - rewrite existsb_Exists, Exists_exists. setoid_rewrite Z.eqb_eq. naive_solver.
Qed.

Lemma include_means_append inc inc' q q' :
  include_means inc q → include_means inc' q' →
  include_means (append inc (elems inc')) (λ s d p n, q s d p n || q' s d p n).
Proof.
  intros (ms & E & Hok & H) (ms' & E' & Hok' & H'). exists (ms ++ ms').
  split_and!; [by rewrite elems_append, E, E', fmap_app|by apply Forall_app|].
  intros. rewrite existsb_app, H, H'; done.
Qed.

Lemma include_means_ext inc q q' :
  (∀ s d p n, packet_ok s d p n → q s d p n = q' s d p n) → include_means inc q → include_means inc q'.
Proof. intros E (ms & Em & Hok & H). exists ms. split_and!; [done..|]. intros. rewrite <-E; auto. Qed.

Lemma append_nil_r {A} (s : slice A) : append s [] = s.
Proof. destruct s; cbn; [|done]. by rewrite app_nil_r. Qed.

(** The rules written for one destination, one per network. *)
Lemma destination_rules_mean rule hosts localHosts ip bits ports :
  selects hosts (matchesSource rule) → selects localHosts (matchesIP ip bits) →
  include_means
    (Some ((λ n, firewallRule n hosts localHosts ports) <$> firewallNetworks (elems (ar_IPProtocols rule))))
    (λ s d p n, matchesSource rule s && matchesProtocol rule p &&
      (matchesIP ip bits d && ((pr_First ports <=? n) && (n <=? pr_Last ports)))).
Proof.
  intros Hsrc Hdst. set (mk := λ n, firewallRule n hosts localHosts ports).
  set (mean := λ n, mkMeaning (mk n) (matchesSource rule) (matchesIP ip bits)).
  exists (mean <$> firewallNetworks (elems (ar_IPProtocols rule))).
  assert (∀ n, fr_Network (mk n) = n ∧ fr_Hosts (mk n) = hosts ∧ fr_LocalHosts (mk n) = localHosts) as Hmk
    by (intros; unfold mk, firewallRule; repeat case_match; done).
  split_and!.
  - cbn. by rewrite <-list_fmap_compose.
  - apply Forall_fmap, Forall_true. intros n. unfold meaning_ok; cbn.
    destruct (Hmk n) as (_ & -> & ->). done.
  - intros s d p n (_ & _ & Hp & Hn). rewrite (firewallNetworks_spec rule p Hp).
    induction (firewallNetworks _) as [|net nets IH]; cbn; [by rewrite andb_false_r|].
    rewrite <-IH. unfold admits; cbn. destruct (Hmk net) as (-> & _). unfold mk.
    rewrite firewallRule_port by done.
    by destruct (matchesSource rule s), (matchesIP ip bits d), (bool_decide _),
      (pr_First ports <=? n), (n <=? pr_Last ports), (existsb _ nets).
Qed.

(** One destination of a rule, for every network of the rule. *)
Lemma firewallDestination_means rule hosts include q target :
  ContainsChar "%" (ad_IP target) = false →
  selects hosts (matchesSource rule) → include_means include q →
  ∃ include',
    firewallDestination (firewallNetworks (elems (ar_IPProtocols rule))) hosts include target = Some include' ∧
    include_means include' (λ s d p n, q s d p n ||
      (matchesSource rule s && matchesProtocol rule p && matchesDestination target d n)).
Proof.
  intros Hz Hsrc Hinc. unfold firewallDestination.
  assert (∀ d n, matchesDestination target d n =
    matchesIP (ad_IP target) (default (-1) (ad_Bits target)) d &&
    ((pr_First (ad_Ports target) <=? n) && (n <=? pr_Last (ad_Ports target)))) as Hmd.
  { intros. unfold matchesDestination. by destruct (matchesIP _ _ d). }
  destruct (host_selectors_spec (ad_IP target) (default (-1) (ad_Bits target)) Hz)
    as (localHosts & Hsel & Hdst).
  change (pointerValue (ad_Bits target) (-1)) with (default (-1) (ad_Bits target)).
  rewrite Hsel. cbn [mbind option_bind].
  destruct (_ || _) eqn:E; eexists; (split; [done|]).
  - eapply include_means_ext; [|done]. intros s d p n (_ & [Hzd Hvd] & _ & _). rewrite Hmd.
    rewrite <-(orb_false_r (q s d p n)) at 1. f_equal. symmetry. apply orb_true_iff in E as [E|E].
    + apply Nat.eqb_eq, nil_length_inv in E.
      by rewrite (selects_empty _ _ d E Hdst), andb_false_r by done.
    + apply Z.ltb_lt in E.
      assert ((pr_First (ad_Ports target) <=? n) && (n <=? pr_Last (ad_Ports target)) = false) as -> by lia.
      by rewrite !andb_false_r.
  - eapply include_means_ext;
      [|exact (include_means_append _ (Some _) _ _ Hinc
          (destination_rules_mean _ _ _ _ _ (ad_Ports target) Hsrc Hdst))].
    intros. by rewrite Hmd.
Qed.

(** A fold over destinations or rules adds the meanings of the items. *)
Lemma ofold_means {A} (f : slice FirewallRule → A → option (slice FirewallRule))
    (qs : A → Addr → Addr → Z → Z → bool) (P : A → Prop) :
  (∀ inc q x, P x → include_means inc q →
    ∃ inc', f inc x = Some inc' ∧ include_means inc' (λ s d p n, q s d p n || qs x s d p n)) →
  ∀ l inc q, Forall P l → include_means inc q →
    ∃ inc', ofold f l inc = Some inc' ∧
      include_means inc' (λ s d p n, q s d p n || existsb (λ x, qs x s d p n) l).
Proof.
  intros Hf. induction l as [|x l IH]; intros inc q Hl Hinc; cbn.
  { eexists. split; [done|]. eapply include_means_ext; [|done]. intros. cbn. by rewrite orb_false_r. }
  apply Forall_cons in Hl as [Hx Hl]. destruct (Hf inc q x Hx Hinc) as (inc1 & -> & H1).
  destruct (IH inc1 _ Hl H1) as (inc2 & E2 & H2). exists inc2. split; [done|].
  eapply include_means_ext; [|done]. intros. cbn. by rewrite orb_assoc.
Qed.

(** One ACL rule. *)
Lemma firewallACLRule_means include q rule :
  rule_zoneless rule → include_means include q →
  ∃ include', firewallACLRule include rule = Some include' ∧
    include_means include' (λ s d p n, q s d p n ||
      (if negb (matchesSource rule s) || negb (matchesProtocol rule p) then false
       else existsb (λ target, matchesDestination target d n) (elems (ar_Destinations rule)))).
Proof.
  intros [Hzs Hzd] Hinc. unfold firewallACLRule.
  destruct (firewallSourceHosts_selects rule Hzs) as (hosts & -> & Hsrc). cbn [mbind option_bind].
  destruct (length (elems hosts) =? 0)%nat eqn:E.
  - exists include. split; [done|]. apply Nat.eqb_eq, nil_length_inv in E.
    eapply include_means_ext; [|done]. intros s d p n ([Hz Hv] & _). cbn.
    by rewrite (selects_empty _ _ s E Hsrc), orb_false_r by done.
  - destruct (ofold_means _ (λ target s d p n,
        matchesSource rule s && matchesProtocol rule p && matchesDestination target d n)
      (λ d, ContainsChar "%" (ad_IP d) = false)
      (λ inc q x Hx Hi, firewallDestination_means rule hosts inc q x Hx Hsrc Hi)
      (elems (ar_Destinations rule)) include q Hzd Hinc) as (inc' & -> & Hm).
    exists inc'. split; [done|]. eapply include_means_ext; [|done]. intros s d p n _. cbn. f_equal.
    assert (∀ l : list ACLDestination, existsb (λ _, false) l = false) as Hf by (by induction l).
    by destruct (matchesSource rule s), (matchesProtocol rule p); cbn; rewrite ?Hf.
Qed.


(** A view with one rule: any source to [10.0.0.0/8], TCP, ports 80 to 90. *)
Definition demo_view : ACLView :=
  mkACLView (Some [mkACLRule (Some ["*"]) None
    (Some [mkACLDestination "10.0.0.0/8" None (mkPortRange 80 90)]) (Some [6]) None]) None 1.


(** ** A zone in the upper bound *)

Definition maxAddr6 (zone : string) : Addr := Addr6 (2 ^ 128 - 1) zone.

Lemma rangeLoop_AddrZero fuel z res : z ≠ "" → rangeLoop fuel AddrZero (maxAddr6 z) res = None.
Proof.
  intros Hz. revert res. induction fuel as [|fuel IH]; intros res; [done|].
  cbn -[prefixLastAddress addr_next maxAddr6 bool_decide].
  replace (prefixLastAddress _) with (maxAddr6 "") by (vm_compute; reflexivity).
  rewrite bool_decide_false by (unfold maxAddr6; congruence). apply IH.
Qed.

(** A range whose upper bound is the last IPv6 address with a zone is never
    finished: the block ending at the zoneless last address is not [end], the
    next address does not exist, and the loop goes on with the zero address
    for ever. *)
Theorem addressRangePrefixes_zone_diverges (z : string) (Hz : z ≠ "") :
  ∀ fuel, rangeLoop fuel (maxAddr6 "") (maxAddr6 z) [] = None.
Proof.
  intros [|fuel]; [done|]. cbn [rangeLoop].
  destruct (Z.ltb_spec 0 (addr_compare (maxAddr6 "") (maxAddr6 z))) as [Hc|_].
  { exfalso. apply Z.lt_nge in Hc. apply Hc. apply addr_compare_le. right. split; [done|].
    right. split; [done|]. by destruct z. }
  replace (shortenPrefix _ _ _) with 128%nat.
  - replace (prefixLastAddress _) with (maxAddr6 "") by (vm_compute; reflexivity).
    rewrite bool_decide_false by (unfold maxAddr6; congruence).
    replace (addr_next _) with AddrZero by (vm_compute; reflexivity). by apply rangeLoop_AddrZero.
  - replace (Z.to_nat (BitLen (maxAddr6 ""))) with 128%nat by (vm_compute; reflexivity).
    cbn [shortenPrefix]. rewrite bool_decide_false by (vm_compute; congruence). done.
Qed.

Lemma addressRangePrefixes_zone_diverges_witness :
  ParseAddr "ffff:ffff:ffff:ffff:ffff:ffff:ffff:ffff%eth0" = Some (maxAddr6 "eth0") ∧
  ∀ fuel, rangeLoop fuel (maxAddr6 "") (maxAddr6 "eth0") [] = None.
Proof.
  split; [vm_compute; reflexivity|].
  apply (addressRangePrefixes_zone_diverges "eth0"). discriminate.
Defined.
