(* ===== verification/Keys.v ===== *)
(** * Keys and sealed boxes ([internal/controlproto/key.go])

    The four key types are 32-byte arrays.  Curve25519 and NaCl box come from
    [golang.org/x/crypto] and are an interface, [BoxOps], with the documented
    behaviour [BoxLaws]; random bytes are arguments. *)

From Stdlib Require Import ZArith Lia Ascii String Strings.Byte.
From S2P Require Export GoStrings.

Definition keySize : nat := 32.

Abbreviation PrivateKey := (array 32).
Abbreviation NodePublic := (array 32).
Abbreviation MachinePublic := (array 32).
Abbreviation DiscoPublic := (array 32).

(** ** Cryptography the package calls *)

Class BoxOps := {
  ScalarBaseMult : array 32 → array 32;
  Precompute : array 32 → array 32 → array 32;
  SealAfterPrecomputation : list byte → array 24 → array 32 → list byte;
  OpenAfterPrecomputation : list byte → array 24 → array 32 → option (list byte)
}.

Class BoxLaws (B : BoxOps) := {
  (** Both sides of a Diffie-Hellman exchange compute the same shared key. *)
  Precompute_comm a b : Precompute (ScalarBaseMult b) a = Precompute (ScalarBaseMult a) b;
  (** A box opens under the key and nonce it was sealed with. *)
  Open_Seal msg nonce shared :
    OpenAfterPrecomputation (SealAfterPrecomputation msg nonce shared) nonce shared = Some msg
}.

(** ** Private keys *)

(** Clamping: the low three bits of the first byte and the high bit of the last
    are cleared, bit six of the last is set. *)
Definition clampKey (key : list byte) : list byte :=
  let key := alter (λ b, z2b (Z.land (b2z b) 248)) 0 key in
  let key := alter (λ b, z2b (Z.land (b2z b) 127)) 31 key in
  alter (λ b, z2b (Z.lor (b2z b) 64)) 31 key.

(** [rand] is what [crypto/rand] delivers, [None] when it fails. *)
Definition NewPrivateKey (rand : option (array 32)) : result string PrivateKey :=
  match rand with
  | None => Err "rand"
  | Some r => Ok (to_array 32 (clampKey (arr_bytes r)))
  end.

(** [PrivateKey.IsZero] compares with 32 zero bytes. *)
Definition PrivateKey_IsZero (k : PrivateKey) : bool :=
  bool_decide (arr_bytes k = replicate keySize x00).

Section Public.
Context `{BoxOps}.

Definition PublicMachine (k : PrivateKey) : MachinePublic := ScalarBaseMult k.
Definition PublicNode (k : PrivateKey) : NodePublic := ScalarBaseMult k.
Definition PublicDisco (k : PrivateKey) : DiscoPublic := ScalarBaseMult k.
End Public.

(** ** Text form *)

Definition key_IsZero (k : array 32) : bool := arr_is_zero k.

Definition key_String (prefix : string) (k : array 32) : string := prefix +:+ hex_encode (arr_bytes k).

Definition NodePublic_String : NodePublic → string := key_String "nodekey:".
Definition MachinePublic_String : MachinePublic → string := key_String "mkey:".
Definition DiscoPublic_String : DiscoPublic → string := key_String "discokey:".

Definition AppendTo (k : array 32) (b : list byte) : list byte := b ++ arr_bytes k.

(** [MarshalText] of the three public key types. *)
Definition MarshalText (prefix : string) (k : array 32) : list byte :=
  bytes_of_string (key_String prefix k).

(** [parseKey]: the new contents of [dst]; on an error [dst] is not written. *)
Definition parseKey (text prefix : string) : result string (array 32) :=
  if bool_decide (text = "") then Ok (zero_array 32)
  else match CutPrefix text prefix with
       | None => Err ("invalid key prefix")
       | Some rest =>
           match hex_decode rest with
           | Some b => if bool_decide (length b = keySize) then Ok (to_array 32 b)
                       else Err "invalid key encoding"
           | None => Err "invalid key encoding"
           end
       end.

(** [UnmarshalText]: the receiver after the call, and the error. *)
Definition UnmarshalText (prefix : string) (k : array 32) (text : list byte)
    : array 32 * option string :=
  match parseKey (string_of_bytes text) prefix with
  | Ok k' => (k', None)
  | Err e => (k, Some e)
  end.

Definition ParseMachinePublic (text : string) : MachinePublic * option string :=
  UnmarshalText "mkey:" (zero_array 32) (bytes_of_string text).

(** ** Sealed boxes *)

Section Box.
Context `{BoxOps}.

(** [box.Seal(nonce[:], ...)] appends to the nonce. *)
Definition SealToNode (k : PrivateKey) (peer : NodePublic) (nonce : array 24) (cleartext : list byte)
    : list byte :=
  arr_bytes nonce ++ SealAfterPrecomputation cleartext nonce (Precompute peer k).

Definition OpenFromNode (k : PrivateKey) (peer : NodePublic) (ciphertext : list byte)
    : option (list byte) :=
  if (length ciphertext <? 24)%nat then None
  else OpenAfterPrecomputation (drop 24 ciphertext) (to_array 24 (take 24 ciphertext)) (Precompute peer k).

Definition DiscoShared (private : PrivateKey) (peer : DiscoPublic) : array 32 := Precompute peer private.

(** [rand] is the nonce, [None] when the random source fails. *)
Definition SealDisco (shared : array 32) (rand : option (array 24)) (cleartext : list byte)
    : result string (list byte) :=
  if bool_decide (arr_bytes shared = replicate 32 x00) then Err "zero disco shared key"
  else match rand with
       | None => Err "rand"
       | Some nonce => Ok (arr_bytes nonce ++ SealAfterPrecomputation cleartext nonce shared)
       end.

Definition OpenDisco (shared : array 32) (ciphertext : list byte) : option (list byte) :=
  if (length ciphertext <? 24)%nat then None
  else OpenAfterPrecomputation (drop 24 ciphertext) (to_array 24 (take 24 ciphertext)) shared.

(** ** Box round trips *)

Lemma open_sealed nonce sealed shared :
  let packet := arr_bytes nonce ++ sealed in
  (if (length packet <? 24)%nat then None
   else OpenAfterPrecomputation (drop 24 packet) (to_array 24 (take 24 packet)) shared) =
  OpenAfterPrecomputation sealed nonce shared.
Proof.
  cbn zeta. rewrite length_app, (arr_length nonce), (proj2 (Nat.ltb_ge _ 24)) by lia.
  by rewrite drop_app_length', take_app_length', to_array_arr_bytes by (by rewrite arr_length).
Qed.
End Box.

Section BoxProofs.
Context `{BL : BoxLaws}.

Lemma disco_box_roundtrip a b nonce msg sealed :
  SealDisco (DiscoShared a (PublicDisco b)) (Some nonce) msg = Ok sealed →
  OpenDisco (DiscoShared b (PublicDisco a)) sealed = Some msg ∧ 24 ≤ length sealed.
Proof.
  unfold SealDisco, OpenDisco, DiscoShared, PublicDisco.
  case_bool_decide; [done|]. intros [= <-]. rewrite open_sealed, Precompute_comm, Open_Seal.
  split; [done|]. rewrite length_app, (arr_length nonce). lia.
Qed.
End BoxProofs.

(** ** Text round trips *)

Lemma parseKey_String prefix k : prefix ≠ "" → parseKey (key_String prefix k) prefix = Ok k.
Proof.
  intros Hp. unfold parseKey, key_String. rewrite bool_decide_false by (by destruct prefix).
  rewrite CutPrefix_app, hex_decode_encode, bool_decide_true by apply arr_length.
  by rewrite to_array_arr_bytes.
Qed.

Lemma key_String_inj prefix : Inj (=) (=) (key_String prefix).
Proof.
  intros k k' H. unfold key_String in H. apply (inj (String.append prefix)) in H.
  apply hex_encode_inj in H. by apply arr_eq.
Qed.

(** C30. A node, machine or disco key written by [MarshalText] is read back by
    [UnmarshalText] as the same key, whatever the receiver held. *)
Theorem key_text_roundtrip (prefix : string) (k old : array 32)
    (Hp : prefix ∈ ["nodekey:"; "mkey:"; "discokey:"]) :
  UnmarshalText prefix old (MarshalText prefix k) = (k, None).
Proof.
  unfold UnmarshalText, MarshalText. rewrite string_of_bytes_of_string, parseKey_String; [done|].
  intros ->. set_solver.
Qed.

Lemma key_text_roundtrip_witness :
  UnmarshalText "mkey:" (zero_array 32) (MarshalText "mkey:" (zero_array 32)) = (zero_array 32, None).
Proof. apply (key_text_roundtrip "mkey:" (zero_array 32) (zero_array 32)). set_solver. Defined.

(** Parsing accepts exactly the empty text, as the zero key, and the prefix
    followed by 64 hexadecimal digits; every other text is an error. *)
Theorem parseKey_accepts (prefix text : string) (k : array 32) :
  parseKey text prefix = Ok k ↔
  text = "" ∧ k = zero_array 32 ∨
  text ≠ "" ∧ ∃ rest, text = prefix +:+ rest ∧ hex_decode rest = Some (arr_bytes k).
Proof.
  unfold parseKey. case_bool_decide as He; subst.
  { split; [intros [= <-]; by left|]. by intros [[_ ->]|[? _]]. }
  destruct (CutPrefix text prefix) as [rest|] eqn:Ec.
  - pose proof (CutPrefix_Some _ _ _ Ec) as ->.
    destruct (hex_decode rest) as [b|] eqn:Eh.
    + case_bool_decide as Hl.
      * split.
        { intros [= <-]. right. split; [done|]. exists rest. by rewrite arr_bytes_to_array. }
        intros [[? _]|(_ & rest' & E & Eh')]; [done|].
        apply (inj (String.append prefix)) in E as <-. rewrite Eh in Eh'. injection Eh' as ->.
        by rewrite to_array_arr_bytes.
      * split; [done|]. intros [[? _]|(_ & rest' & E & Eh')]; [done|]. exfalso. apply Hl.
        apply (inj (String.append prefix)) in E as <-. rewrite Eh in Eh'. injection Eh' as ->.
        apply arr_length.
    + split; [done|]. intros [[? _]|(_ & rest' & E & Eh')]; [done|].
      apply (inj (String.append prefix)) in E as <-. congruence.
  - split; [done|]. intros [[? _]|(_ & rest & -> & _)]; [done|]. by rewrite CutPrefix_app in Ec.
Qed.

Definition key_clamped (k : PrivateKey) : Prop :=
  ∃ first last, arr_bytes k !! 0%nat = Some first ∧ arr_bytes k !! 31%nat = Some last ∧
    (b2z first mod 8 = 0)%Z ∧ (64 ≤ b2z last < 128)%Z.

Lemma clamp_bytes b :
  (b2z (z2b (Z.land (b2z b) 248)) mod 8 = 0)%Z ∧
  (64 ≤ b2z (z2b (Z.lor (b2z (z2b (Z.land (b2z b) 127))) 64)) < 128)%Z.
Proof. destruct b; vm_compute; intuition discriminate. Qed.

Lemma length_clampKey l : length (clampKey l) = length l.
Proof. unfold clampKey. by rewrite !length_alter. Qed.

(** A new private key is a clamped Curve25519 scalar for every random
    input, and the only failure is that of the random source. *)
Theorem NewPrivateKey_clamped (rand : option (array 32)) :
  match NewPrivateKey rand with Ok k => key_clamped k | Err _ => rand = None end.
Proof.
  destruct rand as [r|]; cbn; [|done]. unfold key_clamped.
  rewrite arr_bytes_to_array by (rewrite length_clampKey; apply arr_length).
  pose proof (arr_length r) as Hl.
  destruct (lookup_lt_is_Some_2 (arr_bytes r) 0) as [b0 H0]; [lia|].
  destruct (lookup_lt_is_Some_2 (arr_bytes r) 31) as [b31 H31]; [lia|].
  unfold clampKey. exists (z2b (Z.land (b2z b0) 248)), (z2b (Z.lor (b2z (z2b (Z.land (b2z b31) 127))) 64)).
  split_and!; [| |apply clamp_bytes..].
  - by rewrite !list_lookup_alter_ne, list_lookup_alter_eq, H0 by done.
  - by rewrite !list_lookup_alter_eq, list_lookup_alter_ne, H31 by done.
Qed.
