(* ===== verification/Types.v ===== *)
(** * Control-protocol structures ([internal/controlproto/types.go])

    One record per Go struct, with its fields in order.  A pointer is an
    [option], a slice or map that may be nil is an [option] too, an instant is a
    number of nanoseconds ([Prelude]), and a [float64] is its bit pattern.
    Equality of records is [reflect.DeepEqual]: it separates nil from empty. *)

From Stdlib Require Import ZArith Lia Strings.Byte String.
From S2P Require Export Netip Keys.

(** [json.RawMessage] and [[]byte]. *)
Abbreviation RawMessage := (slice byte).

Definition ReferenceCapabilityVersion : Z := 145.
Definition CurrentCapabilityVersion : Z := 119.

(** [EndpointType]. *)
Definition EndpointUnknown : Z := 0.
Definition EndpointLocal : Z := 1.
Definition EndpointSTUN : Z := 2.
Definition EndpointPortmapped : Z := 3.
Definition EndpointSTUN4LocalPort : Z := 4.
Definition EndpointExplicit : Z := 5.

Record OverTLSPublicKeyResponse := mkOverTLSPublicKeyResponse {
  OverTLSPublicKeyResponse_LegacyPublicKey : MachinePublic;
  OverTLSPublicKeyResponse_PublicKey : MachinePublic
}.
#[export] Instance OverTLSPublicKeyResponse_fields : Fields OverTLSPublicKeyResponse := λ r, mkOverTLSPublicKeyResponse (OverTLSPublicKeyResponse_LegacyPublicKey r) (OverTLSPublicKeyResponse_PublicKey r).
#[export] Instance OverTLSPublicKeyResponse_eq_dec : EqDecision OverTLSPublicKeyResponse.
Proof. solve_decision. Defined.

Record NetInfo := mkNetInfo {
  NetInfo_PreferredDERP : Z
}.
#[export] Instance NetInfo_fields : Fields NetInfo := λ r, mkNetInfo (NetInfo_PreferredDERP r).
#[export] Instance NetInfo_eq_dec : EqDecision NetInfo.
Proof. solve_decision. Defined.

Record Hostinfo := mkHostinfo {
  Hostinfo_IPNVersion : string;
  Hostinfo_BackendLogID : string;
  Hostinfo_OS : string;
  Hostinfo_OSVersion : string;
  Hostinfo_Hostname : string;
  Hostinfo_GoArch : string;
  Hostinfo_App : string;
  Hostinfo_ShieldsUp : bool;
  Hostinfo_RequestTags : slice string;
  Hostinfo_NetInfo : option NetInfo
}.
#[export] Instance Hostinfo_fields : Fields Hostinfo := λ r, mkHostinfo (Hostinfo_IPNVersion r) (Hostinfo_BackendLogID r) (Hostinfo_OS r) (Hostinfo_OSVersion r) (Hostinfo_Hostname r) (Hostinfo_GoArch r) (Hostinfo_App r) (Hostinfo_ShieldsUp r) (Hostinfo_RequestTags r) (Hostinfo_NetInfo r).
#[export] Instance Hostinfo_eq_dec : EqDecision Hostinfo.
Proof. solve_decision. Defined.
Definition zeroHostinfo : Hostinfo := mkHostinfo "" "" "" "" "" "" "" false None None.

Record RegisterResponseAuth := mkRegisterResponseAuth {
  RegisterResponseAuth_AuthKey : string
}.
#[export] Instance RegisterResponseAuth_fields : Fields RegisterResponseAuth := λ r, mkRegisterResponseAuth (RegisterResponseAuth_AuthKey r).
#[export] Instance RegisterResponseAuth_eq_dec : EqDecision RegisterResponseAuth.
Proof. solve_decision. Defined.

Record RegisterRequest := mkRegisterRequest {
  RegisterRequest_Version : Z;
  RegisterRequest_NodeKey : NodePublic;
  RegisterRequest_OldNodeKey : NodePublic;
  RegisterRequest_Auth : option RegisterResponseAuth;
  RegisterRequest_Expiry : Z;
  RegisterRequest_Followup : string;
  RegisterRequest_Hostinfo : option Hostinfo;
  RegisterRequest_Ephemeral : bool;
  RegisterRequest_NodeKeySignature : RawMessage;
  RegisterRequest_Tailnet : string
}.
#[export] Instance RegisterRequest_fields : Fields RegisterRequest := λ r, mkRegisterRequest (RegisterRequest_Version r) (RegisterRequest_NodeKey r) (RegisterRequest_OldNodeKey r) (RegisterRequest_Auth r) (RegisterRequest_Expiry r) (RegisterRequest_Followup r) (RegisterRequest_Hostinfo r) (RegisterRequest_Ephemeral r) (RegisterRequest_NodeKeySignature r) (RegisterRequest_Tailnet r).
#[export] Instance RegisterRequest_eq_dec : EqDecision RegisterRequest.
Proof. solve_decision. Defined.

Record User := mkUser {
  User_ID : Z;
  User_DisplayName : string;
  User_ProfilePicURL : string
}.
#[export] Instance User_fields : Fields User := λ r, mkUser (User_ID r) (User_DisplayName r) (User_ProfilePicURL r).
#[export] Instance User_eq_dec : EqDecision User.
Proof. solve_decision. Defined.
Definition zeroUser : User := mkUser 0 "" "".

Record Login := mkLogin {
  Login_ID : Z;
  Login_Provider : string;
  Login_LoginName : string;
  Login_DisplayName : string;
  Login_ProfilePicURL : string
}.
#[export] Instance Login_fields : Fields Login := λ r, mkLogin (Login_ID r) (Login_Provider r) (Login_LoginName r) (Login_DisplayName r) (Login_ProfilePicURL r).
#[export] Instance Login_eq_dec : EqDecision Login.
Proof. solve_decision. Defined.
Definition zeroLogin : Login := mkLogin 0 "" "" "" "".

Record CUserProfile := mkCUserProfile {
  CUserProfile_ID : Z;
  CUserProfile_LoginName : string;
  CUserProfile_DisplayName : string;
  CUserProfile_ProfilePicURL : string;
  CUserProfile_Groups : slice string
}.
#[export] Instance CUserProfile_fields : Fields CUserProfile := λ r, mkCUserProfile (CUserProfile_ID r) (CUserProfile_LoginName r) (CUserProfile_DisplayName r) (CUserProfile_ProfilePicURL r) (CUserProfile_Groups r).
#[export] Instance CUserProfile_eq_dec : EqDecision CUserProfile.
Proof. solve_decision. Defined.

Record RegisterResponse := mkRegisterResponse {
  RegisterResponse_User : User;
  RegisterResponse_Login : Login;
  RegisterResponse_NodeKeyExpired : bool;
  RegisterResponse_MachineAuthorized : bool;
  RegisterResponse_AuthURL : string;
  RegisterResponse_NodeKeySignature : RawMessage;
  RegisterResponse_Error : string
}.
#[export] Instance RegisterResponse_fields : Fields RegisterResponse := λ r, mkRegisterResponse (RegisterResponse_User r) (RegisterResponse_Login r) (RegisterResponse_NodeKeyExpired r) (RegisterResponse_MachineAuthorized r) (RegisterResponse_AuthURL r) (RegisterResponse_NodeKeySignature r) (RegisterResponse_Error r).
#[export] Instance RegisterResponse_eq_dec : EqDecision RegisterResponse.
Proof. solve_decision. Defined.
Definition zeroRegisterResponse : RegisterResponse := mkRegisterResponse zeroUser zeroLogin false false "" None "".

Record MapRequest := mkMapRequest {
  MapRequest_Version : Z;
  MapRequest_Compress : string;
  MapRequest_KeepAlive : bool;
  MapRequest_NodeKey : NodePublic;
  MapRequest_DiscoKey : DiscoPublic;
  MapRequest_Stream : bool;
  MapRequest_Hostinfo : option Hostinfo;
  MapRequest_MapSessionHandle : string;
  MapRequest_MapSessionSeq : Z;
  MapRequest_Endpoints : slice AddrPort;
  MapRequest_EndpointTypes : slice Z;
  MapRequest_ReadOnly : bool;
  MapRequest_OmitPeers : bool;
  MapRequest_DebugFlags : slice string
}.
#[export] Instance MapRequest_fields : Fields MapRequest := λ r, mkMapRequest (MapRequest_Version r) (MapRequest_Compress r) (MapRequest_KeepAlive r) (MapRequest_NodeKey r) (MapRequest_DiscoKey r) (MapRequest_Stream r) (MapRequest_Hostinfo r) (MapRequest_MapSessionHandle r) (MapRequest_MapSessionSeq r) (MapRequest_Endpoints r) (MapRequest_EndpointTypes r) (MapRequest_ReadOnly r) (MapRequest_OmitPeers r) (MapRequest_DebugFlags r).
#[export] Instance MapRequest_eq_dec : EqDecision MapRequest.
Proof. solve_decision. Defined.
Definition zeroMapRequest : MapRequest := mkMapRequest 0 "" false (zero_array 32) (zero_array 32) false None "" 0 None None false false None.

(** A node of the network map. *)
Record Node := mkNode {
  Node_ID : Z;
  Node_StableID : string;
  Node_Name : string;
  Node_User : Z;
  Node_Sharer : Z;
  Node_Key : NodePublic;
  Node_KeyExpiry : Z;
  Node_KeySignature : RawMessage;
  Node_Machine : MachinePublic;
  Node_DiscoKey : DiscoPublic;
  Node_Addresses : slice Prefix;
  Node_AllowedIPs : slice Prefix;
  Node_Endpoints : slice AddrPort;
  Node_LegacyDERPString : string;
  Node_HomeDERP : Z;
  Node_Hostinfo : RawMessage;
  Node_Created : Z;
  Node_Cap : Z;
  Node_Tags : slice string;
  Node_PrimaryRoutes : slice Prefix;
  Node_LastSeen : option Z;
  Node_Online : option bool;
  Node_MachineAuthorized : bool;
  Node_Capabilities : slice string;
  Node_CapMap : option (gmap string (slice RawMessage));
  Node_UnsignedPeerAPIOnly : bool;
  Node_ComputedName : string;
  Node_ComputedNameWithHost : string;
  Node_DataPlaneAuditLogID : string;
  Node_Expired : bool;
  Node_SelfNodeV4MasqAddrForThisPeer : option Addr;
  Node_SelfNodeV6MasqAddrForThisPeer : option Addr;
  Node_IsWireGuardOnly : bool;
  Node_IsJailed : bool;
  Node_ExitNodeDNSResolvers : slice RawMessage;
  Node_RawJSON : RawMessage
}.
#[export] Instance Node_fields : Fields Node := λ r, mkNode (Node_ID r) (Node_StableID r) (Node_Name r) (Node_User r) (Node_Sharer r) (Node_Key r) (Node_KeyExpiry r) (Node_KeySignature r) (Node_Machine r) (Node_DiscoKey r) (Node_Addresses r) (Node_AllowedIPs r) (Node_Endpoints r) (Node_LegacyDERPString r) (Node_HomeDERP r) (Node_Hostinfo r) (Node_Created r) (Node_Cap r) (Node_Tags r) (Node_PrimaryRoutes r) (Node_LastSeen r) (Node_Online r) (Node_MachineAuthorized r) (Node_Capabilities r) (Node_CapMap r) (Node_UnsignedPeerAPIOnly r) (Node_ComputedName r) (Node_ComputedNameWithHost r) (Node_DataPlaneAuditLogID r) (Node_Expired r) (Node_SelfNodeV4MasqAddrForThisPeer r) (Node_SelfNodeV6MasqAddrForThisPeer r) (Node_IsWireGuardOnly r) (Node_IsJailed r) (Node_ExitNodeDNSResolvers r) (Node_RawJSON r).
#[export] Instance Node_eq_dec : EqDecision Node.
Proof. solve_decision. Defined.
Definition zeroNode : Node := mkNode 0 "" "" 0 0 (zero_array 32) 0 None (zero_array 32) (zero_array 32) None None None "" 0 None 0 0 None None None None false None None false "" "" "" false None None false false None None.

Record CDERPNode := mkCDERPNode {
  CDERPNode_Name : string;
  CDERPNode_RegionID : Z;
  CDERPNode_HostName : string;
  CDERPNode_CertName : string;
  CDERPNode_IPv4 : string;
  CDERPNode_IPv6 : string;
  CDERPNode_STUNPort : Z;
  CDERPNode_STUNOnly : bool;
  CDERPNode_DERPPort : Z;
  CDERPNode_InsecureForTests : bool;
  CDERPNode_STUNTestIP : string
}.
#[export] Instance CDERPNode_fields : Fields CDERPNode := λ r, mkCDERPNode (CDERPNode_Name r) (CDERPNode_RegionID r) (CDERPNode_HostName r) (CDERPNode_CertName r) (CDERPNode_IPv4 r) (CDERPNode_IPv6 r) (CDERPNode_STUNPort r) (CDERPNode_STUNOnly r) (CDERPNode_DERPPort r) (CDERPNode_InsecureForTests r) (CDERPNode_STUNTestIP r).
#[export] Instance CDERPNode_eq_dec : EqDecision CDERPNode.
Proof. solve_decision. Defined.
Definition zeroCDERPNode : CDERPNode := mkCDERPNode "" 0 "" "" "" "" 0 false 0 false "".

Record CDERPRegion := mkCDERPRegion {
  CDERPRegion_RegionID : Z;
  CDERPRegion_RegionCode : string;
  CDERPRegion_RegionName : string;
  CDERPRegion_Latitude : Z;
  CDERPRegion_Longitude : Z;
  CDERPRegion_NoMeasureNoHome : bool;
  CDERPRegion_Nodes : slice (option CDERPNode)
}.
#[export] Instance CDERPRegion_fields : Fields CDERPRegion := λ r, mkCDERPRegion (CDERPRegion_RegionID r) (CDERPRegion_RegionCode r) (CDERPRegion_RegionName r) (CDERPRegion_Latitude r) (CDERPRegion_Longitude r) (CDERPRegion_NoMeasureNoHome r) (CDERPRegion_Nodes r).
#[export] Instance CDERPRegion_eq_dec : EqDecision CDERPRegion.
Proof. solve_decision. Defined.
Definition zeroCDERPRegion : CDERPRegion := mkCDERPRegion 0 "" "" 0 0 false None.

Record DERPMap := mkDERPMap {
  DERPMap_Regions : option (gmap Z (option CDERPRegion));
  DERPMap_OmitDefaultRegions : bool
}.
#[export] Instance DERPMap_fields : Fields DERPMap := λ r, mkDERPMap (DERPMap_Regions r) (DERPMap_OmitDefaultRegions r).
#[export] Instance DERPMap_eq_dec : EqDecision DERPMap.
Proof. solve_decision. Defined.

Record CPortRange := mkCPortRange {
  CPortRange_First : Z;
  CPortRange_Last : Z
}.
#[export] Instance CPortRange_fields : Fields CPortRange := λ r, mkCPortRange (CPortRange_First r) (CPortRange_Last r).
#[export] Instance CPortRange_eq_dec : EqDecision CPortRange.
Proof. solve_decision. Defined.

Record NetPortRange := mkNetPortRange {
  NetPortRange_IP : string;
  NetPortRange_Bits : option Z;
  NetPortRange_Ports : CPortRange
}.
#[export] Instance NetPortRange_fields : Fields NetPortRange := λ r, mkNetPortRange (NetPortRange_IP r) (NetPortRange_Bits r) (NetPortRange_Ports r).
#[export] Instance NetPortRange_eq_dec : EqDecision NetPortRange.
Proof. solve_decision. Defined.

Record FilterRule := mkFilterRule {
  FilterRule_SrcIPs : slice string;
  FilterRule_SrcBits : slice Z;
  FilterRule_DstPorts : slice NetPortRange;
  FilterRule_IPProto : slice Z;
  FilterRule_CapGrant : slice RawMessage
}.
#[export] Instance FilterRule_fields : Fields FilterRule := λ r, mkFilterRule (FilterRule_SrcIPs r) (FilterRule_SrcBits r) (FilterRule_DstPorts r) (FilterRule_IPProto r) (FilterRule_CapGrant r).
#[export] Instance FilterRule_eq_dec : EqDecision FilterRule.
Proof. solve_decision. Defined.

Record CDNSRecord := mkCDNSRecord {
  CDNSRecord_Name : string;
  CDNSRecord_Type : string;
  CDNSRecord_Value : string
}.
#[export] Instance CDNSRecord_fields : Fields CDNSRecord := λ r, mkCDNSRecord (CDNSRecord_Name r) (CDNSRecord_Type r) (CDNSRecord_Value r).
#[export] Instance CDNSRecord_eq_dec : EqDecision CDNSRecord.
Proof. solve_decision. Defined.

Record DNSConfig := mkDNSConfig {
  DNSConfig_Domains : slice string;
  DNSConfig_Proxied : bool;
  DNSConfig_Nameservers : slice Addr;
  DNSConfig_CertDomains : slice string;
  DNSConfig_ExtraRecords : slice CDNSRecord;
  DNSConfig_Routes : option (gmap string (slice RawMessage));
  DNSConfig_Resolvers : slice RawMessage
}.
#[export] Instance DNSConfig_fields : Fields DNSConfig := λ r, mkDNSConfig (DNSConfig_Domains r) (DNSConfig_Proxied r) (DNSConfig_Nameservers r) (DNSConfig_CertDomains r) (DNSConfig_ExtraRecords r) (DNSConfig_Routes r) (DNSConfig_Resolvers r).
#[export] Instance DNSConfig_eq_dec : EqDecision DNSConfig.
Proof. solve_decision. Defined.
Definition zeroDNSConfig : DNSConfig := mkDNSConfig None false None None None None None.

Record PeerChange := mkPeerChange {
  PeerChange_NodeID : Z;
  PeerChange_DERPRegion : Z;
  PeerChange_Cap : Z;
  PeerChange_CapMap : option (gmap string (slice RawMessage));
  PeerChange_Endpoints : slice AddrPort;
  PeerChange_Key : option NodePublic;
  PeerChange_KeySignature : RawMessage;
  PeerChange_DiscoKey : option DiscoPublic;
  PeerChange_Online : option bool;
  PeerChange_LastSeen : option Z;
  PeerChange_KeyExpiry : option Z
}.
#[export] Instance PeerChange_fields : Fields PeerChange := λ r, mkPeerChange (PeerChange_NodeID r) (PeerChange_DERPRegion r) (PeerChange_Cap r) (PeerChange_CapMap r) (PeerChange_Endpoints r) (PeerChange_Key r) (PeerChange_KeySignature r) (PeerChange_DiscoKey r) (PeerChange_Online r) (PeerChange_LastSeen r) (PeerChange_KeyExpiry r).
#[export] Instance PeerChange_eq_dec : EqDecision PeerChange.
Proof. solve_decision. Defined.
Definition zeroPeerChange : PeerChange := mkPeerChange 0 0 0 None None None None None None None None.

Record PingRequest := mkPingRequest {
  PingRequest_URL : string;
  PingRequest_URLIsNoise : bool;
  PingRequest_Log : bool;
  PingRequest_Types : string;
  PingRequest_IP : Addr;
  PingRequest_Payload : RawMessage
}.
#[export] Instance PingRequest_fields : Fields PingRequest := λ r, mkPingRequest (PingRequest_URL r) (PingRequest_URLIsNoise r) (PingRequest_Log r) (PingRequest_Types r) (PingRequest_IP r) (PingRequest_Payload r).
#[export] Instance PingRequest_eq_dec : EqDecision PingRequest.
Proof. solve_decision. Defined.
Definition zeroPingRequest : PingRequest := mkPingRequest "" false false "" AddrZero None.

(** One message of the map stream: an absent field leaves the state as it is. *)
Record MapResponse := mkMapResponse {
  MapResponse_MapSessionHandle : string;
  MapResponse_Seq : Z;
  MapResponse_KeepAlive : bool;
  MapResponse_PingRequest : option PingRequest;
  MapResponse_PopBrowserURL : string;
  MapResponse_Node : option Node;
  MapResponse_DERPMap : option DERPMap;
  MapResponse_Peers : slice (option Node);
  MapResponse_PeersChanged : slice (option Node);
  MapResponse_PeersRemoved : slice Z;
  MapResponse_PeersChangedPatch : slice (option PeerChange);
  MapResponse_PeerSeenChange : option (gmap Z bool);
  MapResponse_OnlineChange : option (gmap Z bool);
  MapResponse_DNSConfig : option DNSConfig;
  MapResponse_Domain : string;
  MapResponse_PacketFilter : slice FilterRule;
  MapResponse_PacketFilters : option (gmap string (slice FilterRule));
  MapResponse_UserProfiles : slice CUserProfile;
  MapResponse_Health : slice string;
  MapResponse_ControlTime : option Z
}.
#[export] Instance MapResponse_fields : Fields MapResponse := λ r, mkMapResponse (MapResponse_MapSessionHandle r) (MapResponse_Seq r) (MapResponse_KeepAlive r) (MapResponse_PingRequest r) (MapResponse_PopBrowserURL r) (MapResponse_Node r) (MapResponse_DERPMap r) (MapResponse_Peers r) (MapResponse_PeersChanged r) (MapResponse_PeersRemoved r) (MapResponse_PeersChangedPatch r) (MapResponse_PeerSeenChange r) (MapResponse_OnlineChange r) (MapResponse_DNSConfig r) (MapResponse_Domain r) (MapResponse_PacketFilter r) (MapResponse_PacketFilters r) (MapResponse_UserProfiles r) (MapResponse_Health r) (MapResponse_ControlTime r).
#[export] Instance MapResponse_eq_dec : EqDecision MapResponse.
Proof. solve_decision. Defined.
Definition zeroMapResponse : MapResponse := mkMapResponse "" 0 false None "" None None None None None None None None None "" None None None None None.
