(* ===== verification/NodeData.v ===== *)
(** * Copying and normalising control data ([map.go], pure helpers)

    The deep copies the client takes of control-plane structures, the DERP map
    merge, peer patches, key expiry and the choice of the home DERP region. *)

From Stdlib Require Import ZArith Lia Strings.Byte String Ascii.
From S2P Require Export Acl Types.
Open Scope Z_scope.

(** ** Copies *)

(** [slices.Clone] keeps nil nil and copies the elements. *)
Definition Clone {A} (s : slice A) : slice A := s.

Definition normalizePrefixes (values : slice Prefix) : slice Prefix :=
  match values with
  | None => None
  | Some values => Some (dedup (map unmapPrefix values))
  end.

Definition normalizeAddrPorts (values : slice AddrPort) : slice AddrPort :=
  match values with
  | None => None
  | Some values => Some (dedup (map unmapAddrPort values))
  end.

(** [make([]json.RawMessage, len(values))]: never nil. *)
Definition cloneRawMessages (values : slice RawMessage) : slice RawMessage :=
  Some (map Clone (elems values)).

Definition cloneRawMessageMap (values : option (gmap string (slice RawMessage)))
    : option (gmap string (slice RawMessage)) :=
  match values with
  | None => None
  | Some values => Some (cloneRawMessages <$> values)
  end.

Definition cloneCapabilityMap (value : option (gmap string (slice RawMessage)))
    : option (gmap string (slice RawMessage)) :=
  match value with
  | None => None
  | Some value => Some ((λ entries, Some (map Clone (elems entries))) <$> value)
  end.

Definition cloneControlNode (node : Node) : Node :=
  node <| Node_Addresses := normalizePrefixes (Node_Addresses node) |>
       <| Node_AllowedIPs := normalizePrefixes (Node_AllowedIPs node) |>
       <| Node_Endpoints := normalizeAddrPorts (Node_Endpoints node) |>
       <| Node_Hostinfo := Clone (Node_Hostinfo node) |>
       <| Node_KeySignature := Clone (Node_KeySignature node) |>
       <| Node_Tags := Clone (Node_Tags node) |>
       <| Node_PrimaryRoutes := normalizePrefixes (Node_PrimaryRoutes node) |>
       <| Node_Capabilities := Clone (Node_Capabilities node) |>
       <| Node_CapMap := cloneCapabilityMap (Node_CapMap node) |>
       <| Node_ExitNodeDNSResolvers := cloneRawMessages (Node_ExitNodeDNSResolvers node) |>
       <| Node_RawJSON := Clone (Node_RawJSON node) |>
       <| Node_SelfNodeV4MasqAddrForThisPeer := Unmap <$> Node_SelfNodeV4MasqAddrForThisPeer node |>
       <| Node_SelfNodeV6MasqAddrForThisPeer := Unmap <$> Node_SelfNodeV6MasqAddrForThisPeer node |>.

Definition controlNodeMapsEqual (a b : gmap Z Node) : bool := bool_decide (a = b).

Definition cloneDNSConfig (value : DNSConfig) : DNSConfig :=
  value <| DNSConfig_Domains := Clone (DNSConfig_Domains value) |>
        <| DNSConfig_Nameservers := map Unmap <$> DNSConfig_Nameservers value |>
        <| DNSConfig_CertDomains := Clone (DNSConfig_CertDomains value) |>
        <| DNSConfig_ExtraRecords := Clone (DNSConfig_ExtraRecords value) |>
        <| DNSConfig_Routes := cloneRawMessageMap (DNSConfig_Routes value) |>
        <| DNSConfig_Resolvers := cloneRawMessages (DNSConfig_Resolvers value) |>.

Definition cloneFilter (rule : FilterRule) : FilterRule :=
  rule <| FilterRule_SrcIPs := Clone (FilterRule_SrcIPs rule) |>
       <| FilterRule_SrcBits := Clone (FilterRule_SrcBits rule) |>
       <| FilterRule_DstPorts := Some (elems (FilterRule_DstPorts rule)) |>
       <| FilterRule_IPProto := Clone (FilterRule_IPProto rule) |>
       <| FilterRule_CapGrant := cloneRawMessages (FilterRule_CapGrant rule) |>.

(** [make([]controlproto.FilterRule, len(value))]: never nil. *)
Definition cloneFilters (value : slice FilterRule) : slice FilterRule :=
  Some (map cloneFilter (elems value)).

(** ** DERP maps *)

Definition region_at (derpMap : DERPMap) (id : Z) : option CDERPRegion :=
  mjoin (m ← DERPMap_Regions derpMap; m !! id).

(** A copied region drops nil nodes. *)
Definition cloneDERPRegion (region : CDERPRegion) : CDERPRegion :=
  region <| CDERPRegion_Nodes := Some (map Some (omap id (elems (CDERPRegion_Nodes region)))) |>.

(** A nil region is dropped. *)
Definition cloneDERPMap (value : option DERPMap) : option DERPMap :=
  match value with
  | None => None
  | Some value =>
      Some (value <| DERPMap_Regions :=
        (λ m : gmap Z (option CDERPRegion), Some <$> omap (λ r, cloneDERPRegion <$> r) m)
          <$> DERPMap_Regions value |>)
  end.

Definition mergeDERPMap (previous update : option DERPMap) : option DERPMap :=
  match cloneDERPMap update with
  | None => cloneDERPMap previous
  | Some out =>
      match DERPMap_Regions out, cloneDERPMap previous with
      | None, Some previous => Some (out <| DERPMap_Regions := DERPMap_Regions previous |>)
      | _, _ => Some out
      end
  end.

(** ** Home DERP region *)

Definition usableDERPRegion (region : option CDERPRegion) : bool :=
  match region with
  | None => false
  | Some region =>
      if CDERPRegion_NoMeasureNoHome region then false
      else existsb (λ node, match node with
                            | None => false
                            | Some node => negb (CDERPNode_STUNOnly node)
                            end) (elems (CDERPRegion_Nodes region))
  end.

(** The ids of the usable regions, in increasing order. *)
Definition usableRegions (derpMap : DERPMap) : list Z :=
  sort_ints (map fst (filter (λ '(_, region), Is_true (usableDERPRegion region))
    (map_to_list (default ∅ (DERPMap_Regions derpMap))))).

Definition choosePreferredDERP (derpMap : option DERPMap) (current : Z) : Z :=
  match derpMap with
  | None => 0
  | Some derpMap =>
      if usableDERPRegion (region_at derpMap current) then current
      else default 0 (head (usableRegions derpMap))
  end.

(** [tailnet.DERPRegionLatency]; the source is ["stun-udp"] or ["https"]. *)
Record DERPRegionLatency := mkDERPRegionLatency {
  rl_RegionID : Z;
  rl_Latency : Z;
  rl_Source : string;
  rl_At : Z
}.

#[export] Instance DERPRegionLatency_eq_dec : EqDecision DERPRegionLatency.
Proof. solve_decision. Defined.

(** The body of the search loop, on the pair [(bestID, best)]. *)
Definition bestRegionStep (derpMap : DERPMap) (acc : Z * Z) (entry : Z * DERPRegionLatency) : Z * Z :=
  let '(bestID, best) := acc in
  let '(regionID, metric) := entry in
  if (rl_Latency metric <=? 0) || negb (usableDERPRegion (region_at derpMap regionID)) then acc
  else if (bestID =? 0) || (rl_Latency metric <? best)
          || ((rl_Latency metric =? best) && (regionID <? bestID))
  then (regionID, rl_Latency metric) else acc.

Definition bestRegion (derpMap : DERPMap) (order : list (Z * DERPRegionLatency)) : Z * Z :=
  fold_left (bestRegionStep derpMap) order (0, 0).

(** A measured home is kept unless the best region is faster by 10 ms and a third. *)
Definition stickyHome (derpMap : DERPMap) (current best : Z) (currentMetric : option DERPRegionLatency)
    : bool :=
  match currentMetric with
  | None => false
  | Some metric =>
      usableDERPRegion (region_at derpMap current) && (0 <? rl_Latency metric)
      && ((rl_Latency metric <=? best)
          || (rl_Latency metric - best <? 10 * Millisecond)
          || (Z.quot (rl_Latency metric) 3 * 2 <? best))
  end.

(** [order] is the order in which [range measured] visits the entries. *)
Definition choosePreferredDERPMeasured_in (order : list (Z * DERPRegionLatency))
    (derpMap : option DERPMap) (current : Z) (measured : gmap Z DERPRegionLatency) : Z :=
  let fallback := choosePreferredDERP derpMap current in
  match derpMap with
  | None => fallback
  | Some derpMap =>
      if bool_decide (measured = ∅) then fallback
      else
        let '(bestID, best) := bestRegion derpMap order in
        if (bestID =? 0) || (bestID =? current) then (if bestID =? 0 then fallback else bestID)
        else if stickyHome derpMap current best (measured !! current) then current
        else bestID
  end.

Definition choosePreferredDERPMeasured (derpMap : option DERPMap) (current : Z)
    (measured : gmap Z DERPRegionLatency) : Z :=
  choosePreferredDERPMeasured_in (map_to_list measured) derpMap current measured.

(** ** Peers *)

Definition homeDERP (node : option Node) : Z :=
  match node with
  | None => 0
  | Some node =>
      if negb (Node_HomeDERP node =? 0) then Node_HomeDERP node
      else match SplitHostPort (Node_LegacyDERPString node) with
           | Some (_, port) => ParseInt_val port
           | None => 0
           end
  end.

Definition peerID (node : Node) : string :=
  if bool_decide (Node_StableID node ≠ "") then Node_StableID node
  else NodePublic_String (Node_Key node).

Definition peerPatchChangesPath (patch : PeerChange) : bool :=
  negb (PeerChange_DERPRegion patch =? 0) || bool_decide (is_Some (PeerChange_Endpoints patch))
  || bool_decide (is_Some (PeerChange_Key patch)) || bool_decide (is_Some (PeerChange_DiscoKey patch)).

(** The body of [applyPeerPatchLocked] on the patched node. *)
Definition patchNode (patch : PeerChange) (node : Node) : Node :=
  let node := when (negb (PeerChange_DERPRegion patch =? 0))
    (λ node, node <| Node_HomeDERP := PeerChange_DERPRegion patch |>) node in
  let node := when (negb (PeerChange_Cap patch =? 0))
    (λ node, node <| Node_Cap := PeerChange_Cap patch |>) node in
  let node := on_some (PeerChange_CapMap patch)
    (λ value node, node <| Node_CapMap := cloneCapabilityMap (Some value) |>) node in
  let node := on_some (PeerChange_Endpoints patch)
    (λ value node, node <| Node_Endpoints := normalizeAddrPorts (Some value) |>) node in
  let node := on_some (PeerChange_Key patch)
    (λ value node, node <| Node_Key := value |>) node in
  let node := on_some (PeerChange_KeySignature patch)
    (λ value node, node <| Node_KeySignature := Clone (Some value) |>) node in
  let node := on_some (PeerChange_DiscoKey patch)
    (λ value node, node <| Node_DiscoKey := value |>) node in
  let node := on_some (PeerChange_Online patch)
    (λ value node, node <| Node_Online := Some value |>) node in
  let node := on_some (PeerChange_LastSeen patch)
    (λ value node, node <| Node_LastSeen := Some value |>) node in
  on_some (PeerChange_KeyExpiry patch)
    (λ value node, node <| Node_KeyExpiry := value |>) node.

(** [applyPeerPatchLocked] on [c.peers]. *)
Definition applyPeerPatchLocked (patch : option PeerChange) (peers : gmap Z Node) : gmap Z Node :=
  match patch with
  | None => peers
  | Some patch =>
      match peers !! PeerChange_NodeID patch with
      | None => peers
      | Some node => <[PeerChange_NodeID patch := patchNode patch node]> peers
      end
  end.

(** The node after the call, and whether it changed. *)
Definition markNodeExpired (now : Z) (node : Node) : Node * bool :=
  if Node_Expired node || time_is_zero (Node_KeyExpiry node) || (now <? Node_KeyExpiry node)
  then (node, false)
  else (node <| Node_Expired := true |>, true).

(** ** Copies are idempotent *)

Lemma unmapAddrPort_idemp p : unmapAddrPort (unmapAddrPort p) = unmapAddrPort p.
Proof.
  unfold unmapAddrPort, ap_is_valid. destruct (IsValid (ap_addr p)) eqn:E; cbn; [|by rewrite E].
  by rewrite Unmap_valid, E, Unmap_idemp.
Qed.

Lemma Masked_v4_unmapped v bits : Is4In6 (p_addr (Masked (PrefixFrom (Addr4 v) bits))) = false.
Proof.
  unfold Masked, addr_prefix, PrefixFrom. cbn [IsValid BitLen withoutZone andb].
  generalize (mask_val 32 bits v). intros.
  repeat (case_match; cbn [p_addr p_bits] in *; simplify_eq; try done).
Qed.

Lemma unmapPrefix_idemp p : unmapPrefix (unmapPrefix p) = unmapPrefix p.
Proof.
  destruct (negb (prefix_is_valid p) || negb (Is4In6 (p_addr p)) || (p_bits p <? 96)) eqn:E.
  { unfold unmapPrefix at 2 3. rewrite E. unfold unmapPrefix. by rewrite E. }
  unfold unmapPrefix at 2 3. rewrite E. unfold unmapPrefix.
  assert (Is4In6 (p_addr (Masked (PrefixFrom (Unmap (p_addr p)) (p_bits p - 96)))) = false) as ->;
    [|by rewrite orb_true_r].
  apply orb_false_iff in E as [[_ E%negb_false_iff]%orb_false_iff _].
  destruct (p_addr p) as [|v|v z]; [done..|]. unfold Unmap. rewrite E.
  apply Masked_v4_unmapped.
Qed.

Lemma dedup_map_idemp {A} `{EqDecision A} (f : A → A) (Hf : ∀ x, f (f x) = f x) l :
  dedup (map f (dedup (map f l))) = dedup (map f l).
Proof.
  assert (map f (dedup (map f l)) = dedup (map f l)) as ->.
  { transitivity (id <$> dedup (map f l)); [|apply list_fmap_id].
    apply Forall_fmap_ext, Forall_forall. intros x Hx. apply elem_of_dedup, list_elem_of_fmap in Hx as (y & -> & _). apply Hf. }
  apply dedup_id, NoDup_dedup.
Qed.

Lemma normalizePrefixes_idemp v : normalizePrefixes (normalizePrefixes v) = normalizePrefixes v.
Proof. destruct v; cbn; [|done]. f_equal. apply dedup_map_idemp, unmapPrefix_idemp. Qed.

Lemma normalizeAddrPorts_idemp v : normalizeAddrPorts (normalizeAddrPorts v) = normalizeAddrPorts v.
Proof. destruct v; cbn; [|done]. f_equal. apply dedup_map_idemp, unmapAddrPort_idemp. Qed.

Lemma map_Clone {A} (l : list (slice A)) : map Clone l = l.
Proof. apply (list_fmap_id (A := slice A)). Qed.

Lemma cloneRawMessages_idemp v : cloneRawMessages (cloneRawMessages v) = cloneRawMessages v.
Proof. unfold cloneRawMessages. cbn. by rewrite !map_Clone. Qed.

Lemma cloneRawMessageMap_idemp v : cloneRawMessageMap (cloneRawMessageMap v) = cloneRawMessageMap v.
Proof.
  destruct v as [m|]; cbn; [|done]. f_equal. rewrite <-map_fmap_compose.
  apply map_fmap_ext. intros. apply cloneRawMessages_idemp.
Qed.

Lemma cloneCapabilityMap_idemp v : cloneCapabilityMap (cloneCapabilityMap v) = cloneCapabilityMap v.
Proof.
  destruct v as [m|]; cbn; [|done]. f_equal. rewrite <-map_fmap_compose.
  apply map_fmap_ext. intros. cbn. by rewrite !map_Clone.
Qed.

Lemma cloneControlNode_idemp n : cloneControlNode (cloneControlNode n) = cloneControlNode n.
Proof.
  unfold cloneControlNode, Clone; destruct n; cbn -[cloneRawMessages].
  rewrite !normalizePrefixes_idemp, normalizeAddrPorts_idemp, cloneCapabilityMap_idemp,
    cloneRawMessages_idemp.
  assert (∀ o : option Addr, Unmap <$> (Unmap <$> o) = Unmap <$> o) as Ho
    by (intros []; cbn; by rewrite ?Unmap_idemp).
  by rewrite !Ho.
Qed.

Lemma cloneDNSConfig_idemp v : cloneDNSConfig (cloneDNSConfig v) = cloneDNSConfig v.
Proof.
  unfold cloneDNSConfig, Clone; destruct v as [? ? ns]; cbn -[cloneRawMessages].
  rewrite cloneRawMessageMap_idemp, cloneRawMessages_idemp.
  f_equal. destruct ns; cbn; [|done]. f_equal. rewrite map_map. apply map_ext, Unmap_idemp.
Qed.

Lemma cloneFilters_idemp v : cloneFilters (cloneFilters v) = cloneFilters v.
Proof.
  unfold cloneFilters. cbn [elems default from_option id]. rewrite map_map. f_equal. apply map_ext. intros [].
  unfold cloneFilter, Clone; cbn -[cloneRawMessages]. by rewrite cloneRawMessages_idemp.
Qed.

Lemma omap_id_Some {A} (l : list A) : omap id (map Some l) = l.
Proof. induction l as [|x l IH]; cbn; [done|]. by f_equal. Qed.

Lemma cloneDERPRegion_idemp r : cloneDERPRegion (cloneDERPRegion r) = cloneDERPRegion r.
Proof. unfold cloneDERPRegion; destruct r; cbn [elems]. cbn -[omap]. by rewrite omap_id_Some. Qed.

Lemma cloneDERPMap_idemp v : cloneDERPMap (cloneDERPMap v) = cloneDERPMap v.
Proof.
  destruct v as [[regions omit]|]; [|done]. unfold cloneDERPMap; cbn. do 2 f_equal.
  destruct regions as [m|]; cbn; [|done]. do 2 f_equal. apply map_eq. intros i.
  rewrite !lookup_omap, lookup_fmap, lookup_omap.
  destruct (m !! i) as [[r|]|]; cbn; try done. by rewrite cloneDERPRegion_idemp.
Qed.

(** Merging the same update again changes nothing. *)
Lemma mergeDERPMap_idemp previous update :
  mergeDERPMap (mergeDERPMap previous update) update = mergeDERPMap previous update.
Proof.
  unfold mergeDERPMap. destruct (cloneDERPMap update) as [out|] eqn:Eu; [|apply cloneDERPMap_idemp].
  destruct (DERPMap_Regions out) as [r|] eqn:Er; [done|].
  destruct (cloneDERPMap previous) as [p|] eqn:Ep.
  - assert (cloneDERPMap (Some p) = Some p) as Hp by (by rewrite <-Ep, cloneDERPMap_idemp).
    destruct p as [pr po], out as [orr oo]; cbn in *. injection Hp as Hp. by rewrite Hp.
  - assert (cloneDERPMap (Some out) = Some out) as -> by (by rewrite <-Eu, cloneDERPMap_idemp).
    destruct out; cbn in *. by subst.
Qed.

(** ** Normalised nodes *)

(** What [c.self] and [c.peers] hold: copies are normal forms. *)
Definition node_normal (n : Node) : Prop := cloneControlNode n = n.

Lemma cloneControlNode_normal n : node_normal (cloneControlNode n).
Proof. apply cloneControlNode_idemp. Qed.

Lemma node_normal_iff n :
  node_normal n ↔
  normalizePrefixes (Node_Addresses n) = Node_Addresses n ∧
  normalizePrefixes (Node_AllowedIPs n) = Node_AllowedIPs n ∧
  normalizeAddrPorts (Node_Endpoints n) = Node_Endpoints n ∧
  normalizePrefixes (Node_PrimaryRoutes n) = Node_PrimaryRoutes n ∧
  cloneCapabilityMap (Node_CapMap n) = Node_CapMap n ∧
  cloneRawMessages (Node_ExitNodeDNSResolvers n) = Node_ExitNodeDNSResolvers n ∧
  Unmap <$> Node_SelfNodeV4MasqAddrForThisPeer n = Node_SelfNodeV4MasqAddrForThisPeer n ∧
  Unmap <$> Node_SelfNodeV6MasqAddrForThisPeer n = Node_SelfNodeV6MasqAddrForThisPeer n.
Proof.
  unfold node_normal, cloneControlNode, Clone; destruct n; cbn. split.
  - intros [=]. by split_and!.
  - intros (-> & -> & -> & -> & -> & -> & -> & ->). done.
Qed.

Lemma patchNode_normal patch n : node_normal n → node_normal (patchNode patch n).
Proof.
  intros Hn. unfold patchNode; cbv zeta.
  repeat first [apply (on_some_preserves node_normal) | apply (when_preserves node_normal)];
    [exact Hn|..]; intros; cbv beta;
    match goal with H : node_normal ?m |- node_normal (update _ _ ?m) =>
      revert H; generalize m; clear; intros k; rewrite !node_normal_iff;
      intros (? & ? & ? & ? & ? & ? & ? & ?) end;
    match goal with k : Node |- _ => destruct k end;
    cbn [update] in *; cbn -[cloneCapabilityMap normalizeAddrPorts] in *;
    repeat split; try assumption;
    first [apply (normalizeAddrPorts_idemp (Some _)) | apply (cloneCapabilityMap_idemp (Some _))].
Qed.

(** ** The choice of the home region *)

Section Home.
Context (derpMap : DERPMap).

(** An entry that competes in the search. *)
Definition eligible (e : Z * DERPRegionLatency) : Prop :=
  0 < rl_Latency e.2 ∧ usableDERPRegion (region_at derpMap e.1) = true.

(** [a] is at least as good as [b]: lower latency, then lower id. *)
Definition better_eq (a b : Z * Z) : Prop := a.2 < b.2 ∨ a.2 = b.2 ∧ a.1 ≤ b.1.

Definition best_of (order : list (Z * DERPRegionLatency)) (r : Z * Z) : Prop :=
  (r.1 = 0 ∧ ∀ e, e ∈ order → ¬ eligible e) ∨
  (r.1 ≠ 0 ∧ (∃ metric, (r.1, metric) ∈ order ∧ eligible (r.1, metric) ∧ rl_Latency metric = r.2) ∧
   ∀ e, e ∈ order → eligible e → better_eq r (e.1, rl_Latency e.2)).

Lemma bestRegionStep_spec order r e :
  e.1 ≠ 0 → best_of order r → best_of (order ++ [e]) (bestRegionStep derpMap r e).
Proof.
  intros H0 Hb. destruct r as [id l], e as [rid m]. unfold bestRegionStep.
  destruct (_ || negb _) eqn:E.
  - assert (¬ eligible (rid, m)) as Hn.
    { intros [Hl Hu]; cbn in *. rewrite Hu in E. cbn in E. rewrite orb_false_r in E. lia. }
    destruct Hb as [[? Hb]|(? & (m' & Hm & He) & Hb)]; [left|right; split_and!; eauto]; cbn in *.
    + split; [done|]. intros e [He| ->]%elem_of_snoc; auto.
    + exists m'. set_solver.
    + intros e [Hin| ->]%elem_of_snoc; [auto|done].
  - apply orb_false_iff in E as [El Eu]. apply negb_false_iff in Eu.
    assert (eligible (rid, m)) as He by (split; cbn; [lia|done]).
    destruct (_ || _ || _) eqn:E2.
    + right. cbn in *. split_and!; [done|exists m; set_solver|].
      intros e [Hin| ->]%elem_of_snoc Hel; [|right; cbn; lia].
      destruct Hb as [[? Hb]|(? & _ & Hb)]; [by destruct (Hb e)|].
      specialize (Hb e Hin Hel). unfold better_eq in *; cbn in *. lia.
    + destruct Hb as [[? _]|(? & (m' & Hm & He') & Hb)]; cbn in *; [subst; cbn in E2; lia|].
      right. cbn. split_and!; [done|exists m'; set_solver|].
      intros e [Hin| ->]%elem_of_snoc Hel; [auto|].
      unfold better_eq; cbn. lia.
Qed.

Lemma bestRegion_spec order : (∀ e, e ∈ order → e.1 ≠ 0) → best_of order (bestRegion derpMap order).
Proof.
  unfold bestRegion. induction order as [|e order IH] using rev_ind; intros H0.
  - left. set_solver.
  - rewrite fold_left_app. cbn [fold_left]. apply bestRegionStep_spec; set_solver.
Qed.

(** Two visiting orders of the same entries give the same region. *)
Lemma best_of_unique order order' r r' :
  (∀ e, e ∈ order ↔ e ∈ order') → best_of order r → best_of order' r' → r.1 = r'.1 ∧ (r.1 ≠ 0 → r = r').
Proof.
  intros Ho [[H0 Hn]|(H0 & (m & Hm & He & Hl) & Hb)] [[H0' Hn']|(H0' & (m' & Hm' & He' & Hl') & Hb')].
  - split; congruence.
  - by destruct (Hn (r'.1, m')); [apply Ho|].
  - by destruct (Hn' (r.1, m)); [apply Ho|].
  - assert (better_eq r r') as H1.
    { specialize (Hb (r'.1, m') ltac:(by apply Ho) He'). cbn in Hb. rewrite Hl' in Hb. by destruct r'. }
    assert (better_eq r' r) as H2.
    { specialize (Hb' (r.1, m) ltac:(by apply Ho) He). cbn in Hb'. rewrite Hl in Hb'. by destruct r. }
    destruct r, r'; unfold better_eq in *; cbn in *.
    split; [lia|intros _; f_equal; lia].
Qed.
End Home.

(** Region id 0 means no region; neither the DERP map nor a report measures it. *)
Definition measured_ok (measured : gmap Z DERPRegionLatency) : Prop := measured !! 0 = None.

Lemma range_keys_nonzero measured order :
  measured_ok measured → range_of measured order → ∀ e, e ∈ order → e.1 ≠ 0.
Proof.
  intros Hm Ho [id m] Hin E. cbn in E; subst. unfold measured_ok in Hm.
  apply (range_of_lookup _ _ _ _ Ho) in Hin. congruence.
Qed.

Lemma choose_measured_order derpMap current measured order :
  measured_ok measured → range_of measured order →
  choosePreferredDERPMeasured_in order derpMap current measured =
  choosePreferredDERPMeasured derpMap current measured.
Proof.
  intros Hm Ho. unfold choosePreferredDERPMeasured, choosePreferredDERPMeasured_in.
  destruct derpMap as [derpMap|]; [|done]. case_bool_decide; [done|].
  pose proof (bestRegion_spec derpMap order (range_keys_nonzero _ _ Hm Ho)) as H1.
  pose proof (bestRegion_spec derpMap (map_to_list measured)
    (range_keys_nonzero _ _ Hm (range_of_refl measured))) as H2.
  destruct (best_of_unique _ _ _ _ _ (λ e, elem_of_Permutation_proper e _ _ Ho) H1 H2) as [E1 E2].
  destruct (bestRegion derpMap order) as [b l], (bestRegion derpMap (map_to_list measured)) as [b' l'].
  cbn in *. subst b'. destruct (Z.eqb_spec b 0) as [|Hb]; [done|]. by injection (E2 Hb) as ->.
Qed.

(** C24. The home region does not depend on the order in which Go ranges over the
    measurements. *)
Theorem choosePreferredDERPMeasured_deterministic derpMap current measured order
    (Hm : measured_ok measured) (Ho : range_of measured order) :
  choosePreferredDERPMeasured_in order derpMap current measured =
  choosePreferredDERPMeasured derpMap current measured.
Proof. by apply choose_measured_order. Qed.

Definition demo_region (id : Z) : CDERPRegion :=
  zeroCDERPRegion <| CDERPRegion_RegionID := id |> <| CDERPRegion_Nodes := Some [Some zeroCDERPNode] |>.
Definition demo_map : DERPMap :=
  mkDERPMap (Some {[1 := Some (demo_region 1); 2 := Some (demo_region 2)]}) false.
Definition demo_latency (id l : Z) : DERPRegionLatency := mkDERPRegionLatency id l "https" 1.
Definition demo_measured : gmap Z DERPRegionLatency :=
  {[1 := demo_latency 1 (40 * Millisecond); 2 := demo_latency 2 (20 * Millisecond)]}.

Lemma choosePreferredDERPMeasured_deterministic_witness :
  choosePreferredDERPMeasured_in (reverse (map_to_list demo_measured)) (Some demo_map) 1 demo_measured = 2 ∧
  choosePreferredDERPMeasured (Some demo_map) 1 demo_measured = 2.
Proof.
  assert (choosePreferredDERPMeasured (Some demo_map) 1 demo_measured = 2) as E by (vm_compute; reflexivity).
  split; [|exact E]. rewrite choosePreferredDERPMeasured_deterministic; [exact E|reflexivity|].
  unfold range_of. apply reverse_Permutation.
Defined.

Lemma elem_of_usableRegions derpMap id :
  id ∈ usableRegions derpMap ↔ usableDERPRegion (region_at derpMap id) = true.
Proof.
  unfold usableRegions, sort_ints, region_at. rewrite elem_of_sort_func, list_elem_of_fmap.
  destruct (DERPMap_Regions derpMap) as [m|]; cbn.
  - split.
    + intros ([id' r] & -> & Hin). apply list_elem_of_filter in Hin as [Hu Hin].
      apply elem_of_map_to_list in Hin. cbn. rewrite Hin. by apply Is_true_eq_true.
    + destruct (m !! id) as [r|] eqn:E; cbn; [|done]. intros Hu. exists (id, r). split; [done|].
      apply list_elem_of_filter. split; [by apply Is_true_eq_left|by apply elem_of_map_to_list].
  - rewrite map_to_list_empty. split; [|done]. intros (? & _ & Hin).
    apply list_elem_of_filter in Hin as [_ Hin]. set_solver.
Qed.

Lemma choosePreferredDERP_spec derpMap current r :
  choosePreferredDERP (Some derpMap) current = r →
  usableDERPRegion (region_at derpMap r) = true ∨
  r = 0 ∧ ∀ id, usableDERPRegion (region_at derpMap id) = false.
Proof.
  unfold choosePreferredDERP. destruct (usableDERPRegion (region_at derpMap current)) eqn:E.
  { intros <-. by left. }
  destruct (usableRegions derpMap) as [|x l] eqn:El; cbn; intros <-.
  - right. split; [done|]. intros id. apply not_true_iff_false.
    rewrite <-elem_of_usableRegions, El. set_solver.
  - left. apply elem_of_usableRegions. rewrite El. set_solver.
Qed.

(** The home region is a region of the map with a relay node, or 0 when
    the map has none. *)
Theorem choosePreferredDERPMeasured_usable derpMap current measured r
    (Hm : measured_ok measured)
    (Hr : choosePreferredDERPMeasured (Some derpMap) current measured = r) :
  usableDERPRegion (region_at derpMap r) = true ∨
  r = 0 ∧ ∀ id, usableDERPRegion (region_at derpMap id) = false.
Proof.
  revert Hr. unfold choosePreferredDERPMeasured, choosePreferredDERPMeasured_in.
  case_bool_decide; [apply choosePreferredDERP_spec|].
  pose proof (bestRegion_spec derpMap _ (range_keys_nonzero _ _ Hm (range_of_refl measured))) as Hb.
  destruct (bestRegion _ _) as [b l]. destruct Hb as [[H0 _]|(H0 & (m & _ & [_ Hu] & _) & _)]; cbn in *.
  - subst b. apply choosePreferredDERP_spec.
  - rewrite (proj2 (Z.eqb_neq b 0)) by done. cbn.
    destruct (b =? current); [intros <-; by left|].
    destruct (stickyHome _ _ _ _) eqn:Es; intros <-; left; [|done].
    unfold stickyHome in Es. destruct (measured !! current); [|done]. by bool_to_prop.
Qed.

Lemma choosePreferredDERPMeasured_usable_witness :
  usableDERPRegion (region_at demo_map 2) = true ∨
  2 = 0 ∧ ∀ id, usableDERPRegion (region_at demo_map id) = false.
Proof.
  apply (choosePreferredDERPMeasured_usable demo_map 1 demo_measured 2); [reflexivity|vm_compute; reflexivity].
Defined.

(** C12. Hysteresis: a measured, usable home is left only for the fastest
    measured region, and only if that region is at least 10 ms and a third
    faster. *)
Theorem home_region_hysteresis derpMap current measured m new
    (Hm : measured_ok measured)
    (Hc : measured !! current = Some m) (Hl : 0 < rl_Latency m)
    (Hu : usableDERPRegion (region_at derpMap current) = true)
    (Hn : choosePreferredDERPMeasured (Some derpMap) current measured = new) (Hne : new ≠ current) :
  ∃ m', measured !! new = Some m' ∧ usableDERPRegion (region_at derpMap new) = true ∧
    10 * Millisecond ≤ rl_Latency m - rl_Latency m' ∧ 3 * rl_Latency m' ≤ 2 * rl_Latency m ∧
    ∀ id m'', measured !! id = Some m'' → 0 < rl_Latency m'' →
      usableDERPRegion (region_at derpMap id) = true → rl_Latency m' ≤ rl_Latency m''.
Proof.
  revert Hn. unfold choosePreferredDERPMeasured, choosePreferredDERPMeasured_in.
  case_bool_decide as He; [intros; exfalso; set_solver|].
  pose proof (bestRegion_spec derpMap _ (range_keys_nonzero _ _ Hm (range_of_refl measured))) as Hb.
  destruct (bestRegion _ _) as [b l]. destruct Hb as [[H0 Hb]|(H0 & (m' & Hin & [_ Hu'] & Hl') & Hb)]; cbn in *.
  { exfalso. apply (Hb (current, m)); [by apply elem_of_map_to_list|done]. }
  rewrite (proj2 (Z.eqb_neq b 0)) by done. cbn.
  destruct (Z.eqb_spec b current) as [|Hbc]; [congruence|].
  unfold stickyHome. rewrite Hc, Hu, (proj2 (Z.ltb_lt 0 _) Hl). cbn [andb].
  destruct (_ || _ || _) eqn:Es; [congruence|]. intros <-.
  apply elem_of_map_to_list in Hin. bool_to_prop.
  pose proof (Z.quot_div_nonneg (rl_Latency m) 3 ltac:(lia) ltac:(lia)) as Hq.
  pose proof (Z.mul_div_le (rl_Latency m) 3 ltac:(lia)).
  exists m'. split_and!; [done|done|lia|lia|]. intros id m'' Hid Hpos Hok.
  specialize (Hb (id, m'') ltac:(by apply elem_of_map_to_list) (conj Hpos Hok)).
  destruct Hb as [Hb|[Hb _]]; cbn in Hb; lia.
Qed.

Lemma home_region_hysteresis_witness :
  ∃ m', demo_measured !! 2 = Some m' ∧ usableDERPRegion (region_at demo_map 2) = true ∧
    10 * Millisecond ≤ rl_Latency (demo_latency 1 (40 * Millisecond)) - rl_Latency m' ∧
    3 * rl_Latency m' ≤ 2 * rl_Latency (demo_latency 1 (40 * Millisecond)) ∧
    ∀ id m'', demo_measured !! id = Some m'' → 0 < rl_Latency m'' →
      usableDERPRegion (region_at demo_map id) = true → rl_Latency m' ≤ rl_Latency m''.
Proof.
  apply (home_region_hysteresis demo_map 1 demo_measured (demo_latency 1 (40 * Millisecond)) 2);
    [reflexivity|reflexivity|reflexivity|reflexivity|vm_compute; reflexivity|discriminate].
Defined.
