(* ===== verification/Errors.v ===== *)
(** * Error values ([errors.go])

    The package's sentinel errors, the ones of the wgo device package the client
    distinguishes, and the wrapping of [fmt.Errorf] with [%w] and of
    [errors.Join]. *)

From Stdlib Require Import ZArith String Strings.Byte.
From S2P Require Export Prelude.

Inductive error :=
| ErrAlreadyStarted
| ErrNotStarted
| ErrClosed
| ErrDeviceRequired
| ErrDeviceAlreadyAttached
| ErrZeroNodeKey
| ErrNodeIdentityChanged
| ErrControlNodeKeyMismatch
| ErrNodeKeyExpired
| ErrPeerNotFound
| ErrPeerConflict
| ErrInteractionNotFound
| ErrDeviceClosed                          (* [device.ErrDeviceClosed] *)
| ErrCanceled                              (* [context.Canceled] *)
| ErrDeadlineExceeded                      (* [context.DeadlineExceeded] *)
| ErrText (text : string)                  (* any other error *)
| ErrWrap (context : string) (cause : error)   (* [fmt.Errorf("context: %w", cause)] *)
| ErrJoin (first second : error).          (* [errors.Join] of two non-nil errors *)

#[export] Instance error_eq_dec : EqDecision error.
Proof. solve_decision. Defined.

(** [errors.Is(err, target)]. *)
Fixpoint errors_Is (err target : error) : bool :=
  bool_decide (err = target) ||
  match err with
  | ErrWrap _ cause => errors_Is cause target
  | ErrJoin first second => errors_Is first target || errors_Is second target
  | _ => false
  end.

(** [err.Error()]; the text of the device package's error is an argument. *)
Fixpoint error_text (closedText : string) (err : error) : string :=
  match err with
  | ErrAlreadyStarted => "tailscale: client already started"
  | ErrNotStarted => "tailscale: client not started"
  | ErrClosed => "tailscale: client closed"
  | ErrDeviceRequired => "tailscale: wgo device API required"
  | ErrDeviceAlreadyAttached => "tailscale: wgo device API already attached"
  | ErrZeroNodeKey => "tailscale: wgo device has no private node key"
  | ErrNodeIdentityChanged => "tailscale: wgo device identity does not match the client identity"
  | ErrControlNodeKeyMismatch =>
      "tailscale: control returned a self node key that does not match the wgo device"
  | ErrNodeKeyExpired =>
      "tailscale: control requires node-key rotation, but the wgo device key is immutable to this client"
  | ErrPeerNotFound => "tailscale: peer not found"
  | ErrPeerConflict => "tailscale: peer public key is already owned by another wgo controller"
  | ErrInteractionNotFound => "tailscale: interaction not found"
  | ErrDeviceClosed => closedText
  | ErrCanceled => "context canceled"
  | ErrDeadlineExceeded => "context deadline exceeded"
  | ErrText text => text
  | ErrWrap context cause => context +:+ ": " +:+ error_text closedText cause
  | ErrJoin first second => error_text closedText first +:+ String (Ascii.ascii_of_nat 10) (error_text closedText second)
  end.

(** [errors.Join]: nil arguments are dropped. *)
Definition errors_Join (a b : option error) : option error :=
  match a, b with
  | Some a, Some b => Some (ErrJoin a b)
  | Some a, None => Some a
  | None, b => b
  end.

(** ** Reading from a connection *)

(** Errors of the standard library the connections return. *)
Definition ErrNetClosed : error := ErrText "use of closed network connection".
Definition ErrEOF : error := ErrText "EOF".
Definition ErrUnexpectedEOF : error := ErrText "unexpected EOF".

(** [io.ReadFull] of [n] bytes from the bytes the connection delivers before its end. *)
Definition ReadFull (n : nat) (stream : list byte) : result error (list byte * list byte) :=
  if (n <=? length stream)%nat then Ok (take n stream, drop n stream)
  else Err (if bool_decide (stream = []) then ErrEOF else ErrUnexpectedEOF).

Lemma ReadFull_app n (l rest : list byte) : length l = n → ReadFull n (l ++ rest) = Ok (l, rest).
Proof.
  intros <-. unfold ReadFull. rewrite (proj2 (Nat.leb_le _ _)) by (rewrite length_app; apply Nat.le_add_r).
  by rewrite take_app_length, drop_app_length.
Qed.

Lemma ReadFull_shorter n stream l rest : ReadFull n stream = Ok (l, rest) → length l = n ∧ stream = l ++ rest.
Proof.
  unfold ReadFull. destruct (Nat.leb_spec n (length stream)) as [Hn|]; [|done]. intros [= <- <-].
  split; [rewrite length_take; by apply Nat.min_l|]. symmetry. apply take_drop.
Qed.
