(* ===== verification/Events.v ===== *)
(** * Change notifications ([events.go])

    The hub keeps one bounded channel per subscriber.  A channel is its buffer,
    capacity and closed flag; a channel the hub has closed stays readable by its
    subscriber and is kept in [hub_detached].  The hub's methods run under one
    mutex, so each is an atomic step. *)

From Stdlib Require Import ZArith Lia String.
From S2P Require Export Errors.
Open Scope Z_scope.

Inductive EventKind :=
| EventState | EventInteraction | EventSelf | EventPeers | EventPeerPath | EventDNS
| EventACL | EventNetwork | EventDERP | EventUsers | EventMetadata | EventError.

#[export] Instance EventKind_eq_dec : EqDecision EventKind.
Proof. solve_decision. Defined.


Record Event := mkEvent { ev_Kind : EventKind; ev_Revision : Z; ev_At : Z; ev_Err : option error }.

#[export] Instance Event_eq_dec : EqDecision Event.
Proof. solve_decision. Defined.

(** A buffered Go channel. *)
Record Chan := mkChan { ch_cap : nat; ch_buf : list Event; ch_closed : bool }.

#[export] Instance Chan_fields : Fields Chan := λ r, mkChan (ch_cap r) (ch_buf r) (ch_closed r).

(** [select { case ch <- event: default: }]: the channel after the attempt and
    whether it succeeded. *)
Definition try_send (ch : Chan) (event : Event) : Chan * bool :=
  if (length (ch_buf ch) <? ch_cap ch)%nat then (ch <| ch_buf := ch_buf ch ++ [event] |>, true)
  else (ch, false).

(** [select { case <-ch: default: }]: the event taken, if any. *)
Definition try_recv (ch : Chan) : Chan * option Event :=
  match ch_buf ch with
  | [] => (ch, None)
  | e :: buf => (ch <| ch_buf := buf |>, Some e)
  end.

Record eventHub := mkHub {
  hub_next : Z;
  hub_closed : bool;
  hub_subs : gmap Z Chan;
  hub_detached : gmap Z Chan
}.

#[export] Instance eventHub_fields : Fields eventHub :=
  λ r, mkHub (hub_next r) (hub_closed r) (hub_subs r) (hub_detached r).

Definition zeroHub : eventHub := mkHub 0 false ∅ ∅.

Definition close_chan (ch : Chan) : Chan := ch <| ch_closed := true |>.

(** [subscribe]: the hub, the channel the caller receives and, when the hub is
    open, the subscription id the cancel function closes over. *)
Definition subscribe (buffer : Z) (h : eventHub) : eventHub * Chan * option Z :=
  let buffer := if buffer <? 1 then 1 else buffer in
  let ch := mkChan (Z.to_nat buffer) [] false in
  if hub_closed h then (h, close_chan ch, None)
  else
    let id := uwrap 64 (hub_next h + 1) in
    (h <| hub_next := id |> <| hub_subs := <[id := ch]> (hub_subs h) |>, ch, Some id).

(** The cancel function; [sync.Once] and the lookup make later calls no-ops. *)
Definition unsubscribe (id : Z) (h : eventHub) : eventHub :=
  match hub_subs h !! id with
  | None => h
  | Some existing =>
      h <| hub_subs := delete id (hub_subs h) |>
        <| hub_detached := <[id := close_chan existing]> (hub_detached h) |>
  end.

(** Delivery to one subscriber: send, or drop the oldest event and send. *)
Definition deliver (event : Event) (ch : Chan) : Chan :=
  let '(ch, sent) := try_send ch event in
  if sent then ch
  else
    let '(ch, _) := try_recv ch in
    fst (try_send ch event).

Definition publish (event : Event) (h : eventHub) : eventHub :=
  if hub_closed h then h
  else h <| hub_subs := deliver event <$> hub_subs h |>.

Definition hub_close (h : eventHub) : eventHub :=
  if hub_closed h then h
  else h <| hub_closed := true |>
         <| hub_detached := (close_chan <$> hub_subs h) ∪ hub_detached h |>
         <| hub_subs := ∅ |>.

(** A receive by the subscriber [id]. *)
Definition receive (id : Z) (h : eventHub) : eventHub * option Event :=
  match hub_subs h !! id, hub_detached h !! id with
  | Some ch, _ =>
      let '(ch, e) := try_recv ch in (h <| hub_subs := <[id := ch]> (hub_subs h) |>, e)
  | None, Some ch =>
      let '(ch, e) := try_recv ch in (h <| hub_detached := <[id := ch]> (hub_detached h) |>, e)
  | None, None => (h, None)
  end.

(** ** The invariant of the hub *)

Definition chan_ok (ch : Chan) : Prop := (1 ≤ ch_cap ch)%nat ∧ (length (ch_buf ch) ≤ ch_cap ch)%nat.

Record hub_ok (h : eventHub) : Prop := {
  hub_subs_ok : map_Forall (λ _ ch, chan_ok ch ∧ ch_closed ch = false) (hub_subs h);
  hub_detached_ok : map_Forall (λ _ ch, chan_ok ch ∧ ch_closed ch = true) (hub_detached h);
  hub_closed_empty : hub_closed h = true → hub_subs h = ∅
}.

(** The hub is used through its methods and its subscribers' receives. *)
Inductive hub_step : eventHub → eventHub → Prop :=
| hs_subscribe buffer h : hub_step h (subscribe buffer h).1.1
| hs_unsubscribe id h : hub_step h (unsubscribe id h)
| hs_publish event h : hub_step h (publish event h)
| hs_close h : hub_step h (hub_close h)
| hs_receive id h : hub_step h (receive id h).1.

(** ** Lemmas *)

(** The last [n] elements. *)
Definition lastn {A} (n : nat) (l : list A) : list A := drop (length l - n) l.
Arguments lastn : simpl never.

Lemma length_lastn {A} n (l : list A) : length (lastn n l) = (n `min` length l)%nat.
Proof. unfold lastn. rewrite length_drop. lia. Qed.

Lemma lastn_app_lastn {A} n (l l' : list A) : lastn n (lastn n l ++ l') = lastn n (l ++ l').
Proof.
  unfold lastn. rewrite !length_app, length_drop.
  destruct (decide (length l ≤ n)%nat).
  { replace (length l - n)%nat with 0%nat by lia. cbn. do 2 f_equal. lia. }
  rewrite <-(drop_app_le l l' (length l - n)) by lia. rewrite drop_drop. f_equal. lia.
Qed.

Lemma deliver_buf event ch :
  (1 ≤ ch_cap ch)%nat → (length (ch_buf ch) ≤ ch_cap ch)%nat →
  deliver event ch = ch <| ch_buf := lastn (ch_cap ch) (ch_buf ch ++ [event]) |>.
Proof.
  destruct ch as [cap buf closed]; cbn. intros H1 H2. unfold deliver, try_send; cbn [ch_buf ch_cap].
  unfold lastn. rewrite length_app. cbn [length].
  destruct (Nat.ltb_spec (length buf) cap).
  { replace (length buf + 1 - cap)%nat with 0%nat by lia. done. }
  destruct buf as [|e buf]; [cbn in *; lia|]. cbn [length] in *.
  assert (cap = S (length buf)) as -> by lia. cbn [try_recv ch_buf update fst app].
  replace (S (length buf) + 1 - S (length buf))%nat with 1%nat by lia. cbn.
  by rewrite Nat.leb_refl.
Qed.

Lemma deliver_ok event ch :
  chan_ok ch ∧ ch_closed ch = false → chan_ok (deliver event ch) ∧ ch_closed (deliver event ch) = false.
Proof.
  intros [[H1 H2] H3]. rewrite deliver_buf by done. destruct ch; cbn in *.
  unfold chan_ok; cbn. rewrite length_lastn. split_and!; [done|lia|done].
Qed.

Lemma try_recv_ok ch b :
  chan_ok ch ∧ ch_closed ch = b → chan_ok (try_recv ch).1 ∧ ch_closed (try_recv ch).1 = b.
Proof.
  destruct ch as [cap [|e buf] closed]; unfold chan_ok; cbn; [done|]. intros; intuition lia.
Qed.

Lemma close_chan_ok ch : chan_ok ch → chan_ok (close_chan ch) ∧ ch_closed (close_chan ch) = true.
Proof. by destruct ch. Qed.

Lemma hub_step_ok h h' : hub_ok h → hub_step h h' → hub_ok h'.
Proof.
  intros Hh. inversion 1; subst; clear H; pose proof Hh as [Hs Hd Hc].
  - unfold subscribe. destruct (hub_closed h) eqn:E; cbn; [exact Hh|].
    constructor; destruct h; cbn in *; [|done|congruence].
    apply map_Forall_insert_2; [|done]. unfold chan_ok; cbn. split_and!; [|lia|done].
    destruct (Z.ltb_spec buffer 1); lia.
  - unfold unsubscribe. destruct (hub_subs h !! id) as [ch|] eqn:E; [|exact Hh].
    pose proof (Hs _ _ E) as [Hok _].
    constructor; destruct h; cbn in *; [by apply map_Forall_delete| |].
    + apply map_Forall_insert_2; [by apply close_chan_ok|done].
    + intros Hcl. rewrite (Hc Hcl) in E. done.
  - unfold publish. destruct (hub_closed h) eqn:E; [exact Hh|].
    constructor; destruct h; cbn in *; [|done|congruence].
    intros id ch Hl. rewrite lookup_fmap in Hl. apply fmap_Some in Hl as (ch0 & Hl & ->).
    apply deliver_ok, (Hs _ _ Hl).
  - unfold hub_close. destruct (hub_closed h) eqn:E; [exact Hh|].
    constructor; destruct h; cbn in *; [apply map_Forall_empty| |done].
    apply map_Forall_union_2; [|done].
    intros id ch Hl. rewrite lookup_fmap in Hl. apply fmap_Some in Hl as (ch0 & Hl & ->).
    apply close_chan_ok, (Hs _ _ Hl).
  - unfold receive. destruct (hub_subs h !! id) as [ch|] eqn:E.
    + pose proof (try_recv_ok _ _ (Hs _ _ E)) as Hr. destruct (try_recv ch) as [ch' e]; cbn.
      constructor; destruct h; cbn in *; [by apply map_Forall_insert_2|done|].
      intros Hcl. rewrite (Hc Hcl) in E. done.
    + destruct (hub_detached h !! id) as [ch|] eqn:E'; [|exact Hh].
      pose proof (try_recv_ok _ _ (Hd _ _ E')) as Hr. destruct (try_recv ch) as [ch' e]; cbn.
      constructor; destruct h; cbn in *; [done|by apply map_Forall_insert_2|done].
Qed.

Lemma zeroHub_ok : hub_ok zeroHub.
Proof. constructor; [apply map_Forall_empty..|done]. Qed.


Definition demo_event (n : Z) : Event := mkEvent EventPeers n 0 None.


Definition publish_all (events : list Event) (h : eventHub) : eventHub :=
  foldl (λ h e, publish e h) h events.

Lemma publish_all_open events h :
  hub_closed h = false → hub_closed (publish_all events h) = false.
Proof.
  revert h. induction events as [|e events IH]; intros h Hc; cbn; [done|].
  apply IH. unfold publish. rewrite Hc. by destruct h.
Qed.

(** C28. Publishing never blocks and keeps the newest events: after any sequence
    of events a live subscriber that reads nothing holds exactly the last
    [cap] of its earlier buffer followed by that sequence. *)
Theorem publish_keeps_newest h id ch events
    (Hh : hub_ok h) (Hid : hub_subs h !! id = Some ch) :
  hub_subs (publish_all events h) !! id =
  Some (ch <| ch_buf := lastn (ch_cap ch) (ch_buf ch ++ events) |>).
Proof.
  assert (hub_closed h = false) as Hc.
  { destruct (hub_closed h) eqn:E; [|done]. rewrite (hub_closed_empty _ Hh E) in Hid. done. }
  revert h ch Hh Hid Hc. induction events as [|e events IH]; intros h ch Hh Hid Hc.
  - cbn [publish_all foldl]. pose proof (hub_subs_ok _ Hh _ _ Hid) as [[_ Hl] _]. rewrite Hid, app_nil_r. destruct ch; cbn in *.
    unfold lastn. replace (length ch_buf0 - ch_cap0)%nat with 0%nat by lia. done.
  - pose proof (hub_subs_ok _ Hh _ _ Hid) as [[H1 H2] _].
    assert (hub_subs (publish e h) !! id = Some (deliver e ch)) as Hp.
    { unfold publish. rewrite Hc. destruct h; cbn in *. by rewrite lookup_fmap, Hid. }
    specialize (IH (publish e h) _ (hub_step_ok _ _ Hh (hs_publish e h)) Hp).
    rewrite deliver_buf in IH by done. destruct ch; cbn -[publish_all] in *.
    change (publish_all (e :: events) h) with (publish_all events (publish e h)). rewrite IH.
    + do 2 f_equal. rewrite lastn_app_lastn. by rewrite <-app_assoc.
    + by apply (publish_all_open [e]).
Qed.

Lemma publish_keeps_newest_witness :
  hub_subs (publish_all [demo_event 1; demo_event 2; demo_event 3] (subscribe 2 zeroHub).1.1) !! 1 =
  Some (mkChan 2 [demo_event 2; demo_event 3] false).
Proof.
  rewrite (publish_keeps_newest _ 1 (mkChan 2 [] false)); [reflexivity| |reflexivity].
  apply (hub_step_ok _ _ zeroHub_ok (hs_subscribe 2 zeroHub)).
Defined.
