(* ===== verification/Options.v ===== *)
(** * Client options ([options.go])

    Option values, their validation and defaults.  The wgo [device] package is
    outside the repository: what the client uses of its types is the interface
    [DevicePkg].  A TLS configuration and a logger only matter by their presence. *)

From Stdlib Require Import ZArith Lia String Strings.Byte.
From S2P Require Export Prelude.
Open Scope Z_scope.

(** Types and constants of [wgo/device].  [SpecRest] stands for the fields of
    [device.PeerSpec] that the client never sets, [zeroSpecRest] for their zero
    values. *)
Class DevicePkg := {
  AmneziaWGConfig : Type;
  AmneziaWGConfig_eq_dec :: EqDecision AmneziaWGConfig;
  ValidateAmneziaWGConfig : AmneziaWGConfig → option string;
  device_DefaultTransportID : string;
  device_ErrDeviceClosed_text : string;
  PeerActivation : Type;
  PeerActivation_eq_dec :: EqDecision PeerActivation;
  PeerActivationEager : PeerActivation;
  SpecRest : Type;
  SpecRest_eq_dec :: EqDecision SpecRest;
  zeroSpecRest : SpecRest
}.

Definition DefaultControlURL : string := "https://controlplane.tailscale.com".
Definition DefaultTransportID : string := "tailscale".

(** A callback is nil or what calling it yields. *)
Record CacheCallbacks := mkCacheCallbacks {
  cb_Load : option (result string (list byte));
  cb_Store : option (list byte → option string)
}.

Definition CacheCallbacks_validate (c : CacheCallbacks) : option string :=
  if negb (eqb (bool_decide (cb_Load c = None)) (match cb_Store c with None => true | Some _ => false end))
  then Some "tailscale: cache Load and Store must either both be set or both be nil"
  else None.

Section Options.
Context `{DevicePkg}.

Record Options := mkOptions {
  opt_ControlURL : string;
  opt_Hostname : string;
  opt_AuthKey : string;
  opt_Ephemeral : bool;
  opt_ConfirmPeers : bool;
  opt_Obfuscation : option AmneziaWGConfig;
  opt_TransportID : string;
  opt_UseDefaultTransportForDirectPeers : bool;
  opt_ListenPort : Z;
  opt_InterfaceName : string;
  opt_MTU : Z;
  opt_DisableDERP : bool;
  opt_DisableDiscovery : bool;
  opt_TLSConfig : bool;
  opt_Cache : CacheCallbacks;
  opt_Logger : bool;
  opt_AuthenticationPollInterval : Z;
  opt_ReconnectMin : Z;
  opt_ReconnectMax : Z
}.

#[export] Instance Options_fields : Fields Options := λ r,
  mkOptions (opt_ControlURL r) (opt_Hostname r) (opt_AuthKey r) (opt_Ephemeral r)
    (opt_ConfirmPeers r) (opt_Obfuscation r) (opt_TransportID r)
    (opt_UseDefaultTransportForDirectPeers r) (opt_ListenPort r) (opt_InterfaceName r) (opt_MTU r)
    (opt_DisableDERP r) (opt_DisableDiscovery r) (opt_TLSConfig r) (opt_Cache r) (opt_Logger r)
    (opt_AuthenticationPollInterval r) (opt_ReconnectMin r) (opt_ReconnectMax r).

Definition guard_opt (bad : bool) (e : string) (o : Options) : result string Options :=
  if bad then Err e else Ok o.

Definition withDefaults (o : Options) : result string Options :=
  let o := o <| opt_ControlURL :=
    if bool_decide (opt_ControlURL o = "") then DefaultControlURL else opt_ControlURL o |> in
  let! o := guard_opt (bool_decide (opt_Hostname o = "")) "tailscale: Hostname is required" o in
  let o := o <| opt_TransportID :=
    if bool_decide (opt_TransportID o = "") then DefaultTransportID else opt_TransportID o |> in
  let! o := guard_opt (bool_decide (opt_TransportID o = device_DefaultTransportID))
    "tailscale: TransportID must not select wgo's default transport" o in
  let o := o <| opt_InterfaceName :=
    if bool_decide (opt_InterfaceName o = "") then "tailscale0" else opt_InterfaceName o |> in
  let o := o <| opt_MTU := if opt_MTU o =? 0 then 1280 else opt_MTU o |> in
  let! o := guard_opt ((opt_MTU o <? 576) || (65535 <? opt_MTU o))
    "tailscale: MTU must be between 576 and 65535" o in
  let o := o <| opt_AuthenticationPollInterval :=
    if opt_AuthenticationPollInterval o <=? 0 then 2 * Second else opt_AuthenticationPollInterval o |> in
  let o := o <| opt_ReconnectMin :=
    if opt_ReconnectMin o <=? 0 then 500 * Millisecond else opt_ReconnectMin o |> in
  let o := o <| opt_ReconnectMax :=
    if opt_ReconnectMax o <=? 0 then 30 * Second else opt_ReconnectMax o |> in
  let! o := guard_opt (opt_ReconnectMax o <? opt_ReconnectMin o)
    "tailscale: ReconnectMax must be at least ReconnectMin" o in
  let o := o <| opt_Logger := if negb (opt_Logger o) then true else opt_Logger o |> in
  let! o := guard_opt (negb (opt_TLSConfig o)) "tailscale: TLSConfig is required" o in
  let! o := match opt_Obfuscation o with
            | Some cfg =>
                match ValidateAmneziaWGConfig cfg with
                | Some e => Err ("tailscale: invalid Obfuscation: " +:+ e)
                | None => Ok o
                end
            | None => Ok o
            end in
  match CacheCallbacks_validate (opt_Cache o) with
  | Some e => Err e
  | None => Ok o
  end.

(** What [withDefaults] guarantees of the options a client runs with. *)
Record options_ok (o : Options) : Prop := {
  ok_hostname : opt_Hostname o ≠ "";
  ok_control : opt_ControlURL o ≠ "";
  ok_transport : opt_TransportID o ≠ "" ∧ opt_TransportID o ≠ device_DefaultTransportID;
  ok_interface : opt_InterfaceName o ≠ "";
  ok_mtu : 576 ≤ opt_MTU o ≤ 65535;
  ok_poll : 0 < opt_AuthenticationPollInterval o;
  ok_backoff : 0 < opt_ReconnectMin o ≤ opt_ReconnectMax o;
  ok_logger : opt_Logger o = true;
  ok_tls : opt_TLSConfig o = true;
  ok_obfuscation : ∀ cfg, opt_Obfuscation o = Some cfg → ValidateAmneziaWGConfig cfg = None;
  ok_cache : CacheCallbacks_validate (opt_Cache o) = None
}.

Lemma guard_opt_Ok bad e o o' : guard_opt bad e o = Ok o' → bad = false ∧ o' = o.
Proof. unfold guard_opt. destruct bad; [done|]. by intros [= ->]. Qed.

Lemma result_bind_Ok {E A B} (r : result E A) (k : A → result E B) b :
  result_bind r k = Ok b → ∃ a, r = Ok a ∧ k a = Ok b.
Proof. destruct r; cbn; [eauto|done]. Qed.

Ltac open_guards H :=
  repeat (apply result_bind_Ok in H as (? & ?Hg & H);
    match goal with Hg : guard_opt _ _ _ = Ok _ |- _ => apply guard_opt_Ok in Hg as [?Hg ->] end;
    cbn [update opt_Hostname opt_TransportID opt_InterfaceName opt_MTU opt_AuthenticationPollInterval
         opt_ReconnectMin opt_ReconnectMax opt_Logger opt_TLSConfig opt_Obfuscation opt_Cache] in *).

Lemma withDefaults_sound o o' : withDefaults o = Ok o' → options_ok o'.
Proof.
  destruct o as [url host auth eph conf obf tid direct port ifn mtu nod nodi tls cache log poll rmin rmax].
  intros H0. unfold withDefaults in H0. cbv zeta in H0. open_guards H0.
  apply result_bind_Ok in H0 as (o & Ho & H0).
  destruct (CacheCallbacks_validate (opt_Cache o)) eqn:Ec; [done|]. injection H0 as <-.
  assert ((∀ cfg, obf = Some cfg → ValidateAmneziaWGConfig cfg = None)) as Hobf.
  { intros cfg ->. destruct (ValidateAmneziaWGConfig cfg); cbn in Ho; done. }
  destruct obf as [cfg|]; cbn in Ho; [rewrite (Hobf cfg eq_refl) in Ho|];
    injection Ho as <-; cbn in Ec; bool_to_prop.
  all: constructor; cbn; try done; unfold Second, Millisecond, Minute in *; try case_bool_decide; try done.
  all: repeat match goal with |- context [if ?b then _ else _] => destruct b eqn:? end; bool_to_prop; lia || done.
Qed.

Lemma withDefaults_fixed o : options_ok o → withDefaults o = Ok o.
Proof.
  destruct o as [url host auth eph conf obf tid direct port ifn mtu nod nodi tls cache log poll rmin rmax].
  intros [? ? [? ?] ? ? ? ? ? ? Hobf Hc]; cbn in *. subst. unfold withDefaults, guard_opt; cbn.
  rewrite (bool_decide_false (host = "")) by done. cbn.
  rewrite (bool_decide_false (tid = "")), (bool_decide_false (tid = device_DefaultTransportID)) by done. cbn.
  rewrite (bool_decide_false (url = "")), (bool_decide_false (ifn = "")) by done.
  rewrite (proj2 (Z.eqb_neq mtu 0)), (proj2 (Z.ltb_ge mtu 576)), (proj2 (Z.ltb_ge 65535 mtu)) by lia. cbn.
  rewrite (proj2 (Z.leb_gt poll 0)), (proj2 (Z.leb_gt rmin 0)), (proj2 (Z.leb_gt rmax 0)) by lia.
  rewrite (proj2 (Z.ltb_ge rmax rmin)) by lia. cbn.
  destruct obf as [cfg|]; [rewrite (Hobf cfg eq_refl)|]; cbn; by rewrite Hc.
Qed.

(** C29. Accepted options are usable: the MTU and back-off bounds are in range,
    the transport is not wgo's default one, TLS is configured, the obfuscation
    is valid, and validating them again changes nothing. *)
Theorem withDefaults_accepts o o' (Ho : withDefaults o = Ok o') :
  options_ok o' ∧ withDefaults o' = Ok o'.
Proof.
  pose proof (withDefaults_sound _ _ Ho). split; [done|]. by apply withDefaults_fixed.
Qed.
End Options.

(** A device package with no obfuscation settings, for examples. *)
Definition demo_pkg : DevicePkg := {|
  AmneziaWGConfig := unit; ValidateAmneziaWGConfig := λ _, None;
  device_DefaultTransportID := ""; device_ErrDeviceClosed_text := "device closed"; PeerActivation := unit; PeerActivationEager := tt; SpecRest := unit; zeroSpecRest := tt |}.

Definition demo_options : @Options demo_pkg :=
  @mkOptions demo_pkg "" "node" "" false false None "" false 0 "" 0 false false true
    (mkCacheCallbacks None None) false 0 0 0.

Definition demo_options_full : @Options demo_pkg :=
  @mkOptions demo_pkg DefaultControlURL "node" "" false false None DefaultTransportID false 0 "tailscale0"
    1280 false false true (mkCacheCallbacks None None) true (2 * Second) (500 * Millisecond) (30 * Second).

Lemma withDefaults_accepts_witness :
  options_ok demo_options_full ∧ withDefaults demo_options_full = Ok demo_options_full.
Proof. apply (withDefaults_accepts demo_options). reflexivity. Defined.
