(* ===== verification/ClientState.v ===== *)
(** * The client's state ([client.go], [types.go])

    The fields of [Client] that its methods read and write.  A mutex makes each
    locked section one step, so the locks themselves are not part of the state;
    a channel of capacity one used as a wake-up is a flag.  What a method does
    to the outside world -- events, calls of the transport bind, of the control
    client -- is appended to an output trace, and the attached wgo device is
    part of the world the methods run in. *)

From Stdlib Require Import ZArith Lia String Strings.Byte.
From S2P Require Export Events Options NodeData.
Open Scope Z_scope.

Inductive State :=
| StateNew | StateStarting | StateNeedsAuthentication | StateRunning | StateDegraded
| StateStopping | StateStopped.

#[export] Instance State_eq_dec : EqDecision State.
Proof. solve_decision. Defined.

Inductive InteractionKind := InteractionAuthenticate | InteractionNodeKeyExpired | InteractionControlURL.

#[export] Instance InteractionKind_eq_dec : EqDecision InteractionKind.
Proof. solve_decision. Defined.

Record Interaction := mkInteraction {
  in_ID : Z; in_Kind : InteractionKind; in_URL : string; in_Message : string; in_Since : Z
}.

#[export] Instance Interaction_eq_dec : EqDecision Interaction.
Proof. solve_decision. Defined.

(** [PathUnset] is the empty string, the zero value. *)
Inductive PathKind := PathUnset | PathNone | PathDirect | PathDERP.

#[export] Instance PathKind_eq_dec : EqDecision PathKind.
Proof. solve_decision. Defined.

Record ClientInfo := mkClientInfo {
  ci_ControlURL : string;
  ci_Hostname : string;
  ci_NodePublicKey : array 32;
  ci_MachinePublicKey : string;
  ci_DiscoPublicKey : string;
  ci_BackendLogID : string;
  ci_TransportID : string;
  ci_StartedAt : Z;
  ci_AuthenticatedAt : Z;
  ci_UserID : Z;
  ci_LoginName : string;
  ci_DisplayName : string;
  ci_ProfilePicURL : string;
  ci_Ephemeral : bool;
  ci_PeerConfirmation : bool;
  ci_CapabilityVersion : Z;
  ci_MachineAuthorized : bool;
  ci_MapSessionHandle : string;
  ci_MapSequence : Z;
  ci_PreferredDERP : Z
}.
#[export] Instance ClientInfo_fields : Fields ClientInfo := λ r, mkClientInfo (ci_ControlURL r)
    (ci_Hostname r) (ci_NodePublicKey r) (ci_MachinePublicKey r) (ci_DiscoPublicKey r)
    (ci_BackendLogID r) (ci_TransportID r) (ci_StartedAt r) (ci_AuthenticatedAt r) (ci_UserID r)
    (ci_LoginName r) (ci_DisplayName r) (ci_ProfilePicURL r) (ci_Ephemeral r) (ci_PeerConfirmation
    r) (ci_CapabilityVersion r) (ci_MachineAuthorized r) (ci_MapSessionHandle r) (ci_MapSequence
    r) (ci_PreferredDERP r).
Definition zeroClientInfo : ClientInfo := mkClientInfo "" "" (zero_array 32) "" "" "" "" 0 0 0 "" "" "" false false 0 false "" 0 0.

Record peerLocalState := mkpeerLocalState {
  pl_applied : bool;
  pl_path : PathKind;
  pl_direct : AddrPort;
  pl_latency : Z;
  pl_pathAt : Z;
  pl_directSince : Z;
  pl_directRecovery : bool;
  pl_recoveryDirect : AddrPort;
  pl_err : string
}.

#[export] Instance peerLocalState_fields : Fields peerLocalState := λ r, mkpeerLocalState
    (pl_applied r) (pl_path r) (pl_direct r) (pl_latency r) (pl_pathAt r) (pl_directSince r)
    (pl_directRecovery r) (pl_recoveryDirect r) (pl_err r).

#[export] Instance peerLocalState_eq_dec : EqDecision peerLocalState.
Proof. solve_decision. Defined.

Definition zeroPeerLocal : peerLocalState :=
  mkpeerLocalState false PathUnset zeroAddrPort 0 0 0 false zeroAddrPort "".

Definition directPathHealthInterval : Z := 5 * Second.
Definition directPathHandshakeGrace : Z := 2 * Minute.

(** [device.PeerEndpoint]. *)
Record PeerEndpoint := mkPeerEndpoint {
  pe_Transport : string;
  pe_Address : string
}.

#[export] Instance PeerEndpoint_fields : Fields PeerEndpoint := λ r, mkPeerEndpoint (pe_Transport
    r) (pe_Address r).

#[export] Instance PeerEndpoint_eq_dec : EqDecision PeerEndpoint.
Proof. solve_decision. Defined.

(** What the client last wrote for a peer. *)
Record appliedPeer := mkappliedPeer {
  ap_id : string;
  ap_endpoint : PeerEndpoint;
  ap_hasEndpoint : bool
}.

#[export] Instance appliedPeer_fields : Fields appliedPeer := λ r, mkappliedPeer (ap_id r)
    (ap_endpoint r) (ap_hasEndpoint r).

#[export] Instance appliedPeer_eq_dec : EqDecision appliedPeer.
Proof. solve_decision. Defined.

(** The persisted identity ([cache.go]). *)
Record cacheState := mkcacheState {
  cs_Version : Z;
  cs_NodePublic : string;
  cs_MachinePrivate : string;
  cs_DiscoPrivate : string;
  cs_BackendLogID : string;
  cs_ConfirmedPeerIDs : slice string
}.

#[export] Instance cacheState_fields : Fields cacheState := λ r, mkcacheState (cs_Version r)
    (cs_NodePublic r) (cs_MachinePrivate r) (cs_DiscoPrivate r) (cs_BackendLogID r)
    (cs_ConfirmedPeerIDs r).

#[export] Instance cacheState_eq_dec : EqDecision cacheState.
Proof. solve_decision. Defined.

Definition zeroCache : cacheState := mkcacheState 0 "" "" "" "" None.

(** [tailnet.EndpointCandidate]. *)
Record EndpointCandidate := mkEndpointCandidate {
  ec_Addr : AddrPort;
  ec_Type : Z
}.

#[export] Instance EndpointCandidate_fields : Fields EndpointCandidate := λ r, mkEndpointCandidate
    (ec_Addr r) (ec_Type r).

#[export] Instance EndpointCandidate_eq_dec : EqDecision EndpointCandidate.
Proof. solve_decision. Defined.

(** [tailnet.PeerConfig]. *)
Record PeerConfig := mkPeerConfig {
  pc_NodeKey : NodePublic;
  pc_DiscoKey : DiscoPublic;
  pc_Endpoints : slice AddrPort;
  pc_HomeDERP : Z;
  pc_WireGuardOnly : bool
}.

#[export] Instance PeerConfig_fields : Fields PeerConfig := λ r, mkPeerConfig (pc_NodeKey r)
    (pc_DiscoKey r) (pc_Endpoints r) (pc_HomeDERP r) (pc_WireGuardOnly r).

#[export] Instance PeerConfig_eq_dec : EqDecision PeerConfig.
Proof. solve_decision. Defined.

(** [tailnet.PathUpdate]; [pu_direct] tells [Kind == "direct"]. *)
Record PathUpdate := mkPathUpdate {
  pu_NodeKey : NodePublic; pu_direct : bool; pu_Direct : AddrPort; pu_Latency : Z; pu_At : Z
}.

(** [tailnet.DERPLatencyReport]. *)
Record DERPLatencyReport := mkLatencyReport { lr_Regions : list DERPRegionLatency; lr_Full : bool; lr_At : Z }.

(** [maxPendingControlPings], the capacity of the ping queue. *)
Definition maxPendingControlPings : nat := 16.

Section Client.
Context `{DevicePkg}.

(** [control] and [bind] say whether the pointer is set; [confirmed] is the
    set of ids mapped to true, the only value the code stores. *)
Record Client := mkClient {
  c_opts : Options;
  c_started : bool;
  c_runtimeStarted : bool;
  c_closed : bool;
  c_done : bool;
  c_closeError : option error;
  c_pingPending : gset string;
  c_deviceGeneration : Z;
  c_state : State;
  c_revision : Z;
  c_at : Z;
  c_lastError : string;
  c_terminalError : option error;
  c_interaction : option Interaction;
  c_interactionID : Z;
  c_resume : bool;
  c_endpointWake : bool;
  c_reconcileWake : bool;
  c_pingWake : list PingRequest;
  c_authenticated : bool;
  c_lastPingURL : string;
  c_lastBrowserURL : string;
  c_nodePrivate : PrivateKey;
  c_machinePrivate : PrivateKey;
  c_discoPrivate : PrivateKey;
  c_cache : cacheState;
  c_confirmed : gset string;
  c_control : bool;
  c_bind : bool;
  c_info : ClientInfo;
  c_self : option Node;
  c_peers : gmap Z Node;
  c_peerLocal : gmap NodePublic peerLocalState;
  c_applied : gmap NodePublic appliedPeer;
  c_users : slice CUserProfile;
  c_dns : option DNSConfig;
  c_filters : slice FilterRule;
  c_namedFilters : gmap string (slice FilterRule);
  c_derpMap : option DERPMap;
  c_derpLatency : gmap Z DERPRegionLatency;
  c_domain : string;
  c_health : slice string;
  c_controlTime : option Z;
  c_controlTimeAt : Z;
  c_endpoints : slice EndpointCandidate;
  c_preferredDERP : Z;
  c_dnsRevision : Z;
  c_aclRevision : Z;
  c_networkRevision : Z;
  c_derpRevision : Z
}.

#[export] Instance Client_fields : Fields Client := λ r, mkClient (c_opts r) (c_started r)
    (c_runtimeStarted r) (c_closed r) (c_done r) (c_closeError r) (c_pingPending r)
    (c_deviceGeneration r) (c_state r) (c_revision r) (c_at r) (c_lastError r) (c_terminalError r)
    (c_interaction r) (c_interactionID r) (c_resume r) (c_endpointWake r) (c_reconcileWake r)
    (c_pingWake r) (c_authenticated r) (c_lastPingURL r) (c_lastBrowserURL r) (c_nodePrivate r)
    (c_machinePrivate r) (c_discoPrivate r) (c_cache r) (c_confirmed r) (c_control r) (c_bind r)
    (c_info r) (c_self r) (c_peers r) (c_peerLocal r) (c_applied r) (c_users r) (c_dns r)
    (c_filters r) (c_namedFilters r) (c_derpMap r) (c_derpLatency r) (c_domain r) (c_health r)
    (c_controlTime r) (c_controlTimeAt r) (c_endpoints r) (c_preferredDERP r) (c_dnsRevision r)
    (c_aclRevision r) (c_networkRevision r) (c_derpRevision r).

(** The client [New] builds ([client.go], lines 141-159). *)
Definition newClient (opts : Options) (now : Z) : Client := {|
  c_opts := opts; c_started := false; c_runtimeStarted := false; c_closed := false; c_done := false;
  c_closeError := None; c_pingPending := ∅; c_deviceGeneration := 0; c_state := StateNew;
  c_revision := 0; c_at := now; c_lastError := ""; c_terminalError := None; c_interaction := None;
  c_interactionID := 0; c_resume := false; c_endpointWake := false; c_reconcileWake := false;
  c_pingWake := []; c_authenticated := false; c_lastPingURL := ""; c_lastBrowserURL := "";
  c_nodePrivate := zero_array 32; c_machinePrivate := zero_array 32; c_discoPrivate := zero_array 32;
  c_cache := zeroCache; c_confirmed := ∅; c_control := false; c_bind := false; c_info := zeroClientInfo;
  c_self := None; c_peers := ∅; c_peerLocal := ∅; c_applied := ∅; c_users := None; c_dns := None;
  c_filters := None; c_namedFilters := ∅; c_derpMap := None; c_derpLatency := ∅; c_domain := "";
  c_health := None; c_controlTime := None; c_controlTimeAt := 0; c_endpoints := None;
  c_preferredDERP := 0; c_dnsRevision := 0; c_aclRevision := 0; c_networkRevision := 0;
  c_derpRevision := 0
|}.

Definition Error_text (err : error) : string := error_text device_ErrDeviceClosed_text err.

(** [bumpLocked] and [eventLocked]; [now] is the clock reading. *)
Definition bumpLocked (now : Z) (c : Client) : Client :=
  c <| c_revision := uwrap 64 (c_revision c + 1) |> <| c_at := now |>.

Definition eventLocked (kind : EventKind) (err : option error) (c : Client) : Event :=
  mkEvent kind (c_revision c) (c_at c) err.

(** [select { case c.endpointWake <- struct{}{}: default: }] and the same on
    [reconcileWake]. *)
Definition signalEndpointUpdate (c : Client) : Client := c <| c_endpointWake := true |>.
Definition requestPeerReconcile (c : Client) : Client := c <| c_reconcileWake := true |>.

(** The client is shutting down or has stopped. *)
Definition stopping (c : Client) : bool :=
  bool_decide (c_state c = StateStopping) || bool_decide (c_state c = StateStopped).
End Client.
