(* ===== verification/Reconcile.v ===== *)
(** * Peer reconciliation ([map.go], [client.go], [device.go])

    The world a client runs in -- its state, the attached wgo device and the
    trace of its outputs -- and the operations that bring the device's peers in
    line with the control plane's. *)

From Stdlib Require Import ZArith Lia String Strings.Byte.
From S2P Require Export ClientState.
Open Scope Z_scope.

(** What a method does besides changing the client and the device. *)
Inductive Output :=
| OutPublish (event : Event)                                  (* [c.events.publish] *)
| OutHubClose                                                 (* [c.events.close] *)
| OutUpdateDERPMap (derpMap : option DERPMap) (home : Z)      (* [c.bind.UpdateDERPMap] *)
| OutUpdatePeer (config : PeerConfig)                         (* [c.bind.UpdatePeer] *)
| OutRemovePeer (key : NodePublic)                            (* [c.bind.RemovePeer] *)
| OutStoreCache (blob : list byte)                             (* [callbacks.Store] *)
| OutBindShutdown                                             (* [c.bind.Shutdown] *)
| OutControlClose                                             (* [c.control.Close] *)
| OutCancel                                                   (* [c.cancel] *)
| OutLaunchWorkers                                            (* the workers of [launchRuntimeLocked] *)
| OutWatchDevice (generation : Z).                            (* the watcher of [watchDeviceLocked] *)

Section World.
Context `{DevicePkg}.

(** [device.PeerSpec]. *)
Record PeerSpec := mkPeerSpec {
  ps_PublicKey : array 32;
  ps_ProtocolVersion : Z;
  ps_AllowedIPs : slice Prefix;
  ps_Endpoint : option PeerEndpoint;
  ps_AmneziaWG : option AmneziaWGConfig;
  ps_Activation : PeerActivation;
  ps_rest : SpecRest
}.

#[export] Instance PeerSpec_fields : Fields PeerSpec := λ r, mkPeerSpec (ps_PublicKey r)
  (ps_ProtocolVersion r) (ps_AllowedIPs r) (ps_Endpoint r) (ps_AmneziaWG r) (ps_Activation r) (ps_rest r).

#[export] Instance PeerSpec_eq_dec : EqDecision PeerSpec.
Proof. solve_decision. Defined.

(** The methods of [device.DeviceAPI] the client calls, on a device state [D]. *)
Class DeviceAPI (D : Type) := {
  api_closed : D → bool;                                   (* [Wait()] is closed *)
  api_PrivateKey : D → PrivateKey;
  api_PeerSpec : D → array 32 → option PeerSpec;
  api_PeerConnected : D → array 32 → option bool;          (* [PeerSnapshot] *)
  api_UpsertTrackedPeer : PeerSpec → D → D * option error;
  api_DeleteTrackedPeer : array 32 → D → D * option error;
  api_AddTrackedTransport : string → Z → D → D * option error;
  api_RemoveTrackedTransport : string → D → D * option error
}.

(** What the client relies on: peers are changed one at a time, and a
    successful call has its effect. *)
Class DeviceLaws (D : Type) `{DeviceAPI D} := {
  upsert_frame spec d k : k ≠ ps_PublicKey spec →
    api_PeerSpec (api_UpsertTrackedPeer spec d).1 k = api_PeerSpec d k;
  upsert_effect spec d : (api_UpsertTrackedPeer spec d).2 = None →
    api_PeerSpec (api_UpsertTrackedPeer spec d).1 (ps_PublicKey spec) = Some spec;
  upsert_closed spec d : api_closed (api_UpsertTrackedPeer spec d).1 = api_closed d;
  delete_frame key d k : k ≠ key → api_PeerSpec (api_DeleteTrackedPeer key d).1 k = api_PeerSpec d k;
  delete_effect key d : (api_DeleteTrackedPeer key d).2 = None →
    api_PeerSpec (api_DeleteTrackedPeer key d).1 key = None;
  delete_closed key d : api_closed (api_DeleteTrackedPeer key d).1 = api_closed d
}.

Context {D : Type} `{DeviceAPI D}.

Record World := mkWorld { w_client : Client; w_device : option D; w_out : list Output }.

#[export] Instance World_fields : Fields World := λ r, mkWorld (w_client r) (w_device r) (w_out r).

Definition on_client (f : Client → Client) (w : World) : World := w <| w_client := f (w_client w) |>.

Definition emit (o : Output) (w : World) : World := w <| w_out := w_out w ++ [o] |>.

(** [c.events.publish(event)]. *)
Definition publish_event (kind : EventKind) (err : option error) (w : World) : World :=
  emit (OutPublish (eventLocked kind err (w_client w))) w.

(** [if c.bind != nil { c.bind.X(...) }]. *)
Definition on_bind (o : Output) (w : World) : World := when (c_bind (w_client w)) (emit o) w.

(** ** Specs and ownership *)

Definition prefix_cmp (a b : Prefix) : Z := scmp (prefix_string a) (prefix_string b).

(** Sorted copies, with an empty list turned into nil. *)
Definition specAllowed (l : slice Prefix) : slice Prefix :=
  match sort_func prefix_cmp (elems l) with [] => None | l => Some l end.

Definition peerSpecsEqual (a b : PeerSpec) : bool :=
  bool_decide (a <| ps_AllowedIPs := specAllowed (ps_AllowedIPs a) |> =
               b <| ps_AllowedIPs := specAllowed (ps_AllowedIPs b) |>).

Definition newAppliedPeer (id : string) (endpoint : option PeerEndpoint) : appliedPeer :=
  match endpoint with
  | None => mkappliedPeer id (mkPeerEndpoint "" "") false
  | Some endpoint => mkappliedPeer id endpoint true
  end.

Definition peerSpecStillOwned (spec : PeerSpec) (applied : appliedPeer) : bool :=
  match ps_Endpoint spec with
  | None => negb (ap_hasEndpoint applied)
  | Some endpoint =>
      if negb (ap_hasEndpoint applied) then false
      else bool_decide (pe_Transport endpoint = pe_Transport (ap_endpoint applied)) &&
           bool_decide (pe_Address endpoint = pe_Address (ap_endpoint applied))
  end.

Fixpoint firstUsableEndpoint (endpoints : list AddrPort) : AddrPort :=
  match endpoints with
  | [] => zeroAddrPort
  | endpoint :: endpoints =>
      let addr := Unmap (ap_addr endpoint) in
      if negb (IsValid addr) || IsUnspecified addr || IsMulticast addr || (ap_port endpoint =? 0)
      then firstUsableEndpoint endpoints
      else mkAddrPort addr (ap_port endpoint)
  end.

Record desiredPeer := mkdesiredPeer {
  dp_node : Node;
  dp_id : string;
  dp_homeDERP : Z;
  dp_path : PathKind;
  dp_direct : AddrPort;
  dp_directRecovery : bool
}.

Definition managedEndpoint (c : Client) (peer : desiredPeer) : PeerEndpoint :=
  mkPeerEndpoint (opt_TransportID (c_opts c)) (NodePublic_String (Node_Key (dp_node peer))).

Definition peerEndpoint (c : Client) (peer : desiredPeer) : PeerEndpoint :=
  if opt_UseDefaultTransportForDirectPeers (c_opts c) then
    if dp_directRecovery peer then managedEndpoint c peer
    else
      let direct := unmapAddrPort (dp_direct peer) in
      if bool_decide (dp_path peer = PathDirect) && ap_is_valid direct
      then mkPeerEndpoint device_DefaultTransportID (ap_string direct)
      else if Node_IsWireGuardOnly (dp_node peer) || opt_DisableDERP (c_opts c) then
        let endpoint := firstUsableEndpoint (elems (Node_Endpoints (dp_node peer))) in
        if ap_is_valid endpoint then mkPeerEndpoint device_DefaultTransportID (ap_string endpoint)
        else managedEndpoint c peer
      else managedEndpoint c peer
  else managedEndpoint c peer.

(** ** Local peer state *)

Definition peerLocalOr (key : NodePublic) (c : Client) : peerLocalState :=
  default zeroPeerLocal (c_peerLocal c !! key).

Definition setPeerError (now : Z) (key : NodePublic) (err : error) (w : World) : World :=
  let w := on_client (λ c,
    bumpLocked now (c
      <| c_peerLocal := <[key := peerLocalOr key c <| pl_err := Error_text err |>]> (c_peerLocal c) |>
      <| c_lastError := Error_text err |>)) w in
  publish_event EventError (Some err) w.

(** ** Reconciliation *)

Context `{RangeOrder}.

(** The guard of the first loop. *)
Definition publishable (c : Client) (node : Node) : bool :=
  negb (key_IsZero (Node_Key node)) && negb (Node_UnsignedPeerAPIOnly node)
  && negb (Node_Expired node)
  && (negb (opt_ConfirmPeers (c_opts c)) || bool_decide (peerID node ∈ c_confirmed c)).

Definition desiredOf (c : Client) (node : Node) : desiredPeer :=
  let home := homeDERP (Some node) in
  let local := c_peerLocal c !! Node_Key node in
  mkdesiredPeer (cloneControlNode node) (peerID node)
    (if home =? 0 then c_preferredDERP c else home)
    (from_option pl_path PathUnset local) (from_option pl_direct zeroAddrPort local)
    (from_option pl_directRecovery false local).

(** [desired]: the peers to publish, by node key. *)
Definition desiredPeers (c : Client) : gmap NodePublic desiredPeer :=
  foldl (λ desired '(_, node),
    if publishable c node then <[Node_Key node := desiredOf c node]> desired else desired)
    ∅ (range 0 (c_peers c)).

(** Withdrawal of one published peer that is not desired any more.  [applied]
    is the copy taken before the loop; the flag is [changed]. *)
Definition withdrawPeer (now : Z) (api : D) (desired : gmap NodePublic desiredPeer)
    (w : World) (key : NodePublic) (owned : appliedPeer) : World * bool :=
  match desired !! key with
  | Some _ => (w, false)
  | None =>
      let '(w, err) :=
        if match api_PeerSpec api key with
           | None => true
           | Some current => peerSpecStillOwned current owned
           end
        then let '(api, err) := api_DeleteTrackedPeer key api in (w <| w_device := Some api |>, err)
        else (w, None) in
      match err with
      | Some err =>
          (setPeerError now key (ErrWrap ("tailscale: remove peer " +:+ ap_id owned) err) w, false)
      | None =>
          let w := on_bind (OutRemovePeer key) w in
          (on_client (λ c, c <| c_applied := delete key (c_applied c) |>
                             <| c_peerLocal := delete key (c_peerLocal c) |>) w, true)
      end
  end.

(** The complete spec of a desired peer. *)
Definition desiredSpec (c : Client) (key : NodePublic) (wanted : desiredPeer) : PeerSpec :=
  let allowed := Clone (Node_AllowedIPs (dp_node wanted)) in
  let allowed := if bool_decide (elems allowed = []) then Clone (Node_Addresses (dp_node wanted)) else allowed in
  mkPeerSpec key 1 allowed (Some (peerEndpoint c wanted)) (opt_Obfuscation (c_opts c))
    PeerActivationEager zeroSpecRest.

Definition peerConfigOf (key : NodePublic) (wanted : desiredPeer) : PeerConfig :=
  mkPeerConfig key (Node_DiscoKey (dp_node wanted)) (Node_Endpoints (dp_node wanted))
    (dp_homeDERP wanted) (Node_IsWireGuardOnly (dp_node wanted)).

(** Somebody else replaced a spec this client wrote: give the peer up. *)
Definition losePeer (now : Z) (key : NodePublic) (w : World) : World :=
  let w := on_client (λ c, c
    <| c_applied := delete key (c_applied c) |>
    <| c_peerLocal := alter (λ l, l <| pl_applied := false |>) key (c_peerLocal c) |>) w in
  let w := on_bind (OutRemovePeer key) w in
  setPeerError now key ErrPeerConflict w.

(** The bookkeeping after a spec is in place. *)
Definition recordApplied (key : NodePublic) (wanted : desiredPeer) (spec : PeerSpec) (needsUpsert : bool)
    (w : World) : World * bool :=
  let desiredApplied := newAppliedPeer (dp_id wanted) (ps_Endpoint spec) in
  let c := w_client w in
  let previous := c_applied c !! key in
  let local := peerLocalOr key c in
  let localChanged := negb (pl_applied local) || bool_decide (pl_err local ≠ "") in
  let c := c <| c_applied := <[key := desiredApplied]> (c_applied c) |>
             <| c_peerLocal := <[key := local <| pl_applied := true |> <| pl_err := "" |>]> (c_peerLocal c) |> in
  (w <| w_client := c |>, needsUpsert || bool_decide (previous ≠ Some desiredApplied) || localChanged).

(** One iteration of the publishing loop. *)
Definition publishPeer (now : Z) (api : D) (applied : gmap NodePublic appliedPeer)
    (w : World) (key : NodePublic) (wanted : desiredPeer) : World * bool :=
  let current := api_PeerSpec api key in
  let owned := applied !! key in
  let c := w_client w in
  if match owned, current with
     | Some owned, Some current => negb (peerSpecStillOwned current owned)
     | _, _ => false
     end
  then (losePeer now key w, false)
  else if match owned, current with
          | None, Some current =>
              match ps_Endpoint current with
              | None => true
              | Some endpoint => bool_decide (pe_Transport endpoint ≠ opt_TransportID (c_opts c))
              end
          | _, _ => false
          end
  then (setPeerError now key ErrPeerConflict w, false)
  else
    let w := on_bind (OutUpdatePeer (peerConfigOf key wanted)) w in
    let spec := desiredSpec c key wanted in
    let needsUpsert :=
      match owned, current with
      | Some _, Some current => negb (peerSpecsEqual current spec)
      | _, _ => true
      end in
    let '(w, err) :=
      if needsUpsert
      then let '(api, err) := api_UpsertTrackedPeer spec api in (w <| w_device := Some api |>, err)
      else (w, None) in
    match err with
    | Some err =>
        let w := if bool_decide (owned = None) then on_bind (OutRemovePeer key) w else w in
        (setPeerError now key (ErrWrap ("tailscale: apply peer " +:+ dp_id wanted) err) w, false)
    | None => recordApplied key wanted spec needsUpsert w
    end.

(** A loop over keys whose body needs the device; the flag accumulates. *)
Definition device_loop {A} (body : D → World → A → World * bool) (l : list A) (w : World) : World * bool :=
  foldl (λ '(w, changed) a,
    match w_device w with
    | None => (w, changed)
    | Some api => let '(w, ch) := body api w a in (w, changed || ch)
    end) (w, false) l.

(** The last loop: forget local state of peers that are neither wanted nor published. *)
Definition prunePeerLocal (desired : gmap NodePublic desiredPeer) (c : Client) : Client :=
  c <| c_peerLocal := filter (λ '(key, _), is_Some (desired !! key) ∨ is_Some (c_applied c !! key))
         (c_peerLocal c) |>.

Definition reconcilePeers (now : Z) (w : World) : World :=
  match w_device w with
  | None => w
  | Some api =>
      if api_closed api then w
      else
        let desired := desiredPeers (w_client w) in
        let applied := c_applied (w_client w) in
        let '(w, changed1) := device_loop
          (λ api w '(key, owned), withdrawPeer now api desired w key owned) (range 1 applied) w in
        let '(w, changed2) := device_loop
          (λ api w '(key, wanted), publishPeer now api applied w key wanted) (range 2 desired) w in
        let w := on_client (prunePeerLocal desired) w in
        if changed1 || changed2 then
          let w := on_client (λ c, let c := bumpLocked now c in
            c <| c_networkRevision := c_revision c |>) w in
          publish_event EventNetwork None (publish_event EventPeers None w)
        else w
  end.
End World.

(** ** What one iteration can change *)

Section Facts.
Context `{DevicePkg} {D : Type} `{!DeviceAPI D} `{!DeviceLaws D} `{RangeOrder}.
Implicit Types w : @World _ D.

(** The device is attached and has [spec] for [k]; the options are [o]. *)
Definition at_key (o : Options) (k : NodePublic) (spec : option PeerSpec) (w : World) : Prop :=
  c_opts (w_client w) = o ∧ ∃ d : D, w_device w = Some d ∧ api_PeerSpec d k = spec.

Lemma at_key_on_client o k spec f w :
  c_opts (f (w_client w)) = c_opts (w_client w) → at_key o k spec w → at_key o k spec (on_client f w).
Proof. intros Ho [<- Hd]. split; [|by destruct w]. by destruct w. Qed.

Lemma at_key_emit o k spec x w : at_key o k spec w → at_key o k spec (emit x w).
Proof. by destruct w. Qed.

Lemma at_key_on_bind o k spec x w : at_key o k spec w → at_key o k spec (on_bind x w).
Proof. intros. apply (when_preserves (at_key o k spec)); [done|]. intros. by apply at_key_emit. Qed.

(** Closes [c_opts (f c) = c_opts c] for an [f] that assigns other fields. *)
Ltac opts_same :=
  cbv beta; match goal with |- _ = c_opts ?c => generalize c; intros []; reflexivity end.

Lemma opts_bump now (c : Client) : c_opts (bumpLocked now c) = c_opts c.
Proof. by destruct c. Qed.

Lemma at_key_setPeerError o k spec now key err w :
  at_key o k spec w → at_key o k spec (setPeerError now key err w).
Proof.
  intros. unfold setPeerError. apply at_key_emit, at_key_on_client; [|done]. by destruct w as [[] ? ?].
Qed.

Lemma at_key_device o k spec d w :
  c_opts (w_client w) = o → api_PeerSpec d k = spec → at_key o k spec (w <| w_device := Some d |>).
Proof. intros <- <-. destruct w. split; [done|]. by exists d. Qed.

#[local] Hint Resolve at_key_emit at_key_on_bind at_key_setPeerError : core.

Lemma withdraw_at_key o k spec now d desired w key owned :
  at_key o k spec w → w_device w = Some d →
  k ≠ key ∨ (∀ s, spec = Some s → peerSpecStillOwned s owned = false) ∧ is_Some spec →
  at_key o k spec (withdrawPeer now d desired w key owned).1.
Proof.
  intros Hw Hd Hk. unfold withdrawPeer. destruct (desired !! key); [done|].
  pose proof Hw as (Ho & d' & Hd' & Hs). assert (d' = d) as -> by congruence.
  destruct (match api_PeerSpec d key with Some _ => _ | None => _ end) eqn:Eown.
  - assert (k ≠ key) as Hne.
    { destruct Hk as [|[Hf [s Es]]]; [done|]. intros ->. rewrite Hs, Es in Eown.
      by rewrite (Hf _ Es) in Eown. }
    pose proof (delete_frame key d k Hne) as Hfr. destruct (api_DeleteTrackedPeer key d) as [d' [e|]]; cbn in *.
    + apply at_key_setPeerError, at_key_device; congruence.
    + apply at_key_on_client; [opts_same|].
      apply at_key_on_bind, at_key_device; congruence.
  - cbn. apply at_key_on_client; [opts_same|]. auto.
Qed.

(** A spec this client must leave alone: it has overwritten ours, or it is on
    another transport and we never wrote one. *)
Definition foreign (o : Options) (owned : option appliedPeer) (spec : PeerSpec) : Prop :=
  match owned with
  | Some owned => peerSpecStillOwned spec owned = false
  | None =>
      match ps_Endpoint spec with
      | None => True
      | Some endpoint => pe_Transport endpoint ≠ opt_TransportID o
      end
  end.

Lemma losePeer_at_key o k spec now key w : at_key o k spec w → at_key o k spec (losePeer now key w).
Proof.
  intros. unfold losePeer. apply at_key_setPeerError, at_key_on_bind, at_key_on_client; [opts_same|done].
Qed.

Lemma recordApplied_at_key o k spec key wanted s nu w :
  at_key o k spec w → at_key o k spec (recordApplied key wanted s nu w).1.
Proof. destruct w as [[] ? ?]. by intros [<- ?]. Qed.

Lemma publish_at_key o k spec now d applied w key wanted :
  at_key o k spec w → w_device w = Some d →
  k ≠ key ∨ (∃ s, spec = Some s ∧ foreign o (applied !! key) s) →
  at_key o k spec (publishPeer now d applied w key wanted).1.
Proof.
  intros Hw Hd Hk. unfold publishPeer. cbv zeta.
  pose proof Hw as (Ho & d' & Hd' & Hs). assert (d' = d) as -> by congruence.
  destruct (match applied !! key with Some _ => _ | None => false end) eqn:E1; [by apply losePeer_at_key|].
  destruct (match applied !! key with Some _ => false | None => _ end) eqn:E2; [by apply at_key_setPeerError|].
  assert (k ≠ key) as Hne.
  { destruct Hk as [|(s & Es & Hf)]; [done|]. intros ->. unfold foreign in Hf. rewrite Hs, Es in E1, E2.
    destruct (applied !! key); [by rewrite Hf in E1|].
    destruct (ps_Endpoint s); [|done]. rewrite bool_decide_true in E2; [done|congruence]. }
  pose proof (at_key_on_bind o k spec (OutUpdatePeer (peerConfigOf key wanted)) w Hw) as Hb.
  set (w' := on_bind _ w) in *. pose proof (proj1 Hb) as Hob.
  destruct (match applied !! key with Some _ => _ | None => true end).
  - pose proof (upsert_frame (desiredSpec (w_client w) key wanted) d k Hne) as Hfr.
    destruct (api_UpsertTrackedPeer _ d) as [d' [e|]]; cbn in Hfr.
    + apply at_key_setPeerError. case_bool_decide; [apply at_key_on_bind|]; apply at_key_device; congruence.
    + apply recordApplied_at_key, at_key_device; congruence.
  - by apply recordApplied_at_key.
Qed.

Lemma device_loop_fst {A} (body : D → World → A → World * bool) l w ch :
  (foldl (λ '(w, changed) a,
    match w_device w with
    | None => (w, changed)
    | Some api => let '(w, ch) := body api w a in (w, changed || ch)
    end) (w, ch) l).1 =
  foldl (λ w a, match w_device w with None => w | Some api => (body api w a).1 end) w l.
Proof.
  revert w ch. induction l as [|a l IH]; intros w ch; cbn; [done|].
  destruct (w_device w); [|apply IH]. destruct (body _ w a) as [w' ch']. apply IH.
Qed.

(** Loop rule for [device_loop], on the world alone. *)
Lemma device_loop_world {A} (body : D → World → A → World * bool) l w :
  (device_loop body l w).1 =
  foldl (λ w a, match w_device w with None => w | Some api => (body api w a).1 end) w l.
Proof. apply device_loop_fst. Qed.

Lemma foreign_untouched now w d k spec :
  w_device w = Some d → api_PeerSpec d k = Some spec →
  foreign (c_opts (w_client w)) (c_applied (w_client w) !! k) spec →
  ∃ d', w_device (reconcilePeers now w) = Some d' ∧ api_PeerSpec d' k = Some spec.
Proof.
  intros Hd Hs Hf. set (P := at_key (c_opts (w_client w)) k (Some spec)).
  assert (P w) as HP by (split; [done|by exists d]).
  enough (P (reconcilePeers now w)) as [_ ?] by done.
  unfold reconcilePeers. rewrite Hd. destruct (api_closed d); [done|].
  set (applied := c_applied (w_client w)) in *. set (desired := desiredPeers (w_client w)).
  destruct (device_loop _ (range 1 applied) w) as [w1 ch1] eqn:E1.
  assert (P w1) as HP1.
  { apply (f_equal fst) in E1. rewrite device_loop_world in E1. cbn in E1. subst w1.
    apply foldl_preserves; [done|]. intros [key owned] w' Hin HP'.
    destruct (w_device w') as [d'|] eqn:Ed'; [|done]. apply withdraw_at_key; [done|done|].
    destruct (decide (k = key)) as [->|]; [right|by left].
    apply elem_of_range in Hin. unfold foreign in Hf. rewrite Hin in Hf.
    split; [by intros s [= <-]|eauto]. }
  destruct (device_loop _ (range 2 desired) w1) as [w2 ch2] eqn:E2.
  assert (P w2) as HP2.
  { apply (f_equal fst) in E2. rewrite device_loop_world in E2. cbn in E2. subst w2.
    apply foldl_preserves; [done|]. intros [key wanted] w' Hin HP'.
    destruct (w_device w') as [d'|] eqn:Ed'; [|done]. apply publish_at_key; [done|done|].
    destruct (decide (k = key)) as [->|]; [right|by left]. by exists spec. }
  assert (P (on_client (prunePeerLocal desired) w2)) as HP3 by (apply at_key_on_client; [opts_same|done]).
  destruct (_ || _); [|done]. apply at_key_emit, at_key_emit, at_key_on_client; [opts_same|done].
Qed.

(** C1. Reconciliation never changes or removes a peer of another controller:
    a spec that replaced ours, or that is on another transport and was never
    ours, is the same after the call. *)
Theorem reconcilePeers_foreign_untouched now w d k spec
    (Hd : w_device w = Some d) (Hs : api_PeerSpec d k = Some spec)
    (Hf : foreign (c_opts (w_client w)) (c_applied (w_client w) !! k) spec) :
  ∃ d', w_device (reconcilePeers now w) = Some d' ∧ api_PeerSpec d' k = Some spec.
Proof. by apply (foreign_untouched now w d). Qed.

(** ** Convergence *)

(** All a reconciliation reads or writes about one peer. *)
Definition view (k : NodePublic) (w : World) :=
  ((λ d : D, api_PeerSpec d k) <$> w_device w, c_applied (w_client w) !! k,
   c_peerLocal (w_client w) !! k, c_opts (w_client w)).

Lemma view_emit k x w : view k (emit x w) = view k w.
Proof. by destruct w. Qed.

Lemma view_on_bind k x w : view k (on_bind x w) = view k w.
Proof. unfold on_bind, when. case_match; [apply view_emit|done]. Qed.

Lemma view_setPeerError k now key err w : k ≠ key → view k (setPeerError now key err w) = view k w.
Proof.
  intros Hk. unfold setPeerError, publish_event. rewrite view_emit. destruct w as [[] ? ?].
  unfold view; cbn. by rewrite lookup_insert_ne.
Qed.

Lemma view_device k d d' w :
  w_device w = Some d → api_PeerSpec d' k = api_PeerSpec d k → view k (w <| w_device := Some d' |>) = view k w.
Proof. intros Hd Hk. destruct w; cbn in *; subst. unfold view; cbn. by rewrite Hk. Qed.

Lemma withdraw_frame k now d desired w key owned :
  w_device w = Some d → k ≠ key → view k (withdrawPeer now d desired w key owned).1 = view k w.
Proof.
  intros Hd Hk. unfold withdrawPeer. destruct (desired !! key); [done|].
  pose proof (delete_frame key d k Hk) as Hfr.
  assert (∀ w', view k w' = view k w → view k (on_client (λ c, c <| c_applied := delete key (c_applied c) |>
    <| c_peerLocal := delete key (c_peerLocal c) |>) (on_bind (OutRemovePeer key) w')) = view k w) as Hdel.
  { intros w' <-. rewrite <-(view_on_bind k (OutRemovePeer key) w').
    generalize (on_bind (OutRemovePeer key) w'). intros [[] ? ?]. unfold view; cbn.
    by rewrite !lookup_delete_ne. }
  destruct (match api_PeerSpec d key with Some _ => _ | None => _ end).
  - destruct (api_DeleteTrackedPeer key d) as [d' [e|]]; cbn in *.
    + rewrite view_setPeerError by done. by apply (view_device k d).
    + apply Hdel. by apply (view_device k d).
  - by apply Hdel.
Qed.

Lemma recordApplied_frame k key wanted s nu w :
  k ≠ key → view k (recordApplied key wanted s nu w).1 = view k w.
Proof. intros. destruct w as [[] ? ?]. unfold view; cbn. by rewrite !lookup_insert_ne. Qed.

Lemma losePeer_frame k now key w : k ≠ key → view k (losePeer now key w) = view k w.
Proof.
  intros. unfold losePeer. rewrite view_setPeerError, view_on_bind by done.
  destruct w as [[] ? ?]. unfold view; cbn. by rewrite lookup_delete_ne, lookup_alter_ne.
Qed.

Lemma publish_frame k now d applied w key wanted :
  w_device w = Some d → k ≠ key → view k (publishPeer now d applied w key wanted).1 = view k w.
Proof.
  intros Hd Hk. unfold publishPeer. cbv zeta.
  destruct (match applied !! key with Some _ => _ | None => false end); [by apply losePeer_frame|].
  destruct (match applied !! key with Some _ => false | None => _ end); [by apply view_setPeerError|].
  rewrite <-(view_on_bind k (OutUpdatePeer (peerConfigOf key wanted)) w).
  assert (w_device (on_bind (OutUpdatePeer (peerConfigOf key wanted)) w) = Some d) as Hd'.
  { unfold on_bind, when. by case_match; destruct w. }
  set (w' := on_bind _ w) in *.
  destruct (match applied !! key with Some _ => _ | None => true end); [|by apply recordApplied_frame].
  pose proof (upsert_frame (desiredSpec (w_client w) key wanted) d k Hk) as Hfr.
  destruct (api_UpsertTrackedPeer _ d) as [d' [e|]]; cbn in Hfr.
  - cbn [fst]. rewrite view_setPeerError by done. case_bool_decide; rewrite ?view_on_bind; by apply (view_device k d).
  - rewrite recordApplied_frame by done. by apply (view_device k d).
Qed.

(** A loop over distinct keys changes what it says of key [k] only in the
    iteration of [k]. *)
Lemma loop_view {A} (key : A → NodePublic) (body : D → World → A → World * bool) l w k :
  (∀ d w a, w_device w = Some d → k ≠ key a → view k (body d w a).1 = view k w) →
  NoDup (key <$> l) → is_Some (w_device w) →
  (k ∉ key <$> l → view k (device_loop body l w).1 = view k w) ∧
  (∀ a, a ∈ l → key a = k → ∃ w0 d0, view k w0 = view k w ∧ w_device w0 = Some d0 ∧
     view k (device_loop body l w).1 = view k (body d0 w0 a).1).
Proof.
  intros Hfr Hnd [d Hd]. rewrite device_loop_world.
  set (step := λ w a, match w_device w with None => w | Some api => (body api w a).1 end).
  assert (∀ a w', key a ≠ k → view k (step w' a) = view k w') as Hstep.
  { intros a w' Ha. unfold step. destruct (w_device w') eqn:E; [|done]. by apply Hfr. }
  split.
  - intros Hk. apply (foldl_key key step (λ w', view k w' = view k w) (λ _, True) k); try done.
    intros a w' _ Ha E. by rewrite Hstep.
  - intros a Ha <-.
    apply (foldl_key key step (λ w', view (key a) w' = view (key a) w)
      (λ w', ∃ w0 d0, view (key a) w0 = view (key a) w ∧ w_device w0 = Some d0 ∧
         view (key a) w' = view (key a) (body d0 w0 a).1) (key a)); try done.
    + intros b w' _ Hb E. by rewrite Hstep.
    + intros b w' Hb E Hv.
      assert (b = a) as ->.
      { apply list_elem_of_lookup in Ha as [i Hi], Hb as [j Hj].
        assert (i = j) as ->; [|congruence].
        eapply NoDup_lookup; [exact Hnd|rewrite list_lookup_fmap, Hi; done|].
        rewrite list_lookup_fmap, Hj. cbn. by rewrite E. }
      assert (is_Some (w_device w')) as [d' Hd'].
      { apply (f_equal (λ v, v.1.1.1)) in Hv. unfold view in Hv; cbn in Hv. rewrite Hd in Hv.
        by destruct (w_device w'). }
      exists w', d'. split_and!; [done..|]. unfold step. by rewrite Hd'.
    + intros b w' _ Hb (w0 & d0 & ? & ? & E). exists w0, d0. split_and!; [done..|]. by rewrite Hstep.
    + by apply list_elem_of_fmap_2.
Qed.

Lemma peerSpecsEqual_refl spec : peerSpecsEqual spec spec = true.
Proof. by apply bool_decide_eq_true. Qed.

(** A device whose calls succeed. *)
Class ReliableDevice := {
  upsert_succeeds spec (d : D) : (api_UpsertTrackedPeer spec d).2 = None;
  delete_succeeds key (d : D) : (api_DeleteTrackedPeer key d).2 = None
}.
Context `{!ReliableDevice}.

Lemma view_eq k w d spec ap pl o :
  view k w = (Some spec, ap, pl, o) → w_device w = Some d →
  api_PeerSpec d k = spec ∧ c_applied (w_client w) !! k = ap ∧ c_peerLocal (w_client w) !! k = pl ∧
  c_opts (w_client w) = o.
Proof. unfold view. intros Hv Hd. rewrite Hd in Hv. cbn in Hv. by simplify_eq. Qed.

Lemma recordApplied_view w key wanted s nu spec :
  (λ d : D, api_PeerSpec d key) <$> w_device w = Some spec →
  view key (recordApplied key wanted s nu w).1 =
  (Some spec, Some (newAppliedPeer (dp_id wanted) (ps_Endpoint s)),
   Some (peerLocalOr key (w_client w) <| pl_applied := true |> <| pl_err := "" |>), c_opts (w_client w)).
Proof. intros Hd. destruct w as [[] ? ?]; cbn in *. unfold view; cbn. by rewrite Hd, !lookup_insert_eq. Qed.

Lemma desiredSpec_opts c c' key wanted : c_opts c = c_opts c' → desiredSpec c key wanted = desiredSpec c' key wanted.
Proof. intros E. unfold desiredSpec, peerEndpoint, managedEndpoint. by rewrite E. Qed.

(** The state a published peer ends up in. *)
Definition published (o : Options) (c : Client) (k : NodePublic) (wanted : desiredPeer) (w : World) : Prop :=
  ∃ spec local,
    view k w = (Some (Some spec), Some (newAppliedPeer (dp_id wanted) (Some (peerEndpoint c wanted))),
                Some local, o) ∧
    peerSpecsEqual spec (desiredSpec c k wanted) = true ∧ pl_applied local = true ∧ pl_err local = "".

Lemma publish_effect now d applied w c key wanted :
  w_device w = Some d → c_opts (w_client w) = c_opts c →
  (∀ s, api_PeerSpec d key = Some s → ¬ foreign (c_opts c) (applied !! key) s) →
  published (c_opts c) c key wanted (publishPeer now d applied w key wanted).1.
Proof.
  intros Hd Ho Hnf. unfold publishPeer. cbv zeta.
  rewrite (desiredSpec_opts (w_client w) c) by done. set (spec := desiredSpec c key wanted).
  assert (match applied !! key with
    | Some owned => match api_PeerSpec d key with Some current => negb (peerSpecStillOwned current owned) | None => false end
    | None => false end = false) as ->.
  { destruct (applied !! key) as [owned|] eqn:Ea, (api_PeerSpec d key) as [s|] eqn:Es; try done.
    specialize (Hnf s eq_refl). unfold foreign in Hnf. by destruct (peerSpecStillOwned s owned). }
  match goal with |- context [if ?b then (setPeerError _ _ _ _, _) else _] => assert (b = false) as -> end.
  { destruct (applied !! key) as [owned|] eqn:Ea, (api_PeerSpec d key) as [s|] eqn:Es; try done.
    specialize (Hnf s eq_refl). unfold foreign in Hnf. rewrite Ho.
    destruct (ps_Endpoint s); [|done]. case_bool_decide; done. }
  set (w' := on_bind _ w).
  assert (w_device w' = Some d ∧ c_opts (w_client w') = c_opts c) as [Hd' Ho'].
  { unfold w', on_bind, when. rewrite <-Ho. by case_match; destruct w. }
  assert (∀ nu d' s', peerSpecsEqual s' spec = true → api_PeerSpec d' key = Some s' →
    published (c_opts c) c key wanted (recordApplied key wanted spec nu (w' <| w_device := Some d' |>)).1) as Hrec.
  { intros nu d' s' He Hs. eexists s', _. split_and!; [|done|..].
    { rewrite (recordApplied_view _ key wanted spec nu (Some s')) by (by destruct w'; cbn; rewrite Hs).
      f_equal. by destruct w'. }
    all: by destruct (peerLocalOr _ _). }
  match goal with |- context [if ?b then (let '(_, _) := api_UpsertTrackedPeer _ _ in _) else _] => destruct b eqn:En end.
  - pose proof (upsert_succeeds spec d) as Hok. pose proof (upsert_effect spec d Hok) as Heff.
    destruct (api_UpsertTrackedPeer spec d) as [d' err]; cbn [fst snd] in *. subst err.
    apply (Hrec _ d' spec); [apply peerSpecsEqual_refl|done].
  - destruct (applied !! key), (api_PeerSpec d key) as [cur|] eqn:Es; try done.
    apply negb_false_iff in En. replace w' with (w' <| w_device := Some d |>) by (by destruct w'; cbn in *; subst).
    by apply (Hrec _ d cur).
Qed.

Lemma withdraw_effect now d desired w key owned :
  w_device w = Some d → desired !! key = None →
  (∀ s, api_PeerSpec d key = Some s → peerSpecStillOwned s owned = true) →
  view key (withdrawPeer now d desired w key owned).1 = (Some None, None, None, c_opts (w_client w)).
Proof.
  intros Hd Hn Hown. unfold withdrawPeer. rewrite Hn.
  match goal with |- context [if ?b then _ else _] => assert (b = true) as -> end.
  { destruct (api_PeerSpec d key); [by apply Hown|done]. }
  pose proof (delete_succeeds key d) as Hok. pose proof (delete_effect key d Hok) as Heff.
  destruct (api_DeleteTrackedPeer key d) as [d' err]; cbn in *. subst err.
  unfold on_bind, when. destruct w as [[] ? ?]; cbn.
  case_match; unfold view; cbn; by rewrite Heff, !lookup_delete_eq.
Qed.

(** [prunePeerLocal] and the final events on one key. *)
Lemma view_prune k desired w spec ap pl o :
  view k w = (spec, ap, pl, o) →
  view k (on_client (prunePeerLocal desired) w) =
  (spec, ap, if bool_decide (is_Some (desired !! k) ∨ is_Some ap) then pl else None, o).
Proof.
  destruct w as [[] ? ?]. unfold view; cbn. intros [= <- <- <- <-]. do 2 f_equal.
  rewrite map_lookup_filter.
  match goal with |- context [?m !! k ≫= _] => destruct (m !! k) as [l|]; cbn; [|by case_bool_decide] end.
  case_guard; case_bool_decide; done.
Qed.

Lemma view_finish k now (ch : bool) w :
  view k (if ch then publish_event EventNetwork None (publish_event EventPeers None
            (on_client (λ c, let c := bumpLocked now c in c <| c_networkRevision := c_revision c |>) w))
          else w) = view k w.
Proof.
  destruct ch; [|done]. unfold publish_event. rewrite !view_emit. by destruct w as [[] ? ?].
Qed.

(** What a reconciliation leaves for key [k], when the spec found there, if any,
    is this client's or is absent. *)
Definition converged (c : Client) (d : D) (k : NodePublic) (w' : World) : Prop :=
  match desiredPeers c !! k with
  | Some wanted => published (c_opts c) c k wanted w'
  | None =>
      view k w' = (Some (if bool_decide (is_Some (c_applied c !! k)) then None else api_PeerSpec d k),
                   None, None, c_opts c)
  end.

Lemma reconcile_converges now w d k :
  w_device w = Some d → api_closed d = false →
  (∀ spec, api_PeerSpec d k = Some spec →
    ¬ foreign (c_opts (w_client w)) (c_applied (w_client w) !! k) spec) →
  converged (w_client w) d k (reconcilePeers now w).
Proof.
  intros Hd Hopen Hnf. unfold reconcilePeers. rewrite Hd, Hopen. cbv zeta.
  set (c := w_client w) in *. set (desired := desiredPeers c). set (applied := c_applied c) in *.
  destruct (device_loop _ (range 1 applied) w) as [w1 ch1] eqn:E1.
  destruct (loop_view fst (λ api w '(key, owned), withdrawPeer now api desired w key owned)
    (range 1 applied) w k) as [Hout1 Hin1].
  { intros d' w' [key owned]; cbn. apply withdraw_frame. } { apply NoDup_range. } { by rewrite Hd. }
  rewrite E1 in Hout1, Hin1; cbn [fst] in Hout1, Hin1.
  destruct (device_loop _ (range 2 desired) w1) as [w2 ch2] eqn:E2.
  assert (view k w = (Some (api_PeerSpec d k), applied !! k, c_peerLocal c !! k, c_opts c)) as Hv.
  { unfold view. by rewrite Hd. }
  assert (view k w1 = if bool_decide (is_Some (desired !! k) ∨ applied !! k = None) then view k w
    else (Some None, None, None, c_opts c)) as Hv1.
  { destruct (applied !! k) as [owned|] eqn:Ea.
    - destruct (Hin1 (k, owned)) as (w0 & d0 & Hv0 & Hd0 & ->); [by apply elem_of_range|done|].
      destruct (desired !! k) as [wanted|] eqn:Ew.
      { rewrite bool_decide_true by eauto. unfold withdrawPeer. by rewrite Ew. }
      rewrite bool_decide_false by (intros [[? ?]|]; done).
      rewrite Hv in Hv0. destruct (view_eq _ _ _ _ _ _ _ Hv0 Hd0) as (Hs0 & _ & _ & Ho0).
      rewrite withdraw_effect; [by rewrite Ho0|done|done|].
      intros s Hs. rewrite Hs0 in Hs. specialize (Hnf s Hs). unfold foreign in Hnf.
      by destruct (peerSpecStillOwned s owned).
    - rewrite bool_decide_true by auto. apply Hout1.
      intros ([k' ?] & E & Hin%elem_of_range)%list_elem_of_fmap. cbn in E. subst k'. congruence. }
  assert (is_Some (w_device w1)) as Hd1.
  { apply (f_equal (λ v, v.1.1.1)) in Hv1. case_bool_decide; [rewrite Hv in Hv1|];
      unfold view in Hv1; cbn in Hv1; by destruct (w_device w1). }
  destruct (loop_view fst (λ api w '(key, wanted), publishPeer now api applied w key wanted)
    (range 2 desired) w1 k) as [Hout2 Hin2].
  { intros d' w' [key wanted]; cbn. apply publish_frame. } { apply NoDup_range. } { done. }
  rewrite E2 in Hout2, Hin2; cbn [fst] in Hout2, Hin2.
  unfold converged. fold desired. destruct (desired !! k) as [wanted|] eqn:Ew.
  - rewrite bool_decide_true in Hv1 by eauto.
    destruct (Hin2 (k, wanted)) as (w0 & d0 & Hv0 & Hd0 & Hv2); [by apply elem_of_range|done|].
    rewrite Hv1, Hv in Hv0. destruct (view_eq _ _ _ _ _ _ _ Hv0 Hd0) as (Hs0 & _ & _ & Ho0).
    destruct (publish_effect now d0 applied w0 c k wanted) as (spec & local & Hp & Hrest); [done|done| |].
    { intros s Hs. apply Hnf. congruence. }
    exists spec, local. split; [|done]. rewrite view_finish.
    erewrite view_prune by (rewrite Hv2; exact Hp). rewrite Ew, bool_decide_true by eauto. done.
  - assert (∃ pl, view k w2 =
      (Some (if bool_decide (is_Some (applied !! k)) then None else api_PeerSpec d k), None, pl, c_opts c)) as [pl Hv2].
    { rewrite Hout2, Hv1.
      2: { intros ([k' ?] & E & Hin%elem_of_range)%list_elem_of_fmap. cbn in E. subst k'. congruence. }
      destruct (applied !! k) as [owned|] eqn:Ea.
      - rewrite bool_decide_false by (intros [[? ?]|]; done). rewrite bool_decide_true by eauto. eauto.
      - rewrite bool_decide_true by auto. rewrite Hv, bool_decide_false by (by intros [? ?]). eauto. }
    rewrite view_finish, (view_prune _ _ _ _ _ _ _ Hv2), Ew.
    by rewrite (bool_decide_false (is_Some None ∨ is_Some None)) by (by intros [[? ?]|[? ?]]).
Qed.

(** C8. On a device whose calls succeed, one reconciliation brings every key
    whose spec is absent or ours to its desired state: a desired peer has a spec
    equal to the wanted one and is recorded as applied without error; a peer that
    is not desired any more has no spec; nothing else of that key is touched. *)
Theorem reconcilePeers_converges now w d k
    (Hd : w_device w = Some d) (Hopen : api_closed d = false)
    (Hnf : ∀ spec, api_PeerSpec d k = Some spec →
      ¬ foreign (c_opts (w_client w)) (c_applied (w_client w) !! k) spec) :
  converged (w_client w) d k (reconcilePeers now w).
Proof. by apply reconcile_converges. Qed.
End Facts.

(** ** Which peers are desired *)

Section Desired.
Context `{DevicePkg} `{RangeOrder}.

Lemma desired_fold (c : Client) (l : list (Z * Node)) k (m : gmap NodePublic desiredPeer) :
  foldl (λ desired '(_, node),
    if publishable c node then <[Node_Key node := desiredOf c node]> desired else desired) m l !! k =
  foldl (λ acc e,
    if publishable c e.2 && bool_decide (Node_Key e.2 = k) then Some (desiredOf c e.2) else acc)
    (m !! k) l.
Proof.
  revert m. induction l as [|[id node] l IH]; intros m; cbn; [done|]. rewrite IH.
  destruct (publishable c node); cbn; [|done].
  case_bool_decide; subst; [by rewrite lookup_insert_eq|by rewrite lookup_insert_ne].
Qed.

Lemma fold_last {A B} (test : A → bool) (f : A → B) l acc (r : option B) :
  foldl (λ acc a, if test a then Some (f a) else acc) acc l = r →
  (∃ a, a ∈ l ∧ test a = true ∧ r = Some (f a)) ∨ ((∀ a, a ∈ l → test a = false) ∧ r = acc).
Proof.
  revert acc. induction l as [|a l IH]; intros acc Hr; cbn in Hr; [right; set_solver|].
  destruct (IH _ Hr) as [(b & ? & ? & ?)|[Hf ->]]; [left; exists b; set_solver|].
  destruct (test a) eqn:E; [left; exists a; set_solver|right; set_solver].
Qed.

(** Only peers that may be published are: a key is desired exactly when
    some peer of the network map has it, is not expired, is not limited to the
    peer API, has a key, and is confirmed when confirmation is required; what is
    wanted is then derived from such a peer. *)
Theorem desiredPeers_spec (c : Client) (k : NodePublic) :
  match desiredPeers c !! k with
  | Some wanted => ∃ id node, c_peers c !! id = Some node ∧ Node_Key node = k ∧
      publishable c node = true ∧ wanted = desiredOf c node
  | None => ∀ id node, c_peers c !! id = Some node → Node_Key node = k → publishable c node = false
  end.
Proof.
  unfold desiredPeers. rewrite desired_fold, lookup_empty.
  set (test := λ e : Z * Node, publishable c e.2 && bool_decide (Node_Key e.2 = k)).
  set (r := foldl _ _ _).
  assert (foldl (λ acc e, if test e then Some (desiredOf c e.2) else acc) None (range 0 (c_peers c)) = r)
    as Hr by reflexivity.
  destruct (fold_last test (λ e, desiredOf c e.2) (range 0 (c_peers c)) None r Hr)
    as [([id node] & Hin & Ht & ->)|[Hf ->]].
  - apply elem_of_range in Hin. unfold test in Ht; cbn in Ht. bool_to_prop. exists id, node. done.
  - intros id node Hn Hk. apply (elem_of_range 0) in Hn. specialize (Hf _ Hn). unfold test in Hf; cbn in Hf.
    rewrite bool_decide_true in Hf by done. by destruct (publishable c node).
Qed.
End Desired.

(** ** Examples *)

(** A wgo device that always accepts. *)
Definition demo_device : Type := gmap (array 32) (@PeerSpec demo_pkg).

#[local] Existing Instance demo_pkg.
#[local] Existing Instance canonical_order.

#[local] Instance demo_api : DeviceAPI demo_device := {|
  api_closed _ := false; api_PrivateKey _ := zero_array 32;
  api_PeerSpec d k := d !! k; api_PeerConnected _ _ := None;
  api_UpsertTrackedPeer spec d := (<[ps_PublicKey spec := spec]> d, None);
  api_DeleteTrackedPeer key d := (delete key d, None);
  api_AddTrackedTransport _ _ d := (d, None); api_RemoveTrackedTransport _ d := (d, None) |}.

#[local] Instance demo_laws : DeviceLaws demo_device.
Proof.
  constructor; intros; [by apply lookup_insert_ne|apply lookup_insert_eq|done| | |done].
  - by apply lookup_delete_ne.
  - apply lookup_delete_eq.
Defined.

#[local] Instance demo_reliable : ReliableDevice (D := demo_device).
Proof. by constructor. Defined.

Definition demo_key (n : Z) : array 32 := to_array 32 [z2b n].

Definition demo_node (n : Z) : Node :=
  zeroNode <| Node_ID := n |> <| Node_StableID := "n" |> <| Node_Key := demo_key n |>
    <| Node_Addresses := Some [mkPrefix (Addr4 n) 32] |>.

(** The map has peer 1; peer 2 was published and is gone; key 3 belongs to
    somebody else and peer 3 conflicts with it. *)
Definition demo_client : Client :=
  newClient demo_options_full 1
    <| c_peers := {[1 := demo_node 1; 3 := demo_node 3]} |>
    <| c_applied := {[demo_key 2 := newAppliedPeer "b" (Some (mkPeerEndpoint "tailscale" "x"))]} |>.

Definition demo_spec (n : Z) (endpoint : PeerEndpoint) : PeerSpec :=
  mkPeerSpec (demo_key n) 1 None (Some endpoint) None tt tt.

Definition demo_world : World := mkWorld demo_client
  (Some ({[demo_key 2 := demo_spec 2 (mkPeerEndpoint "tailscale" "x");
           demo_key 3 := demo_spec 3 (mkPeerEndpoint "other" "y")]} : demo_device)) [].

Lemma reconcilePeers_foreign_untouched_witness :
  ∃ d', w_device (reconcilePeers 5 demo_world) = Some d' ∧
    api_PeerSpec d' (demo_key 3) = Some (demo_spec 3 (mkPeerEndpoint "other" "y")).
Proof.
  eapply reconcilePeers_foreign_untouched; [reflexivity|vm_compute; reflexivity|].
  vm_compute. discriminate.
Defined.

Lemma reconcilePeers_converges_witness :
  ∃ d, w_device demo_world = Some d ∧ converged demo_client d (demo_key 1) (reconcilePeers 5 demo_world).
Proof.
  eexists. split; [reflexivity|].
  apply (reconcilePeers_converges 5 demo_world _ (demo_key 1)); [reflexivity|reflexivity|].
  intros spec. vm_compute. discriminate.
Defined.
