(* ===== verification/MapReducer.v ===== *)
(** * The network-map reducer ([map.go])

    [applyMapResponse] folds one message of the map stream into the client's
    state.  Its locked section is the composition of the phases below, in the
    order of the source, each on an accumulator that holds the client and the
    local variables of the function. *)

From Stdlib Require Import ZArith Lia String Strings.Byte.
From S2P Require Export Reconcile.
Open Scope Z_scope.

Section Reducer.
Context `{DevicePkg} `{RangeOrder}.

(** The client and the locals [kinds], [derpChanged], [derpBindingChanged],
    [preferredDERPChanged], [reconcileRequested], [dnsNodesChanged] and [ping]. *)
Record Acc := mkAcc {
  a_client : Client;
  a_kinds : list EventKind;
  a_derpChanged : bool;
  a_derpBindingChanged : bool;
  a_preferredDERPChanged : bool;
  a_reconcileRequested : bool;
  a_dnsNodesChanged : bool;
  a_ping : option PingRequest
}.

#[export] Instance Acc_fields : Fields Acc := λ r, mkAcc (a_client r) (a_kinds r) (a_derpChanged r)
  (a_derpBindingChanged r) (a_preferredDERPChanged r) (a_reconcileRequested r) (a_dnsNodesChanged r)
  (a_ping r).

Definition acc_client (f : Client → Client) (a : Acc) : Acc := a <| a_client := f (a_client a) |>.
Definition add_kinds (kinds : list EventKind) (a : Acc) : Acc := a <| a_kinds := a_kinds a ++ kinds |>.

Definition set_interaction (kind : InteractionKind) (url message : string) (now : Z) (c : Client) : Client :=
  let id := uwrap 64 (c_interactionID c + 1) in
  c <| c_interactionID := id |> <| c_interaction := Some (mkInteraction id kind url message now) |>.

(** ** Phases *)

(** Keepalives carry only a ping, a browser URL and the control time. *)
Definition stripKeepAlive (r : MapResponse) : MapResponse :=
  if MapResponse_KeepAlive r then
    zeroMapResponse <| MapResponse_KeepAlive := MapResponse_KeepAlive r |>
      <| MapResponse_PingRequest := MapResponse_PingRequest r |>
      <| MapResponse_PopBrowserURL := MapResponse_PopBrowserURL r |>
      <| MapResponse_ControlTime := MapResponse_ControlTime r |>
  else r.

Definition applySession (r : MapResponse) (a : Acc) : Acc :=
  let a := when (bool_decide (MapResponse_MapSessionHandle r ≠ "") &&
                 bool_decide (MapResponse_MapSessionHandle r ≠ ci_MapSessionHandle (c_info (a_client a))))
    (λ a, add_kinds [EventMetadata] (acc_client (λ c, c <| c_info := c_info c
       <| ci_MapSessionHandle := MapResponse_MapSessionHandle r |> <| ci_MapSequence := 0 |> |>) a)) a in
  when (negb (MapResponse_Seq r =? 0) && negb (MapResponse_Seq r =? ci_MapSequence (c_info (a_client a))))
    (λ a, add_kinds [EventMetadata] (acc_client (λ c, c <| c_info := c_info c
       <| ci_MapSequence := MapResponse_Seq r |> |>) a)) a.

Definition applyControlTime (now : Z) (r : MapResponse) (a : Acc) : Acc :=
  on_some (MapResponse_ControlTime r) (λ value,
    when (bool_decide (c_controlTime (a_client a) ≠ Some value))
      (λ a, add_kinds [EventMetadata] (acc_client (λ c,
         c <| c_controlTime := Some value |> <| c_controlTimeAt := now |>) a))) a.

Definition takePing (r : MapResponse) (a : Acc) : Acc :=
  on_some (MapResponse_PingRequest r) (λ ping,
    when (bool_decide (PingRequest_URL ping ≠ "")) (λ a, a <| a_ping := Some ping |>)) a.

Definition applyBrowserURL (now : Z) (r : MapResponse) (a : Acc) : Acc :=
  when (bool_decide (MapResponse_PopBrowserURL r ≠ "") &&
        bool_decide (MapResponse_PopBrowserURL r ≠ c_lastBrowserURL (a_client a)))
    (λ a, add_kinds [EventInteraction] (acc_client (λ c,
       set_interaction InteractionControlURL (MapResponse_PopBrowserURL r)
         "Open this control-service URL to complete the requested action" now
         (c <| c_lastBrowserURL := MapResponse_PopBrowserURL r |>)) a)) a.

Definition applySelf (r : MapResponse) (a : Acc) : Acc :=
  on_some (MapResponse_Node r) (λ node,
    let next := cloneControlNode node in
    when (bool_decide (c_self (a_client a) ≠ Some next)) (λ a,
      add_kinds [EventSelf; EventNetwork] (acc_client (λ c, c <| c_self := Some next |>) a
        <| a_derpBindingChanged := true |> <| a_dnsNodesChanged := true |>))) a.

(** The map a full peer list describes; a later entry replaces an earlier one. *)
Definition peersOf (nodes : list (option Node)) : gmap Z Node :=
  foldl (λ next node, match node with
                      | None => next
                      | Some node => <[Node_ID node := cloneControlNode node]> next
                      end) ∅ nodes.

Definition applyPeers (r : MapResponse) (a : Acc) : Acc :=
  on_some (MapResponse_Peers r) (λ nodes a,
    let a := a <| a_reconcileRequested := true |> in
    let next := peersOf nodes in
    when (negb (controlNodeMapsEqual (c_peers (a_client a)) next)) (λ a,
      add_kinds [EventPeers; EventNetwork] (acc_client (λ c, c <| c_peers := next |>) a
        <| a_dnsNodesChanged := true |>)) a) a.

(** The peers after the loop over [PeersChanged], and [changedPeers]. *)
Definition changePeers (nodes : list (option Node)) (peers : gmap Z Node) : gmap Z Node * bool :=
  foldl (λ '(peers, changed) node,
    match node with
    | None => (peers, changed)
    | Some node =>
        let next := cloneControlNode node in
        if bool_decide (peers !! Node_ID node = Some next) then (peers, changed)
        else (<[Node_ID node := next]> peers, true)
    end) (peers, false) nodes.

Definition applyPeersChanged (r : MapResponse) (a : Acc) : Acc :=
  let nodes := elems (MapResponse_PeersChanged r) in
  let '(peers, changed) := changePeers nodes (c_peers (a_client a)) in
  let a := acc_client (λ c, c <| c_peers := peers |>) a in
  let a := when (bool_decide (nodes ≠ [])) (λ a, a <| a_reconcileRequested := true |>) a in
  when changed (λ a, add_kinds [EventPeers; EventNetwork] (a <| a_dnsNodesChanged := true |>)) a.

Definition removePeers (ids : list Z) (peers : gmap Z Node) : gmap Z Node * bool :=
  foldl (λ '(peers, removed) id,
    match peers !! id with
    | None => (peers, removed)
    | Some _ => (delete id peers, true)
    end) (peers, false) ids.

Definition applyPeersRemoved (r : MapResponse) (a : Acc) : Acc :=
  let ids := elems (MapResponse_PeersRemoved r) in
  let '(peers, removed) := removePeers ids (c_peers (a_client a)) in
  let a := acc_client (λ c, c <| c_peers := peers |>) a in
  let a := when (bool_decide (ids ≠ [])) (λ a, a <| a_reconcileRequested := true |>) a in
  when removed (λ a, add_kinds [EventPeers; EventNetwork] (a <| a_dnsNodesChanged := true |>)) a.

(** One patch: the peers, [patchedPeers] and [reconcileRequested]. *)
Definition patchPeer (acc : gmap Z Node * bool * bool) (patch : option PeerChange)
    : gmap Z Node * bool * bool :=
  let '(peers, patched, reconcile) := acc in
  match patch with
  | None => acc
  | Some p =>
      let before := cloneControlNode <$> peers !! PeerChange_NodeID p in
      let reconcile := reconcile || (bool_decide (is_Some before) && peerPatchChangesPath p) in
      let peers := applyPeerPatchLocked patch peers in
      (peers, patched || bool_decide (before ≠ peers !! PeerChange_NodeID p), reconcile)
  end.

Definition applyPatches (r : MapResponse) (a : Acc) : Acc :=
  let '(peers, patched, reconcile) :=
    foldl patchPeer (c_peers (a_client a), false, a_reconcileRequested a)
      (elems (MapResponse_PeersChangedPatch r)) in
  let a := acc_client (λ c, c <| c_peers := peers |>) a <| a_reconcileRequested := reconcile |> in
  when patched (add_kinds [EventPeers]) a.

(** One entry of [PeerSeenChange]. *)
Definition seePeer (value : Z) (acc : gmap Z Node * bool) (entry : Z * bool) : gmap Z Node * bool :=
  let '(peers, changed) := acc in
  let '(id, seen) := entry in
  match peers !! id with
  | None => acc
  | Some node =>
      if seen then (<[id := node <| Node_LastSeen := Some value |>]> peers, true)
      else if bool_decide (is_Some (Node_LastSeen node))
      then (<[id := node <| Node_LastSeen := None |>]> peers, true)
      else acc
  end.

(** One entry of [OnlineChange]. *)
Definition onlinePeer (acc : gmap Z Node * bool) (entry : Z * bool) : gmap Z Node * bool :=
  let '(peers, changed) := acc in
  let '(id, online) := entry in
  match peers !! id with
  | None => acc
  | Some node =>
      if bool_decide (Node_Online node ≠ Some online)
      then (<[id := node <| Node_Online := Some online |>]> peers, true)
      else acc
  end.

Definition applySeenOnline (now : Z) (r : MapResponse) (a : Acc) : Acc :=
  let value := default now (MapResponse_ControlTime r) in
  let '(peers, seenChanged) := foldl (seePeer value) (c_peers (a_client a), false)
    (range 3 (default ∅ (MapResponse_PeerSeenChange r))) in
  let '(peers, onlineChanged) := foldl onlinePeer (peers, false)
    (range 4 (default ∅ (MapResponse_OnlineChange r))) in
  let a := acc_client (λ c, c <| c_peers := peers |>) a in
  when (seenChanged || onlineChanged) (add_kinds [EventPeers]) a.

(** The measurements of regions that are still usable. *)
Definition pruneLatency (derpMap : DERPMap) (latency : gmap Z DERPRegionLatency) : gmap Z DERPRegionLatency :=
  filter (λ '(regionID, _), Is_true (usableDERPRegion (region_at derpMap regionID))) latency.

Definition applyDERPMap (r : MapResponse) (a : Acc) : Acc :=
  on_some (MapResponse_DERPMap r) (λ update a,
    match mergeDERPMap (c_derpMap (a_client a)) (Some update) with
    | None => a
    | Some next =>
        when (bool_decide (c_derpMap (a_client a) ≠ Some next)) (λ a,
          let a := acc_client (λ c, c <| c_derpMap := Some next |>
                                      <| c_derpLatency := pruneLatency next (c_derpLatency c) |>) a in
          let c := a_client a in
          let preferred := if opt_DisableDERP (c_opts c) then 0
            else choosePreferredDERPMeasured (c_derpMap c) (c_preferredDERP c) (c_derpLatency c) in
          let a := when (negb (preferred =? c_preferredDERP c)) (λ a,
            add_kinds [EventMetadata] (acc_client (λ c, c <| c_preferredDERP := preferred |>
                <| c_info := c_info c <| ci_PreferredDERP := preferred |> |>) a
              <| a_preferredDERPChanged := true |> <| a_reconcileRequested := true |>)) a in
          add_kinds [EventDERP] (a <| a_derpChanged := true |> <| a_derpBindingChanged := true |>)) a
    end) a.

Definition applyDNS (r : MapResponse) (a : Acc) : Acc :=
  on_some (MapResponse_DNSConfig r) (λ value,
    let next := cloneDNSConfig value in
    when (bool_decide (c_dns (a_client a) ≠ Some next)) (λ a,
      add_kinds [EventDNS; EventNetwork] (acc_client (λ c, c <| c_dns := Some next |>) a))) a.

Definition filtersAt (name : string) (m : gmap string (slice FilterRule)) : slice FilterRule :=
  mjoin (m !! name).

Definition applyPacketFilter (r : MapResponse) (a : Acc) : Acc :=
  on_some (MapResponse_PacketFilter r) (λ value,
    let next := cloneFilters (Some value) in
    when (bool_decide (filtersAt "base" (c_namedFilters (a_client a)) ≠ next)) (λ a,
      add_kinds [EventACL] (acc_client (λ c, c <| c_namedFilters := <["base" := next]> (c_namedFilters c) |>) a))) a.

(** One entry of [PacketFilters]. *)
Definition updateFilter (acc : gmap string (slice FilterRule) * bool) (entry : string * slice FilterRule)
    : gmap string (slice FilterRule) * bool :=
  let '(named, changed) := acc in
  let '(name, value) := entry in
  if bool_decide (name = "*") then acc
  else match value with
       | None => match named !! name with None => acc | Some _ => (delete name named, true) end
       | Some _ =>
           let next := cloneFilters value in
           if bool_decide (filtersAt name named = next) then acc else (<[name := next]> named, true)
       end.

Definition applyPacketFilters (r : MapResponse) (a : Acc) : Acc :=
  on_some (MapResponse_PacketFilters r) (λ filters a,
    let named := c_namedFilters (a_client a) in
    let start := if bool_decide (filters !! "*" = Some None) && bool_decide (named ≠ ∅)
                 then (∅, true) else (named, false) in
    let '(named, filtersChanged) := foldl updateFilter start (range 5 filters) in
    let a := acc_client (λ c, c <| c_namedFilters := named |>) a in
    when filtersChanged (add_kinds [EventACL]) a) a.

(** [flattenFiltersLocked]: all chunks in the order of their names. *)
Definition flattenFiltersLocked (named : gmap string (slice FilterRule)) : slice FilterRule :=
  let names := sort_strings (map fst (map_to_list named)) in
  foldl (λ result name, append result (elems (cloneFilters (filtersAt name named)))) None names.

Definition flattenACL (a : Acc) : Acc :=
  when (bool_decide (EventACL ∈ a_kinds a))
    (acc_client (λ c, c <| c_filters := flattenFiltersLocked (c_namedFilters c) |>)) a.

(** One entry of [UserProfiles]. *)
Definition updateUser (acc : slice CUserProfile * bool) (update : CUserProfile) : slice CUserProfile * bool :=
  let '(users, changed) := acc in
  match list_find (λ user, CUserProfile_ID user = CUserProfile_ID update) (elems users) with
  | None => (append users [update], true)
  | Some (index, user) =>
      if bool_decide (user = update) then acc
      else (Some (<[index := update]> (elems users)), true)
  end.

Definition applyUsers (r : MapResponse) (a : Acc) : Acc :=
  on_some (MapResponse_UserProfiles r) (λ updates a,
    let '(users, usersChanged) := foldl updateUser (c_users (a_client a), false) updates in
    let a := acc_client (λ c, c <| c_users := users |>) a in
    when usersChanged (add_kinds [EventUsers]) a) a.

Definition applyDomainHealth (r : MapResponse) (a : Acc) : Acc :=
  let a := when (bool_decide (MapResponse_Domain r ≠ "") &&
                 bool_decide (MapResponse_Domain r ≠ c_domain (a_client a)))
    (λ a, add_kinds [EventMetadata] (acc_client (λ c, c <| c_domain := MapResponse_Domain r |>) a)) a in
  on_some (MapResponse_Health r) (λ health,
    when (bool_decide (health ≠ elems (c_health (a_client a)))) (λ a,
      add_kinds [EventMetadata] (acc_client (λ c, c <| c_health := Some health |>) a))) a.

Definition noteDNSNodes (a : Acc) : Acc := when (a_dnsNodesChanged a) (add_kinds [EventDNS]) a.

(** The control service's clock now, or the local one. *)
Definition expiryNow (now : Z) (c : Client) : Z :=
  match c_controlTime c with
  | Some t => if time_is_zero (c_controlTimeAt c) then now else t + time_sub now (c_controlTimeAt c)
  | None => now
  end.

Definition selfExpired (c : Client) : bool :=
  match c_self c with Some node => Node_Expired node | None => false end.

(** Expiry of the own key. *)
Definition markSelf (now : Z) (a : Acc) : Acc :=
  on_some (c_self (a_client a)) (λ node,
    let '(node, expired) := markNodeExpired (expiryNow now (a_client a)) node in
    when expired (λ a, add_kinds [EventSelf; EventNetwork] (acc_client (λ c, c <| c_self := Some node |>) a))) a.

(** The state and interaction that go with it; [was] is [selfWasExpired]. *)
Definition noteSelfExpiry (now : Z) (was : bool) (a : Acc) : Acc :=
  if selfExpired (a_client a) then
    let a := when (negb was) (λ a, add_kinds [EventInteraction] (acc_client
      (set_interaction InteractionNodeKeyExpired "" (Error_text ErrNodeKeyExpired) now) a)) a in
    let a := when (bool_decide (c_state (a_client a) ≠ StateDegraded)) (λ a,
      add_kinds [EventState] (acc_client (λ c, c <| c_state := StateDegraded |>) a)) a in
    acc_client (λ c, c <| c_lastError := Error_text ErrNodeKeyExpired |>) a
  else
    when (was && bool_decide (in_Kind <$> c_interaction (a_client a) = Some InteractionNodeKeyExpired)) (λ a,
      add_kinds [EventInteraction] (acc_client (λ c, c <| c_interaction := None |>) a)) a.

(** Expiry of the peers' keys. *)
Definition expirePeers (now : Z) (a : Acc) : Acc :=
  let c := a_client a in
  let marked := markNodeExpired (expiryNow now c) <$> c_peers c in
  let a := acc_client (λ c, c <| c_peers := fst <$> marked |>) a in
  when (bool_decide (filter (λ '(_, m), Is_true m.2) marked ≠ ∅)) (λ a,
    add_kinds [EventPeers; EventNetwork] (a <| a_reconcileRequested := true |>)) a.

(** A map from a working control connection ends the degraded state. *)
Definition restoreRunning (a : Acc) : Acc :=
  let c := a_client a in
  when (bool_decide (c_state c = StateDegraded) && negb (selfExpired c)
        && bool_decide (in_Kind <$> c_interaction c ≠ Some InteractionNodeKeyExpired)) (λ a,
    add_kinds [EventState] (acc_client (λ c, c <| c_state := StateRunning |> <| c_lastError := "" |>) a)) a.

(** The locked section up to the commit. *)
Definition reduce (now : Z) (r : MapResponse) (c : Client) : Acc :=
  let selfWasExpired := selfExpired c in
  let a := mkAcc c [] false false false false false None in
  let a := applySession r a in
  let a := applyControlTime now r a in
  let a := takePing r a in
  let a := applyBrowserURL now r a in
  let a := applySelf r a in
  let a := applyPeers r a in
  let a := applyPeersChanged r a in
  let a := applyPeersRemoved r a in
  let a := applyPatches r a in
  let a := applySeenOnline now r a in
  let a := applyDERPMap r a in
  let a := applyDNS r a in
  let a := applyPacketFilter r a in
  let a := applyPacketFilters r a in
  let a := flattenACL a in
  let a := applyUsers r a in
  let a := applyDomainHealth r a in
  let a := noteDNSNodes a in
  let a := markSelf now a in
  let a := noteSelfExpiry now selfWasExpired a in
  let a := expirePeers now a in
  restoreRunning a.

(** ** Commit *)

Definition uniqueEventKinds (value : list EventKind) : list EventKind := dedup value.

(** The revisions of the views, after [bumpLocked]. *)
Definition commitRevisions (now : Z) (kinds : list EventKind) (derpChanged : bool) (c : Client) : Client :=
  let c := bumpLocked now c in
  let c := when (bool_decide (EventDNS ∈ kinds)) (λ c, c <| c_dnsRevision := c_revision c |>) c in
  let c := when (bool_decide (EventACL ∈ kinds)) (λ c, c <| c_aclRevision := c_revision c |>) c in
  let c := when (bool_decide (EventNetwork ∈ kinds) || bool_decide (EventPeers ∈ kinds))
    (λ c, c <| c_networkRevision := c_revision c |>) c in
  when derpChanged (λ c, c <| c_derpRevision := c_revision c |>) c.

(** [answerControlPing]: queue the ping unless it is answered, pending or the
    queue is full. *)
Definition answerControlPing (ping : option PingRequest) (c : Client) : Client :=
  match ping with
  | None => c
  | Some ping =>
      if bool_decide (PingRequest_Types ping ≠ "") then c
      else if bool_decide (c_lastPingURL c = PingRequest_URL ping) then c
      else if bool_decide (PingRequest_URL ping ∈ c_pingPending c) then c
      else if (length (c_pingWake c) <? maxPendingControlPings)%nat
      then c <| c_pingWake := c_pingWake c ++ [ping] |>
             <| c_pingPending := {[PingRequest_URL ping]} ∪ c_pingPending c |>
      else c
  end.

(** [selfDERP]: the preferred region, or control's one for this node. *)
Definition selfDERP (c : Client) : Z :=
  if c_preferredDERP c =? 0 then homeDERP (c_self c) else c_preferredDERP c.

Context {D : Type} `{!DeviceAPI D}.

(** What follows the locked section. *)
Definition commit (now : Z) (a : Acc) (w : World (D := D)) : World :=
  if bool_decide (a_kinds a = []) then
    let w := w <| w_client := answerControlPing (a_ping a) (a_client a) |> in
    when (a_reconcileRequested a) (reconcilePeers now) w
  else
    let c := commitRevisions now (a_kinds a) (a_derpChanged a) (a_client a) in
    let derpMap := cloneDERPMap (c_derpMap c) in
    let home := selfDERP c in
    let w := w <| w_client := c |> in
    let w := foldl (λ w kind, publish_event kind None w) w (uniqueEventKinds (a_kinds a)) in
    let w := on_client (answerControlPing (a_ping a)) w in
    let w := when (a_derpBindingChanged a) (on_bind (OutUpdateDERPMap derpMap home)) w in
    let w := when (a_reconcileRequested a) (reconcilePeers now) w in
    when (a_preferredDERPChanged a) (on_client signalEndpointUpdate) w.

Context `{BoxOps}.

(** The self node of a response must carry the device's public key. *)
Definition keyMismatch (r : MapResponse) (c : Client) : bool :=
  match MapResponse_Node r with
  | None => false
  | Some node =>
      negb (PrivateKey_IsZero (c_nodePrivate c)) && bool_decide (Node_Key node ≠ PublicNode (c_nodePrivate c))
  end.

Definition applyMapResponse (now : Z) (response : MapResponse) (w : World (D := D)) : World * option error :=
  let r := stripKeepAlive response in
  if keyMismatch r (w_client w) then (w, Some ErrControlNodeKeyMismatch)
  else (commit now (reduce now r (w_client w)) w, None).
End Reducer.

(** ** What each phase does to the client *)

Section Fields.
Context `{DevicePkg} `{RangeOrder}.
Implicit Types (a : Acc) (c : Client).

(** Closes an equation about one phase: case analysis on its guards, then
    computation on the records. *)
Ltac phase :=
  intros; repeat match goal with a : Acc |- _ => destruct a as [[] ? ? ? ? ? ? ?] end;
  cbn; unfold when; repeat (case_bool_decide || case_match); bool_to_prop; subst; cbn in *; simplify_eq; try done.

Lemma applyDNS_client r a :
  a_client (applyDNS r a) = a_client a <| c_dns :=
    match MapResponse_DNSConfig r with Some v => Some (cloneDNSConfig v) | None => c_dns (a_client a) end |>.
Proof. unfold applyDNS, on_some. destruct (MapResponse_DNSConfig r); phase. Qed.

(** Session handle and sequence after a response: a new handle restarts the
    sequence. *)
Definition newHandle (r : MapResponse) (info : ClientInfo) : string :=
  if bool_decide (MapResponse_MapSessionHandle r = "") then ci_MapSessionHandle info
  else MapResponse_MapSessionHandle r.

Definition newSequence (r : MapResponse) (info : ClientInfo) : Z :=
  if negb (MapResponse_Seq r =? 0) then MapResponse_Seq r
  else if bool_decide (newHandle r info = ci_MapSessionHandle info) then ci_MapSequence info else 0.

Lemma applySession_client r a :
  a_client (applySession r a) = a_client a <| c_info := c_info (a_client a)
    <| ci_MapSessionHandle := newHandle r (c_info (a_client a)) |>
    <| ci_MapSequence := newSequence r (c_info (a_client a)) |> |>.
Proof.
  destruct a as [[] ? ? ? ? ? ? ?]. destruct c_info. unfold applySession, when, newSequence, newHandle. cbn.
  repeat (case_bool_decide; cbn);
    repeat match goal with |- context [MapResponse_Seq r =? ?x] =>
      destruct (Z.eqb_spec (MapResponse_Seq r) x); cbn end;
    first [reflexivity|exfalso; congruence|
      repeat match goal with
      | E : MapResponse_MapSessionHandle r = ?h |- context [MapResponse_MapSessionHandle r] => rewrite !E
      | E : MapResponse_Seq r = ?q |- context [MapResponse_Seq r] => rewrite !E
      end; reflexivity].
Qed.

Lemma applyControlTime_client now r a :
  a_client (applyControlTime now r a) = a_client a
    <| c_controlTime := match MapResponse_ControlTime r with Some t => Some t | None => c_controlTime (a_client a) end |>
    <| c_controlTimeAt := c_controlTimeAt (a_client (applyControlTime now r a)) |>.
Proof. unfold applyControlTime, on_some. destruct (MapResponse_ControlTime r); phase. Qed.

Lemma takePing_client r a : a_client (takePing r a) = a_client a.
Proof. unfold takePing, on_some. destruct (MapResponse_PingRequest r); phase. Qed.

Lemma applyBrowserURL_client now r a :
  a_client (applyBrowserURL now r a) = a_client a
    <| c_lastBrowserURL := if bool_decide (MapResponse_PopBrowserURL r = "")
                           then c_lastBrowserURL (a_client a) else MapResponse_PopBrowserURL r |>
    <| c_interaction := c_interaction (a_client (applyBrowserURL now r a)) |>
    <| c_interactionID := c_interactionID (a_client (applyBrowserURL now r a)) |>.
Proof. unfold applyBrowserURL, set_interaction. phase. Qed.

Lemma applySelf_client r a :
  a_client (applySelf r a) = a_client a <| c_self :=
    match MapResponse_Node r with Some n => Some (cloneControlNode n) | None => c_self (a_client a) end |>.
Proof. unfold applySelf, on_some. destruct (MapResponse_Node r); phase. Qed.

Lemma applyPeers_client r a :
  a_client (applyPeers r a) = a_client a <| c_peers :=
    match MapResponse_Peers r with Some ns => peersOf ns | None => c_peers (a_client a) end |>.
Proof.
  unfold applyPeers, on_some, controlNodeMapsEqual. destruct (MapResponse_Peers r); phase.
Qed.

Lemma applyPeersChanged_client r a :
  a_client (applyPeersChanged r a) = a_client a
    <| c_peers := (changePeers (elems (MapResponse_PeersChanged r)) (c_peers (a_client a))).1 |>.
Proof. unfold applyPeersChanged. destruct (changePeers _ _); phase. Qed.

Lemma applyPeersRemoved_client r a :
  a_client (applyPeersRemoved r a) = a_client a
    <| c_peers := (removePeers (elems (MapResponse_PeersRemoved r)) (c_peers (a_client a))).1 |>.
Proof. unfold applyPeersRemoved. destruct (removePeers _ _); phase. Qed.

Lemma applyPatches_client r a :
  a_client (applyPatches r a) = a_client a
    <| c_peers := (foldl patchPeer (c_peers (a_client a), false, a_reconcileRequested a)
         (elems (MapResponse_PeersChangedPatch r))).1.1 |>.
Proof. unfold applyPatches. destruct (foldl patchPeer _ _) as [[? ?] ?]; phase. Qed.

(** The peers after [PeerSeenChange] and [OnlineChange]. *)
Definition seenOnline (now : Z) (r : MapResponse) (peers : gmap Z Node) : gmap Z Node :=
  (foldl onlinePeer ((foldl (seePeer (default now (MapResponse_ControlTime r))) (peers, false)
     (range 3 (default ∅ (MapResponse_PeerSeenChange r)))).1, false)
     (range 4 (default ∅ (MapResponse_OnlineChange r)))).1.

Lemma applySeenOnline_client now r a :
  a_client (applySeenOnline now r a) = a_client a <| c_peers := seenOnline now r (c_peers (a_client a)) |>.
Proof.
  unfold applySeenOnline, seenOnline. destruct (foldl (seePeer _) _ _) as [peers seen].
  cbn [fst]. destruct (foldl onlinePeer _ _) as [peers' online]. phase.
Qed.

Lemma applyDERPMap_client r a :
  ∃ latency preferred, a_client (applyDERPMap r a) = a_client a
    <| c_derpMap := match MapResponse_DERPMap r with
                    | Some u => mergeDERPMap (c_derpMap (a_client a)) (Some u)
                    | None => c_derpMap (a_client a) end |>
    <| c_derpLatency := latency |> <| c_preferredDERP := preferred |>
    <| c_info := c_info (a_client a) <| ci_PreferredDERP :=
         if preferred =? c_preferredDERP (a_client a) then ci_PreferredDERP (c_info (a_client a)) else preferred |> |>.
Proof.
  unfold applyDERPMap, on_some. destruct (MapResponse_DERPMap r) as [u|].
  2: { exists (c_derpLatency (a_client a)), (c_preferredDERP (a_client a)). rewrite Z.eqb_refl.
       by destruct a as [[] ? ? ? ? ? ? ?], c_info. }
  assert (is_Some (mergeDERPMap (c_derpMap (a_client a)) (Some u))) as [next E].
  { unfold mergeDERPMap; cbn. repeat case_match; eauto. }
  rewrite E. destruct a as [[] ? ? ? ? ? ? ?]; destruct c_info; cbn in *. unfold when at 1. case_bool_decide as Eq.
  - cbn. unfold when. match goal with |- context [negb (?p =? c_preferredDERP)] => exists (pruneLatency next c_derpLatency), p;
      destruct (Z.eqb_spec p c_preferredDERP) as [->|] end; reflexivity.
  - exists c_derpLatency, c_preferredDERP. rewrite Z.eqb_refl. cbn. by rewrite Eq.
Qed.

(** The named filter chunks after [PacketFilter]. *)
Definition withBase (r : MapResponse) (named : gmap string (slice FilterRule)) : gmap string (slice FilterRule) :=
  match MapResponse_PacketFilter r with Some v => <["base" := cloneFilters (Some v)]> named | None => named end.

Lemma applyPacketFilter_client r a :
  a_client (applyPacketFilter r a) = a_client a <| c_namedFilters := withBase r (c_namedFilters (a_client a)) |>.
Proof.
  unfold applyPacketFilter, withBase, on_some. destruct (MapResponse_PacketFilter r) as [v|]; [|phase].
  destruct a as [[] ? ? ? ? ? ? ?]; cbn. unfold when. case_bool_decide as E; [done|].
  cbn. rewrite insert_id; [done|].
  unfold filtersAt in E. destruct (c_namedFilters !! "base"); cbn in E; by subst.
Qed.

(** The named filter chunks after [PacketFilters]. *)
Definition withNamed (r : MapResponse) (named : gmap string (slice FilterRule)) : gmap string (slice FilterRule) :=
  match MapResponse_PacketFilters r with
  | Some filters =>
      (foldl updateFilter (if bool_decide (filters !! "*" = Some None) && bool_decide (named ≠ ∅)
                           then (∅, true) else (named, false)) (range 5 filters)).1
  | None => named
  end.

Lemma applyPacketFilters_client r a :
  a_client (applyPacketFilters r a) = a_client a <| c_namedFilters := withNamed r (c_namedFilters (a_client a)) |>.
Proof.
  unfold applyPacketFilters, withNamed, on_some. destruct (MapResponse_PacketFilters r) as [filters|]; [|phase].
  destruct (foldl updateFilter _ _) as [named ch]. phase.
Qed.

Lemma flattenACL_client a :
  a_client (flattenACL a) = a_client a <| c_filters := if bool_decide (EventACL ∈ a_kinds a)
    then flattenFiltersLocked (c_namedFilters (a_client a)) else c_filters (a_client a) |>.
Proof. unfold flattenACL, when. case_bool_decide; by destruct a as [[] ? ? ? ? ? ? ?]. Qed.

Lemma applyUsers_client r a :
  a_client (applyUsers r a) = a_client a
    <| c_users := (foldl updateUser (c_users (a_client a), false) (elems (MapResponse_UserProfiles r))).1 |>.
Proof.
  unfold applyUsers, on_some. destruct (MapResponse_UserProfiles r) as [us|]; [|phase].
  cbn [elems default from_option id]. destruct (foldl updateUser _ us) as [users ch]. phase.
Qed.

Lemma applyDomainHealth_client r a :
  a_client (applyDomainHealth r a) = a_client a
    <| c_domain := if bool_decide (MapResponse_Domain r = "") then c_domain (a_client a) else MapResponse_Domain r |>
    <| c_health := match MapResponse_Health r with
                   | Some h => if bool_decide (h = elems (c_health (a_client a)))
                               then c_health (a_client a) else Some h
                   | None => c_health (a_client a) end |>.
Proof.
  destruct a as [[] ? ? ? ? ? ? ?]. unfold applyDomainHealth, when, on_some. cbn.
  destruct (MapResponse_Health r); repeat (case_bool_decide; cbn); try done; congruence.
Qed.

Lemma noteDNSNodes_client a : a_client (noteDNSNodes a) = a_client a.
Proof. unfold noteDNSNodes, when. case_match; by destruct a. Qed.

Definition expireNode (t : Z) (node : Node) : Node := (markNodeExpired t node).1.

Lemma expirePeers_client now a :
  a_client (expirePeers now a) = a_client a
    <| c_peers := expireNode (expiryNow now (a_client a)) <$> c_peers (a_client a) |>.
Proof.
  unfold expirePeers, when. case_match; destruct a as [[] ? ? ? ? ? ? ?]; cbn; by rewrite <-map_fmap_compose.
Qed.

Lemma markNodeExpired_quiet t n : (markNodeExpired t n).2 = false → (markNodeExpired t n).1 = n.
Proof. unfold markNodeExpired. by case_match. Qed.

Lemma markSelf_client now a :
  a_client (markSelf now a) = a_client a <| c_self := expireNode (expiryNow now (a_client a)) <$> c_self (a_client a) |>.
Proof.
  unfold markSelf, expireNode, on_some. destruct (c_self (a_client a)) as [node|] eqn:Es.
  2: { destruct a as [[] ? ? ? ? ? ? ?]; cbn in *. by subst. }
  cbn. pose proof (markNodeExpired_quiet (expiryNow now (a_client a)) node) as Hq.
  destruct (markNodeExpired _ node) as [node' b]; cbn in *.
  destruct b; [|rewrite (Hq eq_refl)]; destruct a as [[] ? ? ? ? ? ? ?]; cbn in *; by subst.
Qed.

Lemma noteSelfExpiry_client now was a :
  let c := a_client a in let c' := a_client (noteSelfExpiry now was a) in
  c' = c <| c_interaction := c_interaction c' |> <| c_interactionID := c_interactionID c' |>
         <| c_state := c_state c' |> <| c_lastError := c_lastError c' |>.
Proof.
  destruct a as [[] ? ? ? ? ? ? ?]. unfold noteSelfExpiry, when. cbn.
  repeat (case_match; cbn); reflexivity.
Qed.

Lemma restoreRunning_client a :
  let c := a_client a in let c' := a_client (restoreRunning a) in
  c' = c <| c_state := c_state c' |> <| c_lastError := c_lastError c' |>.
Proof. unfold restoreRunning, when. case_match; by destruct a as [[] ? ? ? ? ? ? ?]. Qed.
End Fields.

(** ** Abstract specification *)

(** The network data a client holds: what the map stream is about. *)
Record NetData := mkNetData {
  nd_self : option Node;
  nd_peers : gmap Z Node;
  nd_derpMap : option DERPMap;
  nd_dns : option DNSConfig;
  nd_filters : gmap string (slice FilterRule);
  nd_users : slice CUserProfile;
  nd_domain : string;
  nd_health : slice string;
  nd_handle : string;
  nd_sequence : Z;
  nd_controlTime : option Z;
  nd_controlTimeAt : Z
}.

#[export] Instance NetData_fields : Fields NetData := λ r, mkNetData (nd_self r) (nd_peers r)
  (nd_derpMap r) (nd_dns r) (nd_filters r) (nd_users r) (nd_domain r) (nd_health r) (nd_handle r)
  (nd_sequence r) (nd_controlTime r) (nd_controlTimeAt r).

Section Spec.
Context `{DevicePkg} `{RangeOrder}.

Definition netData (c : Client) : NetData := mkNetData (c_self c) (c_peers c) (c_derpMap c) (c_dns c)
  (c_namedFilters c) (c_users c) (c_domain c) (c_health c) (ci_MapSessionHandle (c_info c))
  (ci_MapSequence (c_info c)) (c_controlTime c) (c_controlTimeAt c).

(** The pointers of a list that are not nil. *)
Definition non_nil {A} (l : list (option A)) : list A := omap id l.

(** The last entry of a peer list with an id. *)
Definition lastWith (id : Z) (nodes : list (option Node)) : option Node :=
  last (filter (λ n, Node_ID n = id) (non_nil nodes)).

(** The control service's clock after a response. *)
Definition specNow (now : Z) (r : MapResponse) (d : NetData) : Z :=
  match MapResponse_ControlTime r with
  | Some t =>
      if bool_decide (nd_controlTime d = Some t)
      then (if time_is_zero (nd_controlTimeAt d) then now else t + time_sub now (nd_controlTimeAt d))
      else (if time_is_zero now then now else t)
  | None =>
      match nd_controlTime d with
      | Some t => if time_is_zero (nd_controlTimeAt d) then now else t + time_sub now (nd_controlTimeAt d)
      | None => now
      end
  end.

(** What the response says of peer [id]: the full list or the old peer, then the
    changed peers, removals, patches, and the seen and online flags. *)
Definition specPeer (now : Z) (r : MapResponse) (d : NetData) (id : Z) : option Node :=
  let node := match MapResponse_Peers r with
    | Some nodes => cloneControlNode <$> lastWith id nodes
    | None => nd_peers d !! id
    end in
  let node := match lastWith id (elems (MapResponse_PeersChanged r)) with
    | Some changed => Some (cloneControlNode changed)
    | None => node
    end in
  let node := if bool_decide (id ∈ elems (MapResponse_PeersRemoved r)) then None else node in
  let node := foldl (λ node patch, if bool_decide (PeerChange_NodeID patch = id) then patchNode patch <$> node else node)
    node (non_nil (elems (MapResponse_PeersChangedPatch r))) in
  let node := match (default ∅ (MapResponse_PeerSeenChange r) !! id : option bool) with
    | Some seen => (λ n : Node, n <| Node_LastSeen :=
        if seen then Some (default now (MapResponse_ControlTime r)) else None |>) <$> node
    | None => node
    end in
  let node := match (default ∅ (MapResponse_OnlineChange r) !! id : option bool) with
    | Some online => (λ n : Node, n <| Node_Online := Some online |>) <$> node
    | None => node
    end in
  expireNode (specNow now r d) <$> node.

(** The chunk of a name after [PacketFilter] and [PacketFilters]. *)
Definition specFilter (r : MapResponse) (d : NetData) (name : string) : option (slice FilterRule) :=
  let old := match MapResponse_PacketFilter r with
    | Some v => if bool_decide (name = "base") then Some (cloneFilters (Some v)) else nd_filters d !! name
    | None => nd_filters d !! name
    end in
  match MapResponse_PacketFilters r with
  | None => old
  | Some filters =>
      let old := if bool_decide (filters !! "*" = Some None) then None else old in
      if bool_decide (name = "*") then old
      else match filters !! name with
           | None => old
           | Some None => None
           | Some value => Some (cloneFilters value)
           end
  end.

(** The abstract effect of a response on the network data. *)
Record netSpec (now : Z) (r : MapResponse) (d d' : NetData) : Prop := {
  sp_peers id : nd_peers d' !! id = specPeer now r d id;
  sp_self : nd_self d' = expireNode (specNow now r d) <$>
    match MapResponse_Node r with Some n => Some (cloneControlNode n) | None => nd_self d end;
  sp_derpMap : nd_derpMap d' = match MapResponse_DERPMap r with
    | Some u => mergeDERPMap (nd_derpMap d) (Some u) | None => nd_derpMap d end;
  sp_dns : nd_dns d' = match MapResponse_DNSConfig r with
    | Some v => Some (cloneDNSConfig v) | None => nd_dns d end;
  sp_filters name : nd_filters d' !! name = specFilter r d name;
  sp_domain : nd_domain d' =
    if bool_decide (MapResponse_Domain r = "") then nd_domain d else MapResponse_Domain r;
  sp_health : elems (nd_health d') = default (elems (nd_health d)) (MapResponse_Health r);
  sp_controlTime : nd_controlTime d' = match MapResponse_ControlTime r with
    | Some t => Some t | None => nd_controlTime d end
}.

(** ** Pointwise behaviour of the loops *)

Lemma lastWith_snoc id nodes n :
  lastWith id (nodes ++ [n]) =
  match n with
  | Some n => if bool_decide (Node_ID n = id) then Some n else lastWith id nodes
  | None => lastWith id nodes
  end.
Proof.
  unfold lastWith, non_nil. rewrite omap_app. destruct n as [n|]; cbn; [|by rewrite app_nil_r].
  rewrite filter_app, filter_cons, filter_nil. case_bool_decide; case_decide; try done.
  - apply last_snoc.
  - by rewrite app_nil_r.
Qed.

Lemma peersOf_lookup nodes id : peersOf nodes !! id = cloneControlNode <$> lastWith id nodes.
Proof.
  unfold peersOf. induction nodes as [|n nodes IH] using rev_ind; [done|].
  rewrite foldl_app, lastWith_snoc. cbn. destruct n as [n|]; [|done].
  case_bool_decide; subst; [by rewrite lookup_insert_eq|by rewrite lookup_insert_ne].
Qed.

Lemma changePeers_lookup nodes peers id :
  (changePeers nodes peers).1 !! id =
  match lastWith id nodes with Some n => Some (cloneControlNode n) | None => peers !! id end.
Proof.
  unfold changePeers. induction nodes as [|n nodes IH] using rev_ind; [done|].
  rewrite foldl_app, lastWith_snoc. cbn.
  destruct (foldl _ (peers, false) nodes) as [p b]; cbn in IH. destruct n as [n|]; [|done].
  case_bool_decide as E; case_bool_decide; subst; cbn; try done.
  - by rewrite lookup_insert_eq.
  - by rewrite lookup_insert_ne.
Qed.

Lemma removePeers_lookup ids peers id :
  (removePeers ids peers).1 !! id = if bool_decide (id ∈ ids) then None else peers !! id.
Proof.
  unfold removePeers. induction ids as [|i ids IH] using rev_ind; [done|].
  rewrite foldl_app. cbn. destruct (foldl _ (peers, false) ids) as [p b]; cbn in IH.
  assert ((match p !! i with Some _ => (delete i p, true) | None => (p, b) end).1 !! id =
          if bool_decide (id = i) then None else p !! id) as ->.
  { destruct (decide (id = i)) as [->|Hne].
    - rewrite bool_decide_true by done. destruct (p !! i) eqn:E; cbn; [apply lookup_delete_eq|done].
    - rewrite bool_decide_false by done. destruct (p !! i); cbn; [by rewrite lookup_delete_ne|done]. }
  rewrite IH. clear IH. repeat case_bool_decide; set_solver.
Qed.

Lemma patches_lookup patches peers b0 b1 id :
  (foldl patchPeer (peers, b0, b1) patches).1.1 !! id =
  foldl (λ node patch, if bool_decide (PeerChange_NodeID patch = id) then patchNode patch <$> node else node)
    (peers !! id) (non_nil patches).
Proof.
  unfold non_nil. revert peers b0 b1. induction patches as [|p patches IH]; intros peers b0 b1; [done|].
  destruct p as [p|]; cbn; rewrite IH; [|done]. f_equal.
  destruct (peers !! PeerChange_NodeID p) as [n|] eqn:E; case_bool_decide; subst; rewrite ?E; try done.
  - by rewrite lookup_insert_eq.
  - by rewrite lookup_insert_ne.
Qed.

(** A loop over distinct keys that acts on each key's own entry. *)
Lemma entry_loop {K W V} `{Countable K} (step : gmap K W * bool → K * V → gmap K W * bool)
    (f : K → V → option W → option W)
    (Hstep : ∀ p b i v k, (step (p, b) (i, v)).1 !! k =
       if bool_decide (k = i) then f i v (p !! k) else p !! k)
    site (m : gmap K V) p b k :
  (foldl step (p, b) (range site m)).1 !! k =
  match m !! k with Some v => f k v (p !! k) | None => p !! k end.
Proof.
  destruct (foldl_key fst step (λ s, s.1 !! k = p !! k)
    (λ s, ∃ v, m !! k = Some v ∧ s.1 !! k = f k v (p !! k)) k (range site m) (p, b))
    as [Hin Hout]; [apply NoDup_range|done| | | |].
  - intros [i v] [q b'] _ Hi E. cbn in *. by rewrite Hstep, bool_decide_false.
  - intros [i v] [q b'] Ha Hi E. cbn in *. subst i. apply elem_of_range in Ha. exists v.
    by rewrite Hstep, bool_decide_true, E.
  - intros [i v] [q b'] _ Hi (v' & ? & E). cbn in *. exists v'. by rewrite Hstep, bool_decide_false.
  - destruct (m !! k) as [v|] eqn:E.
    + destruct Hin as (v' & [= <-] & ->); [|done].
      apply list_elem_of_fmap. exists (k, v). split; [done|]. by apply elem_of_range.
    + apply Hout. intros ([i v] & Ei & Hi)%list_elem_of_fmap. cbn in Ei. subst i.
      apply elem_of_range in Hi. congruence.
Qed.

(** Case analysis on whether [j] is the id [i] an iteration works on, and on the
    peer of [i]. *)
Ltac by_id j i p n E :=
  destruct (p !! i) as [n|] eqn:E;
  (destruct (decide (j = i)) as [->|];
    [rewrite (bool_decide_true (i = i)) by done|rewrite (bool_decide_false (j = i)) by done]);
  rewrite ?E; try done.

Lemma seenOnline_lookup now r peers id :
  seenOnline now r peers !! id =
  let node := match (default ∅ (MapResponse_PeerSeenChange r) !! id : option bool) with
    | Some seen => (λ n : Node, n <| Node_LastSeen :=
        if seen then Some (default now (MapResponse_ControlTime r)) else None |>) <$> (peers !! id)
    | None => peers !! id
    end in
  match (default ∅ (MapResponse_OnlineChange r) !! id : option bool) with
  | Some online => (λ n : Node, n <| Node_Online := Some online |>) <$> node
  | None => node
  end.
Proof.
  unfold seenOnline. cbv zeta.
  rewrite (entry_loop onlinePeer (λ _ online o, (λ n : Node, n <| Node_Online := Some online |>) <$> o)).
  - rewrite (entry_loop (seePeer (default now (MapResponse_ControlTime r)))
      (λ _ seen o, (λ n : Node, n <| Node_LastSeen :=
         if seen then Some (default now (MapResponse_ControlTime r)) else None |>) <$> o)); [done|].
    intros p b i seen j. unfold seePeer. by_id j i p n E.
    + destruct seen; cbn; [by rewrite lookup_insert_eq|].
      case_bool_decide as Hs; cbn; [by rewrite lookup_insert_eq|]. rewrite E. destruct n; cbn in *.
      destruct Node_LastSeen; [|done]. exfalso. eauto.
    + destruct seen; cbn; [by rewrite lookup_insert_ne|]. case_bool_decide; cbn; [by rewrite lookup_insert_ne|done].
  - intros p b i online j. unfold onlinePeer. by_id j i p n E.
    + case_bool_decide as Hs; cbn; [by rewrite lookup_insert_eq|]. rewrite E. destruct n; cbn in *. by rewrite Hs.
    + case_bool_decide; cbn; [by rewrite lookup_insert_ne|done].
Qed.

Lemma updateFilter_lookup named b name value k :
  (updateFilter (named, b) (name, value)).1 !! k =
  if bool_decide (k = name) then
    if bool_decide (name = "*") then named !! k
    else match value with None => None | Some _ => Some (cloneFilters value) end
  else named !! k.
Proof.
  unfold updateFilter. destruct (decide (name = "*")) as [->|Hn].
  { rewrite !(bool_decide_true ("*" = "*")) by done. by case_bool_decide. }
  rewrite !(bool_decide_false (name = "*")) by done.
  destruct (decide (k = name)) as [->|Hk].
  - rewrite (bool_decide_true (name = name)) by done. destruct value as [v|].
    + case_bool_decide as E; cbn; [|by rewrite lookup_insert_eq].
      unfold filtersAt in E. destruct (named !! name); cbn in E; by subst.
    + destruct (named !! name) eqn:E; cbn; [apply lookup_delete_eq|done].
  - rewrite (bool_decide_false (k = name)) by done. destruct value as [v|].
    + case_bool_decide; cbn; [done|by rewrite lookup_insert_ne].
    + destruct (named !! name); cbn; [by rewrite lookup_delete_ne|done].
Qed.

Lemma withNamed_lookup r named name :
  withNamed r named !! name =
  match MapResponse_PacketFilters r with
  | None => named !! name
  | Some filters =>
      let old := if bool_decide (filters !! "*" = Some None) then None else named !! name in
      if bool_decide (name = "*") then old
      else match filters !! name with
           | None => old
           | Some None => None
           | Some value => Some (cloneFilters value)
           end
  end.
Proof.
  unfold withNamed. destruct (MapResponse_PacketFilters r) as [filters|]; [|done]. cbv zeta.
  set (named' := if bool_decide (filters !! "*" = Some None) then ∅ else named).
  assert (∃ b', (if bool_decide (filters !! "*" = Some None) && bool_decide (named ≠ ∅) then (∅, true)
    else (named, false)) = (named', b')) as [b' ->].
  { unfold named'. repeat case_bool_decide; cbn; subst; eauto. }
  rewrite (entry_loop updateFilter (λ name value o, if bool_decide (name = "*") then o
    else match value with None => None | Some _ => Some (cloneFilters value) end))
    by (intros; apply updateFilter_lookup).
  assert (named' !! name = if bool_decide (filters !! "*" = Some None) then None else named !! name) as ->.
  { unfold named'. by case_bool_decide. }
  destruct (decide (name = "*")) as [->|].
  - rewrite !(bool_decide_true ("*" = "*")) by done. by destruct (filters !! "*").
  - rewrite !(bool_decide_false (name = "*")) by done. by destruct (filters !! name) as [[]|].
Qed.

(** ** The phases on the network data *)

Definition newTimeAt (now : Z) (r : MapResponse) (d : NetData) : Z :=
  match MapResponse_ControlTime r with
  | Some t => if bool_decide (nd_controlTime d = Some t) then nd_controlTimeAt d else now
  | None => nd_controlTimeAt d
  end.

Definition dataNow (now : Z) (d : NetData) : Z :=
  match nd_controlTime d with
  | Some t => if time_is_zero (nd_controlTimeAt d) then now else t + time_sub now (nd_controlTimeAt d)
  | None => now
  end.

(** The network data of a phase whose effect on the client is an update. *)
Ltac data_of L :=
  intros; rewrite L; match goal with |- context [netData (a_client ?a)] => destruct (a_client a) as [] end;
  reflexivity.

Lemma session_data r a :
  ∃ handle seq, netData (a_client (applySession r a)) =
    netData (a_client a) <| nd_handle := handle |> <| nd_sequence := seq |>.
Proof.
  exists (newHandle r (c_info (a_client a))), (newSequence r (c_info (a_client a))).
  rewrite applySession_client. destruct (a_client a) as [], c_info; reflexivity.
Qed.

Lemma controlTime_data now r a :
  netData (a_client (applyControlTime now r a)) = netData (a_client a)
    <| nd_controlTimeAt := newTimeAt now r (netData (a_client a)) |>
    <| nd_controlTime := match MapResponse_ControlTime r with
                         | Some t => Some t | None => nd_controlTime (netData (a_client a)) end |>.
Proof.
  unfold applyControlTime, newTimeAt, on_some. destruct (MapResponse_ControlTime r); [|by destruct (a_client a)].
  unfold when. destruct a as [[] ? ? ? ? ? ? ?]; unfold netData; cbn.
  repeat case_bool_decide; cbn; subst; done.
Qed.

Lemma browser_data now r a : netData (a_client (applyBrowserURL now r a)) = netData (a_client a).
Proof. data_of applyBrowserURL_client. Qed.

Lemma self_data r a : netData (a_client (applySelf r a)) = netData (a_client a)
  <| nd_self := match MapResponse_Node r with
                | Some n => Some (cloneControlNode n) | None => nd_self (netData (a_client a)) end |>.
Proof. data_of applySelf_client. Qed.

Lemma peers_data r a : netData (a_client (applyPeers r a)) = netData (a_client a)
  <| nd_peers := match MapResponse_Peers r with
                 | Some ns => peersOf ns | None => nd_peers (netData (a_client a)) end |>.
Proof. data_of applyPeers_client. Qed.

Lemma changed_data r a : netData (a_client (applyPeersChanged r a)) = netData (a_client a)
  <| nd_peers := (changePeers (elems (MapResponse_PeersChanged r)) (nd_peers (netData (a_client a)))).1 |>.
Proof. data_of applyPeersChanged_client. Qed.

Lemma removed_data r a : netData (a_client (applyPeersRemoved r a)) = netData (a_client a)
  <| nd_peers := (removePeers (elems (MapResponse_PeersRemoved r)) (nd_peers (netData (a_client a)))).1 |>.
Proof. data_of applyPeersRemoved_client. Qed.

Lemma patched_data r a : ∃ b, netData (a_client (applyPatches r a)) = netData (a_client a)
  <| nd_peers := (foldl patchPeer (nd_peers (netData (a_client a)), false, b)
                   (elems (MapResponse_PeersChangedPatch r))).1.1 |>.
Proof. exists (a_reconcileRequested a). data_of applyPatches_client. Qed.

Lemma seenOnline_data now r a : netData (a_client (applySeenOnline now r a)) = netData (a_client a)
  <| nd_peers := seenOnline now r (nd_peers (netData (a_client a))) |>.
Proof. data_of applySeenOnline_client. Qed.

Lemma derp_data r a : netData (a_client (applyDERPMap r a)) = netData (a_client a)
  <| nd_derpMap := match MapResponse_DERPMap r with
                   | Some u => mergeDERPMap (nd_derpMap (netData (a_client a))) (Some u)
                   | None => nd_derpMap (netData (a_client a)) end |>.
Proof.
  destruct (applyDERPMap_client r a) as (l & p & ->). destruct (a_client a) as [], c_info; reflexivity.
Qed.

Lemma dns_data r a : netData (a_client (applyDNS r a)) = netData (a_client a)
  <| nd_dns := match MapResponse_DNSConfig r with
               | Some v => Some (cloneDNSConfig v) | None => nd_dns (netData (a_client a)) end |>.
Proof. data_of applyDNS_client. Qed.

Lemma base_data r a : netData (a_client (applyPacketFilter r a)) = netData (a_client a)
  <| nd_filters := withBase r (nd_filters (netData (a_client a))) |>.
Proof. data_of applyPacketFilter_client. Qed.

Lemma named_data r a : netData (a_client (applyPacketFilters r a)) = netData (a_client a)
  <| nd_filters := withNamed r (nd_filters (netData (a_client a))) |>.
Proof. data_of applyPacketFilters_client. Qed.

Lemma flatten_data a : netData (a_client (flattenACL a)) = netData (a_client a).
Proof. data_of flattenACL_client. Qed.

Lemma users_data r a : netData (a_client (applyUsers r a)) = netData (a_client a)
  <| nd_users := (foldl updateUser (nd_users (netData (a_client a)), false) (elems (MapResponse_UserProfiles r))).1 |>.
Proof. data_of applyUsers_client. Qed.

Lemma domain_data r a : netData (a_client (applyDomainHealth r a)) = netData (a_client a)
  <| nd_domain := if bool_decide (MapResponse_Domain r = "") then nd_domain (netData (a_client a))
                  else MapResponse_Domain r |>
  <| nd_health := match MapResponse_Health r with
                  | Some h => if bool_decide (h = elems (nd_health (netData (a_client a))))
                              then nd_health (netData (a_client a)) else Some h
                  | None => nd_health (netData (a_client a)) end |>.
Proof. data_of applyDomainHealth_client. Qed.

Lemma markSelf_data now a : netData (a_client (markSelf now a)) = netData (a_client a)
  <| nd_self := expireNode (dataNow now (netData (a_client a))) <$> nd_self (netData (a_client a)) |>.
Proof. data_of markSelf_client. Qed.

Lemma noteSelfExpiry_data now was a : netData (a_client (noteSelfExpiry now was a)) = netData (a_client a).
Proof.
  rewrite (noteSelfExpiry_client now was a). cbv zeta. generalize (a_client (noteSelfExpiry now was a)). intros [].
  destruct (a_client a); reflexivity.
Qed.

Lemma expirePeers_data now a : netData (a_client (expirePeers now a)) = netData (a_client a)
  <| nd_peers := expireNode (dataNow now (netData (a_client a))) <$> nd_peers (netData (a_client a)) |>.
Proof. data_of expirePeers_client. Qed.

Lemma restore_data a : netData (a_client (restoreRunning a)) = netData (a_client a).
Proof.
  rewrite (restoreRunning_client a). cbv zeta. generalize (a_client (restoreRunning a)). intros [].
  destruct (a_client a); reflexivity.
Qed.

(** One phase of the calculation below: [E] gives the network data of the
    accumulator [a], and the next phase replaces both. *)
Ltac data_gen a E :=
  match type of E with netData (a_client ?t) = _ => generalize dependent t; clear a; intros a E end.
Ltac data_step a E E1 :=
  clear E; rename E1 into E;
  cbn [update nd_self nd_peers nd_derpMap nd_dns nd_filters nd_users nd_domain nd_health nd_handle
       nd_sequence nd_controlTime nd_controlTimeAt] in E; data_gen a E.
Ltac data_next L a E :=
  let E1 := fresh "E" in pose proof (L a) as E1; rewrite !E in E1; data_step a E E1.

(** The network data after [reduce], phase by phase. *)
Lemma reduce_data now r c :
  let d := netData c in
  let d1 := d <| nd_controlTimeAt := newTimeAt now r d |>
              <| nd_controlTime := match MapResponse_ControlTime r with Some t => Some t | None => nd_controlTime d end |> in
  let t := dataNow now d1 in
  ∃ b handle seq, netData (a_client (reduce now r c)) = mkNetData
    (expireNode t <$> match MapResponse_Node r with Some n => Some (cloneControlNode n) | None => nd_self d end)
    (expireNode t <$> seenOnline now r (foldl patchPeer
       ((removePeers (elems (MapResponse_PeersRemoved r)) (changePeers (elems (MapResponse_PeersChanged r))
          (match MapResponse_Peers r with Some ns => peersOf ns | None => nd_peers d end)).1).1, false, b)
       (elems (MapResponse_PeersChangedPatch r))).1.1)
    (match MapResponse_DERPMap r with Some u => mergeDERPMap (nd_derpMap d) (Some u) | None => nd_derpMap d end)
    (match MapResponse_DNSConfig r with Some v => Some (cloneDNSConfig v) | None => nd_dns d end)
    (withNamed r (withBase r (nd_filters d)))
    (foldl updateUser (nd_users d, false) (elems (MapResponse_UserProfiles r))).1
    (if bool_decide (MapResponse_Domain r = "") then nd_domain d else MapResponse_Domain r)
    (match MapResponse_Health r with
     | Some h => if bool_decide (h = elems (nd_health d)) then nd_health d else Some h | None => nd_health d end)
    handle seq (nd_controlTime d1) (nd_controlTimeAt d1).
Proof.
  cbv zeta. unfold reduce. cbv zeta.
  set (a := mkAcc c [] false false false false false None).
  assert (netData (a_client a) = netData c) as E by reflexivity. clearbody a.
  destruct (netData c) as [self peers derp dns filters users domain health h0 s0 ct at0].
  destruct (session_data r a) as (handle & seq & E1). rewrite E in E1. data_step a E E1.
  data_next (controlTime_data now r) a E. rewrite <-(takePing_client r) in E. data_gen a E.
  data_next (browser_data now r) a E. data_next (self_data r) a E. data_next (peers_data r) a E.
  data_next (changed_data r) a E. data_next (removed_data r) a E.
  destruct (patched_data r a) as [b E1]. rewrite E in E1. data_step a E E1.
  data_next (seenOnline_data now r) a E. data_next (derp_data r) a E. data_next (dns_data r) a E.
  data_next (base_data r) a E. data_next (named_data r) a E. data_next flatten_data a E.
  data_next (users_data r) a E. data_next (domain_data r) a E.
  rewrite <-noteDNSNodes_client in E. data_gen a E.
  data_next (markSelf_data now) a E.
  data_next (noteSelfExpiry_data now (selfExpired c)) a E. data_next (expirePeers_data now) a E.
  rewrite restore_data, E. exists b, handle, seq. reflexivity.
Qed.

Lemma spec_time now r c :
  let d := netData c in
  dataNow now (d <| nd_controlTimeAt := newTimeAt now r d |>
    <| nd_controlTime := match MapResponse_ControlTime r with Some t => Some t | None => nd_controlTime d end |>)
  = specNow now r d.
Proof.
  cbv zeta. destruct (netData c). unfold dataNow, specNow, newTimeAt; cbn.
  destruct (MapResponse_ControlTime r) as [t|]; cbn; [|done]. case_bool_decide; cbn; [done|].
  rewrite time_sub_refl, Z.add_0_r. done.
Qed.

Lemma reduce_spec now r c : netSpec now r (netData c) (netData (a_client (reduce now r c))).
Proof.
  pose proof (reduce_data now r c) as Hd. cbv zeta in Hd. destruct Hd as (b & handle & seq & ->).
  rewrite spec_time. constructor; cbn [nd_peers nd_self nd_derpMap nd_dns nd_filters nd_domain nd_health nd_controlTime].
  - intros id. rewrite lookup_fmap, seenOnline_lookup, patches_lookup, removePeers_lookup, changePeers_lookup.
    unfold specPeer. destruct (MapResponse_Peers r); rewrite ?peersOf_lookup; reflexivity.
  - done.
  - done.
  - done.
  - intros name. rewrite withNamed_lookup. unfold specFilter, withBase. cbv zeta.
    destruct (MapResponse_PacketFilter r) as [v|]; [|done].
    assert (<["base" := cloneFilters (Some v)]> (nd_filters (netData c)) !! name =
      if bool_decide (name = "base") then Some (cloneFilters (Some v)) else nd_filters (netData c) !! name) as ->; [|done].
    case_bool_decide; subst; [by rewrite lookup_insert_eq|by rewrite lookup_insert_ne].
  - done.
  - destruct (MapResponse_Health r) as [h|]; cbn; [|done]. by case_bool_decide.
  - by destruct (netData c).
Qed.

(** C2. Functional correctness of the reducer: after a response the client's
    network data is what the response says, independently of the order in which
    its maps are visited -- for every peer the full list or the old peer, then
    changed peers, removals, patches, seen and online flags, then key expiry; the
    self node, DERP map, DNS settings, filter chunks, domain, health and control
    time likewise. *)
Theorem reduce_refines now r c : netSpec now r (netData c) (netData (a_client (reduce now r c))).
Proof. apply reduce_spec. Qed.

(** ** No silent change *)

(** A phase only adds event kinds, and when it adds none it leaves the network
    data of a client with normalised peers as it is. *)
Definition peers_normal (c : Client) : Prop := map_Forall (λ _ n, node_normal n) (c_peers c).

Definition announces (f : Acc → Acc) : Prop := ∀ a,
  (∃ ks, a_kinds (f a) = a_kinds a ++ ks) ∧
  (peers_normal (a_client a) → a_kinds (f a) = a_kinds a → netData (a_client (f a)) = netData (a_client a)).

Lemma announces_comp f g : announces f → announces g → announces (λ a, g (f a)).
Proof.
  intros Hf Hg a. destruct (Hf a) as [[ks E1] H1], (Hg (f a)) as [[ks' E2] H2]. rewrite E1 in *. split.
  { exists (ks ++ ks'). by rewrite E2, app_assoc. }
  intros Hn E. rewrite E2, <-app_assoc in E. rewrite <-(app_nil_r (a_kinds a)) in E at 2.
  apply app_inv_head, app_nil in E as [-> ->]. rewrite !app_nil_r in *.
  specialize (H1 Hn eq_refl). rewrite H2; [done| |done].
  unfold peers_normal in *. apply (f_equal nd_peers) in H1; cbn in H1. by rewrite H1.
Qed.

Lemma app_self_nil {A} (l ks : list A) : l ++ ks = l → ks = [].
Proof. intros E. apply (app_inv_head l). by rewrite app_nil_r. Qed.

(** A loop whose flag stays false has changed nothing. *)
Lemma flag_loop {S A} (step : S * bool → A → S * bool)
    (Hstep : ∀ s b x, (step (s, b) x).2 = false → b = false ∧ (step (s, b) x).1 = s) l s b :
  (foldl step (s, b) l).2 = false → b = false ∧ (foldl step (s, b) l).1 = s.
Proof.
  revert s b. induction l as [|x l IH]; intros s b; cbn; [done|].
  specialize (Hstep s b x). destruct (step (s, b) x) as [s' b'] eqn:E. intros Hf.
  destruct (IH s' b' Hf) as [-> ->]. by apply Hstep.
Qed.

Lemma changePeers_quiet nodes peers : (changePeers nodes peers).2 = false → (changePeers nodes peers).1 = peers.
Proof.
  intros. eapply flag_loop; [|done]. intros p b [n|]; cbn; [|done]. by case_bool_decide.
Qed.

Lemma removePeers_quiet ids peers : (removePeers ids peers).2 = false → (removePeers ids peers).1 = peers.
Proof. intros. eapply flag_loop; [|done]. intros p b i; cbn. by case_match. Qed.

Lemma seePeer_quiet value l peers :
  (foldl (seePeer value) (peers, false) l).2 = false → (foldl (seePeer value) (peers, false) l).1 = peers.
Proof.
  intros. eapply flag_loop; [|done]. intros p b [i seen]; cbn. repeat (case_match; cbn); done.
Qed.

Lemma onlinePeer_quiet l peers :
  (foldl onlinePeer (peers, false) l).2 = false → (foldl onlinePeer (peers, false) l).1 = peers.
Proof.
  intros. eapply flag_loop; [|done]. intros p b [i online]; cbn. repeat (case_match; cbn); done.
Qed.

Lemma updateFilter_quiet l s : (foldl updateFilter s l).2 = false → s.2 = false ∧ (foldl updateFilter s l).1 = s.1.
Proof.
  destruct s as [named b]. intros. eapply flag_loop; [|done].
  intros p b' [name value]; cbn. repeat (case_match; cbn); done.
Qed.

Lemma updateUser_quiet l users :
  (foldl updateUser (users, false) l).2 = false → (foldl updateUser (users, false) l).1 = users.
Proof.
  intros. eapply flag_loop; [|done]. intros u b x; cbn. repeat (case_match; cbn); done.
Qed.

Lemma patches_quiet l peers b0 b1 :
  map_Forall (λ _ n, node_normal n) peers →
  (foldl patchPeer (peers, b0, b1) l).1.2 = false →
  b0 = false ∧ (foldl patchPeer (peers, b0, b1) l).1.1 = peers.
Proof.
  revert peers b0 b1. induction l as [|[p|] l IH]; intros peers b0 b1 Hn; cbn; [done| |apply IH, Hn].
  destruct (peers !! PeerChange_NodeID p) as [n|] eqn:E; cbn.
  - intros Hf. apply IH in Hf as [Hf ->].
    2: { apply map_Forall_insert_2; [|done]. apply patchNode_normal, (Hn _ _ E). }
    apply orb_false_iff in Hf as [-> Hf]. split; [done|]. case_bool_decide as Heq; [done|].
    rewrite lookup_insert_eq in Heq. injection Heq as Heq. apply insert_id. rewrite E. f_equal.
    rewrite <-Heq. symmetry. apply (Hn _ _ E).
  - intros Hf. apply IH in Hf as [Hf ->]; [|done]. by apply orb_false_iff in Hf as [-> _].
Qed.

(** A phase that only compares and assigns. *)
Ltac announce :=
  intros a; destruct a as [[] ? ? ? ? ? ? ?]; unfold when, on_some; cbn;
  repeat (case_bool_decide || case_match; cbn); (split;
    [first [by exists []; rewrite app_nil_r | by eexists]
    |intros _ ?E; first [reflexivity | by apply app_self_nil in E | idtac]]).

Lemma announces_session r : announces (applySession r).
Proof.
  intros [[] ? ? ? ? ? ? ?]. destruct c_info. unfold applySession, when. cbn.
  destruct (bool_decide (MapResponse_MapSessionHandle r ≠ "")), (bool_decide (MapResponse_MapSessionHandle r ≠ _));
    cbn; match goal with |- context [if ?b then _ else _] => destruct b end; cbn;
    (split; [first [by exists []; rewrite app_nil_r|rewrite <-?app_assoc; by eexists]|]);
    intros _ E; rewrite <-?app_assoc in E; first [reflexivity|by apply app_self_nil in E].
Qed.

Lemma announces_controlTime now r : announces (applyControlTime now r).
Proof. unfold applyControlTime. destruct (MapResponse_ControlTime r); announce. Qed.

Lemma announces_ping r : announces (takePing r).
Proof. unfold takePing. destruct (MapResponse_PingRequest r); announce. Qed.

Lemma announces_browser now r : announces (applyBrowserURL now r).
Proof. unfold applyBrowserURL. announce. Qed.

Lemma announces_self r : announces (applySelf r).
Proof. unfold applySelf. destruct (MapResponse_Node r); announce. Qed.

Lemma announces_peers r : announces (applyPeers r).
Proof. unfold applyPeers. destruct (MapResponse_Peers r); announce. Qed.

Lemma announces_changed r : announces (applyPeersChanged r).
Proof.
  intros a. unfold applyPeersChanged.
  pose proof (changePeers_quiet (elems (MapResponse_PeersChanged r)) (c_peers (a_client a))) as Hq.
  destruct (changePeers _ _) as [peers ch]; cbn in Hq. destruct a as [[] ? ? ? ? ? ? ?]; unfold when; cbn in *.
  destruct ch, (bool_decide _); cbn; (split; [first [by exists []; rewrite app_nil_r|by eexists]|]);
    intros _ E; first [by apply app_self_nil in E|by rewrite (Hq eq_refl)].
Qed.

Lemma announces_removed r : announces (applyPeersRemoved r).
Proof.
  intros a. unfold applyPeersRemoved.
  pose proof (removePeers_quiet (elems (MapResponse_PeersRemoved r)) (c_peers (a_client a))) as Hq.
  destruct (removePeers _ _) as [peers ch]; cbn in Hq. destruct a as [[] ? ? ? ? ? ? ?]; unfold when; cbn in *.
  destruct ch, (bool_decide _); cbn; (split; [first [by exists []; rewrite app_nil_r|by eexists]|]);
    intros _ E; first [by apply app_self_nil in E|by rewrite (Hq eq_refl)].
Qed.

Lemma announces_patches r : announces (applyPatches r).
Proof.
  intros a. unfold applyPatches.
  pose proof (patches_quiet (elems (MapResponse_PeersChangedPatch r)) (c_peers (a_client a)) false (a_reconcileRequested a)) as Hq.
  destruct (foldl patchPeer _ _) as [[peers ch] rc]; cbn in Hq. destruct a as [[] ? ? ? ? ? ? ?]; unfold when; cbn in *.
  destruct ch; cbn; (split; [first [by exists []; rewrite app_nil_r|by eexists]|]);
    intros Hn E; [by apply app_self_nil in E|]. destruct (Hq Hn eq_refl) as [_ ->]. done.
Qed.

Lemma announces_seenOnline now r : announces (applySeenOnline now r).
Proof.
  intros a. unfold applySeenOnline.
  pose proof (seePeer_quiet (default now (MapResponse_ControlTime r))
    (range 3 (default ∅ (MapResponse_PeerSeenChange r))) (c_peers (a_client a))) as Hq.
  destruct (foldl (seePeer _) _ _) as [peers ch]; cbn in Hq.
  pose proof (onlinePeer_quiet (range 4 (default ∅ (MapResponse_OnlineChange r))) peers) as Hq'.
  destruct (foldl onlinePeer _ _) as [peers' ch']; cbn in Hq'. destruct a as [[] ? ? ? ? ? ? ?]; unfold when; cbn in *.
  destruct ch, ch'; cbn; (split; [first [by exists []; rewrite app_nil_r|by eexists]|]);
    intros Hn E; first [by apply app_self_nil in E|by rewrite (Hq' eq_refl), (Hq eq_refl)].
Qed.

Lemma announces_derp r : announces (applyDERPMap r).
Proof.
  intros a. unfold applyDERPMap, on_some. destruct (MapResponse_DERPMap r) as [u|].
  2: { split; [exists []; by rewrite app_nil_r|done]. }
  destruct (mergeDERPMap _ _) as [next|]; [|split; [exists []; by rewrite app_nil_r|done]].
  unfold when at 1 3 5. case_bool_decide; [|split; [exists []; by rewrite app_nil_r|done]].
  destruct a as [[] ? ? ? ? ? ? ?]; cbn. unfold when. case_match; cbn;
    (split; [rewrite <-?app_assoc; by eexists|intros _ E; rewrite <-?app_assoc in E; by apply app_self_nil in E]).
Qed.

Lemma announces_dns r : announces (applyDNS r).
Proof. unfold applyDNS. destruct (MapResponse_DNSConfig r); announce. Qed.

Lemma announces_base r : announces (applyPacketFilter r).
Proof. unfold applyPacketFilter. destruct (MapResponse_PacketFilter r); announce. Qed.

Lemma announces_named r : announces (applyPacketFilters r).
Proof.
  intros a. unfold applyPacketFilters, on_some. destruct (MapResponse_PacketFilters r) as [filters|].
  2: { split; [exists []; by rewrite app_nil_r|done]. }
  match goal with |- context [foldl updateFilter ?s ?l] => pose proof (updateFilter_quiet l s) as Hq;
    assert (s.2 = false → s.1 = c_namedFilters (a_client a)) as Hs by (by case_match);
    destruct (foldl updateFilter s l) as [named ch] end. cbn in Hq.
  destruct a as [[] ? ? ? ? ? ? ?]; unfold when; cbn in *.
  destruct ch; cbn; (split; [first [by exists []; rewrite app_nil_r|by eexists]|]);
    intros Hn E; [by apply app_self_nil in E|]. destruct (Hq eq_refl) as [Hb ->]. by rewrite (Hs Hb).
Qed.

Lemma announces_flatten : announces flattenACL.
Proof. unfold flattenACL. announce. Qed.

Lemma announces_users r : announces (applyUsers r).
Proof.
  intros a. unfold applyUsers, on_some. destruct (MapResponse_UserProfiles r) as [us|].
  2: { split; [exists []; by rewrite app_nil_r|done]. }
  pose proof (updateUser_quiet us (c_users (a_client a))) as Hq.
  destruct (foldl updateUser _ _) as [users ch]; cbn in Hq. destruct a as [[] ? ? ? ? ? ? ?]; unfold when; cbn in *.
  destruct ch; cbn; (split; [first [by exists []; rewrite app_nil_r|by eexists]|]);
    intros Hn E; first [by apply app_self_nil in E|by rewrite (Hq eq_refl)].
Qed.

Lemma announces_domain r : announces (applyDomainHealth r).
Proof.
  intros [[] ? ? ? ? ? ? ?]. unfold applyDomainHealth, when, on_some. cbn.
  destruct (bool_decide (MapResponse_Domain r ≠ "")), (bool_decide (MapResponse_Domain r ≠ _)); cbn;
    (destruct (MapResponse_Health r); cbn; [case_bool_decide; cbn|]);
    (split; [first [by exists []; rewrite app_nil_r|rewrite <-?app_assoc; by eexists]|]);
    intros _ E; rewrite <-?app_assoc in E; first [reflexivity|by apply app_self_nil in E].
Qed.

Lemma announces_note : announces noteDNSNodes.
Proof. unfold noteDNSNodes. announce. Qed.

Lemma announces_markSelf now : announces (markSelf now).
Proof.
  intros a. unfold markSelf, on_some. destruct (c_self (a_client a)) as [node|] eqn:Es.
  2: { split; [exists []; by rewrite app_nil_r|done]. }
  destruct (markNodeExpired _ node) as [node' b].
  destruct a as [[] ? ? ? ? ? ? ?]; cbn in *. destruct b; cbn;
    (split; [first [by exists []; rewrite app_nil_r|by eexists]|]); intros _ E; [by apply app_self_nil in E|done].
Qed.

Lemma announces_noteSelfExpiry now was : announces (noteSelfExpiry now was).
Proof.
  intros a. split; [|intros _ _; apply noteSelfExpiry_data].
  destruct a as [[] ? ? ? ? ? ? ?]. unfold noteSelfExpiry, when. cbn.
  repeat (case_match; cbn); first [by exists []; rewrite app_nil_r|rewrite <-?app_assoc; by eexists].
Qed.

Lemma announces_expirePeers now : announces (expirePeers now).
Proof.
  intros a. split.
  { unfold expirePeers, when. case_match; destruct a; cbn; [by eexists|by exists []; rewrite app_nil_r]. }
  intros _ E. rewrite expirePeers_data. destruct a as [c ks ? ? ? ? ? ?]. unfold expirePeers, when in E. cbn in E.
  case_bool_decide as Hf; cbn in E; [by apply app_self_nil in E|].
  assert (expireNode (expiryNow now c) <$> c_peers c = c_peers c) as Hp.
  { apply map_eq. intros id. rewrite lookup_fmap. destruct (c_peers c !! id) as [n|] eqn:En; cbn; [|done]. f_equal.
    apply markNodeExpired_quiet. apply not_true_iff_false. intros Hm.
    assert (filter (λ '(_, m), Is_true m.2) (markNodeExpired (expiryNow now c) <$> c_peers c) !! id =
      Some (markNodeExpired (expiryNow now c) n)) as Hl.
    { apply map_lookup_filter_Some. rewrite lookup_fmap, En. split; [done|]. by apply Is_true_eq_left. }
    by rewrite Hf in Hl. }
  cbn. unfold netData. cbn. change (dataNow now _) with (expiryNow now c). by rewrite Hp.
Qed.

Lemma announces_restore : announces restoreRunning.
Proof.
  intros a. split; [|intros _ _; apply restore_data]. unfold restoreRunning, when.
  case_match; destruct a; cbn; [by eexists|by exists []; rewrite app_nil_r].
Qed.

Lemma announces_all fs : Forall announces fs → announces (λ a, foldl (λ a f, f a) a fs).
Proof.
  induction fs as [|f fs IH]; intros Hf.
  { intros a. split; [exists []; by rewrite app_nil_r|done]. }
  apply Forall_cons in Hf as [Hf Hfs]. apply (announces_comp f (λ a, foldl (λ a f, f a) a fs)); auto.
Qed.

(** The phases of [reduce], in order. *)
Definition phases (now : Z) (r : MapResponse) (was : bool) : list (Acc → Acc) :=
  [applySession r; applyControlTime now r; takePing r; applyBrowserURL now r; applySelf r; applyPeers r;
   applyPeersChanged r; applyPeersRemoved r; applyPatches r; applySeenOnline now r; applyDERPMap r;
   applyDNS r; applyPacketFilter r; applyPacketFilters r; flattenACL; applyUsers r; applyDomainHealth r;
   noteDNSNodes; markSelf now; noteSelfExpiry now was; expirePeers now; restoreRunning].

Lemma reduce_phases now r c :
  reduce now r c = foldl (λ a f, f a) (mkAcc c [] false false false false false None) (phases now r (selfExpired c)).
Proof. reflexivity. Qed.

Lemma phases_announce now r was : Forall announces (phases now r was).
Proof.
  repeat apply Forall_cons_2; [apply announces_session|apply announces_controlTime|apply announces_ping
    |apply announces_browser|apply announces_self|apply announces_peers|apply announces_changed
    |apply announces_removed|apply announces_patches|apply announces_seenOnline|apply announces_derp
    |apply announces_dns|apply announces_base|apply announces_named|apply announces_flatten
    |apply announces_users|apply announces_domain|apply announces_note|apply announces_markSelf
    |apply announces_noteSelfExpiry|apply announces_expirePeers|apply announces_restore|constructor].
Qed.

(** No silent change: when a response yields no event, the client's network
    data is exactly what it was. *)
Theorem reduce_silent_unchanged now r c
    (Hn : peers_normal c) (Hk : a_kinds (reduce now r c) = []) :
  netData (a_client (reduce now r c)) = netData c.
Proof.
  rewrite reduce_phases in *.
  by apply (announces_all _ (phases_announce now r (selfExpired c)) (mkAcc c [] false false false false false None)).
Qed.

(** ** Invariant: stored nodes are normal forms *)

Definition opt_normal (o : option Node) : Prop := ∀ n, o = Some n → node_normal n.

Lemma opt_normal_fmap f o : opt_normal o → (∀ n, node_normal n → node_normal (f n)) → opt_normal (f <$> o).
Proof. intros Ho Hf n (m & -> & ->)%fmap_Some. by apply Hf, Ho. Qed.

Lemma normal_lastSeen v n : node_normal n → node_normal (n <| Node_LastSeen := v |>).
Proof. rewrite !node_normal_iff. by destruct n. Qed.
Lemma normal_online v n : node_normal n → node_normal (n <| Node_Online := v |>).
Proof. rewrite !node_normal_iff. by destruct n. Qed.
Lemma normal_expire t n : node_normal n → node_normal (expireNode t n).
Proof.
  unfold expireNode, markNodeExpired. case_match; [done|]. rewrite !node_normal_iff. by destruct n.
Qed.

Lemma specPeer_normal now r d id : opt_normal (nd_peers d !! id) → opt_normal (specPeer now r d id).
Proof.
  intros Hd. unfold specPeer. cbv zeta. apply opt_normal_fmap; [|apply normal_expire].
  set (n0 := match MapResponse_Peers r with Some _ => _ | None => _ end).
  assert (opt_normal n0) as H0'.
  { unfold n0. destruct (MapResponse_Peers r); [|done]. intros n' (m & _ & ->)%fmap_Some. apply cloneControlNode_normal. }
  clearbody n0. set (n1 := match lastWith id _ with Some _ => _ | None => _ end).
  assert (opt_normal n1) as H1'.
  { unfold n1. destruct (lastWith id _); [|done]. intros n' [= <-]. apply cloneControlNode_normal. }
  clearbody n1. set (n2 := if bool_decide (id ∈ _) then None else n1).
  assert (opt_normal n2) as H2' by (unfold n2; case_bool_decide; done). clearbody n2.
  set (n3 := foldl _ n2 _).
  assert (opt_normal n3) as H3'.
  { apply foldl_preserves; [done|]. intros p n _ Hn. case_bool_decide; [|done].
    apply opt_normal_fmap; [done|]. intros. by apply patchNode_normal. }
  clearbody n3. set (n4 := match (_ !! id : option bool) with Some _ => _ | None => n3 end).
  assert (opt_normal n4) as H4'.
  { unfold n4. case_match; [|done]. apply opt_normal_fmap; [done|]. intros. by apply normal_lastSeen. }
  clearbody n4. case_match; [|done]. apply opt_normal_fmap; [done|]. intros. by apply normal_online.
Qed.

Lemma reduce_normal now r c : peers_normal c → peers_normal (a_client (reduce now r c)).
Proof.
  intros Hn id n Hl. pose proof (sp_peers _ _ _ _ (reduce_spec now r c) id) as Hs. cbn in Hs. rewrite Hl in Hs.
  symmetry in Hs. revert n Hs Hl. intros n Hs _. eapply specPeer_normal; [|exact Hs].
  intros m Hm. by apply (Hn id).
Qed.

(** ** Committing *)

Context {D : Type} `{!DeviceAPI D}.

Lemma publish_kinds kinds (w : World (D := D)) :
  foldl (λ w kind, publish_event kind None w) w kinds =
  w <| w_out := w_out w ++ map (λ kind, OutPublish (eventLocked kind None (w_client w))) kinds |>.
Proof.
  revert w. induction kinds as [|k kinds IH]; intros [c d o]; cbn; [by rewrite app_nil_r|].
  rewrite IH. cbn. by rewrite <-app_assoc.
Qed.

Lemma commitRevisions_facts now kinds b (c : Client) :
  let c' := commitRevisions now kinds b c in
  netData c' = netData c ∧ c_revision c' = uwrap 64 (c_revision c + 1) ∧ c_at c' = now.
Proof. destruct c. unfold commitRevisions, when. cbn. repeat (case_match; cbn); done. Qed.

Lemma answerControlPing_facts ping (c : Client) :
  let c' := answerControlPing ping c in
  netData c' = netData c ∧ c_revision c' = c_revision c ∧ c_at c' = c_at c.
Proof.
  destruct ping as [p|]; cbn; [|done]. unfold answerControlPing. destruct c. cbn. repeat (case_match; cbn); done.
Qed.

Definition is_publish (o : Output) : bool := match o with OutPublish _ => true | _ => false end.

Lemma bind_call_facts b o (w : World (D := D)) :
  is_publish o = false →
  w_client (when b (on_bind o) w) = w_client w ∧ w_device (when b (on_bind o) w) = w_device w ∧
  ∃ rest, existsb is_publish rest = false ∧ w_out (when b (on_bind o) w) = w_out w ++ rest.
Proof.
  intros Ho. unfold on_bind, when, emit. destruct b, (c_bind (w_client w)), w; cbn;
    (split_and!; [done..|]); first [by exists []; rewrite app_nil_r|exists [o]; cbn; by rewrite Ho].
Qed.


(** ** Reconciliation leaves the network data alone *)

Lemma netData_on_client f (w : World (D := D)) :
  (∀ c, netData (f c) = netData c) → netData (w_client (on_client f w)) = netData (w_client w).
Proof. intros Hf. destruct w; cbn. apply Hf. Qed.

Lemma netData_emit o (w : World (D := D)) : netData (w_client (emit o w)) = netData (w_client w).
Proof. by destruct w. Qed.

Lemma netData_on_bind o (w : World (D := D)) : netData (w_client (on_bind o w)) = netData (w_client w).
Proof. unfold on_bind, when. case_match; [apply netData_emit|done]. Qed.

Lemma netData_device d (w : World (D := D)) : netData (w_client (w <| w_device := d |>)) = netData (w_client w).
Proof. by destruct w. Qed.

Lemma netData_setPeerError now key err (w : World (D := D)) :
  netData (w_client (setPeerError now key err w)) = netData (w_client w).
Proof. unfold setPeerError, publish_event. rewrite netData_emit, netData_on_client; [done|]. by intros []. Qed.

Lemma netData_losePeer now key (w : World (D := D)) :
  netData (w_client (losePeer now key w)) = netData (w_client w).
Proof.
  unfold losePeer. rewrite netData_setPeerError, netData_on_bind, netData_on_client; [done|]. by intros [].
Qed.

Lemma netData_recordApplied key wanted spec nu (w : World (D := D)) :
  netData (w_client (recordApplied key wanted spec nu w).1) = netData (w_client w).
Proof. by destruct w as [[] ? ?]. Qed.

Lemma netData_withdraw now d desired (w : World (D := D)) key owned :
  netData (w_client (withdrawPeer now d desired w key owned).1) = netData (w_client w).
Proof.
  unfold withdrawPeer. destruct (desired !! key); [done|].
  destruct (match api_PeerSpec d key with Some _ => _ | None => true end).
  - destruct (api_DeleteTrackedPeer key d) as [d' [e|]]; cbn [fst].
    + by rewrite netData_setPeerError, netData_device.
    + rewrite netData_on_client by (by intros []). by rewrite netData_on_bind, netData_device.
  - cbn [fst]. rewrite netData_on_client by (by intros []). by rewrite netData_on_bind.
Qed.

Lemma netData_publishPeer now d applied (w : World (D := D)) key wanted :
  netData (w_client (publishPeer now d applied w key wanted).1) = netData (w_client w).
Proof.
  unfold publishPeer. cbv zeta.
  destruct (match applied !! key with Some _ => _ | None => false end); [apply netData_losePeer|].
  destruct (match applied !! key with Some _ => false | None => _ end); [apply netData_setPeerError|].
  destruct (match applied !! key with Some _ => _ | None => true end).
  - destruct (api_UpsertTrackedPeer _ d) as [d' [e|]]; cbn [fst].
    + rewrite netData_setPeerError. case_bool_decide; by rewrite ?netData_on_bind, netData_device, netData_on_bind.
    + by rewrite netData_recordApplied, netData_device, netData_on_bind.
  - by rewrite netData_recordApplied, netData_on_bind.
Qed.

Lemma netData_loop {A} (body : D → World (D := D) → A → World * bool) l (w : World (D := D)) :
  (∀ d w a, netData (w_client (body d w a).1) = netData (w_client w)) →
  netData (w_client (device_loop body l w).1) = netData (w_client w).
Proof.
  intros Hb. rewrite device_loop_world. apply (foldl_preserves (λ w', netData (w_client w') = netData (w_client w))); [done|].
  intros a w' _ E. destruct (w_device w'); [by rewrite Hb|done].
Qed.

Lemma netData_reconcile now (w : World (D := D)) :
  netData (w_client (reconcilePeers now w)) = netData (w_client w).
Proof.
  unfold reconcilePeers. destruct (w_device w) as [d|]; [|done]. destruct (api_closed d); [done|]. cbv zeta.
  match goal with |- context [device_loop ?b ?l w] =>
    pose proof (netData_loop b l w ltac:(intros ? ? []; apply netData_withdraw)) as E1;
    destruct (device_loop b l w) as [w1 ch1] end.
  match goal with |- context [device_loop ?b ?l w1] =>
    pose proof (netData_loop b l w1 ltac:(intros ? ? []; apply netData_publishPeer)) as E2;
    destruct (device_loop b l w1) as [w2 ch2] end.
  cbn [fst] in *. rewrite <-E1, <-E2. destruct (_ || _).
  - unfold publish_event. rewrite !netData_emit, !netData_on_client; [done|by intros []|by intros []].
  - rewrite netData_on_client; [done|]. by intros [].
Qed.

Lemma netData_commit now a (w : World (D := D)) :
  netData (w_client (commit now a w)) = netData (a_client a).
Proof.
  assert (∀ b (w : World (D := D)), netData (w_client (when b (reconcilePeers now) w)) = netData (w_client w)) as Hr.
  { intros [] ?; [apply netData_reconcile|done]. }
  unfold commit. case_bool_decide; cbv zeta.
  - rewrite Hr. destruct w; cbn. apply answerControlPing_facts.
  - assert (∀ b (w : World (D := D)), netData (w_client (when b (on_client signalEndpointUpdate) w)) = netData (w_client w)) as Hs.
    { intros [] w'; [|done]. apply netData_on_client. by intros []. }
    rewrite Hs, Hr. destruct (a_derpBindingChanged a); cbn [when]; rewrite ?netData_on_bind.
    all: rewrite netData_on_client by (intros; apply answerControlPing_facts).
    all: rewrite publish_kinds; destruct w; cbn; apply commitRevisions_facts.
Qed.

Context `{BoxOps}.

(** The nodes a client holds stay normal forms: applying any response, with
    the reconciliation it causes, keeps every peer's addresses unmapped and
    without duplicates. *)
Theorem applyMapResponse_keeps_normal now r (w : World (D := D)) (Hn : peers_normal (w_client w)) :
  peers_normal (w_client (applyMapResponse now r w).1).
Proof.
  unfold applyMapResponse. destruct (keyMismatch _ _); [done|]. cbn [fst].
  pose proof (reduce_normal now (stripKeepAlive r) (w_client w) Hn) as Hr. unfold peers_normal in *.
  pose proof (netData_commit now (reduce now (stripKeepAlive r) (w_client w)) w) as E.
  apply (f_equal nd_peers) in E; cbn in E. by rewrite E.
Qed.

(** A response is rejected exactly when it is no keepalive and its self
    node carries another key than the device; then nothing changes. *)
Theorem applyMapResponse_rejects now r (w : World (D := D)) :
  match (applyMapResponse now r w).2 with
  | Some err => err = ErrControlNodeKeyMismatch ∧ (applyMapResponse now r w).1 = w ∧
      MapResponse_KeepAlive r = false ∧ PrivateKey_IsZero (c_nodePrivate (w_client w)) = false ∧
      ∃ node, MapResponse_Node r = Some node ∧ Node_Key node ≠ PublicNode (c_nodePrivate (w_client w))
  | None => MapResponse_KeepAlive r = true ∨ PrivateKey_IsZero (c_nodePrivate (w_client w)) = true ∨
      ∀ node, MapResponse_Node r = Some node → Node_Key node = PublicNode (c_nodePrivate (w_client w))
  end.
Proof.
  unfold applyMapResponse, keyMismatch, stripKeepAlive.
  destruct (MapResponse_KeepAlive r) eqn:Ek; cbn; [by left|].
  destruct (MapResponse_Node r) as [node|] eqn:En; cbn; [|by right; right].
  destruct (PrivateKey_IsZero _) eqn:Ez; cbn; [by right; left|].
  case_bool_decide; cbn; [|right; right; congruence]. split_and!; eauto.
Qed.
End Spec.

#[local] Existing Instance demo_pkg.
#[local] Existing Instance canonical_order.
#[local] Existing Instance demo_api.

(** ** Examples *)

Definition demo_response : MapResponse :=
  zeroMapResponse <| MapResponse_Peers := Some [Some (demo_node 1)] |> <| MapResponse_Domain := "example.com" |>.

Lemma reduce_silent_unchanged_witness :
  netData (a_client (reduce 7 zeroMapResponse (newClient demo_options_full 1))) =
  netData (newClient demo_options_full 1).
Proof. apply reduce_silent_unchanged; [apply map_Forall_empty|vm_compute; reflexivity]. Defined.


#[local] Instance demo_box : BoxOps := {|
  ScalarBaseMult k := k; Precompute a b := a;
  SealAfterPrecomputation m _ _ := m; OpenAfterPrecomputation m _ _ := Some m |}.

Lemma applyMapResponse_keeps_normal_witness :
  peers_normal (w_client (applyMapResponse 7 demo_response (mkWorld (newClient demo_options_full 1) (None : option demo_device) [])).1).
Proof. apply applyMapResponse_keeps_normal. apply map_Forall_empty. Defined.
