(* ===== verification/Cache.v ===== *)
(** * The identity cache ([cache.go])

    Loading, completing and storing the machine and discovery identity.  JSON
    encoding of the state is [encoding/json]'s and is an interface,
    [CacheCodec], whose law [CacheCodecLaws] is its documented round trip on
    ASCII text: an empty list of confirmations is omitted and reads back as nil,
    and the final newline is ignored.  Random bytes are arguments. *)

From Stdlib Require Import ZArith Lia String Strings.Byte.
From S2P Require Export ClientState.
Open Scope Z_scope.

Definition cacheVersion : Z := 1.

Class CacheCodec := {
  json_Marshal : cacheState → result string (list byte);
  json_Unmarshal : list byte → result string cacheState
}.

Fixpoint is_ascii (s : string) : bool :=
  match s with EmptyString => true | String c s => (chr c <? 128) && is_ascii s end.

Definition cache_ascii (s : cacheState) : Prop :=
  is_ascii (cs_NodePublic s) && is_ascii (cs_MachinePrivate s) && is_ascii (cs_DiscoPrivate s)
  && is_ascii (cs_BackendLogID s) && forallb is_ascii (elems (cs_ConfirmedPeerIDs s)) = true.

(** [omitempty]: an empty list is not written. *)
Definition omitEmpty {A} (s : slice A) : slice A := match elems s with [] => None | l => Some l end.

Class CacheCodecLaws (C : CacheCodec) := {
  json_roundtrip s : cache_ascii s → ∃ data, json_Marshal s = Ok data ∧ data ≠ [] ∧
    json_Unmarshal (data ++ [x0a]) = Ok (s <| cs_ConfirmedPeerIDs := omitEmpty (cs_ConfirmedPeerIDs s) |>)
}.

(** [slices.Sort] and [slices.Compact]. *)
Definition sortIDs (ids : slice string) : slice string := compact ∘ sort_strings <$> ids.
Arguments sortIDs : simpl never.
Arguments omitEmpty : simpl never.

Definition newPrivateKeyText (rand : option (array 32)) : result error string :=
  match rand with
  | None => Err (ErrWrap "tailscale: generate private identity" (ErrText "rand"))
  | Some key => Ok (hex_encode (clampKey (arr_bytes key)))
  end.

Section Cache.
Context `{CacheCodec}.

(** What [callbacks.Load] delivers: a fresh state or the decoded one. *)
Definition loadState (callbacks : CacheCallbacks) : result error (cacheState * bool) :=
  match cb_Load callbacks with
  | None => Ok (zeroCache, false)
  | Some (Err e) => Err (ErrWrap "tailscale: load cache" (ErrText e))
  | Some (Ok data) =>
      if bool_decide (data = []) then Ok (zeroCache, false)
      else match json_Unmarshal data with
           | Err e => Err (ErrWrap "tailscale: decode cache" (ErrText e))
           | Ok state => Ok (state, true)
           end
  end.

Definition loadOrCreateCache (machineRand discoRand : option (array 32)) (idRand : option (array 16))
    (callbacks : CacheCallbacks) (nodePublic : array 32) : result error (cacheState * bool) :=
  let! (state, loaded) := loadState callbacks in
  if negb (cs_Version state =? 0) && negb (cs_Version state =? cacheVersion)
  then Err (ErrText ("tailscale: unsupported cache version " +:+ Itoa (cs_Version state)))
  else
    let wantNode := hex_encode (arr_bytes nodePublic) in
    if bool_decide (cs_NodePublic state ≠ "") && bool_decide (cs_NodePublic state ≠ wantNode)
    then Err ErrNodeIdentityChanged
    else
      let state := state <| cs_Version := cacheVersion |> <| cs_NodePublic := wantNode |> in
      let! (state, loaded) :=
        if bool_decide (cs_MachinePrivate state = "") then
          let! text := newPrivateKeyText machineRand in Ok (state <| cs_MachinePrivate := text |>, false)
        else Ok (state, loaded) in
      let! (state, loaded) :=
        if bool_decide (cs_DiscoPrivate state = "") then
          let! text := newPrivateKeyText discoRand in Ok (state <| cs_DiscoPrivate := text |>, false)
        else Ok (state, loaded) in
      let! (state, loaded) :=
        if bool_decide (cs_BackendLogID state = "") then
          match idRand with
          | None => Err (ErrWrap "tailscale: generate backend ID" (ErrText "rand"))
          | Some id => Ok (state <| cs_BackendLogID := hex_encode (arr_bytes id) |>, false)
          end
        else Ok (state, loaded) in
      Ok (state <| cs_ConfirmedPeerIDs := sortIDs (cs_ConfirmedPeerIDs state) |>, loaded).

(** [X25519(out, Basepoint)] is the curve library's; [valid] tells whether it
    succeeds. *)
Definition decodePrivateKey (valid : array 32 → bool) (text : string) : result error (array 32) :=
  match hex_decode text with
  | Some b =>
      if bool_decide (length b = 32%nat) then
        if valid (to_array 32 b) then Ok (to_array 32 b)
        else Err (ErrWrap "tailscale: invalid cached private key" (ErrText "x25519"))
      else Err (ErrText "tailscale: invalid cached private key")
  | None => Err (ErrText "tailscale: invalid cached private key")
  end.

Definition encodeCache (state : cacheState) : result error (list byte) :=
  let state := state <| cs_Version := cacheVersion |>
                     <| cs_ConfirmedPeerIDs := sortIDs (cs_ConfirmedPeerIDs state) |> in
  match json_Marshal state with
  | Err e => Err (ErrWrap "tailscale: encode cache" (ErrText e))
  | Ok data => Ok (data ++ [x0a])
  end.

(** The stored blob, if any, and the error. *)
Definition storeCache (callbacks : CacheCallbacks) (state : cacheState) : option (list byte) * option error :=
  match cb_Store callbacks with
  | None => (None, None)
  | Some store =>
      match encodeCache state with
      | Err e => (None, Some e)
      | Ok data =>
          match store data with
          | Some e => (None, Some (ErrWrap "tailscale: store cache" (ErrText e)))
          | None => (Some data, None)
          end
      end
  end.

(** ** Properties *)

(** A state with an identity for [nodePublic]. *)
Record cache_complete (nodePublic : array 32) (s : cacheState) : Prop := {
  cc_version : cs_Version s = cacheVersion;
  cc_node : cs_NodePublic s = hex_encode (arr_bytes nodePublic);
  cc_machine : cs_MachinePrivate s ≠ "";
  cc_disco : cs_DiscoPrivate s ≠ "";
  cc_log : cs_BackendLogID s ≠ "";
  cc_ids : sortIDs (cs_ConfirmedPeerIDs s) = cs_ConfirmedPeerIDs s
}.

Lemma hex_encode_nonempty l : l ≠ [] → hex_encode l ≠ "".
Proof. by destruct l. Qed.

Lemma sorted_compact_id l : StronglySorted (cmp_le scmp) l → NoDup l → compact (sort_strings l) = l.
Proof.
  intros Hs Hn.
  assert (sort_strings l = l) as ->.
  { apply (StronglySorted_unique (cmp_le scmp)); [apply sort_func_sorted; apply _|done|apply sort_func_perm]. }
  destruct l as [|x l]; [done|]. unfold compact; cbn. f_equal. clear Hs. revert x Hn.
  induction l as [|y l IH]; intros x Hn; cbn; [done|].
  apply NoDup_cons in Hn as [Hx Hn]. rewrite bool_decide_false by set_solver. f_equal. by apply IH.
Qed.

Lemma sublist_sorted {A} (R : relation A) l l' : l `sublist_of` l' → StronglySorted R l' → StronglySorted R l.
Proof.
  intros Hsub. induction 1 as [|x l' Hs IH Hx] in l, Hsub |- *.
  - apply sublist_nil_r in Hsub as ->. constructor.
  - apply sublist_cons_r in Hsub as [Hsub|(l1 & -> & Hsub)]; [by apply IH|].
    constructor; [by apply IH|]. rewrite Forall_forall in *. intros y Hy. apply Hx.
    by eapply elem_of_sublist.
Qed.

Lemma sortIDs_idemp ids : sortIDs (sortIDs ids) = sortIDs ids.
Proof.
  destruct ids as [l|]; [|done]. unfold sortIDs; cbn. f_equal.
  pose proof (sort_func_sorted scmp l) as Hs. apply sorted_compact_id.
  - eapply sublist_sorted; [|exact Hs]. unfold compact, compact_func. fold (sort_strings l).
    destruct (sort_strings l); [done|]. apply sublist_skip, compact_from_sublist.
  - by apply (compact_NoDup (cmp_le scmp)).
Qed.

Lemma load_complete mr dr ir callbacks nodePublic s loaded :
  loadOrCreateCache mr dr ir callbacks nodePublic = Ok (s, loaded) → cache_complete nodePublic s.
Proof.
  assert (∀ r text, newPrivateKeyText r = Ok text → text ≠ "") as Hkey.
  { intros [key|] text; [|done]. intros [= <-]. apply hex_encode_nonempty.
    intros E. apply (f_equal length) in E. rewrite length_clampKey, arr_length in E. done. }
  unfold loadOrCreateCache. intros Hl. apply result_bind_Ok in Hl as ([s0 l0] & _ & Hl).
  case_match; [done|]. case_match; [done|]. clear H0 H1.
  apply result_bind_Ok in Hl as ([s1 l1] & Hstep1 & Hl). apply result_bind_Ok in Hl as ([s2 l2] & Hstep2 & Hl).
  apply result_bind_Ok in Hl as ([s3 l3] & Hstep3 & Hl). injection Hl as <- <-.
  destruct s0 as [v n m d b ids]; cbn in *.
  assert (∃ m', m' ≠ "" ∧ s1 = mkcacheState cacheVersion (hex_encode (arr_bytes nodePublic)) m' d b ids) as (m' & Hm & ->).
  { destruct (decide (m = "")) as [E|E];
      [rewrite bool_decide_true in Hstep1 by done
      |rewrite bool_decide_false in Hstep1 by done; injection Hstep1 as <- <-; by exists m]. apply result_bind_Ok in Hstep1 as (text & Ht & [= <- <-]). eauto. }
  cbn in *.
  assert (∃ d', d' ≠ "" ∧ s2 = mkcacheState cacheVersion (hex_encode (arr_bytes nodePublic)) m' d' b ids) as (d' & Hd & ->).
  { destruct (decide (d = "")) as [E|E];
      [rewrite bool_decide_true in Hstep2 by done
      |rewrite bool_decide_false in Hstep2 by done; injection Hstep2 as <- <-; by exists d]. apply result_bind_Ok in Hstep2 as (text & Ht & [= <- <-]). eauto. }
  cbn in *.
  assert (∃ b', b' ≠ "" ∧ s3 = mkcacheState cacheVersion (hex_encode (arr_bytes nodePublic)) m' d' b' ids) as (b' & Hb & ->).
  { destruct (decide (b = "")) as [E|E];
      [rewrite bool_decide_true in Hstep3 by done
      |rewrite bool_decide_false in Hstep3 by done; injection Hstep3 as <- <-; by exists b]. destruct ir as [id|]; [|done]. injection Hstep3 as <- <-.
    eexists. split; [|done]. apply hex_encode_nonempty. intros El. apply (f_equal length) in El.
    by rewrite arr_length in El. }
  constructor; cbn; try done. apply sortIDs_idemp.
Qed.


(** C26. What is stored is loaded again: a complete identity written by
    [storeCache] and read by a later run is the same identity, needs no new
    random bytes and counts as loaded, with confirmations kept. *)
Theorem store_load_roundtrip `{!CacheCodecLaws _} callbacks nodePublic s blob mr dr ir store'
    (Hc : cache_complete nodePublic s) (Ha : cache_ascii s)
    (Hs : storeCache callbacks s = (Some blob, None)) :
  loadOrCreateCache mr dr ir (mkCacheCallbacks (Some (Ok blob)) store') nodePublic =
  Ok (s <| cs_ConfirmedPeerIDs := omitEmpty (cs_ConfirmedPeerIDs s) |>, true).
Proof.
  destruct Hc as [Hv Hn Hm Hd Hb Hi]. destruct s as [v n m d b ids]; cbn in *.
  unfold storeCache, encodeCache in Hs. destruct (cb_Store callbacks) as [store|]; [|done]. cbn in Hs.
  rewrite Hi in Hs. subst v. destruct (json_roundtrip (mkcacheState cacheVersion n m d b ids) Ha) as (data & Hj & Hne & Hu).
  rewrite Hj in Hs. destruct (store (data ++ [x0a])); [done|]. injection Hs as <-.
  unfold loadOrCreateCache, loadState; cbn. rewrite bool_decide_false by (by destruct data). rewrite Hu. cbn.
  rewrite Hn. rewrite (bool_decide_false (hex_encode _ ≠ hex_encode _)) by (intros Hx; by apply Hx). rewrite andb_false_r. cbn.
  rewrite (bool_decide_false (m = "")) by done. cbn. rewrite (bool_decide_false (d = "")) by done. cbn.
  rewrite (bool_decide_false (b = "")) by done. cbn.
  assert (sortIDs (omitEmpty ids) = omitEmpty ids) as ->; [|done].
  unfold omitEmpty. destruct ids as [[|x l]|]; [done|exact Hi|done].
Qed.
End Cache.

(** ** Example: a codec that satisfies the law *)

Fixpoint pos_bytes (p : positive) : list byte :=
  match p with xH => [x2e] | xO p => x30 :: pos_bytes p | xI p => x31 :: pos_bytes p end.

Fixpoint bytes_pos (l : list byte) : option positive :=
  match l with
  | x2e :: _ => Some xH
  | x30 :: l => xO <$> bytes_pos l
  | x31 :: l => xI <$> bytes_pos l
  | _ => None
  end.

Lemma bytes_pos_bytes p rest : bytes_pos (pos_bytes p ++ rest) = Some p.
Proof. induction p; cbn; by rewrite ?IHp. Qed.

Definition cache_tuple (s : cacheState) : Z * string * string * string * string * slice string :=
  (cs_Version s, cs_NodePublic s, cs_MachinePrivate s, cs_DiscoPrivate s, cs_BackendLogID s,
   omitEmpty (cs_ConfirmedPeerIDs s)).

Definition demo_codec : CacheCodec := {|
  json_Marshal s := Ok (pos_bytes (encode (cache_tuple s)));
  json_Unmarshal data :=
    match bytes_pos data ≫= decode with
    | Some (v, n, m, d, b, ids) => Ok (mkcacheState v n m d b ids)
    | None => Err "json"
    end |}.

Lemma demo_codec_laws : CacheCodecLaws demo_codec.
Proof.
  constructor. intros s _. eexists. split; [reflexivity|]. split; [by destruct (encode (cache_tuple s))|].
  cbn. rewrite bytes_pos_bytes. cbn. rewrite decode_encode. by destruct s.
Qed.

Definition demo_cache : cacheState :=
  mkcacheState 1 (hex_encode (arr_bytes (zero_array 32))) "aa" "bb" "cc" (Some ["p"]).

Definition demo_store : CacheCallbacks := mkCacheCallbacks (Some (Ok [])) (Some (λ _, None)).


Lemma store_load_roundtrip_witness :
  @loadOrCreateCache demo_codec None None None
    (mkCacheCallbacks (Some (Ok (pos_bytes (encode (cache_tuple demo_cache)) ++ [x0a]))) None) (zero_array 32) =
  Ok (demo_cache, true).
Proof.
  apply (@store_load_roundtrip demo_codec demo_codec_laws demo_store (zero_array 32) demo_cache); [|reflexivity|reflexivity].
  constructor; vm_compute; done.
Defined.
