(* ===== verification/Lifecycle.v ===== *)
(** * Lifecycle, device attachment and confirmation
      ([client.go], [device.go], [confirmation.go])

    The client's methods and the bodies of its workers, one definition each, as
    functions on the world.  A method that holds a mutex is one step.  Clock
    readings, random bytes and the outcome of calls into other packages are
    arguments. *)

From Stdlib Require Import ZArith Lia String Strings.Byte.
From S2P Require Export MapReducer Cache.
Open Scope Z_scope.

Section Lifecycle.
Context `{DevicePkg} `{RangeOrder} {D : Type} `{!DeviceAPI D} `{CacheCodec} `{BoxOps}.
Implicit Types w : World (D := D).

(** Publish the events of [kinds] in order, as created under the lock. *)
Definition publish_events (kinds : list EventKind) w : World :=
  foldl (λ w kind, publish_event kind None w) w kinds.

(** ** Errors and interactions *)

Definition reportError (now : Z) (err : option error) (state : option State) w : World :=
  match err with
  | None => w
  | Some err =>
      let w := on_client (λ c,
        let c := c <| c_lastError := Error_text err |> in
        let c := on_some state (λ s c, c <| c_state := s |>) c in
        bumpLocked now c) w in
      publish_event EventError (Some err) w
  end.

Definition setTerminalError (now : Z) (err : error) w : World :=
  let w := on_client (λ c, bumpLocked now (c <| c_terminalError := Some err |>
    <| c_lastError := Error_text err |> <| c_state := StateDegraded |>)) w in
  publish_event EventError (Some err) w.

Definition sameInteraction (kind : InteractionKind) (url : string) (c : Client) : bool :=
  match c_interaction c with
  | None => false
  | Some i => bool_decide (in_Kind i = kind) && bool_decide (in_URL i = url)
  end.

Definition setInteraction (now : Z) (kind : InteractionKind) (url message : string) w : World :=
  let w := on_client (λ c,
    let c := when (negb (sameInteraction kind url c)) (set_interaction kind url message now) c in
    let c := c <| c_state := StateNeedsAuthentication |> in
    let c := when (bool_decide (kind = InteractionNodeKeyExpired))
      (λ c, c <| c_state := StateDegraded |> <| c_lastError := Error_text ErrNodeKeyExpired |>) c in
    bumpLocked now c) w in
  publish_events [EventInteraction; EventState] w.

Definition ResumeInteraction (now id : Z) w : World * option error :=
  let c := w_client w in
  if stopping c then (w, Some ErrClosed)
  else match c_interaction c with
       | None => (w, Some ErrInteractionNotFound)
       | Some i =>
           if negb (in_ID i =? id) then (w, Some ErrInteractionNotFound)
           else if bool_decide (in_Kind i = InteractionControlURL) then
             (publish_event EventInteraction None
                (on_client (λ c, bumpLocked now (c <| c_interaction := None |>)) w), None)
           else (on_client (λ c, c <| c_resume := true |>) w, None)
       end.

(** ** Requests to control *)

(** [runtime.GOOS] and [runtime.GOARCH] are arguments. *)
Definition hostinfo (goos goarch : string) (c : Client) : Hostinfo :=
  let result := zeroHostinfo <| Hostinfo_IPNVersion := "wgo-tailscale/0" |>
    <| Hostinfo_BackendLogID := cs_BackendLogID (c_cache c) |> <| Hostinfo_OS := goos |>
    <| Hostinfo_GoArch := goarch |> <| Hostinfo_Hostname := opt_Hostname (c_opts c) |>
    <| Hostinfo_App := "wgo-tailscale" |> in
  when (negb (c_preferredDERP c =? 0))
    (λ h, h <| Hostinfo_NetInfo := Some (mkNetInfo (c_preferredDERP c)) |>) result.

Definition mapRequest (goos goarch : string) (c : Client) : MapRequest :=
  let endpoints := elems (c_endpoints c) in
  zeroMapRequest <| MapRequest_Version := CurrentCapabilityVersion |>
    <| MapRequest_NodeKey := PublicNode (c_nodePrivate c) |>
    <| MapRequest_DiscoKey := PublicDisco (c_discoPrivate c) |>
    <| MapRequest_Hostinfo := Some (hostinfo goos goarch c) |>
    <| MapRequest_MapSessionHandle := ci_MapSessionHandle (c_info c) |>
    <| MapRequest_MapSessionSeq := ci_MapSequence (c_info c) |>
    <| MapRequest_Endpoints := Some (map ec_Addr endpoints) |>
    <| MapRequest_EndpointTypes := Some (map ec_Type endpoints) |>.

(** ** Registration *)

(** The request of one attempt of [authenticate]. *)
Definition registerRequest (goos goarch followup : string) (c : Client) : RegisterRequest :=
  mkRegisterRequest CurrentCapabilityVersion (PublicNode (c_nodePrivate c)) (zero_array 32)
    (if bool_decide (opt_AuthKey (c_opts c) ≠ "") then Some (mkRegisterResponseAuth (opt_AuthKey (c_opts c))) else None)
    0 followup (Some (hostinfo goos goarch c)) (opt_Ephemeral (c_opts c)) None "".

(** What an attempt ends with: the loop goes on at once, waits for a duration
    (or a resume signal), or returns. *)
Inductive AuthNext :=
| AuthRetry (backoff : Z) (followup : string)
| AuthWait (duration backoff : Z) (followup : string)
| AuthDone (err : option error).

Definition attemptTimeout (followup : string) (c : Client) : Z :=
  if bool_decide (followup ≠ "") then opt_AuthenticationPollInterval (c_opts c) else 30 * Second.

Definition acceptRegistration (now : Z) (response : RegisterResponse) w : World :=
  let w := on_client (λ c, bumpLocked now (c <| c_authenticated := true |> <| c_interaction := None |>
    <| c_state := StateRunning |> <| c_lastError := "" |>
    <| c_info := c_info c <| ci_AuthenticatedAt := now |>
         <| ci_UserID := User_ID (RegisterResponse_User response) |>
         <| ci_LoginName := Login_LoginName (RegisterResponse_Login response) |>
         <| ci_DisplayName := Login_DisplayName (RegisterResponse_Login response) |>
         <| ci_ProfilePicURL := Login_ProfilePicURL (RegisterResponse_Login response) |>
         <| ci_MachineAuthorized := RegisterResponse_MachineAuthorized response |> |>)) w in
  publish_events [EventState; EventInteraction] w.

(** [min(backoff*2, c.opts.ReconnectMax)] on 64-bit durations. *)
Definition nextBackoff (backoff : Z) (opts : Options) : Z :=
  Z.min (iwrap64 (backoff * 2)) (opt_ReconnectMax opts).

(** One iteration of the loop of [authenticate], after [control.Register] has
    returned [outcome]; [ctx] is [ctx.Err()]. *)
Definition authenticateStep (now : Z) (ctx : option error) (outcome : result error RegisterResponse)
    (backoff : Z) (followup : string) w : World * AuthNext :=
  let opts := c_opts (w_client w) in
  match outcome with
  | Err err =>
      match ctx with
      | Some e => (w, AuthDone (Some e))
      | None =>
          if bool_decide (followup ≠ "") && errors_Is err ErrDeadlineExceeded
          then (w, AuthRetry backoff followup)
          else (reportError now (Some err) (Some StateDegraded) w,
                AuthWait backoff (nextBackoff backoff opts) followup)
      end
  | Ok response =>
      let backoff := opt_ReconnectMin opts in
      if bool_decide (RegisterResponse_Error response ≠ "") then
        (reportError now (Some (ErrText ("tailscale: registration: " +:+ RegisterResponse_Error response)))
           (Some StateDegraded) w, AuthWait backoff backoff followup)
      else if RegisterResponse_NodeKeyExpired response
              || bool_decide (elems (RegisterResponse_NodeKeySignature response) ≠ []) then
        (setInteraction now InteractionNodeKeyExpired "" (Error_text ErrNodeKeyExpired) w,
         AuthDone (Some ErrNodeKeyExpired))
      else if bool_decide (RegisterResponse_AuthURL response ≠ "") then
        (setInteraction now InteractionAuthenticate (RegisterResponse_AuthURL response)
           "Authorize this node with the control service" w,
         AuthWait (opt_AuthenticationPollInterval opts) backoff (RegisterResponse_AuthURL response))
      else (acceptRegistration now response w, AuthDone None)
  end.

(** The part of [run] after [authenticate] has returned [err]; the map loop
    follows when there is no error. *)
Definition run (now : Z) (err : option error) w : World :=
  match err with
  | Some e => if errors_Is e ErrCanceled then w else setTerminalError now e w
  | None => on_client signalEndpointUpdate w
  end.

(** One iteration of [mapLoop] after the stream has ended with [err]: the world
    and the back-off of the next wait and of the iteration after it. *)
Definition mapLoopStep (now : Z) (err : error) (received : bool) (backoff : Z) w : World * Z * Z :=
  let opts := c_opts (w_client w) in
  let w := reportError now (Some (ErrWrap "tailscale: map stream" err)) (Some StateDegraded) w in
  let backoff := if received then opt_ReconnectMin opts else backoff in
  (w, backoff, nextBackoff backoff opts).

(** The ping worker after [AnswerPing] has returned [err]; [cancelled] as above. *)
Definition controlPingStep (now : Z) (cancelled : bool) (ping : PingRequest) (err : option error) w : World :=
  let w := on_client (λ c,
    let c := when (bool_decide (err = None)) (λ c, c <| c_lastPingURL := PingRequest_URL ping |>) c in
    c <| c_pingPending := c_pingPending c ∖ {[PingRequest_URL ping]} |>) w in
  match err with
  | Some e => if cancelled then w else reportError now (Some (ErrWrap "tailscale: answer control ping" e)) None w
  | None => w
  end.

(** One iteration of [endpointUpdater] that receives a wake-up; [err] is what
    [MapUpdate] returns and [cancelled] is [ctx.Err() != nil]. *)
Definition endpointUpdater (now : Z) (cancelled : bool) (err : option error) w : World :=
  if negb (c_endpointWake (w_client w)) then w
  else
    let w := on_client (λ c, c <| c_endpointWake := false |>) w in
    if negb (c_authenticated (w_client w)) then w
    else match err with
         | Some e => if cancelled then w else reportError now (Some (ErrWrap "tailscale: publish endpoints" e)) None w
         | None => w
         end.

(** One iteration of [peerReconciler]. *)
Definition peerReconciler (now : Z) w : World :=
  if negb (c_reconcileWake (w_client w)) then w
  else reconcilePeers now (on_client (λ c, c <| c_reconcileWake := false |>) w).

(** ** Reports of the transport *)

Definition onEndpoints (now : Z) (endpoints : slice EndpointCandidate) w : World :=
  let w := on_client (λ c, let c := bumpLocked now (c <| c_endpoints := endpoints |>) in
    c <| c_networkRevision := c_revision c |>) w in
  on_client signalEndpointUpdate (publish_event EventNetwork None w).

Definition knownPeer (key : NodePublic) (c : Client) : bool :=
  bool_decide (filter (λ '(_, node), Node_Key node = key) (c_peers c) ≠ ∅).

(** The new local state of a path update. *)
Definition updatePath (now : Z) (update : PathUpdate) (local : peerLocalState) : peerLocalState :=
  let newPath := if pu_direct update then PathDirect else PathDERP in
  let endpointChanged := bool_decide (pl_path local ≠ newPath) || bool_decide (pl_direct local ≠ pu_Direct update) in
  let local := local <| pl_path := newPath |> <| pl_direct := pu_Direct update |>
    <| pl_latency := pu_Latency update |> <| pl_pathAt := pu_At update |> in
  when endpointChanged (λ local,
    let local := local <| pl_directSince := if time_is_zero (pu_At update) then now else pu_At update |> in
    when (bool_decide (newPath ≠ PathDirect) || bool_decide (pu_Direct update ≠ pl_recoveryDirect local))
      (λ local, local <| pl_directRecovery := false |> <| pl_recoveryDirect := zeroAddrPort |>) local) local.

Definition onPath (now : Z) (update : PathUpdate) w : World :=
  let update := mkPathUpdate (pu_NodeKey update) (pu_direct update) (unmapAddrPort (pu_Direct update))
    (pu_Latency update) (pu_At update) in
  let c := w_client w in
  let key := pu_NodeKey update in
  if stopping c then w
  else if bool_decide (c_peerLocal c !! key = None) && negb (knownPeer key c) then w
  else
    let local := peerLocalOr key c in
    let newPath := if pu_direct update then PathDirect else PathDERP in
    let endpointChanged := bool_decide (pl_path local ≠ newPath) || bool_decide (pl_direct local ≠ pu_Direct update) in
    if negb endpointChanged && (pl_latency local =? pu_Latency update)
    then on_client (λ c, c <| c_peerLocal := <[key := local]> (c_peerLocal c) |>) w
    else
      let w := on_client (λ c, bumpLocked now
        (c <| c_peerLocal := <[key := updatePath now update local]> (c_peerLocal c) |>)) w in
      let w := publish_event EventPeerPath None w in
      when (opt_UseDefaultTransportForDirectPeers (c_opts c) && endpointChanged) (on_client requestPeerReconcile) w.

(** A directly connected peer whose handshake is overdue. *)
Definition staleDirect (now : Z) (api : D) (c : Client) (key : NodePublic) (local : peerLocalState) : bool :=
  pl_applied local && bool_decide (pl_path local = PathDirect) && ap_is_valid (pl_direct local)
  && negb (pl_directRecovery local) && negb (time_is_zero (pl_directSince local))
  && (directPathHandshakeGrace <=? time_sub now (pl_directSince local))
  && match c_applied c !! key with
     | None => false
     | Some applied =>
         ap_hasEndpoint applied && bool_decide (pe_Transport (ap_endpoint applied) = device_DefaultTransportID)
         && bool_decide (pe_Address (ap_endpoint applied) = ap_string (pl_direct local))
     end
  && bool_decide (api_PeerConnected api key = Some false).

Definition recoverStaleDirectPaths (now : Z) w : World * bool :=
  match w_device w with
  | None => (w, false)
  | Some api =>
      if api_closed api then (w, false)
      else
        let c := w_client w in
        let recovered := map_imap (λ key local, Some
          (if staleDirect now api c key local
           then local <| pl_directRecovery := true |> <| pl_recoveryDirect := pl_direct local |>
           else local)) (c_peerLocal c) in
        (on_client (λ c, c <| c_peerLocal := recovered |>) w,
         bool_decide (map_Exists (λ key local, staleDirect now api c key local = true) (c_peerLocal c)))
  end.

(** One tick of [directPathHealthWorker]. *)
Definition directPathHealthWorker (now : Z) w : World :=
  if negb (opt_UseDefaultTransportForDirectPeers (c_opts (w_client w))) then w
  else
    let '(w, recovered) := recoverStaleDirectPaths now w in
    when recovered (on_client requestPeerReconcile) w.

(** One measurement of a report. *)
Definition noteLatency (derpMap : option DERPMap) (acc : gmap Z DERPRegionLatency * bool)
    (metric : DERPRegionLatency) : gmap Z DERPRegionLatency * bool :=
  let '(latency, changed) := acc in
  let region := derpMap ≫= λ m, region_at m (rl_RegionID metric) in
  if (rl_RegionID metric =? 0) || (rl_Latency metric <=? 0) || negb (usableDERPRegion region) then acc
  else if bool_decide (latency !! rl_RegionID metric = Some metric) then acc
  else (<[rl_RegionID metric := metric]> latency, true).

Definition onDERPLatency (now : Z) (report : DERPLatencyReport) w : World :=
  let c := w_client w in
  if stopping c then w
  else
    let start := if lr_Full report && bool_decide (c_derpLatency c ≠ ∅) then (∅, true) else (c_derpLatency c, false) in
    let '(latency, changed) := foldl (noteLatency (c_derpMap c)) start (lr_Regions report) in
    let preferred := if opt_DisableDERP (c_opts c) then 0
      else choosePreferredDERPMeasured (c_derpMap c) (c_preferredDERP c) latency in
    let preferredChanged := negb (preferred =? c_preferredDERP c) in
    let w := on_client (λ c, c <| c_derpLatency := latency |>) w in
    if negb changed && negb preferredChanged then w
    else
      let w := on_client (λ c,
        let c := when preferredChanged (λ c, c <| c_preferredDERP := preferred |>
          <| c_info := c_info c <| ci_PreferredDERP := preferred |> |>) c in
        let c := bumpLocked now c in c <| c_derpRevision := c_revision c |>) w in
      let derpMap := cloneDERPMap (c_derpMap (w_client w)) in
      let home := selfDERP (w_client w) in
      let w := publish_event EventDERP None w in
      when preferredChanged (λ w,
        let w := publish_event EventMetadata None w in
        let w := on_bind (OutUpdateDERPMap derpMap home) w in
        on_client signalEndpointUpdate (reconcilePeers now w)) w.

(** ** Withdrawing everything *)

Definition externalDeviceCloseError (err : option error) : option error :=
  match err with
  | Some e => if errors_Is e ErrDeviceClosed then None else Some e
  | None => None
  end.

(** One key of the loop of [removeOwnedPeers]; [api] may be nil. *)
Definition removeOwned (applied : gmap NodePublic appliedPeer) (acc : World (D := D) * list error) (key : NodePublic)
    : World * list error :=
  let '(w, errs) := acc in
  let '(w, errs) :=
    match w_device w with
    | None => (w, errs)
    | Some api =>
        if match api_PeerSpec api key with
           | None => true
           | Some spec => match applied !! key with
                          | Some owned => peerSpecStillOwned spec owned
                          | None => false
                          end
           end
        then let '(api, err) := api_DeleteTrackedPeer key api in
             (w <| w_device := Some api |>,
              match externalDeviceCloseError err with Some e => errs ++ [e] | None => errs end)
        else (w, errs)
    end in
  (on_bind (OutRemovePeer key) w, errs).

Definition join_errors (errs : list error) : option error :=
  foldl (λ acc e, errors_Join acc (Some e)) None errs.

Definition removeOwnedPeers w : World * option error :=
  let applied := c_applied (w_client w) in
  let keys := map fst (range 6 applied) in
  let '(w, errs) := foldl (removeOwned applied) (w, []) keys in
  let w := on_client (λ c, c <| c_applied := foldl (λ m key, delete key m) (c_applied c) keys |>
    <| c_peerLocal := foldl (λ m key, delete key m) (c_peerLocal c) keys |>) w in
  (w, join_errors errs).

(** ** Closing *)

Definition Close (now : Z) w : World * option error :=
  let c := w_client w in
  if c_closed c then (w, c_closeError c)
  else if negb (c_started c) then
    let w := on_client (λ c, bumpLocked now (c <| c_closed := true |> <| c_state := StateStopped |>)) w in
    let w := emit OutHubClose (publish_event EventState None w) in
    (on_client (λ c, c <| c_done := true |>) w, None)
  else
    let w := on_client (λ c, let c := bumpLocked now (c <| c_closed := true |> <| c_state := StateStopping |>) in
      c <| c_networkRevision := c_revision c |>) w in
    let w := publish_events [EventState; EventNetwork] w in
    let w := emit OutCancel w in
    let w := when (c_control c) (emit OutControlClose) w in
    let '(w, removeErr) := removeOwnedPeers w in
    let '(w, transportErr) :=
      match w_device w with
      | Some api =>
          if c_runtimeStarted c then
            let '(api, err) := api_RemoveTrackedTransport (opt_TransportID (c_opts c)) api in
            (w <| w_device := Some api |>, externalDeviceCloseError err)
          else (w, None)
      | None => (w, None)
      end in
    let w := on_bind OutBindShutdown w in
    let cleanupErr := errors_Join removeErr transportErr in
    let w := on_client (λ c,
      let c := when (bool_decide (is_Some cleanupErr))
        (λ c, c <| c_terminalError := errors_Join (c_terminalError c) cleanupErr |>) c in
      bumpLocked now (c <| c_state := StateStopped |>)) w in
    let w := emit OutHubClose (publish_event EventState None w) in
    (on_client (λ c, c <| c_closeError := cleanupErr |> <| c_done := true |>) w, cleanupErr).

(** [Wait] before and after the client is done. *)
Definition Wait (c : Client) : option (result error (option error)) :=
  if negb (c_started c) && negb (c_closed c) then Some (Err ErrNotStarted)
  else if c_done c then Some (Ok (c_terminalError c)) else None.

(** ** Starting *)

(** What [initializeRuntime] takes from outside: random bytes, whether a stored
    key is a valid scalar, the device package's public-key function, and the
    errors of [controlproto.NewClient] and [tailnet.NewBind]. *)
Record RuntimeEnv := mkRuntimeEnv {
  env_machineRand : option (array 32);
  env_discoRand : option (array 32);
  env_idRand : option (array 16);
  env_validKey : array 32 → bool;
  env_wgoPublic : array 32 → array 32;
  env_NewClient : option error;
  env_NewBind : option error
}.

(** The identity the runtime starts with. *)
Definition loadIdentity (env : RuntimeEnv) (opts : Options) (api : D)
    : result error (cacheState * PrivateKey * PrivateKey * option (list byte)) :=
  let nodePrivate := api_PrivateKey api in
  if PrivateKey_IsZero nodePrivate then Err ErrZeroNodeKey
  else
    let nodePublic := PublicNode nodePrivate in
    if bool_decide (nodePublic ≠ env_wgoPublic env nodePrivate) then Err (ErrText "tailscale: invalid wgo node key")
    else
      let! (cache, _) := loadOrCreateCache (env_machineRand env) (env_discoRand env) (env_idRand env)
        (opt_Cache opts) nodePublic in
      let! machine := decodePrivateKey (env_validKey env) (cs_MachinePrivate cache) in
      let! disco := decodePrivateKey (env_validKey env) (cs_DiscoPrivate cache) in
      let '(blob, err) := storeCache (opt_Cache opts) cache in
      match err with
      | Some e => Err e
      | None => Ok (cache, machine, disco, blob)
      end.

(** [initializeRuntime]: the API and the world after the call, and the error. *)
Definition initializeRuntime (env : RuntimeEnv) (api : D) w : D * World * option error :=
  let opts := c_opts (w_client w) in
  let nodePrivate := api_PrivateKey api in
  match loadIdentity env opts api with
  | Err e => (api, w, Some e)
  | Ok (cache, machine, disco, blob) =>
      let w := on_some blob (λ b, emit (OutStoreCache b)) w in
      match env_NewClient env with
      | Some e => (api, w, Some (ErrWrap "tailscale: control client" e))
      | None =>
          match env_NewBind env with
          | Some e => (api, emit OutControlClose w, Some e)
          | None =>
              let '(api, err) := api_AddTrackedTransport (opt_TransportID opts) (opt_ListenPort opts) api in
              match err with
              | Some e =>
                  (api, emit OutControlClose (emit OutBindShutdown w),
                   Some (ErrWrap ("tailscale: add wgo transport " +:+ Quote (opt_TransportID opts)) e))
              | None =>
                  (api, on_client (λ c, c <| c_nodePrivate := nodePrivate |> <| c_machinePrivate := machine |>
                     <| c_discoPrivate := disco |> <| c_cache := cache |> <| c_control := true |> <| c_bind := true |>
                     <| c_confirmed := list_to_set (elems (cs_ConfirmedPeerIDs cache)) ∪ c_confirmed c |>
                     <| c_info := c_info c <| ci_NodePublicKey := env_wgoPublic env nodePrivate |>
                          <| ci_MachinePublicKey := MachinePublic_String (PublicMachine machine) |>
                          <| ci_DiscoPublicKey := DiscoPublic_String (PublicDisco disco) |>
                          <| ci_BackendLogID := cs_BackendLogID cache |> |>
                     <| c_lastError := "" |> <| c_runtimeStarted := true |>) w, None)
              end
          end
      end
  end.

(** [New]; [network] tells whether a network is given. *)
Definition New (now : Z) (network : bool) (api : option D) (options : Options) : result error World :=
  if negb network then Err (ErrText "tailscale: nil gonnect.Network")
  else if match api with Some d => api_closed d | None => false end then Err ErrDeviceClosed
  else match withDefaults options with
       | Err e => Err (ErrText e)
       | Ok opts => Ok (mkWorld (newClient opts now) api [])
       end.

(** [launchRuntimeLocked] and [watchDeviceLocked] start goroutines. *)
Definition launchRuntimeLocked w : World := emit OutLaunchWorkers w.
Definition watchDeviceLocked (generation : Z) w : World := emit (OutWatchDevice generation) w.

Definition startedInfo (now : Z) (opts : Options) : ClientInfo :=
  zeroClientInfo <| ci_ControlURL := opt_ControlURL opts |> <| ci_Hostname := opt_Hostname opts |>
    <| ci_TransportID := opt_TransportID opts |> <| ci_StartedAt := now |> <| ci_Ephemeral := opt_Ephemeral opts |>
    <| ci_PeerConfirmation := opt_ConfirmPeers opts |> <| ci_CapabilityVersion := CurrentCapabilityVersion |>.

(** [Start]; [parent] tells whether a context is given. *)
Definition Start (now : Z) (env : RuntimeEnv) (parent : bool) w : World * option error :=
  let c := w_client w in
  if negb parent then (w, Some (ErrText "tailscale: nil start context"))
  else if c_closed c then (w, Some ErrClosed)
  else if c_started c then (w, Some ErrAlreadyStarted)
  else
    let w := on_client (λ c, bumpLocked now
      (c <| c_info := startedInfo now (c_opts c) |> <| c_state := StateStarting |>)) w in
    let '(w, failed) :=
      match w_device w with
      | Some api =>
          if api_closed api then (w, None)
          else
            let '(api, w, err) := initializeRuntime env api w in
            let w := w <| w_device := Some api |> in
            match err with
            | Some e =>
                (emit OutCancel (on_client (λ c, c <| c_state := StateNew |> <| c_info := zeroClientInfo |>) w), Some e)
            | None => (on_client (λ c, c <| c_deviceGeneration := uwrap 64 (c_deviceGeneration c + 1) |>) w, None)
            end
      | None => (w, None)
      end in
    match failed with
    | Some e => (w, Some e)
    | None =>
        let w := on_client (λ c, c <| c_started := true |>) w in
        let w := publish_events [EventState; EventMetadata] w in
        let c := w_client w in
        (when (c_runtimeStarted c) (λ w, watchDeviceLocked (c_deviceGeneration c) (launchRuntimeLocked w)) w, None)
    end.

(** ** Attaching a device ([device.go]) *)

Definition validateRuntimeIdentity (env : RuntimeEnv) (api : D) (c : Client) : option error :=
  let privateKey := api_PrivateKey api in
  if PrivateKey_IsZero privateKey then Some ErrZeroNodeKey
  else if bool_decide (env_wgoPublic env privateKey ≠ PublicNode (c_nodePrivate c)) then Some ErrNodeIdentityChanged
  else None.

(** What a closed device takes with it. *)
Definition detachLocal (local : peerLocalState) : peerLocalState :=
  local <| pl_applied := false |> <| pl_path := PathNone |> <| pl_direct := zeroAddrPort |>
        <| pl_latency := 0 |> <| pl_pathAt := 0 |>.

Definition clearAppliedDeviceLocked (now : Z) w : World :=
  let c := w_client w in
  let changed := bool_decide (c_applied c ≠ ∅) in
  let keys := map fst (range 7 (c_peerLocal c)) in
  let w := on_client (λ c, c <| c_applied := ∅ |> <| c_peerLocal := detachLocal <$> c_peerLocal c |>) w in
  let w := foldl (λ w key, on_bind (OutRemovePeer key) w) w keys in
  when changed (λ w,
    let w := on_client (λ c, let c := bumpLocked now c in c <| c_networkRevision := c_revision c |>) w in
    publish_events [EventPeers; EventNetwork] w) w.

Definition reportClosedDevice (now : Z) w : World :=
  if stopping (w_client w) then w
  else
    let w := on_client (λ c, bumpLocked now (c <| c_state := StateDegraded |>
      <| c_lastError := Error_text ErrDeviceClosed |>)) w in
    publish_event EventState None (publish_event EventError (Some ErrDeviceClosed) w).

Definition restoreStateAfterDeviceAttach (now : Z) w : World :=
  if stopping (w_client w) then w
  else
    let w := on_client (λ c,
      let c := when (bool_decide (c_lastError c = Error_text ErrDeviceClosed)) (λ c,
        c <| c_lastError := "" |>
          <| c_state := if c_authenticated c then StateRunning
                        else if bool_decide (is_Some (c_interaction c)) then StateNeedsAuthentication
                        else StateStarting |>) c in
      bumpLocked now c) w in
    publish_events [EventState; EventMetadata] w.

(** The watcher of generation [generation] when its API has closed. *)
Definition deviceClosed (now generation : Z) w : World :=
  if negb (c_deviceGeneration (w_client w) =? generation) then w
  else reportClosedDevice now (clearAppliedDeviceLocked now w).

(** The part of [AttachDevice] before the API takes the slot: the API, the
    world, and whether workers are to be started. *)
Definition prepareAttach (now : Z) (env : RuntimeEnv) (api : D) w : D * World * result error bool :=
  let c := w_client w in
  if c_started c && negb (c_runtimeStarted c) then
    let '(api, w, err) := initializeRuntime env api w in
    (api, w, match err with Some e => Err e | None => Ok true end)
  else if c_runtimeStarted c then
    match validateRuntimeIdentity env api c with
    | Some e => (api, w, Err e)
    | None =>
        let '(api, err) := api_AddTrackedTransport (opt_TransportID (c_opts c)) (opt_ListenPort (c_opts c)) api in
        match err with
        | Some e => (api, w, Err (ErrWrap ("tailscale: add wgo transport " +:+ Quote (opt_TransportID (c_opts c))) e))
        | None => (api, clearAppliedDeviceLocked now w, Ok false)
        end
    end
  else (api, w, Ok false).

Definition AttachDevice (now : Z) (env : RuntimeEnv) (api : option D) w : World * option error :=
  match api with
  | None => (w, Some ErrDeviceRequired)
  | Some api =>
      if api_closed api then (w, Some ErrDeviceClosed)
      else if c_closed (w_client w) then (w, Some ErrClosed)
      else if match w_device w with Some current => negb (api_closed current) | None => false end
      then (w, Some ErrDeviceAlreadyAttached)
      else
        let '(api, w, prepared) := prepareAttach now env api w in
        match prepared with
        | Err e => (w, Some e)
        | Ok startWorkers =>
            let generation := uwrap 64 (c_deviceGeneration (w_client w) + 1) in
            let w := on_client (λ c, c <| c_deviceGeneration := generation |>) (w <| w_device := Some api |>) in
            if negb (c_started (w_client w)) then (w, None)
            else
              let w := restoreStateAfterDeviceAttach now w in
              let w := when startWorkers launchRuntimeLocked w in
              (reconcilePeers now (watchDeviceLocked generation w), None)
        end
  end.

(** ** Peer confirmation ([confirmation.go]) *)

Definition syncConfirmedCacheLocked (c : Client) : Client :=
  c <| c_cache := c_cache c <| cs_ConfirmedPeerIDs :=
    append (const [] <$> cs_ConfirmedPeerIDs (c_cache c)) (sort_strings (elements (c_confirmed c))) |> |>.

(** The common end of both methods: announce, store, reconcile. *)
Definition finishConfirmation (now : Z) w : World * option error :=
  let w := on_client (λ c, bumpLocked now (syncConfirmedCacheLocked c)) w in
  let cache := c_cache (w_client w) in
  let w := publish_event EventPeers None w in
  let '(blob, storeErr) := storeCache (opt_Cache (c_opts (w_client w))) cache in
  let w := on_some blob (λ b, emit (OutStoreCache b)) w in
  (reconcilePeers now w, storeErr).

(** [ctx] is the context's error, [None] while it is alive. *)
Definition ConfirmPeer (now : Z) (ctx : option error) (id : string) w : World * option error :=
  match ctx with
  | Some e => (w, Some e)
  | None =>
      if stopping (w_client w) then (w, Some ErrClosed)
      else if bool_decide (filter (λ '(_, node), peerID node = id) (c_peers (w_client w)) = ∅)
      then (w, Some ErrPeerNotFound)
      else finishConfirmation now (on_client (λ c, c <| c_confirmed := {[id]} ∪ c_confirmed c |>) w)
  end.

Definition RevokePeerConfirmation (now : Z) (ctx : option error) (id : string) w : World * option error :=
  match ctx with
  | Some e => (w, Some e)
  | None =>
      if stopping (w_client w) then (w, Some ErrClosed)
      else if negb (bool_decide (id ∈ c_confirmed (w_client w))) then (w, Some ErrPeerNotFound)
      else finishConfirmation now (on_client (λ c, c <| c_confirmed := c_confirmed c ∖ {[id]} |>) w)
  end.
End Lifecycle.
