(* ===== verification/Invariants.v ===== *)
(** * Reachable states of a client

    [client_step] lists everything that can happen to a client: calls of its
    public methods, steps of its workers while it is open, reports of the
    transport, and changes other controllers make to the device.  [client_inv] is an
    invariant of all reachable states. *)

From Stdlib Require Import ZArith Lia String Strings.Byte.
From S2P Require Export Lifecycle.
Open Scope Z_scope.

Section Invariants.
Context `{DevicePkg} `{RangeOrder} {D : Type} `{!DeviceAPI D} `{CacheCodec} `{BoxOps}.
Implicit Types (w : World (D := D)) (c : Client).

(** ** The invariant *)

(** Measurements are of usable regions of the current map. *)
Definition latencies_ok (derpMap : option DERPMap) (latency : gmap Z DERPRegionLatency) : Prop :=
  ∀ id m, latency !! id = Some m →
    id ≠ 0 ∧ 0 < rl_Latency m ∧ ∃ d, derpMap = Some d ∧ usableDERPRegion (region_at d id) = true.

Definition latency_ok c : Prop := latencies_ok (c_derpMap c) (c_derpLatency c).

(** A peer is recorded as applied exactly when its local state says so. *)
Definition applied_ok c : Prop := ∀ k,
  is_Some (c_applied c !! k) ↔ ∃ l, c_peerLocal c !! k = Some l ∧ pl_applied l = true.

(** A client is closed exactly when it has stopped. *)
Definition state_ok c : Prop :=
  if c_closed c then c_state c = StateStopped else c_state c ≠ StateStopped ∧ c_state c ≠ StateStopping.

Record client_inv c : Prop := {
  inv_normal : peers_normal c;
  inv_latency : latency_ok c;
  inv_applied : applied_ok c;
  inv_state : state_ok c;
  inv_pings : (length (c_pingWake c) ≤ maxPendingControlPings)%nat
}.

(** The fields the invariant is about. *)
Definition core c := (c_peers c, c_derpLatency c, c_derpMap c, c_applied c, c_peerLocal c, c_closed c,
  c_state c, c_pingWake c).

Lemma core_inv c c' : core c' = core c → client_inv c → client_inv c'.
Proof.
  unfold core. intros [= E1 E2 E3 E4 E5 E6 E7 E8] [Hn Hl Ha Hs Hp]. constructor.
  - unfold peers_normal. by rewrite E1.
  - unfold latency_ok. by rewrite E2, E3.
  - unfold applied_ok. by rewrite E4, E5.
  - unfold state_ok. by rewrite E6, E7.
  - by rewrite E8.
Qed.

(** An assignment to other fields keeps the invariant. *)
Ltac same_core := apply core_inv; match goal with |- core _ = core ?x => generalize x; intros []; reflexivity end.

Lemma inv_bump now c : client_inv c → client_inv (bumpLocked now c).
Proof. unfold bumpLocked. same_core. Qed.

Lemma inv_lastError e c : client_inv c → client_inv (c <| c_lastError := e |>).
Proof. same_core. Qed.

Lemma inv_set_state c s :
  c_closed c = false → s ≠ StateStopped → s ≠ StateStopping → client_inv c → client_inv (c <| c_state := s |>).
Proof.
  intros Hc H1' H2' [Hn Hl Ha Hs Hp]. destruct c; cbn in *; subst. constructor; try done.
Qed.

(** Changing the entries of one key together. *)
Lemma applied_ok_set c k ap l :
  applied_ok c → (is_Some ap ↔ ∃ x, l = Some x ∧ pl_applied x = true) →
  applied_ok (c <| c_applied := partial_alter (λ _, ap) k (c_applied c) |>
                <| c_peerLocal := partial_alter (λ _, l) k (c_peerLocal c) |>).
Proof.
  intros Ha Hk k'. destruct c; cbn in *. destruct (decide (k' = k)) as [->|].
  - by rewrite !lookup_partial_alter_eq.
  - rewrite !lookup_partial_alter_ne by done. apply Ha.
Qed.

Lemma inv_set_key c k ap l :
  client_inv c → (is_Some ap ↔ ∃ x, l = Some x ∧ pl_applied x = true) →
  client_inv (c <| c_applied := partial_alter (λ _, ap) k (c_applied c) |>
                <| c_peerLocal := partial_alter (λ _, l) k (c_peerLocal c) |>).
Proof.
  intros [Hn Hl Ha Hs Hp] Hk. pose proof (applied_ok_set c k ap l Ha Hk).
  destruct c; constructor; done.
Qed.

(** A change of a local state that keeps its applied flag. *)
Lemma inv_set_local c k l :
  client_inv c → pl_applied l = pl_applied (peerLocalOr k c) →
  client_inv (c <| c_peerLocal := <[k := l]> (c_peerLocal c) |>).
Proof.
  intros Hc Hl.
  assert (is_Some (c_applied c !! k) ↔ ∃ x, Some l = Some x ∧ pl_applied x = true) as Hk.
  { rewrite (inv_applied _ Hc k). unfold peerLocalOr in Hl. destruct (c_peerLocal c !! k) as [l0|]; cbn in Hl.
    - split; intros (x & [= ->] & Hx); eexists; (split; [reflexivity|]); congruence.
    - split; [by intros (? & ? & _)|]. intros (x & [= <-] & Hx). by rewrite Hl in Hx. }
  pose proof (inv_set_key c k _ _ Hc Hk) as Hi. rewrite partial_alter_self in Hi.
  destruct c; exact Hi.
Qed.

(** ** Reconciliation *)

Lemma inv_on_client f w : (client_inv (w_client w) → client_inv (f (w_client w))) →
  client_inv (w_client w) → client_inv (w_client (on_client f w)).
Proof. destruct w; cbn. auto. Qed.

Lemma inv_emit o w : client_inv (w_client w) → client_inv (w_client (emit o w)).
Proof. by destruct w. Qed.

Lemma inv_on_bind o w : client_inv (w_client w) → client_inv (w_client (on_bind o w)).
Proof. unfold on_bind, when. case_match; [apply inv_emit|done]. Qed.

Lemma inv_device d w : client_inv (w_client w) → client_inv (w_client (w <| w_device := d |>)).
Proof. by destruct w. Qed.

Lemma inv_publish kind err w : client_inv (w_client w) → client_inv (w_client (publish_event kind err w)).
Proof. apply inv_emit. Qed.

Lemma inv_publish_events kinds w : client_inv (w_client w) → client_inv (w_client (publish_events kinds w)).
Proof.
  intros Hw. apply (foldl_preserves (λ w : World (D := D), client_inv (w_client w))); [done|].
  intros. by apply inv_publish.
Qed.

Lemma inv_setPeerError now key err w :
  client_inv (w_client w) → client_inv (w_client (setPeerError now key err w)).
Proof.
  intros Hw. apply inv_emit, inv_on_client; [intros Hc|done]. apply inv_bump, inv_lastError.
  apply inv_set_local; [done|]. by destruct (peerLocalOr _ _).
Qed.

Lemma inv_losePeer now key w : client_inv (w_client w) → client_inv (w_client (losePeer now key w)).
Proof.
  intros Hw. apply inv_setPeerError, inv_on_bind, inv_on_client; [intros Hc|done].
  pose proof (inv_set_key (w_client w) key None ((λ l, l <| pl_applied := false |>) <$> c_peerLocal (w_client w) !! key) Hc) as Hi.
  assert (alter (λ l : peerLocalState, l <| pl_applied := false |>) key (c_peerLocal (w_client w)) =
    partial_alter (λ _, (λ l, l <| pl_applied := false |>) <$> c_peerLocal (w_client w) !! key) key (c_peerLocal (w_client w))) as ->.
  { apply map_eq. intros k. destruct (decide (k = key)) as [->|].
    - by rewrite lookup_alter_eq, lookup_partial_alter_eq.
    - by rewrite lookup_alter_ne, lookup_partial_alter_ne. }
  apply Hi. split; [by intros [? ?]|]. intros (x & Hx & Hf). apply fmap_Some in Hx as ([] & _ & ->). done.
Qed.

Lemma inv_recordApplied key wanted spec nu w :
  client_inv (w_client w) → client_inv (w_client (recordApplied key wanted spec nu w).1).
Proof.
  intros Hw. unfold recordApplied. cbn [fst]. destruct w as [c d o]; cbn in *.
  apply (inv_set_key c key (Some _) (Some _) Hw). split; [intros _|eauto].
  eexists. split; [reflexivity|]. by destruct (peerLocalOr key c).
Qed.

Lemma inv_drop key w : client_inv (w_client w) →
  client_inv (w_client (on_client (λ c, c <| c_applied := delete key (c_applied c) |>
    <| c_peerLocal := delete key (c_peerLocal c) |>) w)).
Proof.
  intros Hw. apply inv_on_client; [intros Hc|done]. apply (inv_set_key _ key None None Hc).
  split; [by intros [? ?]|by intros (? & ? & _)].
Qed.

Lemma inv_withdraw now d desired w key owned :
  client_inv (w_client w) → client_inv (w_client (withdrawPeer now d desired w key owned).1).
Proof.
  intros Hw. unfold withdrawPeer. destruct (desired !! key); [done|].
  destruct (match api_PeerSpec d key with Some _ => _ | None => true end).
  - destruct (api_DeleteTrackedPeer key d) as [d' [e|]]; cbn [fst].
    + by apply inv_setPeerError, inv_device.
    + by apply inv_drop, inv_on_bind, inv_device.
  - by apply inv_drop, inv_on_bind.
Qed.

Lemma inv_publishPeer now d applied w key wanted :
  client_inv (w_client w) → client_inv (w_client (publishPeer now d applied w key wanted).1).
Proof.
  intros Hw. unfold publishPeer. cbv zeta.
  destruct (match applied !! key with Some _ => _ | None => false end); [by apply inv_losePeer|].
  destruct (match applied !! key with Some _ => false | None => _ end); [by apply inv_setPeerError|].
  destruct (match applied !! key with Some _ => _ | None => true end).
  - destruct (api_UpsertTrackedPeer _ d) as [d' [e|]].
    + apply inv_setPeerError. case_bool_decide; [apply inv_on_bind|]; by apply inv_device, inv_on_bind.
    + by apply inv_recordApplied, inv_device, inv_on_bind.
  - by apply inv_recordApplied, inv_on_bind.
Qed.

Lemma inv_device_loop {A} (body : D → World (D := D) → A → World * bool) l w :
  (∀ d w a, client_inv (w_client w) → client_inv (w_client (body d w a).1)) →
  client_inv (w_client w) → client_inv (w_client (device_loop body l w).1).
Proof.
  intros Hb Hw. rewrite device_loop_world.
  apply (foldl_preserves (λ w : World (D := D), client_inv (w_client w))); [done|].
  intros a w' _ Hw'. destruct (w_device w'); [by apply Hb|done].
Qed.

Lemma inv_prune desired c : client_inv c → client_inv (prunePeerLocal desired c).
Proof.
  intros [Hn Hl Ha Hs Hp]. unfold prunePeerLocal. destruct c; constructor; try done.
  intros k. cbn in *. rewrite (Ha k). split.
  - intros (l & El & Ht). exists l. split; [|done]. apply map_lookup_filter_Some. split; [done|]. right.
    apply (Ha k). by exists l.
  - intros (l & El & Ht). apply map_lookup_filter_Some in El as [El _]. by exists l.
Qed.

Lemma inv_reconcile now w : client_inv (w_client w) → client_inv (w_client (reconcilePeers now w)).
Proof.
  intros Hw. unfold reconcilePeers. destruct (w_device w) as [d|]; [|done]. destruct (api_closed d); [done|]. cbv zeta.
  match goal with |- context [device_loop ?b ?l w] =>
    pose proof (inv_device_loop b l w ltac:(intros ? ? [] ?; by apply inv_withdraw) Hw) as H1';
    destruct (device_loop b l w) as [w1 ch1] end.
  match goal with |- context [device_loop ?b ?l w1] =>
    pose proof (inv_device_loop b l w1 ltac:(intros ? ? [] ?; by apply inv_publishPeer) H1') as H2';
    destruct (device_loop b l w1) as [w2 ch2] end.
  cbn [fst] in *.
  assert (client_inv (w_client (on_client (prunePeerLocal (desiredPeers (w_client w))) w2))) as H3'.
  { apply inv_on_client; [apply inv_prune|done]. }
  destruct (_ || _); [|done]. apply inv_publish, inv_publish, inv_on_client; [|done].
  cbv zeta. intros Hc. apply (inv_bump now) in Hc. revert Hc. same_core.
Qed.

(** ** The reducer *)

Lemma latency_prune c next :
  latency_ok c → latency_ok (c <| c_derpMap := Some next |> <| c_derpLatency := pruneLatency next (c_derpLatency c) |>).
Proof.
  intros Hl id m. destruct c; cbn in *. intros [Hid Hu]%map_lookup_filter_Some.
  destruct (Hl id m Hid) as (? & ? & _). split_and!; [done..|]. exists next. split; [done|]. by apply Is_true_eq_true.
Qed.

(** What a phase may do to the fields of the invariant other than the peers. *)
Definition phase_ok (f : Acc → Acc) : Prop := ∀ a,
  c_closed (a_client a) = false → latency_ok (a_client a) → state_ok (a_client a) →
  let c := a_client (f a) in
  c_closed c = false ∧ latency_ok c ∧ state_ok c ∧
  c_applied c = c_applied (a_client a) ∧ c_peerLocal c = c_peerLocal (a_client a) ∧
  c_pingWake c = c_pingWake (a_client a).

(** A phase that leaves the DERP data, the state and the tables alone. *)
Lemma phase_ok_frame f :
  (∀ a, (λ c, (c_derpLatency c, c_derpMap c, c_closed c, c_state c, c_applied c, c_peerLocal c, c_pingWake c)) (a_client (f a)) =
        (λ c, (c_derpLatency c, c_derpMap c, c_closed c, c_state c, c_applied c, c_peerLocal c, c_pingWake c)) (a_client a)) →
  phase_ok f.
Proof.
  intros Hf a Hc Hl Hs. specialize (Hf a). cbn in Hf. injection Hf as E1 E2 E3 E4 E5 E6 E7. cbv zeta.
  unfold latency_ok, state_ok in *. rewrite E1, E2, E3, E4. by split_and!.
Qed.

Ltac frame L :=
  apply phase_ok_frame; let a := fresh "a" in intros a; rewrite L; destruct (a_client a); reflexivity.

Lemma phase_ok_derp r : phase_ok (applyDERPMap r).
Proof.
  intros a Hc Hl Hs. unfold applyDERPMap, on_some. destruct (MapResponse_DERPMap r) as [u|]; [|done].
  destruct (mergeDERPMap _ _) as [next|]; [|done]. unfold when at 1. case_bool_decide; [|done].
  pose proof (latency_prune (a_client a) next Hl) as Hl'.
  destruct a as [[] ? ? ? ? ? ? ?]; cbn in *. unfold when. case_match; cbn; by split_and!.
Qed.

Lemma phase_ok_note now was : phase_ok (noteSelfExpiry now was).
Proof.
  intros a Hc Hl Hs. destruct a as [[] ? ? ? ? ? ? ?]; cbn in *. subst. unfold noteSelfExpiry, when.
  destruct (selfExpired _); cbn.
  - destruct was; cbn; case_bool_decide; cbn; unfold state_ok in *; cbn in *; naive_solver.
  - case_match; cbn; unfold state_ok in *; cbn in *; naive_solver.
Qed.

Lemma phase_ok_restore : phase_ok restoreRunning.
Proof.
  intros a Hc Hl Hs. unfold restoreRunning, when. destruct a as [[] ? ? ? ? ? ? ?]; cbn in *. subst.
  case_match; cbn; unfold state_ok in *; cbn in *; naive_solver.
Qed.

Lemma phases_ok now r was : Forall phase_ok (phases now r was).
Proof.
  unfold phases. repeat apply Forall_cons_2;
    [frame applySession_client|frame applyControlTime_client|frame takePing_client|frame applyBrowserURL_client
    |frame applySelf_client|frame applyPeers_client|frame applyPeersChanged_client|frame applyPeersRemoved_client
    |frame applyPatches_client|frame applySeenOnline_client|apply phase_ok_derp|frame applyDNS_client
    |frame applyPacketFilter_client|frame applyPacketFilters_client|frame flattenACL_client|frame applyUsers_client
    |frame applyDomainHealth_client|frame noteDNSNodes_client|frame markSelf_client|apply phase_ok_note
    |frame expirePeers_client|apply phase_ok_restore|constructor].
Qed.

Lemma inv_reduce now r c : c_closed c = false → client_inv c →
  client_inv (a_client (reduce now r c)) ∧ c_closed (a_client (reduce now r c)) = false.
Proof.
  intros Hc Hi.
  set (P := λ a, c_closed (a_client a) = false ∧ latency_ok (a_client a) ∧ state_ok (a_client a) ∧
    c_applied (a_client a) = c_applied c ∧ c_peerLocal (a_client a) = c_peerLocal c ∧
    c_pingWake (a_client a) = c_pingWake c).
  assert (P (reduce now r c)) as (H1' & H2' & H3' & H4' & H5' & H6').
  { rewrite reduce_phases. apply foldl_preserves; [by destruct Hi|].
    intros f a Hf (A1 & A2 & A3 & A4 & A5 & A6).
    pose proof (phases_ok now r (selfExpired c)) as Hall. rewrite Forall_forall in Hall.
    destruct (Hall f Hf a A1 A2 A3) as (B1 & B2 & B3 & B4 & B5 & B6). unfold P. by rewrite B4, B5, B6. }
  split; [|done]. constructor; [by apply reduce_normal, Hi|done| |done|].
  - unfold applied_ok. rewrite H4', H5'. apply Hi.
  - rewrite H6'. apply Hi.
Qed.

Lemma inv_when (b : bool) f w : client_inv (w_client w) →
  (client_inv (w_client w) → client_inv (w_client (f w))) → client_inv (w_client (when b f w)).
Proof. destruct b; cbn; auto. Qed.

Lemma inv_answerPing ping c : client_inv c → client_inv (answerControlPing ping c).
Proof.
  intros Hi. destruct ping as [ping|]; [|done]. unfold answerControlPing.
  do 3 (case_bool_decide; [done|]).
  destruct (Nat.ltb_spec (length (c_pingWake c)) maxPendingControlPings) as [Hlt|]; [|done].
  assert (length (c_pingWake c ++ [ping]) ≤ maxPendingControlPings)%nat as Hlen
    by (rewrite length_app; cbn [length]; lia).
  destruct Hi as [Hn Hl Ha Hs Hp]. destruct c; constructor; done.
Qed.

Lemma inv_revisions now kinds b c : client_inv c → client_inv (commitRevisions now kinds b c).
Proof. apply core_inv. unfold commitRevisions, when. destruct c. cbn. repeat (case_match; cbn); reflexivity. Qed.

Lemma inv_signal w : client_inv (w_client w) → client_inv (w_client (on_client signalEndpointUpdate w)).
Proof. apply inv_on_client. unfold signalEndpointUpdate. same_core. Qed.

Lemma inv_commit now a w : client_inv (a_client a) → client_inv (w_client (commit now a w)).
Proof.
  intros Ha. unfold commit. case_bool_decide; cbv zeta.
  - apply inv_when; [|intros; by apply inv_reconcile]. destruct w; cbn. by apply inv_answerPing.
  - apply inv_when; [|intros; by apply inv_signal]. apply inv_when; [|intros; by apply inv_reconcile].
    apply inv_when; [|intros; by apply inv_on_bind]. apply inv_on_client; [apply inv_answerPing|].
    rewrite publish_kinds. destruct w; cbn. by apply inv_revisions.
Qed.

Lemma inv_applyMapResponse now r w : c_closed (w_client w) = false →
  client_inv (w_client w) → client_inv (w_client (applyMapResponse now r w).1).
Proof.
  intros Hc Hi. unfold applyMapResponse. destruct (keyMismatch _ _); [done|]. cbn [fst].
  by apply inv_commit, inv_reduce.
Qed.

(** ** Workers and reports *)

Lemma inv_reportError now err state w :
  c_closed (w_client w) = false → (∀ s, state = Some s → s ≠ StateStopped ∧ s ≠ StateStopping) →
  client_inv (w_client w) → client_inv (w_client (reportError now err state w)).
Proof.
  intros Hc Hs Hi. destruct err as [err|]; [|done]. apply inv_publish, inv_on_client; [intros Hi'|done]. cbv zeta.
  apply inv_bump. apply (on_some_preserves client_inv); [by apply inv_lastError|]. intros s Es Hi2.
  destruct (Hs s Es). apply inv_set_state; [by destruct (w_client w)|done..].
Qed.

Lemma inv_setTerminalError now err w : c_closed (w_client w) = false →
  client_inv (w_client w) → client_inv (w_client (setTerminalError now err w)).
Proof.
  intros Hc Hi. apply inv_publish, inv_on_client; [intros Hi'|done]. apply inv_bump, inv_set_state;
    [by destruct (w_client w)|done..|]. revert Hi'. same_core.
Qed.

Lemma inv_setInteraction now kind url message w : c_closed (w_client w) = false →
  client_inv (w_client w) → client_inv (w_client (setInteraction now kind url message w)).
Proof.
  intros Hc Hi. apply inv_publish_events, inv_on_client; [intros Hi'|done]. cbv zeta. apply inv_bump.
  set (c := when (negb _) _ (w_client w)).
  assert (client_inv c ∧ c_closed c = false) as [Hci Hcc].
  { unfold c, when. case_match; [|done]. split; [|by destruct (w_client w)]. revert Hi'. unfold set_interaction. same_core. }
  clearbody c. assert (client_inv (c <| c_state := StateNeedsAuthentication |>)) as Hn by (by apply inv_set_state).
  unfold when. case_bool_decide; [|done]. apply inv_lastError, inv_set_state; [by destruct c|done..].
Qed.

Lemma inv_authenticate now cancelled outcome backoff followup w : c_closed (w_client w) = false →
  client_inv (w_client w) → client_inv (w_client (authenticateStep now cancelled outcome backoff followup w).1).
Proof.
  intros Hc Hi. unfold authenticateStep. destruct outcome as [response|err].
  - case_match; [apply inv_reportError; [done|naive_solver|done]|].
    case_match; [by apply inv_setInteraction|]. case_match; [by apply inv_setInteraction|].
    apply inv_publish_events, inv_on_client; [intros Hi'|done]. apply inv_bump.
    pose proof (inv_set_state (w_client w) StateRunning Hc ltac:(done) ltac:(done) Hi') as Hr. revert Hr.
    apply core_inv. by destruct (w_client w).
  - case_match; [done|]. case_match; [done|]. apply inv_reportError; [done|naive_solver|done].
Qed.

Lemma inv_mapLoop now err received backoff w : c_closed (w_client w) = false →
  client_inv (w_client w) → client_inv (w_client (mapLoopStep now err received backoff w).1.1).
Proof. intros. apply inv_reportError; [done|naive_solver|done]. Qed.

Lemma inv_controlPing now cancelled ping err w : c_closed (w_client w) = false →
  client_inv (w_client w) → client_inv (w_client (controlPingStep now cancelled ping err w)).
Proof.
  intros Hc Hi. unfold controlPingStep. set (w' := on_client _ w).
  assert (client_inv (w_client w') ∧ c_closed (w_client w') = false) as [Hi' Hc'].
  { unfold w'. destruct w as [c d o]; cbn in *. split; [|unfold when; case_match; by destruct c].
    revert Hi. apply core_inv. unfold when. case_match; by destruct c. }
  clearbody w'. destruct err as [e|]; [|done]. destruct cancelled; [done|].
  apply inv_reportError; [done|naive_solver|done].
Qed.

Lemma inv_onEndpoints now endpoints w :
  client_inv (w_client w) → client_inv (w_client (onEndpoints now endpoints w)).
Proof.
  intros Hi. apply inv_signal, inv_publish, inv_on_client; [|done]. cbv zeta. unfold bumpLocked. same_core.
Qed.

Lemma updatePath_applied now update l : pl_applied (updatePath now update l) = pl_applied l.
Proof. destruct l. unfold updatePath, when. cbv zeta. repeat (case_match; cbn); reflexivity. Qed.

Lemma inv_onPath now update w : client_inv (w_client w) → client_inv (w_client (onPath now update w)).
Proof.
  intros Hi. unfold onPath. cbv zeta. destruct (stopping _); [done|]. case_match; [done|]. case_match.
  - apply inv_on_client; [intros Hi'|done]. by apply inv_set_local.
  - apply inv_when; [|intros ?; apply inv_on_client; [unfold requestPeerReconcile; same_core|done]].
    apply inv_publish, inv_on_client; [intros Hi'|done]. apply inv_bump, inv_set_local; [done|].
    apply updatePath_applied.
Qed.

Lemma inv_recover now w : client_inv (w_client w) → client_inv (w_client (recoverStaleDirectPaths now w).1).
Proof.
  intros Hi. unfold recoverStaleDirectPaths. destruct (w_device w) as [d|]; [|done].
  destruct (api_closed d); [done|]. cbn [fst]. apply inv_on_client; [intros [Hn Hl Ha Hs Hp]|done].
  destruct (w_client w) as []; constructor; try done. intros k. rewrite (Ha k). cbn.
  rewrite map_lookup_imap. destruct (c_peerLocal !! k) as [[]|] eqn:E; cbn.
  - split; intros (x & [= <-] & Hx); (eexists; split; [reflexivity|]); case_match; done.
  - split; by intros (? & ? & _).
Qed.

Lemma inv_run now err w : c_closed (w_client w) = false →
  client_inv (w_client w) → client_inv (w_client (run now err w)).
Proof.
  intros Hc Hi. unfold run. destruct err as [e|]; [|by apply inv_signal].
  destruct (errors_Is _ _); [done|]. by apply inv_setTerminalError.
Qed.

Lemma inv_endpointUpdater now cancelled err w : c_closed (w_client w) = false →
  client_inv (w_client w) → client_inv (w_client (endpointUpdater now cancelled err w)).
Proof.
  intros Hc Hi. unfold endpointUpdater. destruct (negb _); [done|]. cbv zeta. set (w1 := on_client _ w).
  assert (client_inv (w_client w1) ∧ c_closed (w_client w1) = false) as [Hi1 Hc1].
  { split; [apply inv_on_client; [same_core|done]|by destruct w as [[] ? ?]]. }
  clearbody w1. destruct (negb _); [done|]. destruct err as [e|], cancelled; try done.
  apply inv_reportError; [done|naive_solver|done].
Qed.

Lemma inv_peerReconciler now w :
  client_inv (w_client w) → client_inv (w_client (peerReconciler now w)).
Proof.
  intros Hi. unfold peerReconciler. destruct (negb _); [done|].
  apply inv_reconcile, inv_on_client; [same_core|done].
Qed.

Lemma inv_directPathHealth now w :
  client_inv (w_client w) → client_inv (w_client (directPathHealthWorker now w)).
Proof.
  intros Hi. unfold directPathHealthWorker. destruct (negb _); [done|].
  pose proof (inv_recover now w Hi) as Hr. destruct (recoverStaleDirectPaths now w) as [w1 b]. cbn [fst] in Hr.
  apply inv_when; [done|]. intros ?. apply inv_on_client; [unfold requestPeerReconcile; same_core|done].
Qed.

Lemma noteLatency_ok derpMap latency b metrics :
  latencies_ok derpMap latency → latencies_ok derpMap (foldl (noteLatency derpMap) (latency, b) metrics).1.
Proof.
  intros Hl. apply (foldl_preserves (λ s : gmap Z DERPRegionLatency * bool, latencies_ok derpMap s.1)); [done|].
  intros m [lat b'] _ Hs id x. unfold noteLatency. destruct (_ || _ || _) eqn:E; [apply Hs|].
  case_bool_decide; [apply Hs|]. cbn. bool_to_prop.
  destruct (decide (id = rl_RegionID m)) as [->|]; [|rewrite lookup_insert_ne by done; apply Hs].
  rewrite lookup_insert_eq. intros [= <-]. split_and!; [done..|].
  destruct derpMap as [d|]; [|done]. by exists d.
Qed.

Lemma inv_onDERPLatency now report w : client_inv (w_client w) → client_inv (w_client (onDERPLatency now report w)).
Proof.
  intros Hi. unfold onDERPLatency. cbv zeta. destruct (stopping _); [done|].
  match goal with |- context [foldl (noteLatency _) ?s _] => set (start := s) end.
  assert (latency_ok (w_client w <| c_derpLatency := (foldl (noteLatency (c_derpMap (w_client w))) start (lr_Regions report)).1 |>)) as Hl.
  { pose proof (inv_latency _ Hi) as Hl. unfold start.
    destruct (w_client w); unfold latency_ok in *; cbn in *.
    case_match; apply noteLatency_ok; [|done]. intros ? ? Hx. by rewrite lookup_empty in Hx. }
  destruct (foldl _ start _) as [latency changed]. cbn [fst] in Hl.
  assert (client_inv (w_client (on_client (λ c, c <| c_derpLatency := latency |>) w))) as Hi1.
  { destruct w as [[] ? ?]. destruct Hi as [Hn _ Ha Hs Hp]. by constructor. }
  set (preferred := if opt_DisableDERP _ then _ else _). set (w1 := on_client _ w) in *. clearbody w1 preferred.
  match goal with |- client_inv (w_client (if ?b then _ else _)) => destruct b; [done|] end. apply inv_when.
  - apply inv_publish, inv_on_client; [|done]. apply core_inv. unfold when, bumpLocked. cbv zeta.
    generalize (negb (preferred =? c_preferredDERP (w_client w))). intros []; by destruct (w_client w1).
  - intros Hi2. apply inv_signal, inv_reconcile, inv_on_bind, inv_publish. done.
Qed.

(** ** Lifecycle *)

Lemma removeOwned_client applied keys w errs :
  w_client (foldl (removeOwned applied) (w, errs) keys).1 = w_client w.
Proof.
  revert w errs. induction keys as [|key keys IH]; intros w errs; cbn; [done|].
  destruct (match w_device w with Some _ => _ | None => _ end) as [w' errs'] eqn:E.
  rewrite IH. assert (w_client w' = w_client w) as <-.
  { destruct (w_device w) as [api|]; [|by injection E as <- <-].
    destruct (match api_PeerSpec api key with Some _ => _ | None => _ end); [|by injection E as <- <-].
    destruct (api_DeleteTrackedPeer key api) as [api' err]. injection E as <- <-. by destruct w. }
  unfold on_bind, when. destruct (c_bind _); by destruct w'.
Qed.

Lemma inv_delete_keys keys c : client_inv c →
  client_inv (c <| c_applied := foldl (λ m key, delete key m) (c_applied c) keys |>
                <| c_peerLocal := foldl (λ m key, delete key m) (c_peerLocal c) keys |>).
Proof.
  revert c. induction keys as [|key keys IH]; intros c Hi; cbn [foldl].
  { revert Hi. apply core_inv. by destruct c. }
  pose proof (inv_set_key c key None None Hi) as H1'.
  specialize (IH _ (H1' ltac:(split; [by intros [? ?]|by intros (? & ? & _)]))).
  destruct c; exact IH.
Qed.

Lemma inv_stop now c : client_inv c →
  client_inv (bumpLocked now (c <| c_closed := true |> <| c_state := StateStopped |>)).
Proof. intros [Hn Hl Ha Hs Hp]. apply inv_bump. destruct c. by constructor. Qed.

(** Closing stops the client whatever the intermediate states are. *)
Lemma inv_Close now w : client_inv (w_client w) → client_inv (w_client (Close now w).1).
Proof.
  intros Hi. unfold Close. destruct (c_closed (w_client w)) eqn:Ec; [done|].
  destruct (negb (c_started _)).
  { cbv zeta. cbn [fst]. apply inv_on_client; [same_core|]. apply inv_emit, inv_publish, inv_on_client; [apply inv_stop|done]. }
  cbv zeta. unfold removeOwnedPeers.
  set (w1 := when (c_control (w_client w)) _ _).
  assert (∃ r n a, w_client w1 = w_client w <| c_closed := true |> <| c_state := StateStopping |>
    <| c_revision := r |> <| c_networkRevision := n |> <| c_at := a |>) as (r & n & a & E1).
  { unfold w1, when. destruct w as [[] d o]. case_match; cbn; eexists _, _, _; reflexivity. }
  pose proof (removeOwned_client (c_applied (w_client w1)) (map fst (range 6 (c_applied (w_client w1)))) w1 []) as E2.
  set (keys := map fst (range 6 (c_applied (w_client w1)))) in *.
  destruct (foldl (removeOwned _) (w1, []) keys) as [w2 errs]; cbn [fst] in E2.
  match goal with |- context [match w_device ?x with Some api => @?f api | None => ?g end] =>
    destruct (match w_device x with Some api => f api | None => g end) as [w3 terr] eqn:E3;
    assert (w_client w3 = w_client x) as E3' end.
  { revert E3. destruct (w_device _) as [api|]; [|by intros [= <- <-]].
    destruct (c_runtimeStarted _); [|by intros [= <- <-]].
    destruct (api_RemoveTrackedTransport _ api) as [api' err]. intros [= <- <-]. by destruct w2. }
  cbn [fst]. set (w4 := on_bind OutBindShutdown w3).
  assert (w_client w4 = w_client w3) as E4 by (unfold w4, on_bind, when; destruct (c_bind _); by destruct w3).
  clearbody w4.
  assert (client_inv (w_client w4 <| c_state := StateStopped |>)) as Hfin.
  { rewrite E4, E3'. destruct w2 as [c2 d2 o2]; cbn in *. subst c2. rewrite E1.
    pose proof (inv_delete_keys keys _ (inv_stop a _ Hi)) as Hd. revert Hd. apply core_inv.
    by destruct (w_client w). }
  apply inv_on_client; [same_core|]. apply inv_emit, inv_publish. destruct w4 as [c4 d4 o4]; cbn in *.
  apply inv_bump. revert Hfin. apply core_inv. unfold when.
  match goal with |- context [if ?b then _ else _] => destruct b end; by destruct c4.
Qed.

(** The effect of [initializeRuntime] on the client is outside the invariant. *)
Lemma initializeRuntime_core env api w :
  core (w_client (initializeRuntime env api w).1.2) = core (w_client w).
Proof.
  destruct w as [c d o]. unfold initializeRuntime. cbv zeta. destruct (loadIdentity _ _ _) as [[[[cache machine] disco] blob]|e]; [|done].
  destruct blob, (env_NewClient env), (env_NewBind env); cbn; try done;
    destruct (api_AddTrackedTransport _ _ api) as [? [?|]]; cbn; by destruct c.
Qed.

Lemma inv_initializeRuntime env api w : client_inv (w_client w) →
  client_inv (w_client (initializeRuntime env api w).1.2).
Proof. apply core_inv, initializeRuntime_core. Qed.

Lemma initializeRuntime_closed env api w :
  c_closed (w_client (initializeRuntime env api w).1.2) = c_closed (w_client w).
Proof. pose proof (initializeRuntime_core env api w) as E. by injection E. Qed.

Lemma inv_Start now env parent w : client_inv (w_client w) → client_inv (w_client (Start now env parent w).1).
Proof.
  intros Hi. unfold Start. destruct parent; [|done]. cbn [negb].
  destruct (c_closed (w_client w)) eqn:Ec; [done|]. destruct (c_started _); [done|]. cbv zeta.
  match goal with |- context [match w_device ?x with Some _ => _ | None => _ end] => set (w1 := x) end.
  assert (client_inv (w_client w1) ∧ c_closed (w_client w1) = false) as [Hi1 Hc1].
  { split; [|by destruct w as [[] ? ?]]. apply inv_on_client; [intros Hi'|done]. apply inv_bump, inv_set_state; try done.
    - by destruct (w_client w).
    - revert Hi'. same_core. }
  clearbody w1.
  match goal with |- context [let '(_, _) := ?x in _] => destruct x as [w2 failed] eqn:E2 end.
  assert (client_inv (w_client w2)) as Hi2.
  { revert E2. destruct (w_device w1) as [api|]; [|by intros [= <- <-]].
    destruct (api_closed api); [by intros [= <- <-]|].
    pose proof (inv_initializeRuntime env api w1 Hi1) as Hi3. pose proof (initializeRuntime_closed env api w1) as Hc3.
    destruct (initializeRuntime env api w1) as [[api' w3] [e|]]; cbn [fst snd] in *; intros [= <- <-].
    - apply inv_emit, inv_on_client; [intros Hi4|by apply inv_device].
      assert (client_inv (w_client w3 <| c_state := StateNew |>)) as Hi5.
      { apply inv_set_state; try done. congruence. }
      revert Hi5. apply core_inv. by destruct w3 as [[] ? ?].
    - apply inv_on_client; [same_core|by apply inv_device]. }
  destruct failed; [done|]. apply inv_when.
  - apply inv_publish_events, inv_on_client; [same_core|done].
  - intros ?. by apply inv_emit, inv_emit.
Qed.

Lemma inv_clearApplied now w : client_inv (w_client w) → client_inv (w_client (clearAppliedDeviceLocked now w)).
Proof.
  intros Hi. unfold clearAppliedDeviceLocked. apply inv_when.
  - apply (foldl_preserves (λ w : World (D := D), client_inv (w_client w))); [|intros; by apply inv_on_bind].
    apply inv_on_client; [|done]. intros [Hn Hl Ha Hs Hp]. destruct (w_client w); constructor; try done.
    intros k. cbn. rewrite lookup_empty, lookup_fmap. split; [by intros [? ?]|].
    intros (l & Hx & Hf). apply fmap_Some in Hx as ([] & _ & ->). done.
  - intros Hi'. apply inv_publish_events, inv_on_client; [unfold bumpLocked; same_core|done].
Qed.

Lemma clearApplied_closed now w :
  c_closed (w_client (clearAppliedDeviceLocked now w)) = c_closed (w_client w).
Proof.
  unfold clearAppliedDeviceLocked. cbv zeta.
  assert (∀ keys w', c_closed (w_client (foldl (λ w key, on_bind (OutRemovePeer key) w) w' keys)) = c_closed (w_client w')) as Hf.
  { induction keys as [|key keys IH]; intros w'; cbn; [done|]. rewrite IH. unfold on_bind, when.
    destruct (c_bind _); by destruct w'. }
  set (w1 := foldl _ _ _). assert (c_closed (w_client w1) = c_closed (w_client w)) as <-.
  { unfold w1. rewrite Hf. by destruct w as [[] ? ?]. }
  unfold when. destruct (bool_decide _); [|done]. by destruct w1 as [[] ? ?].
Qed.

Lemma stopping_closed c : client_inv c → stopping c = c_closed c.
Proof.
  intros [_ _ _ Hs _]. unfold stopping, state_ok in *. destruct (c_closed c).
  - rewrite Hs. done.
  - destruct Hs as [H1' H2']. by rewrite !bool_decide_eq_false_2.
Qed.

Lemma inv_reportClosed now w : client_inv (w_client w) → client_inv (w_client (reportClosedDevice now w)).
Proof.
  intros Hi. unfold reportClosedDevice. destruct (stopping _) eqn:Es; [done|].
  apply inv_publish, inv_publish, inv_on_client; [|done]. intros Hi'.
  apply inv_bump, inv_lastError, inv_set_state; try done. by rewrite <-stopping_closed.
Qed.

Lemma inv_restoreState now w : client_inv (w_client w) → client_inv (w_client (restoreStateAfterDeviceAttach now w)).
Proof.
  intros Hi. unfold restoreStateAfterDeviceAttach. destruct (stopping _) eqn:Es; [done|].
  apply inv_publish_events, inv_on_client; [|done]. intros Hi'. apply inv_bump. rewrite stopping_closed in Es by done.
  unfold when. destruct (bool_decide _); [|done]. apply inv_set_state; [by destruct (w_client w)| | |by apply inv_lastError].
  all: repeat match goal with |- context [if ?b then _ else _] => destruct b end; done.
Qed.

Lemma inv_deviceClosed now generation w : client_inv (w_client w) → client_inv (w_client (deviceClosed now generation w)).
Proof.
  intros Hi. unfold deviceClosed. destruct (negb _); [done|]. by apply inv_reportClosed, inv_clearApplied.
Qed.

Lemma inv_AttachDevice now env api w : client_inv (w_client w) → client_inv (w_client (AttachDevice now env api w).1).
Proof.
  intros Hi. unfold AttachDevice. destruct api as [api|]; [|done]. destruct (api_closed api); [done|].
  destruct (c_closed (w_client w)) eqn:Ec; [done|].
  match goal with |- context [if ?b then (w, Some ErrDeviceAlreadyAttached) else _] => destruct b; [done|] end.
  assert (client_inv (w_client (prepareAttach now env api w).1.2)) as Hp.
  { unfold prepareAttach. cbv zeta. destruct (_ && _).
    - pose proof (inv_initializeRuntime env api w Hi). by destruct (initializeRuntime env api w) as [[? ?] [?|]].
    - destruct (c_runtimeStarted _); [|done]. destruct (validateRuntimeIdentity _ _ _); [done|].
      destruct (api_AddTrackedTransport _ _ _) as [? [?|]]; [done|]. by apply inv_clearApplied. }
  destruct (prepareAttach now env api w) as [[api' w1] [startWorkers|e]]; cbn [fst snd] in Hp; [|done].
  cbv zeta. set (w2 := on_client _ _).
  assert (client_inv (w_client w2)) as Hi2 by (apply inv_on_client; [same_core|by apply inv_device]).
  clearbody w2. destruct (negb (c_started _)); [done|]. cbn [fst].
  apply inv_reconcile, inv_emit, inv_when; [by apply inv_restoreState|]. intros. by apply inv_emit.
Qed.

(** ** Confirmation *)

Lemma inv_finishConfirmation now w : client_inv (w_client w) → client_inv (w_client (finishConfirmation now w).1).
Proof.
  intros Hi. unfold finishConfirmation. cbv zeta. set (w1 := publish_event _ _ _).
  assert (client_inv (w_client w1)) as Hi1.
  { apply inv_publish, inv_on_client; [|done]. intros Hi'. apply inv_bump. revert Hi'. unfold syncConfirmedCacheLocked. same_core. }
  clearbody w1. destruct (storeCache _ _) as [[blob|] err]; cbn [fst on_some]; apply inv_reconcile; [by apply inv_emit|done].
Qed.

Lemma inv_ConfirmPeer now ctx id w : client_inv (w_client w) → client_inv (w_client (ConfirmPeer now ctx id w).1).
Proof.
  intros Hi. unfold ConfirmPeer. destruct ctx; [done|]. destruct (stopping _); [done|]. destruct (bool_decide _); [done|].
  apply inv_finishConfirmation, inv_on_client; [same_core|done].
Qed.

Lemma inv_Revoke now ctx id w : client_inv (w_client w) → client_inv (w_client (RevokePeerConfirmation now ctx id w).1).
Proof.
  intros Hi. unfold RevokePeerConfirmation. destruct ctx; [done|]. destruct (stopping _); [done|]. destruct (negb _); [done|].
  apply inv_finishConfirmation, inv_on_client; [same_core|done].
Qed.

Lemma inv_Resume now id w : client_inv (w_client w) → client_inv (w_client (ResumeInteraction now id w).1).
Proof.
  intros Hi. unfold ResumeInteraction. destruct (stopping _); [done|]. destruct (c_interaction _); [|done].
  destruct (negb _); [done|]. destruct (bool_decide _).
  - apply inv_publish, inv_on_client; [unfold bumpLocked; same_core|done].
  - apply inv_on_client; [same_core|done].
Qed.

(** ** Reachability *)

(** What can happen to a client.  The workers (registration, the map stream,
    control pings, the device watcher) run only while the client is open:
    [Close] waits for them before it finishes. *)
Inductive client_step : World (D := D) → World (D := D) → Prop :=
| step_Start now env parent w : client_step w (Start now env parent w).1
| step_Close now w : client_step w (Close now w).1
| step_AttachDevice now env api w : client_step w (AttachDevice now env api w).1
| step_ConfirmPeer now ctx id w : client_step w (ConfirmPeer now ctx id w).1
| step_RevokePeer now ctx id w : client_step w (RevokePeerConfirmation now ctx id w).1
| step_Resume now id w : client_step w (ResumeInteraction now id w).1
| step_authenticate now ctx outcome backoff followup w :
    c_closed (w_client w) = false → client_step w (authenticateStep now ctx outcome backoff followup w).1
| step_run now err w : c_closed (w_client w) = false → client_step w (run now err w)
| step_map now r w : c_closed (w_client w) = false → client_step w (applyMapResponse now r w).1
| step_mapLoop now err received backoff w :
    c_closed (w_client w) = false → client_step w (mapLoopStep now err received backoff w).1.1
| step_takePing ping pings w : c_closed (w_client w) = false → c_pingWake (w_client w) = ping :: pings →
    client_step w (on_client (λ c, c <| c_pingWake := pings |>) w)
| step_controlPing now cancelled ping err w :
    c_closed (w_client w) = false → client_step w (controlPingStep now cancelled ping err w)
| step_endpointUpdater now cancelled err w :
    c_closed (w_client w) = false → client_step w (endpointUpdater now cancelled err w)
| step_deviceClosed now generation w : c_closed (w_client w) = false → client_step w (deviceClosed now generation w)
| step_peerReconciler now w : c_closed (w_client w) = false → client_step w (peerReconciler now w)
| step_directPathHealth now w : c_closed (w_client w) = false → client_step w (directPathHealthWorker now w)
| step_wakeResume w : client_step w (on_client (λ c, c <| c_resume := false |>) w)
| step_onEndpoints now endpoints w : client_step w (onEndpoints now endpoints w)
| step_onPath now update w : client_step w (onPath now update w)
| step_onDERPLatency now report w : client_step w (onDERPLatency now report w)
| step_device d w : client_step w (w <| w_device := d |>).

Lemma inv_step w w' : client_step w w' → client_inv (w_client w) → client_inv (w_client w').
Proof.
  destruct 1; intros Hi.
  - by apply inv_Start.
  - by apply inv_Close.
  - by apply inv_AttachDevice.
  - by apply inv_ConfirmPeer.
  - by apply inv_Revoke.
  - by apply inv_Resume.
  - by apply inv_authenticate.
  - by apply inv_run.
  - by apply inv_applyMapResponse.
  - by apply inv_mapLoop.
  - destruct w as [c d o], Hi as [Hn Hl Ha Hs Hp]; cbn in *. destruct c; cbn in *. constructor; try done.
    cbn in *. subst. cbn in Hp. lia.
  - by apply inv_controlPing.
  - by apply inv_endpointUpdater.
  - by apply inv_deviceClosed.
  - by apply inv_peerReconciler.
  - by apply inv_directPathHealth.
  - apply inv_on_client; [same_core|done].
  - by apply inv_onEndpoints.
  - by apply inv_onPath.
  - by apply inv_onDERPLatency.
  - by apply inv_device.
Qed.

Lemma inv_steps w w' : rtc client_step w w' → client_inv (w_client w) → client_inv (w_client w').
Proof. induction 1; eauto using inv_step. Qed.

Lemma inv_new opts now : client_inv (newClient opts now).
Proof.
  constructor; try done.
  - intros k. cbn. rewrite !lookup_empty. split; [by intros [? ?]|by intros (? & ? & _)].
  - cbn. lia.
Qed.


(** ** After closing *)

(** What is left of a step of a closed client: flags and transport candidates. *)
Definition quiet_step w w' : Prop :=
  c_closed (w_client w') = true ∧ c_state (w_client w') = StateStopped ∧
  netData (w_client w') = netData (w_client w) ∧
  c_applied (w_client w') = c_applied (w_client w) ∧ c_peerLocal (w_client w') = c_peerLocal (w_client w) ∧
  c_confirmed (w_client w') = c_confirmed (w_client w) ∧ w_device w' = w_device w ∧
  (w_out w' = w_out w ∨ ∃ e, w_out w' = w_out w ++ [OutPublish e] ∧ ev_Kind e = EventNetwork).

Lemma quiet_refl w : client_inv (w_client w) → c_closed (w_client w) = true → quiet_step w w.
Proof.
  intros [_ _ _ Hs _] Hc. unfold state_ok in Hs. rewrite Hc in Hs. repeat split; auto.
Qed.

Lemma closed_quiet w w' : client_inv (w_client w) → c_closed (w_client w) = true → client_step w w' →
  quiet_step w w' ∨ ∃ d, w' = w <| w_device := d |>.
Proof.
  intros Hi Hc Hstep. pose proof (quiet_refl w Hi Hc) as Hq. pose proof (stopping_closed _ Hi) as Hst.
  rewrite Hc in Hst. destruct Hstep; try congruence; try (right; by eexists); left.
  - unfold Start. destruct parent; cbn [negb]; [|done]. by rewrite Hc.
  - unfold Close. by rewrite Hc.
  - unfold AttachDevice. destruct api as [api|]; [|done]. rewrite Hc. by destruct (api_closed api).
  - unfold ConfirmPeer. rewrite Hst. by destruct ctx.
  - unfold RevokePeerConfirmation. rewrite Hst. by destruct ctx.
  - unfold ResumeInteraction. by rewrite Hst.
  - by destruct w as [[] ? ?].
  - destruct Hq as (Q1 & Q2 & _). destruct w as [[] ? ?]; cbn in *. repeat split; try done. right. by eexists.
  - unfold onPath. by rewrite Hst.
  - unfold onDERPLatency. by rewrite Hst.
Qed.

End Invariants.
