(* ===== verification/Shutdown.v ===== *)
(** * Withdrawal and reconnection

    What [removeOwnedPeers] leaves on the device when a client closes, and the
    bounds of the reconnect back-off of [authenticate] and [mapLoop]. *)

From Stdlib Require Import ZArith Lia String Strings.Byte.
From S2P Require Export Invariants.
Open Scope Z_scope.

Section Shutdown.
Context `{DevicePkg} `{RangeOrder} {D : Type} `{!DeviceAPI D} `{!DeviceLaws D}.
Context `{!ReliableDevice (D := D)}.
Implicit Types w : World (D := D).

(** ** Withdrawing the peers *)

(** The spec of a peer after the client has withdrawn what it owns. *)
Definition withdrawn (applied : gmap NodePublic appliedPeer) (k : NodePublic) (spec : option PeerSpec) : option PeerSpec :=
  match applied !! k, spec with
  | Some owned, Some s => if peerSpecStillOwned s owned then None else Some s
  | _, _ => spec
  end.

Lemma removeOwned_step applied w d errs key : w_device w = Some d → is_Some (applied !! key) →
  ∃ d', w_device (removeOwned applied (w, errs) key).1 = Some d' ∧
    (removeOwned applied (w, errs) key).2 = errs ∧
    (∀ k, api_PeerSpec d' k = if decide (k = key) then withdrawn applied k (api_PeerSpec d k) else api_PeerSpec d k).
Proof.
  intros Hd [owned Ho]. unfold removeOwned. rewrite Hd, Ho.
  match goal with |- context [if ?b then _ else _] => destruct b eqn:Eb end.
  - pose proof (delete_succeeds key d) as Hs. pose proof (delete_effect key d Hs) as He.
    pose proof (delete_frame key d) as Hf. destruct (api_DeleteTrackedPeer key d) as [d' err]. cbn in *. subst err.
    exists d'. split_and!; [|done|].
    { unfold on_bind, when. destruct (c_bind _); by destruct w. }
    intros k. destruct (decide (k = key)) as [->|]; [|by apply Hf]. rewrite He. unfold withdrawn. rewrite Ho.
    destruct (api_PeerSpec d key); [by rewrite Eb|done].
  - exists d. split_and!; [|done|].
    { cbn. unfold on_bind, when. destruct (c_bind _); by destruct w. }
    intros k. destruct (decide (k = key)) as [->|]; [|done]. unfold withdrawn. rewrite Ho.
    destruct (api_PeerSpec d key); [by rewrite Eb|done].
Qed.

Lemma removeOwned_loop applied keys : ∀ w d errs, w_device w = Some d → NoDup keys →
  (∀ k, k ∈ keys → is_Some (applied !! k)) →
  ∃ d', w_device (foldl (removeOwned applied) (w, errs) keys).1 = Some d' ∧
    (foldl (removeOwned applied) (w, errs) keys).2 = errs ∧
    (∀ k, api_PeerSpec d' k = if decide (k ∈ keys) then withdrawn applied k (api_PeerSpec d k) else api_PeerSpec d k).
Proof.
  induction keys as [|key keys IH]; intros w d errs Hd Hnd Hin.
  { exists d. split_and!; [done..|]. intros k. by rewrite decide_False by set_solver. }
  apply NoDup_cons in Hnd as [Hk Hnd].
  destruct (removeOwned_step applied w d errs key Hd) as (d1 & Hd1 & He1 & Hs1); [apply Hin; set_solver|].
  cbn [foldl]. destruct (removeOwned applied (w, errs) key) as [w1 errs1]; cbn [fst snd] in *; subst errs1.
  destruct (IH w1 d1 errs Hd1 Hnd) as (d' & Hd' & He' & Hs'); [set_solver|].
  exists d'. split_and!; [done..|]. intros k. rewrite Hs', Hs1.
  destruct (decide (k = key)) as [->|]; [by rewrite decide_False, decide_True by set_solver|].
  destruct (decide (k ∈ keys)); [by rewrite decide_True by set_solver|by rewrite decide_False by set_solver].
Qed.

Lemma delete_keys_lookup {A} (keys : list NodePublic) (m : gmap NodePublic A) k :
  foldl (λ m key, delete key m) m keys !! k = if decide (k ∈ keys) then None else m !! k.
Proof.
  revert m. induction keys as [|key keys IH]; intros m; cbn; [by rewrite decide_False by set_solver|].
  rewrite IH. destruct (decide (k ∈ keys)); [by rewrite decide_True by set_solver|].
  destruct (decide (k = key)) as [->|]; [by rewrite lookup_delete_eq, decide_True by set_solver|].
  by rewrite lookup_delete_ne, decide_False by set_solver.
Qed.

(** C22. Withdrawal is exact.  [removeOwnedPeers] on a device whose deletions
    succeed reports no error, forgets every applied peer and its local state, and
    for every key leaves on the device what was there, except that a peer the
    client applied and whose endpoint nobody has changed since is gone. *)
Theorem removeOwnedPeers_exact w d (Hd : w_device w = Some d) :
  ∃ d', w_device (removeOwnedPeers w).1 = Some d' ∧ (removeOwnedPeers w).2 = None ∧
    c_applied (w_client (removeOwnedPeers w).1) = ∅ ∧
    (∀ k, c_peerLocal (w_client (removeOwnedPeers w).1) !! k =
       if decide (is_Some (c_applied (w_client w) !! k)) then None else c_peerLocal (w_client w) !! k) ∧
    (∀ k, api_PeerSpec d' k = withdrawn (c_applied (w_client w)) k (api_PeerSpec d k)).
Proof.
  unfold removeOwnedPeers. set (applied := c_applied (w_client w)). set (keys := map fst (range 6 applied)).
  assert (∀ k, k ∈ keys ↔ is_Some (applied !! k)) as Hk.
  { intros k. unfold keys. rewrite list_elem_of_fmap. split.
    - intros ([k' v] & -> & Hv). apply elem_of_range in Hv. by exists v.
    - intros [v Hv]. exists (k, v). split; [done|]. by apply elem_of_range. }
  destruct (removeOwned_loop applied keys w d [] Hd) as (d' & Hd' & He & Hs); [apply NoDup_range|naive_solver|].
  pose proof (removeOwned_client applied keys w []) as Hc.
  destruct (foldl (removeOwned applied) (w, []) keys) as [w1 errs]; cbn [fst snd] in *. subst errs.
  exists d'. destruct w1 as [c1 dev o]; cbn in Hd', Hc; subst c1 dev.
  assert (∀ A (m : gmap NodePublic A) k, foldl (λ m key, delete key m) m keys !! k =
    if decide (is_Some (applied !! k)) then None else m !! k) as Hdel.
  { intros A m k. rewrite delete_keys_lookup. by apply decide_ext. }
  split_and!; [done..| | |].
  - apply map_eq. intros k. rewrite lookup_empty. transitivity (foldl (λ m key, delete key m) applied keys !! k).
    { subst applied. by destruct (w_client w). }
    rewrite Hdel. destruct (decide _) as [|Hn]; [done|]. by apply eq_None_not_Some.
  - intros k. rewrite <-Hdel. by destruct (w_client w).
  - intros k. rewrite Hs. unfold withdrawn. destruct (decide (k ∈ keys)) as [|Hn]; [done|].
    rewrite Hk in Hn. by apply eq_None_not_Some in Hn as ->.
Qed.

(** ** The reconnect back-off *)

(** A back-off the loops can hold. *)
Definition backoff_ok (opts : Options) (backoff : Z) : Prop :=
  opt_ReconnectMin opts ≤ backoff ≤ opt_ReconnectMax opts.

(** The options [withDefaults] accepts, with a maximum whose double is still a duration. *)
Definition reconnect_ok (opts : Options) : Prop :=
  0 < opt_ReconnectMin opts ≤ opt_ReconnectMax opts ∧ opt_ReconnectMax opts < 2 ^ 62.

Lemma nextBackoff_ok opts backoff :
  reconnect_ok opts → backoff_ok opts backoff → backoff_ok opts (nextBackoff backoff opts).
Proof.
  unfold reconnect_ok, backoff_ok, nextBackoff. intros [??] ?. rewrite iwrap64_small by (unfold minInt64, maxInt64; lia). lia.
Qed.

Lemma nextBackoff_doubles opts backoff : reconnect_ok opts → backoff_ok opts backoff →
  nextBackoff backoff opts = Z.min (2 * backoff) (opt_ReconnectMax opts).
Proof.
  unfold reconnect_ok, backoff_ok, nextBackoff. intros [??] ?. rewrite iwrap64_small by (unfold minInt64, maxInt64; lia). f_equal. lia.
Qed.

(** The waits of [n] consecutive failures starting with back-off [backoff]. *)
Fixpoint backoffs (opts : Options) (backoff : Z) (n : nat) : list Z :=
  match n with
  | O => []
  | S n => backoff :: backoffs opts (nextBackoff backoff opts) n
  end.

Lemma backoffs_lookup opts backoff n i : reconnect_ok opts → backoff_ok opts backoff → (i < n)%nat →
  backoffs opts backoff n !! i = Some (Z.min (2 ^ Z.of_nat i * backoff) (opt_ReconnectMax opts)).
Proof.
  intros Ho. revert backoff i. induction n as [|n IH]; intros backoff i Hb Hi; [lia|].
  destruct i as [|i]; cbn [backoffs]; cbn [lookup list_lookup].
  { f_equal. unfold backoff_ok in Hb. lia. }
  rewrite IH by (lia || by apply nextBackoff_ok). f_equal. rewrite nextBackoff_doubles by done.
  rewrite Nat2Z.inj_succ, Z.pow_succ_r by lia. unfold reconnect_ok, backoff_ok in *.
  pose proof (Z.pow_pos_nonneg 2 (Z.of_nat i) ltac:(lia) ltac:(lia)). nia.
Qed.

(** C23. The reconnect back-off is exponential and bounded.  With options
    [withDefaults] accepts (and a maximum below 2^62 ns), the [i]-th of a row of
    failed map streams or registrations waits [2^i] times the minimum, cut at the
    maximum; a stream that has received a response starts the row again. *)
Theorem mapLoop_backoff opts (n i : nat) (Ho : reconnect_ok opts) (Hi : (i < n)%nat) :
  backoffs opts (opt_ReconnectMin opts) n !! i =
    Some (Z.min (2 ^ Z.of_nat i * opt_ReconnectMin opts) (opt_ReconnectMax opts)) ∧
  (∀ now err received backoff w, c_opts (w_client w) = opts → backoff_ok opts backoff →
     let '(_, wait, next) := mapLoopStep now err received backoff w in
     wait = (if received then opt_ReconnectMin opts else backoff) ∧ backoffs opts wait 2 = [wait; next] ∧
     backoff_ok opts wait ∧ backoff_ok opts next) ∧
  (∀ now err backoff w, c_opts (w_client w) = opts → backoff_ok opts backoff →
     (authenticateStep now None (Err err) backoff "" w).2 = AuthWait backoff (nextBackoff backoff opts) "").
Proof.
  assert (backoff_ok opts (opt_ReconnectMin opts)) as Hmin by (unfold backoff_ok, reconnect_ok in *; lia).
  split_and!.
  - by apply backoffs_lookup.
  - intros now err received backoff w <- Hb. unfold mapLoopStep. cbv zeta.
    assert (backoff_ok (c_opts (w_client w)) (if received then opt_ReconnectMin (c_opts (w_client w)) else backoff))
      by (destruct received; done).
    split_and!; [done..|by apply nextBackoff_ok].
  - intros now err backoff w <- Hb. done.
Qed.
End Shutdown.

(** ** Examples *)

#[local] Existing Instance demo_pkg.
#[local] Existing Instance canonical_order.
#[local] Existing Instance demo_api.
#[local] Existing Instance demo_laws.
#[local] Existing Instance demo_reliable.
#[local] Existing Instance demo_codec.
#[local] Existing Instance demo_box.

Lemma removeOwnedPeers_exact_witness :
  ∃ d', w_device (removeOwnedPeers demo_world).1 = Some d' ∧ api_PeerSpec d' (demo_key 2) = None ∧
    api_PeerSpec d' (demo_key 3) = Some (demo_spec 3 (mkPeerEndpoint "other" "y")).
Proof.
  destruct (removeOwnedPeers_exact demo_world _ eq_refl) as (d' & Hd & _ & _ & _ & Hs).
  exists d'. split; [done|]. rewrite !Hs. split; vm_compute; reflexivity.
Defined.

Lemma mapLoop_backoff_witness :
  backoffs demo_options_full (500 * Millisecond) 9 !! 8%nat = Some (30 * Second).
Proof.
  destruct (mapLoop_backoff (D := demo_device) demo_options_full 9 8) as (Hb & _); [|lia|].
  - unfold reconnect_ok. vm_compute. done.
  - exact Hb.
Defined.

(** A client that is started without a device, receives a map and is closed. *)
Definition demo_run : World (D := demo_device) := mkWorld (newClient demo_options_full 1) None [].
Definition demo_env : RuntimeEnv := mkRuntimeEnv None None None (λ _, true) (λ k, k) None None.
Definition demo_started := (Start 2 demo_env true demo_run).1.
Definition demo_mapped := (applyMapResponse 3 demo_response demo_started).1.
Definition demo_closed := (Close 4 demo_mapped).1.

Lemma demo_reachable : rtc client_step demo_run demo_closed.
Proof.
  apply (rtc_l _ _ demo_started); [apply step_Start|].
  apply (rtc_l _ _ demo_mapped); [apply step_map; vm_compute; reflexivity|].
  apply rtc_once, step_Close.
Qed.


