(* ===== verification/Views.v ===== *)
(** * Public views ([views.go], the records of [types.go])

    [Snapshot] and the views it is made of.  A snapshot is a deep copy, so the
    model's values are the copies.  The loops over [c.peers] and the DERP
    regions use [RangeOrder]; [sort.Slice] is not stable and its result is
    whatever [SliceSort] gives: some sorted permutation. *)

From Stdlib Require Import ZArith Lia Ascii String Strings.Byte.
From S2P Require Export Invariants.
Open Scope Z_scope.

(** ** [sort.Slice] *)

(** A [less] function is a strict weak order. *)
Definition weak_order {A} (less : A → A → bool) : Prop :=
  (∀ x y, less x y = true → less y x = false) ∧
  (∀ x y z, less y x = false → less z y = false → less z x = false).

(** Sorting with [less]; elements that compare equal come in any order. *)
Class SliceSort := {
  sort_slice {A : Type} (less : A → A → bool) (l : list A) : list A;
  sort_slice_perm {A : Type} (less : A → A → bool) l : sort_slice less l ≡ₚ l;
  sort_slice_sorted {A : Type} (less : A → A → bool) l :
    weak_order less → StronglySorted (λ x y, less y x = false) (sort_slice less l)
}.

(** A stable instance, to evaluate examples. *)
Definition not_less {A} (less : A → A → bool) (x y : A) : Prop := less y x = false.

#[export] Instance not_less_dec {A} (less : A → A → bool) x y : Decision (not_less less x y).
Proof. unfold not_less. apply _. Defined.

Definition stable_sort_slice {A} (less : A → A → bool) (l : list A) : list A := merge_sort (not_less less) l.

Definition stable_sort : SliceSort.
Proof.
  refine {| sort_slice := @stable_sort_slice |}; unfold stable_sort_slice.
  - intros. apply merge_sort_Permutation.
  - intros A less l [Ha Ht]. 
    assert (Transitive (not_less less)) by (intros x y z; apply Ht).
    assert (Total (not_less less)).
    { intros x y. unfold not_less. destruct (less y x) eqn:E; [right; by apply Ha|by left]. }
    apply (StronglySorted_merge_sort (not_less less)).
Defined.

Lemma elem_of_sort_slice `{SliceSort} {A} (less : A → A → bool) x l : x ∈ sort_slice less l ↔ x ∈ l.
Proof. by rewrite sort_slice_perm. Qed.

(** The orders the views sort by are lexicographic. *)
Definition lex_less {A K} (key : A → K) (lt : K → K → bool) (rest : A → A → bool) `{EqDecision K} (x y : A) : bool :=
  if bool_decide (key x ≠ key y) then lt (key x) (key y) else rest x y.

Definition str_lt (x y : string) : bool := scmp x y <? 0.

(** ** Records *)

Inductive ConfirmationState := PeerConfirmationNotRequired | PeerAwaitingConfirmation | PeerConfirmed.

#[export] Instance ConfirmationState_eq_dec : EqDecision ConfirmationState.
Proof. solve_decision. Defined.

Record NodeInfo := mkNodeInfo {
  ni_ID : Z;
  ni_StableID : string;
  ni_Name : string;
  ni_UserID : Z;
  ni_SharerID : Z;
  ni_PublicKey : array 32;
  ni_MachinePublicKey : string;
  ni_DiscoPublicKey : string;
  ni_Addresses : slice Prefix;
  ni_AllowedIPs : slice Prefix;
  ni_Endpoints : slice AddrPort;
  ni_HomeDERP : Z;
  ni_LegacyDERPString : string;
  ni_CapabilityVersion : Z;
  ni_KeySignature : RawMessage;
  ni_KeyExpiry : Z;
  ni_Created : Z;
  ni_LastSeen : option Z;
  ni_Online : option bool;
  ni_MachineAuthorized : bool;
  ni_Tags : slice string;
  ni_PrimaryRoutes : slice Prefix;
  ni_Capabilities : slice string;
  ni_CapabilityMap : option (gmap string (slice RawMessage));
  ni_UnsignedPeerAPIOnly : bool;
  ni_ComputedName : string;
  ni_ComputedNameWithHost : string;
  ni_DataPlaneAuditLogID : string;
  ni_Expired : bool;
  ni_SelfNodeV4MasqAddrForThisPeer : option Addr;
  ni_SelfNodeV6MasqAddrForThisPeer : option Addr;
  ni_IsWireGuardOnly : bool;
  ni_IsJailed : bool;
  ni_ExitNodeDNSResolvers : slice RawMessage;
  ni_HostinfoJSON : RawMessage;
  ni_RawJSON : RawMessage
}.

Record PeerInfo := mkPeerInfo {
  pi_Node : NodeInfo;
  pi_PeerID : string;
  pi_Confirmation : ConfirmationState;
  pi_AppliedToWGO : bool;
  pi_Path : PathKind;
  pi_Direct : AddrPort;
  pi_PathLatency : Z;
  pi_PathUpdated : Z;
  pi_LastError : string
}.

Record LocalEndpoint := mkLocalEndpoint {
  le_Address : AddrPort;
  le_Source : string
}.

Record DNSRecord := mkDNSRecord {
  dr_Name : string;
  dr_Type : string;
  dr_Value : string
}.

Record DNSView := mkDNSView {
  dv_Proxied : bool;
  dv_SearchDomains : slice string;
  dv_CertDomains : slice string;
  dv_Nameservers : slice Addr;
  dv_Resolvers : slice RawMessage;
  dv_Routes : option (gmap string (slice RawMessage));
  dv_Records : slice DNSRecord;
  dv_Revision : Z
}.

Record Route := mkRoute {
  rt_Prefix : Prefix;
  rt_PeerID : string;
  rt_PeerPublicKey : array 32;
  rt_Primary : bool
}.

Record NetworkConfiguration := mkNetworkConfiguration {
  nc_InterfaceName : string;
  nc_Up : bool;
  nc_MTU : Z;
  nc_Addresses : slice Prefix;
  nc_Routes : slice Route;
  nc_DNS : DNSView;
  nc_Revision : Z
}.

Record DERPNode := mkDERPNode {
  dn_Name : string;
  dn_RegionID : Z;
  dn_HostName : string;
  dn_CertName : string;
  dn_IPv4 : string;
  dn_IPv6 : string;
  dn_STUNPort : Z;
  dn_DERPPort : Z;
  dn_STUNOnly : bool;
  dn_InsecureForTests : bool;
  dn_STUNTestIP : string
}.

Record DERPRegion := mkDERPRegion {
  dg_ID : Z;
  dg_Code : string;
  dg_Name : string;
  dg_Latitude : Z;
  dg_Longitude : Z;
  dg_NoMeasureNoHome : bool;
  dg_Latency : Z;
  dg_LatencySource : string;
  dg_LatencyMeasuredAt : Z;
  dg_Nodes : slice DERPNode
}.

Record DERPView := mkDERPView {
  dw_Regions : slice DERPRegion;
  dw_Home : Z;
  dw_Revision : Z
}.

Record UserProfile := mkUserProfile {
  up_ID : Z;
  up_LoginName : string;
  up_DisplayName : string;
  up_ProfilePicURL : string;
  up_Groups : slice string
}.

Record Snapshot := mkSnapshot {
  sn_Revision : Z;
  sn_At : Z;
  sn_State : State;
  sn_LastError : string;
  sn_Interaction : option Interaction;
  sn_Client : ClientInfo;
  sn_Self : option NodeInfo;
  sn_Peers : slice PeerInfo;
  sn_Users : slice UserProfile;
  sn_DNS : DNSView;
  sn_ACL : ACLView;
  sn_Network : NetworkConfiguration;
  sn_DERP : DERPView;
  sn_Domain : string;
  sn_Health : slice string;
  sn_LocalEndpoints : slice LocalEndpoint;
  sn_ControlTime : option Z
}.

#[export] Instance DNSRecord_eq_dec : EqDecision DNSRecord.
Proof. solve_decision. Defined.

(** ** Views of the state *)

Section Views.
Context `{DevicePkg} `{RangeOrder} `{SliceSort}.
Implicit Types c : Client.

Definition nodeInfo (node : Node) : NodeInfo := {|
  ni_ID := Node_ID node; ni_StableID := Node_StableID node; ni_Name := Node_Name node;
  ni_UserID := Node_User node; ni_SharerID := Node_Sharer node; ni_PublicKey := Node_Key node;
  ni_MachinePublicKey := if key_IsZero (Node_Machine node) then "" else MachinePublic_String (Node_Machine node);
  ni_DiscoPublicKey := if key_IsZero (Node_DiscoKey node) then "" else DiscoPublic_String (Node_DiscoKey node);
  ni_Addresses := Clone (Node_Addresses node); ni_AllowedIPs := Clone (Node_AllowedIPs node);
  ni_Endpoints := Clone (Node_Endpoints node); ni_HomeDERP := homeDERP (Some node);
  ni_LegacyDERPString := Node_LegacyDERPString node; ni_CapabilityVersion := Node_Cap node;
  ni_KeySignature := Clone (Node_KeySignature node); ni_KeyExpiry := Node_KeyExpiry node;
  ni_Created := Node_Created node; ni_LastSeen := Node_LastSeen node; ni_Online := Node_Online node;
  ni_MachineAuthorized := Node_MachineAuthorized node; ni_Tags := Clone (Node_Tags node);
  ni_PrimaryRoutes := Clone (Node_PrimaryRoutes node); ni_Capabilities := Clone (Node_Capabilities node);
  ni_CapabilityMap := cloneCapabilityMap (Node_CapMap node);
  ni_UnsignedPeerAPIOnly := Node_UnsignedPeerAPIOnly node; ni_ComputedName := Node_ComputedName node;
  ni_ComputedNameWithHost := Node_ComputedNameWithHost node;
  ni_DataPlaneAuditLogID := Node_DataPlaneAuditLogID node; ni_Expired := Node_Expired node;
  ni_SelfNodeV4MasqAddrForThisPeer := Node_SelfNodeV4MasqAddrForThisPeer node;
  ni_SelfNodeV6MasqAddrForThisPeer := Node_SelfNodeV6MasqAddrForThisPeer node;
  ni_IsWireGuardOnly := Node_IsWireGuardOnly node; ni_IsJailed := Node_IsJailed node;
  ni_ExitNodeDNSResolvers := cloneRawMessages (Node_ExitNodeDNSResolvers node);
  ni_HostinfoJSON := Clone (Node_Hostinfo node); ni_RawJSON := Clone (Node_RawJSON node)
|}.

(** One peer of [peersViewLocked]. *)
Definition peerInfo c (node : Node) : PeerInfo :=
  let id := peerID node in
  let confirmation :=
    if opt_ConfirmPeers (c_opts c)
    then if bool_decide (id ∈ c_confirmed c) then PeerConfirmed else PeerAwaitingConfirmation
    else PeerConfirmationNotRequired in
  let local := default zeroPeerLocal (c_peerLocal c !! Node_Key node) in
  mkPeerInfo (nodeInfo node) id confirmation (pl_applied local) (pl_path local) (pl_direct local)
    (pl_latency local) (pl_pathAt local) (pl_err local).

Definition peer_less : PeerInfo → PeerInfo → bool :=
  lex_less (λ p, ni_Name (pi_Node p)) str_lt (λ x y, str_lt (pi_PeerID x) (pi_PeerID y)).

Definition peersViewLocked c : list PeerInfo :=
  sort_slice peer_less (map (λ '(_, node), peerInfo c node) (range 10 (c_peers c))).

Definition normalizeDNSName (value : string) : string :=
  ToLower (TrimRight (λ ch, bool_decide (ch = "."%char) || is_space ch) (TrimLeft is_space value)).

(** One of the control-provided extra records. *)
Definition extraRecord (record : CDNSRecord) : DNSRecord :=
  let typeName := ToUpper (CDNSRecord_Type record) in
  let plain := mkDNSRecord (CDNSRecord_Name record) typeName (CDNSRecord_Value record) in
  match ParseAddr (CDNSRecord_Value record) with
  | None => plain
  | Some address =>
      if bool_decide (typeName = "") || bool_decide (typeName = "A") || bool_decide (typeName = "AAAA") then
        let address := Unmap address in
        mkDNSRecord (CDNSRecord_Name record)
          (if bool_decide (typeName = "") || Is4 address then "A" else "AAAA") (addr_string address)
      else plain
  end.

(** [addNode]. *)
Definition nodeRecords (node : Node) : list DNSRecord :=
  if bool_decide (Node_Name node = "") then []
  else map (λ prefix, let address := Unmap (p_addr prefix) in
    mkDNSRecord (Node_Name node) (if Is6 address then "AAAA" else "A") (addr_string address)) (elems (Node_Addresses node)).

Definition record_less : DNSRecord → DNSRecord → bool :=
  lex_less (λ r, normalizeDNSName (dr_Name r)) str_lt
    (lex_less dr_Type str_lt (λ x y, str_lt (dr_Value x) (dr_Value y))).

Definition dnsViewLocked c : DNSView :=
  let extra := match c_dns c with Some dns => map extraRecord (elems (DNSConfig_ExtraRecords dns)) | None => [] end in
  let nodes := match c_self c with Some self => nodeRecords self | None => [] end
    ++ concat (map (λ '(_, node), nodeRecords node) (range 11 (c_peers c))) in
  let records := append None (compact (sort_slice record_less (extra ++ nodes))) in
  match c_dns c with
  | Some dns =>
      mkDNSView (DNSConfig_Proxied dns) (Clone (DNSConfig_Domains dns)) (Clone (DNSConfig_CertDomains dns))
        (Clone (DNSConfig_Nameservers dns)) (cloneRawMessages (DNSConfig_Resolvers dns))
        (cloneRawMessageMap (DNSConfig_Routes dns)) records (c_dnsRevision c)
  | None => mkDNSView false None None None None None records (c_dnsRevision c)
  end.

Definition aclRuleView (rule : FilterRule) : ACLRule :=
  mkACLRule (Clone (FilterRule_SrcIPs rule)) (Clone (FilterRule_SrcBits rule))
    (Some (map (λ destination, mkACLDestination (NetPortRange_IP destination) (NetPortRange_Bits destination)
       (mkPortRange (CPortRange_First (NetPortRange_Ports destination)) (CPortRange_Last (NetPortRange_Ports destination))))
       (elems (FilterRule_DstPorts rule))))
    (Clone (FilterRule_IPProto rule)) (cloneRawMessages (FilterRule_CapGrant rule)).

Definition aclViewLocked c : ACLView :=
  mkACLView (Some (map aclRuleView (elems (c_filters c))))
    (if bool_decide (c_namedFilters c = ∅) then None
     else Some ((λ rules, Some (map aclRuleView (elems rules))) <$> c_namedFilters c))
    (c_aclRevision c).

(** The routes of one applied peer. *)
Definition nodeRoutes c (node : Node) : list Route :=
  match c_peerLocal c !! Node_Key node with
  | None => []
  | Some local =>
      if negb (pl_applied local) then []
      else
        let prefixes := if bool_decide (elems (Node_AllowedIPs node) = []) then elems (Node_Addresses node)
                        else elems (Node_AllowedIPs node) in
        map (λ prefix, mkRoute prefix (peerID node) (Node_Key node)
          (bool_decide (prefix ∈ elems (Node_PrimaryRoutes node)))) prefixes
  end.

Definition route_less : Route → Route → bool :=
  λ x y, let compare := addr_compare (p_addr (rt_Prefix x)) (p_addr (rt_Prefix y)) in
    if negb (compare =? 0) then compare <? 0 else p_bits (rt_Prefix x) <? p_bits (rt_Prefix y).

Definition networkViewLocked c (dns : DNSView) : NetworkConfiguration := {|
  nc_InterfaceName := opt_InterfaceName (c_opts c);
  nc_Up := match c_self c with Some self => negb (Node_Expired self) && negb (stopping c) | None => false end;
  nc_MTU := opt_MTU (c_opts c);
  nc_Addresses := match c_self c with Some self => Clone (Node_Addresses self) | None => None end;
  nc_Routes := append None (sort_slice route_less (concat (map (λ '(_, node), nodeRoutes c node) (range 12 (c_peers c)))));
  nc_DNS := dns;
  nc_Revision := c_networkRevision c
|}.

Definition derpNodeView (node : CDERPNode) : DERPNode := {|
  dn_Name := CDERPNode_Name node; dn_RegionID := CDERPNode_RegionID node; dn_HostName := CDERPNode_HostName node;
  dn_CertName := CDERPNode_CertName node; dn_IPv4 := CDERPNode_IPv4 node; dn_IPv6 := CDERPNode_IPv6 node;
  dn_STUNPort := CDERPNode_STUNPort node; dn_DERPPort := CDERPNode_DERPPort node;
  dn_STUNOnly := CDERPNode_STUNOnly node; dn_InsecureForTests := CDERPNode_InsecureForTests node;
  dn_STUNTestIP := CDERPNode_STUNTestIP node |}.

Definition derpRegionView c (mapID : Z) (region : CDERPRegion) : DERPRegion :=
  let regionID := if mapID =? 0 then CDERPRegion_RegionID region else mapID in
  let metric := c_derpLatency c !! regionID in {|
  dg_ID := regionID; dg_Code := CDERPRegion_RegionCode region; dg_Name := CDERPRegion_RegionName region;
  dg_Latitude := CDERPRegion_Latitude region; dg_Longitude := CDERPRegion_Longitude region;
  dg_NoMeasureNoHome := CDERPRegion_NoMeasureNoHome region;
  dg_Latency := match metric with Some m => rl_Latency m | None => 0 end;
  dg_LatencySource := match metric with Some m => rl_Source m | None => "" end;
  dg_LatencyMeasuredAt := match metric with Some m => rl_At m | None => 0 end;
  dg_Nodes := append None (omap (λ node, derpNodeView <$> node) (elems (CDERPRegion_Nodes region))) |}.

Definition region_less (x y : DERPRegion) : bool := dg_ID x <? dg_ID y.

Definition derpViewLocked c : DERPView :=
  let home := if c_preferredDERP c =? 0 then homeDERP (c_self c) else c_preferredDERP c in
  match c_derpMap c with
  | None => mkDERPView None home (c_derpRevision c)
  | Some derpMap =>
      mkDERPView (append None (sort_slice region_less
        (omap (λ '(mapID, region), derpRegionView c mapID <$> region) (range 13 (default ∅ (DERPMap_Regions derpMap))))))
        home (c_derpRevision c)
  end.

Definition endpointSource (type : Z) : string :=
  if type =? EndpointLocal then "local"
  else if (type =? EndpointSTUN) || (type =? EndpointSTUN4LocalPort) then "stun"
  else if type =? EndpointPortmapped then "port-mapped"
  else if type =? EndpointExplicit then "explicit"
  else "unknown".

Definition Snapshot_of c : Snapshot :=
  let dns := dnsViewLocked c in {|
  sn_Revision := c_revision c; sn_At := c_at c; sn_State := c_state c; sn_LastError := c_lastError c;
  sn_Interaction := c_interaction c; sn_Client := c_info c; sn_Self := nodeInfo <$> c_self c;
  sn_Peers := Some (peersViewLocked c);
  sn_Users := Some (map (λ user, mkUserProfile (CUserProfile_ID user) (CUserProfile_LoginName user)
    (CUserProfile_DisplayName user) (CUserProfile_ProfilePicURL user) (Clone (CUserProfile_Groups user))) (elems (c_users c)));
  sn_DNS := dns; sn_ACL := aclViewLocked c; sn_Network := networkViewLocked c dns; sn_DERP := derpViewLocked c;
  sn_Domain := c_domain c; sn_Health := Clone (c_health c);
  sn_LocalEndpoints := Some (map (λ endpoint, mkLocalEndpoint (ec_Addr endpoint) (endpointSource (ec_Type endpoint))) (elems (c_endpoints c)));
  sn_ControlTime := c_controlTime c |}.

Definition Info c : ClientInfo := sn_Client (Snapshot_of c).
Definition State_of c : State := c_state c.
Definition CurrentInteraction c : option Interaction := c_interaction c.
Definition Peers c : list PeerInfo := elems (sn_Peers (Snapshot_of c)).
Definition Peer c (id : string) : option PeerInfo := find (λ peer, bool_decide (pi_PeerID peer = id)) (Peers c).
Definition DNS c : DNSView := sn_DNS (Snapshot_of c).
Definition ACL c : ACLView := sn_ACL (Snapshot_of c).
Definition DesiredNetworkConfiguration c : NetworkConfiguration := sn_Network (Snapshot_of c).
Definition DERP c : DERPView := sn_DERP (Snapshot_of c).
End Views.

(** ** The orders are weak orders *)

Section WeakOrders.
Context {K : Type} `{EqDecision K} (cmp : K → K → Z).
Context `{!Total (cmp_le cmp), !Transitive (cmp_le cmp), !AntiSymm (=) (cmp_le cmp)}.
Context (cmp_eq : ∀ x y, cmp x y = 0 ↔ x = y).

Lemma less_cmp x y : (cmp x y <? 0) = false ↔ cmp_le cmp y x.
Proof.
  rewrite Z.ltb_ge. unfold cmp_le. destruct (total (cmp_le cmp) x y) as [Hxy|Hyx]; unfold cmp_le in *.
  - split; intros Hc.
    + assert (x = y) as -> by (apply cmp_eq; lia). lia.
    + assert (x = y) as -> by by apply (anti_symm (cmp_le cmp)). assert (cmp y y = 0) by by apply cmp_eq. lia.
  - split; [done|]. intros _. destruct (Z.le_gt_cases 0 (cmp x y)) as [|Hlt]; [done|].
    assert (x = y) as -> by (apply (anti_symm (cmp_le cmp)); unfold cmp_le; lia).
    assert (cmp y y = 0) by by apply cmp_eq. lia.
Qed.

Lemma weak_order_cmp {A} (key : A → K) : weak_order (λ x y, cmp (key x) (key y) <? 0).
Proof.
  split; intros x y.
  - intros Hlt. apply less_cmp. unfold cmp_le. lia.
  - intros z. rewrite !less_cmp. intros. by etrans.
Qed.

Lemma weak_order_lex {A} (key : A → K) (rest : A → A → bool) :
  weak_order rest → weak_order (lex_less key (λ x y, cmp x y <? 0) rest).
Proof.
  intros [Ha Ht]. destruct (weak_order_cmp key) as [Ka Kt]. unfold lex_less. split.
  - intros x y. repeat case_bool_decide; try congruence; auto.
  - intros x y z. destruct (decide (key x = key y)) as [E1|E1], (decide (key y = key z)) as [E2|E2].
    + rewrite !bool_decide_eq_false_2 by (intros Hn; apply Hn; congruence). apply Ht.
    + rewrite (bool_decide_eq_false_2 (key y ≠ key x)) by (intros Hn; apply Hn; congruence).
      rewrite (bool_decide_eq_true_2 (key z ≠ key y)), (bool_decide_eq_true_2 (key z ≠ key x)) by congruence.
      by rewrite E1.
    + rewrite (bool_decide_eq_false_2 (key z ≠ key y)) by (intros Hn; apply Hn; congruence).
      rewrite (bool_decide_eq_true_2 (key y ≠ key x)), (bool_decide_eq_true_2 (key z ≠ key x)) by congruence.
      by rewrite E2.
    + rewrite (bool_decide_eq_true_2 (key y ≠ key x)), (bool_decide_eq_true_2 (key z ≠ key y)) by congruence.
      intros H1 H2. specialize (Kt x y z H1 H2). case_bool_decide as E3; [done|].
      rewrite less_cmp in H1, H2. rewrite E3 in H2.
      exfalso. apply E1. by apply (anti_symm (cmp_le cmp)).
Qed.
End WeakOrders.

Lemma peer_less_weak : weak_order peer_less.
Proof. apply (weak_order_lex scmp scmp_eq), (weak_order_cmp scmp scmp_eq pi_PeerID). Qed.

Lemma record_less_weak : weak_order record_less.
Proof.
  apply (weak_order_lex scmp scmp_eq), (weak_order_lex scmp scmp_eq dr_Type), (weak_order_cmp scmp scmp_eq dr_Value).
Qed.

Lemma route_less_weak : weak_order route_less.
Proof.
  pose proof (weak_order_lex addr_compare addr_compare_eq (λ r, p_addr (rt_Prefix r))
    (λ x y, p_bits (rt_Prefix x) <? p_bits (rt_Prefix y))) as Hw.
  assert (weak_order (λ x y : Route, p_bits (rt_Prefix x) <? p_bits (rt_Prefix y))) as Hb by (split; intros; lia).
  specialize (Hw Hb).
  assert (∀ x y, route_less x y = lex_less (λ r, p_addr (rt_Prefix r)) (λ x y, addr_compare x y <? 0)
    (λ x y, p_bits (rt_Prefix x) <? p_bits (rt_Prefix y)) x y) as He.
  { intros x y. unfold route_less, lex_less. cbv zeta. rewrite (bool_decide_ext _ (addr_compare (p_addr (rt_Prefix x)) (p_addr (rt_Prefix y)) ≠ 0)).
    - by destruct (Z.eqb_spec (addr_compare (p_addr (rt_Prefix x)) (p_addr (rt_Prefix y))) 0); case_bool_decide.
    - by rewrite addr_compare_eq. }
  destruct Hw as [Ha Ht]. split; intros *; rewrite !He; [apply Ha|apply Ht].
Qed.

Lemma region_less_weak : weak_order region_less.
Proof. unfold region_less. split; intros; lia. Qed.

(** ** What the views show *)

Section ViewFacts.
Context `{DevicePkg} `{RangeOrder} `{SliceSort}.
Implicit Types c : Client.

Lemma Permutation_range {K V B} `{Countable K} site (m : gmap K V) (f : V → B) :
  map (λ '(_, v), f v) (range site m) ≡ₚ map (λ '(_, v), f v) (map_to_list m).
Proof. apply Permutation_map, range_ok. Qed.

Lemma elem_of_peersView c p : p ∈ Peers c ↔ ∃ id node, c_peers c !! id = Some node ∧ p = peerInfo c node.
Proof.
  unfold Peers. cbn. unfold peersViewLocked. rewrite elem_of_sort_slice, list_elem_of_fmap. split.
  - intros ([id node] & -> & Hin). apply elem_of_range in Hin. eauto.
  - intros (id & node & Hn & ->). exists (id, node). split; [done|]. by apply elem_of_range.
Qed.

(** The peer list is complete and ordered.  [Peers] shows every stored peer
    once, with its local state, sorted by name and then by peer identifier in
    whatever order Go ranges over its maps; [Peer id] finds a peer with that
    identifier whenever there is one. *)
Theorem Peers_complete c :
  Peers c ≡ₚ map (λ '(_, node), peerInfo c node) (map_to_list (c_peers c)) ∧
  StronglySorted (λ x y, peer_less y x = false) (Peers c) ∧
  (∀ id, match Peer c id with
         | Some p => pi_PeerID p = id ∧ p ∈ Peers c
         | None => ∀ k node, c_peers c !! k = Some node → peerID node ≠ id
         end).
Proof.
  split_and!.
  - unfold Peers. cbn. unfold peersViewLocked. rewrite sort_slice_perm. apply Permutation_range.
  - apply sort_slice_sorted, peer_less_weak.
  - intros id. unfold Peer. destruct (find _ _) as [p|] eqn:Ef.
    + apply find_some in Ef as [Hin Hp]. split; [by apply bool_decide_eq_true in Hp|]. by apply list_elem_of_In.
    + intros k node Hk Hid. assert (peerInfo c node ∈ Peers c) as Hin by (apply elem_of_peersView; eauto).
      apply list_elem_of_In in Hin. pose proof (find_none _ _ Ef _ Hin) as Hn. cbn in Hn.
      by apply bool_decide_eq_false in Hn.
Qed.

(** The prefixes a peer's routes are made of. *)
Definition route_prefixes (node : Node) : list Prefix :=
  if bool_decide (elems (Node_AllowedIPs node) = []) then elems (Node_Addresses node) else elems (Node_AllowedIPs node).

Lemma elem_of_nodeRoutes c node r : client_inv c →
  r ∈ nodeRoutes c node ↔ is_Some (c_applied c !! Node_Key node) ∧ rt_Prefix r ∈ route_prefixes node ∧
    r = mkRoute (rt_Prefix r) (peerID node) (Node_Key node) (bool_decide (rt_Prefix r ∈ elems (Node_PrimaryRoutes node))).
Proof.
  intros Hi. pose proof (inv_applied _ Hi (Node_Key node)) as Ha. rewrite Ha. unfold nodeRoutes. fold (route_prefixes node).
  destruct (c_peerLocal c !! Node_Key node) as [l|]; [|set_solver].
  destruct (pl_applied l) eqn:El; cbn [negb].
  - rewrite list_elem_of_fmap. split.
    + intros (p & -> & Hp). split; [by eauto|]. done.
    + intros (_ & Hp & Hr). by exists (rt_Prefix r).
  - split; [set_solver|]. intros [(l' & [= <-] & Hl') _]. congruence.
Qed.

(** C34. The desired network configuration announces exactly the routes of peers
    applied to the device.  In every client that satisfies the invariant a route
    is listed if and only if it is an allowed prefix (or, without allowed
    prefixes, an address) of a stored peer whose spec the client has applied; the
    routes come sorted by address and length; and the interface is up only while
    the client has a self node that has not expired and is not stopping. *)
Theorem DesiredNetworkConfiguration_routes c (Hi : client_inv c) :
  let view := DesiredNetworkConfiguration c in
  (∀ r, r ∈ elems (nc_Routes view) ↔ ∃ id node, c_peers c !! id = Some node ∧
     is_Some (c_applied c !! Node_Key node) ∧ rt_Prefix r ∈ route_prefixes node ∧
     r = mkRoute (rt_Prefix r) (peerID node) (Node_Key node) (bool_decide (rt_Prefix r ∈ elems (Node_PrimaryRoutes node)))) ∧
  StronglySorted (λ x y, route_less y x = false) (elems (nc_Routes view)) ∧
  (nc_Up view = true ↔ (∃ self, c_self c = Some self ∧ Node_Expired self = false) ∧ c_closed c = false).
Proof.
  cbv zeta. unfold DesiredNetworkConfiguration, Snapshot_of. cbv zeta. cbn [sn_Network]. unfold networkViewLocked.
  cbn [nc_Routes nc_Up]. rewrite !elems_append. cbn [elems app default]. split_and!.
  - intros r. rewrite elem_of_sort_slice, list_elem_of_In, in_concat. split.
    + intros (l & Hl & Hr). apply list_elem_of_In in Hl, Hr. apply list_elem_of_fmap in Hl as ([id node] & -> & Hin).
      apply elem_of_range in Hin. apply elem_of_nodeRoutes in Hr; [|done]. eauto 6.
    + intros (id & node & Hn & Hr). exists (nodeRoutes c node).
      rewrite <-!list_elem_of_In. split; [|by apply elem_of_nodeRoutes].
      apply list_elem_of_fmap. exists (id, node). split; [done|]. by apply elem_of_range.
  - apply sort_slice_sorted, route_less_weak.
  - rewrite (stopping_closed c Hi). destruct (c_self c) as [self|].
    + destruct (Node_Expired self) eqn:E, (c_closed c); cbn; naive_solver.
    + naive_solver.
Qed.
End ViewFacts.
