(* ===== verification/Dns.v ===== *)
(** * In-memory MagicDNS ([dns.go])

    [resolveDNSName] follows CNAME records through a map of records and a
    [seen] map that the recursive calls share, here threaded as a set.  Its
    fuel is one more than the number of names with records, which is enough: each
    recursive call that does any work marks one more of them. *)

From Stdlib Require Import ZArith Lia Ascii String Strings.Byte.

From S2P Require Export Views.
Open Scope Z_scope.

(** [net.DNSError] and the errors of a context. *)
Inductive LookupError :=
| LookupCtx (err : error)
| LookupDNS (Err Name : string) (IsNotFound : bool).

(** ** Resolution *)

(** Whether an address has the family the network asks for. *)
Definition familyOk (network : string) (address : Addr) : bool :=
  negb ((bool_decide (network = "ip4") && negb (Is4 address)) || (bool_decide (network = "ip6") && negb (Is6 address))).

(** What one record contributes: an address, another name to follow, or nothing. *)
Definition recordStep (network : string) (record : DNSRecord) : list Addr + string :=
  let type := ToUpper (dr_Type record) in
  if bool_decide (type = "A") || bool_decide (type = "AAAA") then
    inl match ParseAddr (dr_Value record) with
        | None => []
        | Some address => let address := Unmap address in if familyOk network address then [address] else []
        end
  else if bool_decide (type = "CNAME") then inr (normalizeDNSName (dr_Value record))
  else inl [].

Section Resolve.
Context (records : gmap string (list DNSRecord)) (network : string).

(** [None] when the fuel does not suffice. *)
Fixpoint resolveDNSName (fuel : nat) (name : string) (seen : gset string) : option (list Addr * gset string) :=
  match fuel with
  | O => None
  | S fuel =>
      if bool_decide (name ∈ seen) then Some ([], seen)
      else
        (fix loop (recs : list DNSRecord) (result : list Addr) (seen : gset string) :=
           match recs with
           | [] => Some (result, seen)
           | record :: recs =>
               match recordStep network record with
               | inl addresses => loop recs (result ++ addresses) seen
               | inr target =>
                   match resolveDNSName fuel target seen with
                   | None => None
                   | Some (addresses, seen) => loop recs (result ++ addresses) seen
                   end
               end
           end) (default [] (records !! name)) [] ({[name]} ∪ seen)
  end.
End Resolve.

(** ** The resolver *)

Section Resolver.
Context `{DevicePkg} `{RangeOrder} `{SliceSort}.

(** The records of a view by name, in view order. *)
Definition recordsByName (view : DNSView) : gmap string (list DNSRecord) :=
  foldl (λ m record, let name := normalizeDNSName (dr_Name record) in
    <[name := default [] (m !! name) ++ [record]]> m) ∅ (elems (dv_Records view)).

(** The names tried for a host, in order. *)
Definition lookupNames (view : DNSView) (host : string) : list string :=
  let absolute := HasSuffixChar "." (TrimSpace host) in
  normalizeDNSName host ::
  (if negb absolute && negb (ContainsChar "." host)
   then map (λ domain, normalizeDNSName (host +:+ "." +:+ domain)) (elems (dv_SearchDomains view)) else []).

Definition resolveFresh (records : gmap string (list DNSRecord)) (network name : string) : list Addr :=
  match resolveDNSName records network (S (size records)) name ∅ with
  | Some (addresses, _) => addresses
  | None => []
  end.

(** The loop over the names: it stops at the first name that resolves. *)
Fixpoint firstResolved (records : gmap string (list DNSRecord)) (network : string) (names : list string) : list Addr :=
  match names with
  | [] => []
  | name :: names =>
      let result := resolveFresh records network name in
      if bool_decide (result = []) then firstResolved records network names else result
  end.

Definition LookupNetIP (ctx : option error) (c : Client) (network host : string) : result LookupError (list Addr) :=
  match ctx with
  | Some e => Err (LookupCtx e)
  | None =>
      if negb (bool_decide (network ∈ [""; "ip"; "ip4"; "ip6"])) then Err (LookupDNS "unsupported network" host false)
      else
        let view := DNS c in
        let result := compact (sort_func addr_compare (firstResolved (recordsByName view) network (lookupNames view host))) in
        if bool_decide (result = []) then Err (LookupDNS "no such MagicDNS host" host true) else Ok result
  end.

Definition LookupHost (ctx : option error) (c : Client) (host : string) : result LookupError (list string) :=
  match LookupNetIP ctx c "ip" host with
  | Err e => Err e
  | Ok addresses => Ok (map addr_string addresses)
  end.

Definition LookupAddr (ctx : option error) (c : Client) (address : string) : result LookupError (list string) :=
  match ctx with
  | Some e => Err (LookupCtx e)
  | None =>
      match ParseAddr address with
      | None => Err (LookupDNS "invalid address" address false)
      | Some want =>
          let names := omap (λ record,
            match ParseAddr (dr_Value record) with
            | Some value => if bool_decide (Unmap value = Unmap want) then Some (dr_Name record) else None
            | None => None
            end) (elems (dv_Records (DNS c))) in
          let result := compact (sort_strings names) in
          if bool_decide (result = []) then Err (LookupDNS "no reverse MagicDNS record" address true) else Ok result
      end
  end.
End Resolver.

(** ** Resolution finds exactly the reachable addresses *)

Section Reach.
Context (records : gmap string (list DNSRecord)) (network : string).

Definition recs_of (name : string) : list DNSRecord := default [] (records !! name).

(** [name] has a CNAME record for [target]. *)
Definition alias (name target : string) : Prop :=
  ∃ record, record ∈ recs_of name ∧ recordStep network record = inr target.

(** [name] has an address record for [a]. *)
Definition has_addr (name : string) (a : Addr) : Prop :=
  ∃ record addresses, record ∈ recs_of name ∧ recordStep network record = inl addresses ∧ a ∈ addresses.

(** What a call started with [seen] has done when it returns [result] and
    [seen']: the newly seen names are closed under aliases up to [seen'], and the
    result holds exactly their addresses. *)
Record explored (from : list string) (seen seen' : gset string) (result : list Addr) : Prop := {
  ex_mono : seen ⊆ seen';
  ex_from : ∀ n, n ∈ from → n ∈ seen';
  ex_reach : ∀ n, n ∈ seen' → n ∉ seen → ∃ f, f ∈ from ∧ rtc alias f n;
  ex_alias : ∀ n t, n ∈ seen' → n ∉ seen → alias n t → t ∈ seen';
  ex_addr : ∀ a, a ∈ result ↔ ∃ n, n ∈ seen' ∧ n ∉ seen ∧ has_addr n a
}.

Lemma explored_nil seen : explored [] seen seen [].
Proof. split; [done|set_solver|set_solver|set_solver|]. intros a. split; [set_solver|]. by intros (n & ? & ? & _). Qed.

Lemma explored_app from from' seen s1 s2 r1 r2 :
  explored from seen s1 r1 → explored from' s1 s2 r2 → explored (from ++ from') seen s2 (r1 ++ r2).
Proof.
  intros [M1 F1 R1 A1 D1] [M2 F2 R2 A2 D2]. split.
  - set_solver.
  - intros n. rewrite elem_of_app. set_solver.
  - intros n Hn Hs. destruct (decide (n ∈ s1)) as [H1|H1].
    + destruct (R1 n H1 Hs) as (f & ? & ?). exists f. split; [set_solver|done].
    + destruct (R2 n Hn H1) as (f & ? & ?). exists f. split; [set_solver|done].
  - intros n t Hn Hs Ha. destruct (decide (n ∈ s1)) as [H1|H1]; [apply M2; by eapply A1|by eapply A2].
  - intros a. rewrite elem_of_app, D1, D2. split.
    + intros [(n & ? & ? & ?)|(n & ? & ? & ?)]; exists n; (split; [set_solver|]); (split; [set_solver|done]).
    + intros (n & ? & ? & ?). destruct (decide (n ∈ s1)); [left|right]; by exists n.
Qed.

(** The unseen names that have records. *)
Definition unseen (seen : gset string) : nat := size (dom records ∖ seen).

Lemma unseen_mono s s' : s ⊆ s' → (unseen s' ≤ unseen s)%nat.
Proof. intros. unfold unseen. apply subseteq_size. set_solver. Qed.

Lemma unseen_lt name s : name ∈ dom records → name ∉ s → (unseen ({[name]} ∪ s) < unseen s)%nat.
Proof. intros. unfold unseen. apply subset_size. set_solver. Qed.

(** The loop over the records of a name, with the recursive call abstracted. *)
Fixpoint resolve_loop (rec : string → gset string → option (list Addr * gset string))
    (recs : list DNSRecord) (result : list Addr) (seen : gset string) : option (list Addr * gset string) :=
  match recs with
  | [] => Some (result, seen)
  | record :: recs =>
      match recordStep network record with
      | inl addresses => resolve_loop rec recs (result ++ addresses) seen
      | inr target =>
          match rec target seen with
          | None => None
          | Some (addresses, seen) => resolve_loop rec recs (result ++ addresses) seen
          end
      end
  end.

Lemma resolve_unfold fuel name seen :
  resolveDNSName records network (S fuel) name seen =
  if bool_decide (name ∈ seen) then Some ([], seen)
  else resolve_loop (resolveDNSName records network fuel) (recs_of name) [] ({[name]} ∪ seen).
Proof. cbn [resolveDNSName]. case_bool_decide; [done|]. unfold recs_of. generalize (@nil Addr), ({[name]} ∪ seen).
  induction (default [] (records !! name)) as [|r l IH]; intros result s; cbn; [done|].
  destruct (recordStep network r); [apply IH|]. destruct (resolveDNSName records network fuel _ s) as [[? ?]|]; [apply IH|done].
Qed.

Definition targets (recs : list DNSRecord) : list string :=
  omap (λ r, match recordStep network r with inr t => Some t | inl _ => None end) recs.

Definition own_addrs (recs : list DNSRecord) : list Addr :=
  concat (map (λ r, match recordStep network r with inl l => l | inr _ => [] end) recs).

Lemma resolve_loop_ok rec recs : ∀ result seen bound,
  (∀ target s, (unseen s ≤ bound)%nat → ∃ r s', rec target s = Some (r, s') ∧ explored [target] s s' r) →
  (unseen seen ≤ bound)%nat →
  ∃ extra r seen', resolve_loop rec recs result seen = Some (r, seen') ∧
    explored (targets recs) seen seen' extra ∧ (∀ a, a ∈ r ↔ a ∈ result ∨ a ∈ own_addrs recs ∨ a ∈ extra).
Proof.
  induction recs as [|record recs IH]; intros result seen bound Hrec Hb; cbn [resolve_loop].
  { exists [], result, seen. split; [done|]. split; [apply explored_nil|]. set_solver. }
  unfold targets, own_addrs. cbn [omap list_omap map concat]. destruct (recordStep network record) as [addresses|target].
  - destruct (IH (result ++ addresses) seen bound Hrec Hb) as (extra & r & s' & E & Hex & Hr).
    exists extra, r, s'. split; [done|]. split; [done|]. intros a. rewrite Hr. rewrite !elem_of_app. fold (own_addrs recs). tauto.
  - destruct (Hrec target seen Hb) as (r1 & s1 & E1 & Hex1). rewrite E1.
    destruct (IH (result ++ r1) s1 bound Hrec) as (extra & r & s' & E & Hex & Hr).
    { pose proof (unseen_mono seen s1 (ex_mono _ _ _ _ Hex1)). lia. }
    exists (r1 ++ extra), r, s'. split; [done|]. split; [by apply (explored_app [target] _ _ s1)|].
    intros a. rewrite Hr, !elem_of_app. fold (own_addrs recs). set_solver.
Qed.

Lemma elem_of_targets name t : t ∈ targets (recs_of name) ↔ alias name t.
Proof.
  unfold targets, alias. rewrite list_elem_of_omap. split.
  - intros (r & Hr & E). exists r. destruct (recordStep network r); naive_solver.
  - intros (r & Hr & E). exists r. by rewrite E.
Qed.

Lemma elem_of_own_addrs name a : a ∈ own_addrs (recs_of name) ↔ has_addr name a.
Proof.
  unfold own_addrs, has_addr. rewrite list_elem_of_In, in_concat. split.
  - intros (l & Hl & Ha). apply list_elem_of_In, list_elem_of_fmap in Hl as (r & -> & Hr). apply list_elem_of_In in Ha.
    exists r. destruct (recordStep network r) as [l|]; [|by apply not_elem_of_nil in Ha]. by exists l.
  - intros (r & l & Hr & E & Ha). exists l. split; [|by apply list_elem_of_In]. apply list_elem_of_In, list_elem_of_fmap.
    exists r. by rewrite E.
Qed.

(** A visit of an unseen name is an exploration once its targets are explored. *)
Lemma explored_visit name seen seen' extra r :
  name ∉ seen → explored (targets (recs_of name)) ({[name]} ∪ seen) seen' extra →
  (∀ a, a ∈ r ↔ a ∈ own_addrs (recs_of name) ∨ a ∈ extra) → explored [name] seen seen' r.
Proof.
  intros Hn [M F R A Dd] Hr. assert (name ∈ seen') as Hin by set_solver. split.
  - set_solver.
  - intros n Hn'. apply list_elem_of_singleton in Hn' as ->. done.
  - intros n Hn' Hs. exists name. split; [set_solver|]. destruct (decide (n = name)) as [->|]; [done|].
    destruct (R n Hn') as (f & Hf & Hc); [set_solver|]. apply elem_of_targets in Hf. by eapply rtc_l.
  - intros n t Hn' Hs Ha. destruct (decide (n = name)) as [->|]; [apply F; by apply elem_of_targets|].
    eapply A; [done| |done]. set_solver.
  - intros a. rewrite Hr, elem_of_own_addrs, Dd. split.
    + intros [Ha|(n & ? & ? & ?)]; [by exists name|]. exists n. set_solver.
    + intros (n & ? & ? & ?). destruct (decide (n = name)) as [->|]; [by left|]. right. exists n. set_solver.
Qed.

Lemma resolve_ok fuel : ∀ name seen, (unseen seen < fuel)%nat →
  ∃ r seen', resolveDNSName records network fuel name seen = Some (r, seen') ∧ explored [name] seen seen' r.
Proof.
  induction fuel as [|fuel IH]; intros name seen Hf; [lia|]. rewrite resolve_unfold.
  case_bool_decide as Hin.
  { exists [], seen. split; [done|]. split; [done|set_solver|set_solver|set_solver|]. intros a. split; [set_solver|].
    by intros (? & ? & ? & _). }
  assert (∃ extra r seen', resolve_loop (resolveDNSName records network fuel) (recs_of name) [] ({[name]} ∪ seen) = Some (r, seen') ∧
    explored (targets (recs_of name)) ({[name]} ∪ seen) seen' extra ∧
    (∀ a, a ∈ r ↔ a ∈ [] ∨ a ∈ own_addrs (recs_of name) ∨ a ∈ extra)) as (extra & r & seen' & E & Hex & Hr).
  { destruct (records !! name) as [recs|] eqn:Er.
    - apply (resolve_loop_ok _ _ [] _ (unseen ({[name]} ∪ seen))); [|done]. intros target s Hs. apply IH.
      pose proof (unseen_lt name seen (elem_of_dom_2 _ _ _ Er) Hin). lia.
    - unfold recs_of. rewrite Er. exists [], [], ({[name]} ∪ seen). split; [done|]. split; [apply explored_nil|]. set_solver. }
  exists r, seen'. split; [done|]. apply (explored_visit name seen seen' extra); [done..|].
  intros a. rewrite Hr. set_solver.
Qed.

Lemma explored_complete name seen' r a : explored [name] ∅ seen' r →
  a ∈ r ↔ ∃ n, rtc alias name n ∧ has_addr n a.
Proof.
  intros [M F R A Dd]. rewrite Dd. split.
  - intros (n & Hn & Hs & Ha). destruct (R n Hn Hs) as (f & Hf & Hc). apply list_elem_of_singleton in Hf as ->. eauto.
  - intros (n & Hc & Ha). exists n. split; [|set_solver].
    assert (name ∈ seen') as Hin by set_solver. clear -Hc Hin A. induction Hc; [done|]. apply IHHc. eapply A; [done|set_solver|done].
Qed.

End Reach.

(** ** Lookups *)

Section Lookups.
Context `{DevicePkg} `{RangeOrder} `{SliceSort}.
Implicit Types c : Client.

(** The addresses of the names reachable from [name] in a view. *)
Definition resolves (view : DNSView) (network name : string) (a : Addr) : Prop :=
  ∃ n, rtc (alias (recordsByName view) network) name n ∧ has_addr (recordsByName view) network n a.

Lemma resolveFresh_iff view network name a :
  a ∈ resolveFresh (recordsByName view) network name ↔ resolves view network name a.
Proof.
  destruct (resolve_ok (recordsByName view) network (S (size (recordsByName view))) name ∅) as (r & s & E & Hex).
  { unfold unseen. rewrite difference_empty_L, size_dom. lia. }
  unfold resolveFresh. rewrite E. by apply (explored_complete _ _ _ s).
Qed.

Lemma firstResolved_spec view network names :
  let result := firstResolved (recordsByName view) network names in
  (result = [] ∧ ∀ n a, n ∈ names → ¬ resolves view network n a) ∨
  (result ≠ [] ∧ ∃ before name after, names = before ++ name :: after ∧
     (∀ n a, n ∈ before → ¬ resolves view network n a) ∧ (∀ a, a ∈ result ↔ resolves view network name a)).
Proof.
  cbv zeta. induction names as [|name names IH]; cbn [firstResolved]; [left; set_solver|].
  cbv zeta. case_bool_decide as E.
  - assert (∀ a, ¬ resolves view network name a) as Hn.
    { intros a Ha. apply resolveFresh_iff in Ha. rewrite E in Ha. set_solver. }
    destruct IH as [[-> IH]|(Hne & before & n & after & -> & Hb & Hr)]; [left; set_solver|].
    right. split; [done|]. exists (name :: before), n, after. split; [done|]. set_solver.
  - right. split; [done|]. exists [], name, names. split; [done|]. split; [set_solver|]. apply resolveFresh_iff.
Qed.

(** An address record of a name in the view. *)
Lemma recordsByName_lookup view name record :
  record ∈ recs_of (recordsByName view) name ↔
  record ∈ elems (dv_Records view) ∧ normalizeDNSName (dr_Name record) = name.
Proof.
  unfold recordsByName, recs_of.
  enough (∀ l (m : gmap string (list DNSRecord)), record ∈ default [] (foldl (λ m record, let name := normalizeDNSName (dr_Name record) in
      <[name := default [] (m !! name) ++ [record]]> m) m l !! name) ↔
    record ∈ default [] (m !! name) ∨ record ∈ l ∧ normalizeDNSName (dr_Name record) = name) as Hg.
  { rewrite Hg, lookup_empty. set_solver. }
  induction l as [|r l IH]; intros m; cbn [foldl]; [set_solver|]. rewrite IH. cbv zeta.
  destruct (decide (normalizeDNSName (dr_Name r) = name)) as [<-|Hn].
  - rewrite lookup_insert_eq. cbn [default]. set_solver.
  - rewrite lookup_insert_ne by done. set_solver.
Qed.

Lemma has_addr_family view network n a :
  has_addr (recordsByName view) network n a → familyOk network a = true.
Proof.
  intros (r & l & _ & E & Ha). unfold recordStep in E. cbv zeta in E. case_match; [|by case_match; simplify_eq; set_solver].
  injection E as <-. destruct (ParseAddr (dr_Value r)); [|set_solver]. case_match; [|set_solver].
  by apply list_elem_of_singleton in Ha as ->.
Qed.

(** C32. Name lookup is exact.  For a supported network [LookupNetIP] returns the
    addresses the first resolvable candidate (the host itself, then the host in
    each search domain when it is a bare name) reaches, all of the asked family,
    sorted and without repetition; it fails with a not-found error exactly when no
    candidate reaches an address. *)
Theorem LookupNetIP_exact c network host (Hn : network ∈ [""; "ip"; "ip4"; "ip6"]) :
  match LookupNetIP None c network host with
  | Ok l =>
      (∃ before name after, lookupNames (DNS c) host = before ++ name :: after ∧
         (∀ n a, n ∈ before → ¬ resolves (DNS c) network n a) ∧ (∀ a, a ∈ l ↔ resolves (DNS c) network name a)) ∧
      l ≠ [] ∧ NoDup l ∧ StronglySorted (cmp_le addr_compare) l ∧ Forall (λ a, familyOk network a = true) l
  | Err e => e = LookupDNS "no such MagicDNS host" host true ∧
      ∀ n a, n ∈ lookupNames (DNS c) host → ¬ resolves (DNS c) network n a
  end.
Proof.
  unfold LookupNetIP. rewrite bool_decide_eq_true_2 by done. cbn [negb]. cbv zeta.
  destruct (firstResolved_spec (DNS c) network (lookupNames (DNS c) host)) as [[E Hall]|(Hne & before & name & after & En & Hb & Hr)].
  { rewrite E. cbn. auto. }
  set (result := firstResolved _ _ _) in *. set (l := compact (sort_func addr_compare result)).
  assert (∀ a, a ∈ l ↔ a ∈ result) as Hl by (intros a; unfold l; by rewrite elem_of_compact, elem_of_sort_func).
  assert (l ≠ []) as Hne'.
  { unfold l. rewrite compact_nil_iff. intros E0. apply Hne, Permutation_nil_r. by rewrite <-E0, sort_func_perm. }
  rewrite bool_decide_eq_false_2 by done.
  split_and!.
  - exists before, name, after. split_and!; [done..|]. intros a. by rewrite Hl, Hr.
  - done.
  - apply (compact_NoDup (cmp_le addr_compare)), sort_func_sorted; apply _.
  - apply compact_sorted, sort_func_sorted; apply _.
  - apply Forall_forall. intros a Ha. rewrite Hl, Hr in Ha. destruct Ha as (n & _ & Ha). by eapply has_addr_family.
Qed.

Lemma elem_of_view_records c record :
  record ∈ elems (dv_Records (DNS c)) ↔
    (∃ dns extra, c_dns c = Some dns ∧ extra ∈ elems (DNSConfig_ExtraRecords dns) ∧ record = extraRecord extra) ∨
    (∃ node, (c_self c = Some node ∨ ∃ id, c_peers c !! id = Some node) ∧ record ∈ nodeRecords node).
Proof.
  assert (dv_Records (DNS c) = append None (compact (sort_slice record_less (
    match c_dns c with Some dns => map extraRecord (elems (DNSConfig_ExtraRecords dns)) | None => [] end ++
    match c_self c with Some self => nodeRecords self | None => [] end ++
    concat (map (λ '(_, node), nodeRecords node) (range 11 (c_peers c))))))) as ->.
  { unfold DNS, Snapshot_of, dnsViewLocked. cbv zeta. cbn [sn_DNS]. by destruct (c_dns c). }
  rewrite elems_append. cbn [elems default app]. rewrite elem_of_compact, elem_of_sort_slice, !elem_of_app.
  assert (record ∈ concat (map (λ '(_, node), nodeRecords node) (range 11 (c_peers c))) ↔
    ∃ node, (∃ id, c_peers c !! id = Some node) ∧ record ∈ nodeRecords node) as ->.
  { rewrite list_elem_of_In, in_concat. split.
    - intros (l & Hl & Hr). apply list_elem_of_In, list_elem_of_fmap in Hl as ([id node] & -> & Hin).
      apply elem_of_range in Hin. apply list_elem_of_In in Hr. eauto.
    - intros (node & [id Hid] & Hr). exists (nodeRecords node). rewrite <-!list_elem_of_In. split; [|done].
      apply list_elem_of_fmap. exists (id, node). split; [done|]. by apply elem_of_range. }
  destruct (c_dns c) as [dns|], (c_self c) as [self|]; rewrite ?list_elem_of_fmap; split; try set_solver; naive_solver.
Qed.

(** A stored node's IPv4 address, as the view records it. *)
Lemma nodeRecords_ipv4 node prefix v : Node_Name node ≠ "" → prefix ∈ elems (Node_Addresses node) →
  Unmap (p_addr prefix) = Addr4 v → mkDNSRecord (Node_Name node) "A" (addr_string (Addr4 v)) ∈ nodeRecords node.
Proof.
  intros Hne Hp Hv. unfold nodeRecords. rewrite bool_decide_eq_false_2 by done.
  apply list_elem_of_fmap. exists prefix. split; [|done]. cbv zeta. by rewrite Hv.
Qed.

Lemma recordStep_ipv4 name v network : 0 ≤ v < 2 ^ 32 → network ≠ "ip6" →
  recordStep network (mkDNSRecord name "A" (addr_string (Addr4 v))) = inl [Addr4 v].
Proof.
  intros Hv Hn. unfold recordStep. cbv zeta. cbn [dr_Type dr_Value]. change (ToUpper "A") with "A".
  rewrite bool_decide_eq_true_2 by done. cbn [orb]. rewrite ParseAddr_string4 by done. cbn [Unmap].
  unfold familyOk. cbn [Is4 Is6 negb]. rewrite andb_false_r, (bool_decide_eq_false_2 (network = "ip6")) by done. done.
Qed.

(** C33. Every node of the map resolves both ways.  For a stored node (self or
    peer) with a name and an IPv4 address, [LookupNetIP] of the name on any network
    but [ip6] returns a list with that address, and [LookupAddr] of the address
    text returns a list with that name. *)
Theorem node_resolves c node prefix v network
    (Hnode : c_self c = Some node ∨ ∃ id, c_peers c !! id = Some node) (Hname : Node_Name node ≠ "")
    (Hprefix : prefix ∈ elems (Node_Addresses node)) (Hv : Unmap (p_addr prefix) = Addr4 v) (Hr : 0 ≤ v < 2 ^ 32)
    (Hnet : network ∈ [""; "ip"; "ip4"]) :
  (∃ l, LookupNetIP None c network (Node_Name node) = Ok l ∧ Addr4 v ∈ l) ∧
  (∃ l, LookupAddr None c (addr_string (Addr4 v)) = Ok l ∧ Node_Name node ∈ l).
Proof.
  set (record := mkDNSRecord (Node_Name node) "A" (addr_string (Addr4 v))).
  assert (record ∈ elems (dv_Records (DNS c))) as Hin.
  { apply elem_of_view_records. right. exists node. split; [done|]. by eapply nodeRecords_ipv4. }
  assert (resolves (DNS c) network (normalizeDNSName (Node_Name node)) (Addr4 v)) as Hres.
  { exists (normalizeDNSName (Node_Name node)). split; [done|]. exists record, [Addr4 v]. split_and!; [|apply recordStep_ipv4|]; [|done|set_solver|set_solver].
    by apply recordsByName_lookup. }
  split.
  - unfold LookupNetIP. rewrite bool_decide_eq_true_2 by set_solver. cbn [negb]. cbv zeta.
    unfold lookupNames. cbv zeta. cbn [firstResolved]. cbv zeta.
    pose proof (proj2 (resolveFresh_iff _ _ _ _) Hres) as Hf.
    rewrite (bool_decide_eq_false_2 (resolveFresh _ _ _ = [])) by (intros E; rewrite E in Hf; set_solver).
    set (l := compact _). assert (Addr4 v ∈ l) as Hl by (unfold l; by rewrite elem_of_compact, elem_of_sort_func).
    rewrite bool_decide_eq_false_2 by (intros E; rewrite E in Hl; set_solver). eauto.
  - unfold LookupAddr. rewrite ParseAddr_string4 by done. cbv zeta. set (l := compact _).
    assert (Node_Name node ∈ l) as Hl.
    { unfold l. rewrite elem_of_compact. unfold sort_strings. rewrite elem_of_sort_func, list_elem_of_omap.
      exists record. split; [done|]. cbn [dr_Value dr_Name record]. rewrite ParseAddr_string4 by done. by rewrite bool_decide_eq_true_2. }
    rewrite bool_decide_eq_false_2 by (intros E; rewrite E in Hl; set_solver). eauto.
Qed.
End Lookups.

(** A record without a type is labelled [A] whatever its address is: the view
    of an untyped extra record with an IPv6 address has the type [A] and an IPv6
    value, while a record typed [A] or [AAAA] gets the type of its address. *)
Theorem extraRecord_types name value a (Hp : ParseAddr value = Some a) :
  extraRecord (mkCDNSRecord name "" value) = mkDNSRecord name "A" (addr_string (Unmap a)) ∧
  (∀ type, type ∈ ["A"; "AAAA"; "a"; "aaaa"] →
     extraRecord (mkCDNSRecord name type value) =
       mkDNSRecord name (if Is4 (Unmap a) then "A" else "AAAA") (addr_string (Unmap a))).
Proof.
  unfold extraRecord. cbn [CDNSRecord_Name CDNSRecord_Type CDNSRecord_Value]. rewrite Hp. split; [done|].
  intros type Ht. repeat (apply list_elem_of_cons in Ht as [->|Ht]; [done|]). set_solver.
Qed.

(** ** Examples *)

#[local] Existing Instance demo_pkg.
#[local] Existing Instance canonical_order.
#[local] Existing Instance stable_sort.

Lemma extraRecord_types_witness :
  extraRecord (mkCDNSRecord "h" "" "2001:db8::1") = mkDNSRecord "h" "A" "2001:db8::1".
Proof.
  destruct (extraRecord_types "h" "2001:db8::1" (Addr6 (0x20010db8 * 2 ^ 96 + 1) "")) as [H _]; [vm_compute; reflexivity|].
  rewrite H. vm_compute. reflexivity.
Defined.

(** A client whose self node is [web.] with address 100.64.0.1 and which has a
    CNAME cycle and an alias to it. *)
Definition demo_dns_client : Client :=
  newClient demo_options_full 1
    <| c_self := Some (zeroNode <| Node_Name := "web." |> <| Node_Addresses := Some [mkPrefix (Addr4 (100 * 2 ^ 24 + 64 * 2 ^ 16 + 1)) 32] |>) |>
    <| c_dns := Some (zeroDNSConfig <| DNSConfig_Domains := Some ["net"] |> <| DNSConfig_ExtraRecords :=
         Some [mkCDNSRecord "a.net" "CNAME" "b.net"; mkCDNSRecord "b.net" "CNAME" "a.net"; mkCDNSRecord "b.net" "cname" "WEB"] |>) |>.

Lemma LookupNetIP_exact_witness :
  LookupNetIP None demo_dns_client "ip4" "a" = Ok [Addr4 (100 * 2 ^ 24 + 64 * 2 ^ 16 + 1)] ∧
  ∃ n, resolves (DNS demo_dns_client) "ip4" n (Addr4 (100 * 2 ^ 24 + 64 * 2 ^ 16 + 1)).
Proof.
  assert (LookupNetIP None demo_dns_client "ip4" "a" = Ok [Addr4 (100 * 2 ^ 24 + 64 * 2 ^ 16 + 1)]) as E
    by (vm_compute; reflexivity).
  split; [exact E|]. pose proof (LookupNetIP_exact demo_dns_client "ip4" "a") as Hx. rewrite E in Hx.
  destruct Hx as [(before & n & after & _ & _ & Hr) _]; [do 2 right; left|]. exists n. apply Hr. left.
Defined.

Lemma node_resolves_witness :
  ∃ l, LookupAddr None demo_dns_client "100.64.0.1" = Ok l ∧ "web." ∈ l.
Proof.
  destruct (node_resolves demo_dns_client
    (zeroNode <| Node_Name := "web." |> <| Node_Addresses := Some [mkPrefix (Addr4 (100 * 2 ^ 24 + 64 * 2 ^ 16 + 1)) 32] |>)
    (mkPrefix (Addr4 (100 * 2 ^ 24 + 64 * 2 ^ 16 + 1)) 32) (100 * 2 ^ 24 + 64 * 2 ^ 16 + 1) "ip") as [_ H].
  - left. reflexivity.
  - discriminate.
  - left.
  - reflexivity.
  - lia.
  - right; left.
  - exact H.
Defined.

Lemma DesiredNetworkConfiguration_routes_witness :
  nc_Up (DesiredNetworkConfiguration demo_dns_client) = true.
Proof.
  apply (DesiredNetworkConfiguration_routes demo_dns_client).
  - apply (core_inv (newClient demo_options_full 1)); [reflexivity|apply inv_new].
  - split; [|reflexivity]. eexists. split; reflexivity.
Defined.
