(* ===== verification/Stun.v ===== *)
(** * STUN messages ([internal/tailnet/stun.go], the parser)

    [handleSTUN] reads datagrams from the open network.  Every slice expression
    of the source is a [subslice], which is [None] where Go would panic, and the
    attribute loop has fuel: the results below show that neither ever happens,
    and that the parser reads back what a server writes. *)

From Stdlib Require Import ZArith Lia Strings.Byte String.
From S2P Require Export Types.
Open Scope Z_scope.

Definition stunBindingRequest : Z := 0x0001.
Definition stunBindingResponse : Z := 0x0101.
Definition stunMappedAddress : Z := 0x0001.
Definition stunXORMapped : Z := 0x0020.
Definition stunCookie : Z := 0x2112a442.
Definition stunEndpointLifetime : Z := 2 * Minute.

Definition xor_byte (a b : byte) : byte := z2b (Z.lxor (b2z a) (b2z b)).

(** [raw[index] ^= mask[index]] for every index of [raw]. *)
Definition xor_bytes (raw mask : list byte) : list byte := zip_with xor_byte raw mask.

Definition cookieBytes : list byte := be_encode 4 stunCookie.

(** ** Parsing *)

Definition parseSTUNAddress (value : list byte) (xor : bool) (tx : array 12) : option AddrPort :=
  if (length value <? 4)%nat then Some zeroAddrPort
  else
    v0 ← value !! 0%nat; v1 ← value !! 1%nat;
    if negb (b2z v0 =? 0) then Some zeroAddrPort
    else
      portBytes ← subslice 2 4 value;
      let port := be_decode portBytes in
      let port := if xor then Z.lxor port (stunCookie / 65536) else port in
      if b2z v1 =? 1 then
        if (length value <? 8)%nat then Some zeroAddrPort
        else
          raw ← subslice 4 8 value;
          let raw := if xor then xor_bytes raw cookieBytes else raw in
          Some (mkAddrPort (AddrFrom4 raw) port)
      else if b2z v1 =? 2 then
        if (length value <? 20)%nat then Some zeroAddrPort
        else
          raw ← subslice 4 20 value;
          let raw := if xor then xor_bytes raw (cookieBytes ++ arr_bytes tx) else raw in
          Some (mkAddrPort (Unmap (AddrFrom16 raw)) port)
      else Some zeroAddrPort.

(** [(length + 3) &^ 3]. *)
Definition stunPadded (length : Z) : Z := Z.ldiff (length + 3) 3.

Definition isAddressAttr (typeID : Z) : bool := (typeID =? stunXORMapped) || (typeID =? stunMappedAddress).

(** The attribute loop; [None] when it panics or its fuel runs out. *)
Fixpoint stunAttrs (fuel : nat) (attrs : list byte) (tx : array 12) (mapped : AddrPort) : option AddrPort :=
  match fuel with
  | O => None
  | S fuel =>
      if (length attrs <? 4)%nat then Some mapped
      else
        typeBytes ← subslice 0 2 attrs; lenBytes ← subslice 2 4 attrs;
        let typeID := be_decode typeBytes in
        let len := be_decode lenBytes in
        if Z.of_nat (length attrs) <? 4 + len then Some mapped
        else
          value ← subslice 4 (Z.to_nat (4 + len)) attrs;
          mapped ← (if isAddressAttr typeID then parseSTUNAddress value (typeID =? stunXORMapped) tx else Some mapped);
          if isAddressAttr typeID && ap_is_valid mapped then Some mapped
          else
            let padded := stunPadded len in
            if Z.of_nat (length attrs) <? 4 + padded then Some mapped
            else
              rest ← subslice (Z.to_nat (4 + padded)) (length attrs) attrs;
              stunAttrs fuel rest tx mapped
  end.

(** What a datagram is to [handleSTUN]: not STUN at all, STUN but of no
    interest, or a response with its transaction id and attributes. *)
Inductive StunMessage :=
| StunNone
| StunIgnored
| StunResponse (tx : array 12) (attrs : list byte).

Definition stunMessage (packet : list byte) : option StunMessage :=
  if (length packet <? 20)%nat then Some StunNone
  else
    cookie ← subslice 4 8 packet;
    if negb (be_decode cookie =? stunCookie) then Some StunNone
    else
      lenBytes ← subslice 2 4 packet;
      let messageLen := be_decode lenBytes in
      if Z.of_nat (length packet) <? 20 + messageLen then Some StunIgnored
      else
        typeBytes ← subslice 0 2 packet;
        if negb (be_decode typeBytes =? stunBindingResponse) then Some StunIgnored
        else
          tx ← subslice 8 20 packet;
          attrs ← subslice 20 (Z.to_nat (20 + messageLen)) packet;
          Some (StunResponse (to_array 12 tx) attrs).

(** The mapped address of a response; the zero value when there is none. *)
Definition stunMapped (tx : array 12) (attrs : list byte) : option AddrPort :=
  stunAttrs (S (length attrs)) attrs tx zeroAddrPort.

(** The binding request [querySTUN] sends. *)
Definition stunRequest (tx : array 12) : list byte :=
  be_encode 2 stunBindingRequest ++ be_encode 2 0 ++ be_encode 4 stunCookie ++ arr_bytes tx.

(** ** No panic, no endless loop *)

Lemma stunPadded_spec len : 0 ≤ len → stunPadded len = 4 * ((len + 3) / 4).
Proof.
  intros Hl. unfold stunPadded. change (Z.ldiff (len + 3) 3) with (Z.ldiff (len + 3) (Z.ones 2)).
  rewrite Z.ldiff_ones_r, Z.shiftl_mul_pow2, Z.shiftr_div_pow2 by lia. change (2 ^ 2) with 4. lia.
Qed.

Lemma stunPadded_bounds len : 0 ≤ len → len ≤ stunPadded len < len + 4.
Proof.
  intros Hl. rewrite stunPadded_spec by done. pose proof (Z.div_mod (len + 3) 4 ltac:(lia)).
  pose proof (Z.mod_pos_bound (len + 3) 4 ltac:(lia)). lia.
Qed.

Ltac sub_ok :=
  match goal with
  | |- context [subslice ?i ?j ?l] => rewrite (subslice_Some i j l) by (lia || (cbn [length]; lia))
  end.

Lemma parseSTUNAddress_total value xor tx : is_Some (parseSTUNAddress value xor tx).
Proof.
  unfold parseSTUNAddress. destruct (Nat.ltb_spec (length value) 4); [done|].
  destruct (lookup_lt_is_Some_2 value 0) as [v0 ->]; [lia|]. destruct (lookup_lt_is_Some_2 value 1) as [v1 ->]; [lia|].
  cbn [mbind option_bind]. destruct (negb _); [done|]. sub_ok. cbn [mbind option_bind]. cbv zeta. destruct (b2z v1 =? 1).
  { destruct (Nat.ltb_spec (length value) 8); [done|]. by rewrite subslice_Some by lia. }
  destruct (b2z v1 =? 2); [|done].
  destruct (Nat.ltb_spec (length value) 20); [done|]. by rewrite subslice_Some by lia.
Qed.

Lemma stunAttrs_total fuel : ∀ attrs tx mapped, (length attrs < fuel)%nat → is_Some (stunAttrs fuel attrs tx mapped).
Proof.
  induction fuel as [|fuel IH]; intros attrs tx mapped Hf; [lia|]. cbn [stunAttrs].
  destruct (Nat.ltb_spec (length attrs) 4); [done|]. do 2 sub_ok. cbn [mbind option_bind]. cbv zeta.
  match goal with |- context [isAddressAttr ?t] => set (typeID := t) end.
  match goal with |- context [Z.ltb (Z.of_nat (length attrs)) (4 + be_decode ?l)] => set (len := be_decode l) end.
  assert (0 ≤ len) as Hlen by apply be_decode_range. pose proof (stunPadded_bounds len Hlen).
  destruct (Z.ltb_spec (Z.of_nat (length attrs)) (4 + len)); [done|].
  rewrite (subslice_Some 4 (Z.to_nat (4 + len)) attrs) by lia. cbn [mbind option_bind].
  assert (∃ m, (if isAddressAttr typeID then parseSTUNAddress (take (Z.to_nat (4 + len) - 4) (drop 4 attrs)) (typeID =? stunXORMapped) tx
    else Some mapped) = Some m) as [m ->] by (destruct (isAddressAttr typeID); [apply parseSTUNAddress_total|eauto]).
  cbn [mbind option_bind]. destruct (isAddressAttr typeID && ap_is_valid m); [done|].
  destruct (Z.ltb_spec (Z.of_nat (length attrs)) (4 + stunPadded len)); [done|].
  rewrite subslice_Some by lia. cbn [mbind option_bind]. apply IH. autorewrite with goslice. lia.
Qed.

Lemma stunMessage_total packet : ∃ m, stunMessage packet = Some m ∧
  match m with StunResponse _ attrs => (length attrs + 20 ≤ length packet)%nat | _ => True end.
Proof.
  unfold stunMessage. destruct (Nat.ltb_spec (length packet) 20); [by eexists|].
  rewrite (subslice_Some 4 8) by lia. cbn [mbind option_bind]. destruct (negb _); [by eexists|].
  rewrite (subslice_Some 2 4) by lia. cbn [mbind option_bind]. cbv zeta.
  set (len := be_decode _). assert (0 ≤ len) by apply be_decode_range.
  destruct (Z.ltb_spec (Z.of_nat (length packet)) (20 + len)); [by eexists|].
  rewrite (subslice_Some 0 2) by lia. cbn [mbind option_bind]. destruct (negb _); [by eexists|].
  rewrite (subslice_Some 8 20) by lia. rewrite (subslice_Some 20) by lia. cbn [mbind option_bind].
  eexists. split; [done|]. cbn. autorewrite with goslice. lia.
Qed.

(** C35. No datagram makes the STUN parser panic or loop: for every packet the
    header checks and the attribute scan of whatever they accept return a value,
    within the fuel given by the packet's length. *)
Theorem stun_parser_total packet :
  ∃ m, stunMessage packet = Some m ∧
    match m with
    | StunResponse tx attrs => is_Some (stunMapped tx attrs) ∧ (length attrs + 20 ≤ length packet)%nat
    | _ => True
    end.
Proof.
  destruct (stunMessage_total packet) as (m & E & Hm). exists m. split; [done|].
  destruct m; [done..|]. split; [|done]. apply stunAttrs_total. lia.
Qed.

(** ** Reading what a server writes *)

(** An attribute as RFC 5389 lays it out, padded to four bytes. *)
Definition encodeAttr (typeID : Z) (value : list byte) : list byte :=
  be_encode 2 typeID ++ be_encode 2 (Z.of_nat (length value)) ++ value ++
  replicate (Z.to_nat (stunPadded (Z.of_nat (length value))) - length value) x00.

(** The value of an XOR-MAPPED-ADDRESS attribute. *)
Definition xorMappedValue (tx : array 12) (ap : AddrPort) : list byte :=
  let port := be_encode 2 (Z.lxor (ap_port ap) (stunCookie / 65536)) in
  match ap_addr ap with
  | Addr4 v => [x00; x01] ++ port ++ xor_bytes (be_encode 4 v) cookieBytes
  | a => [x00; x02] ++ port ++ xor_bytes (be_encode 16 (addr_val a)) (cookieBytes ++ arr_bytes tx)
  end.

Definition encodeResponse (tx : array 12) (attrs : list byte) : list byte :=
  be_encode 2 stunBindingResponse ++ be_encode 2 (Z.of_nat (length attrs)) ++ cookieBytes ++ arr_bytes tx ++ attrs.

(** An address a STUN server can report. *)
Definition reportable (ap : AddrPort) : Prop :=
  addr_wf (ap_addr ap) ∧ IsValid (ap_addr ap) = true ∧ addr_zone (ap_addr ap) = "" ∧
  Is4In6 (ap_addr ap) = false ∧ 0 ≤ ap_port ap < 65536.

(** An attribute that carries no address. *)
Definition other_attr (a : Z * list byte) : Prop :=
  0 ≤ a.1 < 65536 ∧ isAddressAttr a.1 = false ∧ Z.of_nat (length a.2) < 65536.

Lemma xor_byte_invol a b : xor_byte (xor_byte a b) b = a.
Proof.
  apply b2z_inj. unfold xor_byte. pose proof (b2z_range a). pose proof (b2z_range b).
  rewrite !b2z_z2b, (uwrap_small 8 (Z.lxor (b2z a) (b2z b))) by (apply lxor_range; lia).
  rewrite Z.lxor_assoc, Z.lxor_nilpotent, Z.lxor_0_r. apply uwrap_small. lia.
Qed.

Lemma xor_bytes_invol raw mask : (length raw ≤ length mask)%nat → xor_bytes (xor_bytes raw mask) mask = raw.
Proof.
  unfold xor_bytes. revert mask. induction raw as [|a raw IH]; intros [|b mask] Hl; cbn in *; try done; [lia|].
  rewrite xor_byte_invol, IH by lia. done.
Qed.

Lemma length_xor_bytes raw mask : (length raw ≤ length mask)%nat → length (xor_bytes raw mask) = length raw.
Proof. intros. unfold xor_bytes. rewrite length_zip_with. lia. Qed.

Lemma length_mask (tx : array 12) : length (cookieBytes ++ arr_bytes tx) = 16%nat.
Proof. rewrite length_app, arr_length. done. Qed.

Lemma length_xorMappedValue tx ap : length (xorMappedValue tx ap) = 8%nat ∨ length (xorMappedValue tx ap) = 20%nat.
Proof.
  unfold xorMappedValue. cbv zeta. destruct (ap_addr ap); rewrite !length_app, length_be_encode, length_xor_bytes;
    rewrite ?length_be_encode, ?length_mask; auto; cbn; lia.
Qed.

(** Taking a field out of a concatenation. *)
Lemma take_field {A} n (l r : list A) : length l = n → take n (l ++ r) = l.
Proof. intros <-. apply take_app_length. Qed.

Lemma drop_field {A} n (l r : list A) : length l = n → drop n (l ++ r) = r.
Proof. intros <-. apply drop_app_length. Qed.

Lemma subslice_mid {A} i j (a b c : list A) :
  length a = i → (i + length b)%nat = j → subslice i j (a ++ b ++ c) = Some b.
Proof.
  intros Ha Hb. rewrite subslice_Some by (rewrite ?length_app; lia). rewrite drop_field by done.
  rewrite take_field by lia. done.
Qed.

Lemma cookie_xor_port p : 0 ≤ p < 65536 → Z.lxor (Z.lxor p (stunCookie / 65536)) (stunCookie / 65536) = p.
Proof. intros. by rewrite Z.lxor_assoc, Z.lxor_nilpotent, Z.lxor_0_r. Qed.

Lemma port_field p : 0 ≤ p < 65536 →
  be_decode (be_encode 2 (Z.lxor p (stunCookie / 65536))) = Z.lxor p (stunCookie / 65536).
Proof. intros. apply be_decode_encode. apply (lxor_range 16); change (stunCookie / 65536) with 8466; lia. Qed.

Lemma parse_xorMapped tx ap : reportable ap → parseSTUNAddress (xorMappedValue tx ap) true tx = Some ap.
Proof.
  intros (Hwf & Hv & Hz & H46 & Hp). unfold parseSTUNAddress.
  destruct (Nat.ltb_spec (length (xorMappedValue tx ap)) 4); [destruct (length_xorMappedValue tx ap); lia|].
  unfold xorMappedValue in *. cbv zeta in *. destruct ap as [a p]; cbn [ap_addr ap_port] in *. destruct a as [|v|v z]; [done| |].
  - set (raw := xor_bytes _ _). assert (length raw = 4%nat) as Hl by (unfold raw; by rewrite length_xor_bytes).
    set (port := be_encode 2 _).
    change (([x00; x01] ++ port ++ raw) !! 0%nat) with (Some x00). change (([x00; x01] ++ port ++ raw) !! 1%nat) with (Some x01).
    cbn [mbind option_bind]. cbn [negb Z.eqb b2z Byte.to_N]. change (negb (b2z x00 =? 0)) with false. cbn iota.
    rewrite (subslice_mid 2 4 [x00; x01] port raw) by done. cbn [mbind option_bind].
    change (b2z x01 =? 1) with true. cbn iota. destruct (Nat.ltb_spec (length ([x00; x01] ++ port ++ raw)) 8) as [Hs|_].
    { rewrite !length_app, Hl in Hs. unfold port in Hs. rewrite length_be_encode in Hs. cbn in Hs. lia. }
    rewrite <-(app_nil_r raw) at 1. rewrite (app_assoc [x00; x01] port), (subslice_mid 4 8 ([x00; x01] ++ port) raw []) by (done || cbn; lia).
    cbn [mbind option_bind]. do 2 f_equal.
    + unfold AddrFrom4, raw. rewrite xor_bytes_invol by done. f_equal. by apply be_decode_encode.
    + unfold port. rewrite port_field by done. by apply cookie_xor_port.
  - cbn in Hz. subst z. set (raw := xor_bytes _ _). assert (length raw = 16%nat) as Hl.
    { unfold raw. by rewrite length_xor_bytes by by rewrite length_mask. }
    set (port := be_encode 2 _).
    change (([x00; x02] ++ port ++ raw) !! 0%nat) with (Some x00). change (([x00; x02] ++ port ++ raw) !! 1%nat) with (Some x02).
    cbn [mbind option_bind]. change (negb (b2z x00 =? 0)) with false. cbn iota.
    rewrite (subslice_mid 2 4 [x00; x02] port raw) by done. cbn [mbind option_bind].
    change (b2z x02 =? 1) with false. change (b2z x02 =? 2) with true. cbn iota.
    destruct (Nat.ltb_spec (length ([x00; x02] ++ port ++ raw)) 20) as [Hs|_].
    { rewrite !length_app, Hl in Hs. unfold port in Hs. rewrite length_be_encode in Hs. cbn in Hs. lia. }
    rewrite <-(app_nil_r raw) at 1. rewrite (app_assoc [x00; x02] port), (subslice_mid 4 20 ([x00; x02] ++ port) raw []) by (rewrite ?Hl; done).
    cbn [mbind option_bind]. do 2 f_equal.
    + unfold AddrFrom16, raw. rewrite xor_bytes_invol by (rewrite length_mask; done). cbn [addr_val].
      rewrite be_decode_encode by done. unfold Unmap. cbn [Is4In6] in *. by rewrite H46.
    + unfold port. rewrite port_field by done. by apply cookie_xor_port.
Qed.

Lemma length_encodeAttr typeID value :
  length (encodeAttr typeID value) = Z.to_nat (4 + stunPadded (Z.of_nat (length value))).
Proof.
  unfold encodeAttr. rewrite !length_app, !length_be_encode, length_replicate.
  pose proof (stunPadded_bounds (Z.of_nat (length value)) ltac:(lia)). lia.
Qed.

(** One round of the loop on an encoded attribute. *)
Lemma stunAttrs_attr fuel typeID value rest tx mapped :
  0 ≤ typeID < 65536 → Z.of_nat (length value) < 65536 →
  stunAttrs (S fuel) (encodeAttr typeID value ++ rest) tx mapped =
  (mapped ← (if isAddressAttr typeID then parseSTUNAddress value (typeID =? stunXORMapped) tx else Some mapped);
   if isAddressAttr typeID && ap_is_valid mapped then Some mapped else stunAttrs fuel rest tx mapped).
Proof.
  intros Ht Hv. pose proof (stunPadded_bounds (Z.of_nat (length value)) ltac:(lia)) as Hpad.
  pose proof (length_encodeAttr typeID value) as Hl. cbn [stunAttrs].
  set (attrs := encodeAttr typeID value ++ rest).
  assert (length attrs = (length (encodeAttr typeID value) + length rest)%nat) as Hla by (unfold attrs; apply length_app).
  destruct (Nat.ltb_spec (length attrs) 4); [lia|].
  set (pad := replicate (Z.to_nat (stunPadded (Z.of_nat (length value))) - length value) x00).
  assert (attrs = [] ++ be_encode 2 typeID ++ be_encode 2 (Z.of_nat (length value)) ++ value ++ pad ++ rest) as E0
    by (unfold attrs, encodeAttr; by rewrite <-!app_assoc).
  assert (attrs = be_encode 2 typeID ++ be_encode 2 (Z.of_nat (length value)) ++ value ++ pad ++ rest) as E1 by done.
  assert (attrs = (be_encode 2 typeID ++ be_encode 2 (Z.of_nat (length value))) ++ value ++ pad ++ rest) as E2
    by (by rewrite <-!app_assoc).
  assert (attrs = encodeAttr typeID value ++ rest ++ []) as E3 by (by rewrite app_nil_r).
  rewrite (E0 : attrs = _) at 1. rewrite (subslice_mid 0 2 [] (be_encode 2 typeID)) by done. cbn [mbind option_bind].
  rewrite (E1 : attrs = _) at 1. rewrite (subslice_mid 2 4 (be_encode 2 typeID)) by done. cbn [mbind option_bind]. cbv zeta.
  rewrite !be_decode_encode by lia.
  destruct (Z.ltb_spec (Z.of_nat (length attrs)) (4 + Z.of_nat (length value))); [lia|].
  rewrite (E2 : attrs = _) at 1.
  rewrite (subslice_mid 4 _ (be_encode 2 typeID ++ be_encode 2 (Z.of_nat (length value))) value) by (done || lia).
  cbn [mbind option_bind].
  destruct (if isAddressAttr typeID then _ else _) as [m|]; [|done]. cbn [mbind option_bind].
  destruct (isAddressAttr typeID && ap_is_valid m); [done|].
  destruct (Z.ltb_spec (Z.of_nat (length attrs)) (4 + stunPadded (Z.of_nat (length value)))); [lia|].
  rewrite (E3 : attrs = _) at 2. rewrite (subslice_mid (Z.to_nat (4 + stunPadded (Z.of_nat (length value)))) _ (encodeAttr typeID value) rest [])
    by (done || lia). done.
Qed.

Lemma stunAttrs_skip pre : ∀ fuel rest tx mapped, Forall other_attr pre →
  stunAttrs (length pre + fuel) (concat (map (λ a, encodeAttr a.1 a.2) pre) ++ rest) tx mapped = stunAttrs fuel rest tx mapped.
Proof.
  induction pre as [|[t v] pre IH]; intros fuel rest tx mapped Hp; [done|].
  apply Forall_cons in Hp as [(Ht & Hn & Hv) Hp]. cbn [fst snd] in *.
  cbn [length Nat.add map concat fst snd]. rewrite <-app_assoc, stunAttrs_attr by done. rewrite Hn. cbn [mbind option_bind andb].
  by apply IH.
Qed.

(** More fuel does not change an answer. *)
Lemma stunAttrs_mono fuel : ∀ attrs tx mapped r k, stunAttrs fuel attrs tx mapped = Some r →
  stunAttrs (fuel + k) attrs tx mapped = Some r.
Proof.
  induction fuel as [|fuel IH]; intros attrs tx mapped r k; [done|]. cbn [Nat.add stunAttrs].
  destruct (length attrs <? 4)%nat; [done|]. destruct (subslice 0 2 attrs); [|done]. cbn [mbind option_bind].
  destruct (subslice 2 4 attrs); [|done]. cbn [mbind option_bind]. cbv zeta. destruct (_ <? _); [done|].
  destruct (subslice 4 _ attrs); [|done]. cbn [mbind option_bind].
  destruct (if isAddressAttr _ then _ else _); [|done]. cbn [mbind option_bind]. destruct (_ && _); [done|].
  destruct (_ <? _); [done|]. destruct (subslice _ (length attrs) attrs); [|done]. cbn [mbind option_bind]. apply IH.
Qed.

Lemma stunMapped_finds tx ap pre tail : reportable ap → Forall other_attr pre →
  stunMapped tx (concat (map (λ a, encodeAttr a.1 a.2) pre) ++ encodeAttr stunXORMapped (xorMappedValue tx ap) ++ tail) = Some ap.
Proof.
  intros Hap Hp. set (attrs := concat _ ++ _).
  assert (stunAttrs (length pre + 1) attrs tx zeroAddrPort = Some ap) as Hs.
  { unfold attrs. rewrite stunAttrs_skip by done. rewrite stunAttrs_attr.
    - change (isAddressAttr stunXORMapped) with true. change (stunXORMapped =? stunXORMapped) with true. cbn iota.
      rewrite parse_xorMapped by done. cbn [mbind option_bind andb]. unfold ap_is_valid.
      by destruct Hap as (_ & -> & _).
    - unfold stunXORMapped. lia.
    - destruct (length_xorMappedValue tx ap); lia. }
  unfold stunMapped. assert (length pre + 1 ≤ S (length attrs))%nat as Hle.
  { unfold attrs. rewrite !length_app. assert (length pre ≤ length (concat (map (λ a, encodeAttr a.1 a.2) pre)))%nat; [|lia].
    clear. induction pre as [|[t v] pre IH]; [done|]. cbn [map concat length fst snd].
    rewrite length_app, length_encodeAttr. pose proof (stunPadded_bounds (Z.of_nat (length v)) ltac:(lia)). lia. }
  replace (S (length attrs)) with ((length pre + 1) + (S (length attrs) - (length pre + 1)))%nat by lia.
  by apply stunAttrs_mono.
Qed.

Lemma stunMessage_response tx attrs : Z.of_nat (length attrs) < 65536 →
  stunMessage (encodeResponse tx attrs) = Some (StunResponse tx attrs).
Proof.
  intros Hl. unfold stunMessage. set (packet := encodeResponse tx attrs).
  assert (length packet = (20 + length attrs)%nat) as Hp.
  { unfold packet, encodeResponse. rewrite !length_app, !length_be_encode, arr_length. change (length cookieBytes) with 4%nat. lia. }
  destruct (Nat.ltb_spec (length packet) 20); [lia|].
  set (t := be_encode 2 stunBindingResponse). set (l := be_encode 2 (Z.of_nat (length attrs))).
  assert (packet = (t ++ l) ++ cookieBytes ++ arr_bytes tx ++ attrs) as E1 by (unfold packet, encodeResponse; by rewrite <-!app_assoc).
  assert (packet = t ++ l ++ cookieBytes ++ arr_bytes tx ++ attrs) as E2 by done.
  assert (packet = [] ++ t ++ l ++ cookieBytes ++ arr_bytes tx ++ attrs) as E3 by done.
  assert (packet = (t ++ l ++ cookieBytes) ++ arr_bytes tx ++ attrs) as E4 by (rewrite E2; by rewrite <-!app_assoc).
  assert (packet = (t ++ l ++ cookieBytes ++ arr_bytes tx) ++ attrs ++ []) as E5 by (rewrite E2, app_nil_r; by rewrite <-!app_assoc).
  rewrite E1 at 1. rewrite (subslice_mid 4 8 (t ++ l)) by done. cbn [mbind option_bind].
  change (negb (be_decode cookieBytes =? stunCookie)) with false. cbn iota.
  rewrite E2 at 1. rewrite (subslice_mid 2 4 t) by done. cbn [mbind option_bind]. cbv zeta.
  assert (be_decode l = Z.of_nat (length attrs)) as -> by (apply be_decode_encode; lia). destruct (Z.ltb_spec (Z.of_nat (length packet)) (20 + Z.of_nat (length attrs))); [lia|].
  rewrite E3 at 1. rewrite (subslice_mid 0 2 [] t) by done. cbn [mbind option_bind].
  change (negb (be_decode t =? stunBindingResponse)) with false. cbn iota.
  rewrite E4 at 1. rewrite (subslice_mid 8 20) by (done || by rewrite arr_length). cbn [mbind option_bind].
  rewrite E5 at 1. rewrite (subslice_mid 20 (Z.to_nat (20 + Z.of_nat (length attrs))) (t ++ l ++ cookieBytes ++ arr_bytes tx) attrs)
    by (first [rewrite !length_app, arr_length; reflexivity|lia]). cbn [mbind option_bind].
  by rewrite to_array_arr_bytes.
Qed.

(** The parser reads back what a STUN server writes: a binding response whose
    attributes are any list of other attributes followed by an XOR-MAPPED-ADDRESS
    is recognised with its transaction, and the mapped address found is the one
    the server encoded, for IPv4 and IPv6 addresses and every port, whatever
    comes after it. *)
Theorem stun_roundtrip tx ap pre tail (Hap : reportable ap) (Hpre : Forall other_attr pre)
    (Hlen : Z.of_nat (length (concat (map (λ a, encodeAttr a.1 a.2) pre) ++
              encodeAttr stunXORMapped (xorMappedValue tx ap) ++ tail)) < 65536) :
  ∃ attrs, stunMessage (encodeResponse tx (concat (map (λ a, encodeAttr a.1 a.2) pre) ++
             encodeAttr stunXORMapped (xorMappedValue tx ap) ++ tail)) = Some (StunResponse tx attrs) ∧
    stunMapped tx attrs = Some ap.
Proof.
  eexists. split; [by apply stunMessage_response|]. by apply stunMapped_finds.
Qed.

Lemma stun_roundtrip_witness :
  stunMapped (zero_array 12) (encodeAttr 0x8022 [x61; x62; x63] ++
    encodeAttr stunXORMapped (xorMappedValue (zero_array 12) (mkAddrPort (Addr6 1 "") 41641))) = Some (mkAddrPort (Addr6 1 "") 41641).
Proof.
  destruct (stun_roundtrip (zero_array 12) (mkAddrPort (Addr6 1 "") 41641) [(0x8022, [x61; x62; x63])] []) as (attrs & Hm & Hs).
  - unfold reportable. vm_compute. repeat split; discriminate.
  - constructor; [|constructor]. unfold other_attr. vm_compute. repeat split; discriminate.
  - vm_compute. reflexivity.
  - revert Hs. vm_compute in Hm. injection Hm as <-. vm_compute. done.
Defined.
