(* ===== verification/Transport.v ===== *)
(** * The state of the multipath transport ([internal/tailnet/bind.go], [disco.go])

    [Bind] carries the packets of all peers.  It keeps one [peerState] per peer
    and three indexes: by disco key, by UDP address, and the pending pings by
    transaction.  This file has the state and the operations that maintain the
    indexes, and the invariant they keep; the protocol on top is in [Disco],
    [Netcheck] and [TransportOps].

    A method that holds [b.mu] is one step.  Calls out of the transport (UDP
    writes, DERP sends, the callbacks of the client) are recorded as outputs;
    their errors, clock readings and random bytes are arguments.  The callbacks
    of the configuration are set, as the client sets them. *)

From Stdlib Require Import ZArith Lia String Strings.Byte.
From S2P Require Export ClientState Stun.
Open Scope Z_scope.

(** ** State *)

(** The part of [tailnet.Config] the model uses. *)
Record BindConfig := mkBindConfig {
  cfg_NodePrivate : PrivateKey;
  cfg_DiscoPrivate : PrivateKey;
  cfg_DisableDERP : bool;
  cfg_DisableDiscovery : bool
}.

Record pendingPing := mkpendingPing { pp_node : NodePublic; pp_addr : AddrPort; pp_sent : Z }.

Record stunProbe := mkstunProbe { sp_sent : Z; sp_checkID : Z; sp_regionID : Z }.

Record peerState := mkpeerState {
  bp_config : PeerConfig;
  bp_candidates : list AddrPort;
  bp_learned : gmap AddrPort Z;
  bp_direct : AddrPort;
  bp_latency : Z;
  bp_directAt : Z;
  bp_lastProbe : Z
}.

#[export] Instance peerState_fields : Fields peerState := λ r, mkpeerState (bp_config r) (bp_candidates r)
  (bp_learned r) (bp_direct r) (bp_latency r) (bp_directAt r) (bp_lastProbe r).

Definition zeroPeerConfig : PeerConfig := mkPeerConfig (zero_array 32) (zero_array 32) None 0 false.
Definition zeroPeerState : peerState := mkpeerState zeroPeerConfig [] ∅ zeroAddrPort 0 0 0.

(** An endpoint of WireGuard: a peer, or a bare UDP address. *)
Record logicalEndpoint := mklogicalEndpoint { ep_node : NodePublic; ep_direct : AddrPort }.

Record inboundPacket := mkinboundPacket { ip_data : list byte; ip_ep : logicalEndpoint }.

Record derpProbeTarget := mkderpProbeTarget {
  tg_regionID : Z;
  tg_stun : option CDERPNode;
  tg_https : option CDERPNode
}.

(** A latency check; [stunDone] holds a token once all STUN probes are done.  A
    pointer to a round is its [id]: the ids of a transport are never reused. *)
Record derpCheckRound := mkderpCheckRound {
  rd_id : Z;
  rd_full : bool;
  rd_started : Z;
  rd_targets : list derpProbeTarget;
  rd_remaining : Z;
  rd_latencies : gmap Z DERPRegionLatency;
  rd_stunDone : bool
}.

#[export] Instance derpCheckRound_fields : Fields derpCheckRound := λ r, mkderpCheckRound (rd_id r) (rd_full
  r) (rd_started r) (rd_targets r) (rd_remaining r) (rd_latencies r) (rd_stunDone r).

(** [conn] tells whether the transport has a UDP socket. *)
Record Bind := mkBind {
  b_cfg : BindConfig;
  b_open : bool;
  b_closed : bool;
  b_conn : bool;
  b_inbound : list inboundPacket;
  b_localPort : Z;
  b_local : list EndpointCandidate;
  b_stun : gmap AddrPort EndpointCandidate;
  b_stunAt : gmap AddrPort Z;
  b_peers : gmap NodePublic peerState;
  b_byDisco : gmap DiscoPublic NodePublic;
  b_byAddr : gmap AddrPort NodePublic;
  b_pending : gmap (array 12) pendingPing;
  b_stunPending : gmap (array 12) stunProbe;
  b_derpMap : option DERPMap;
  b_selfDERP : Z;
  b_generation : Z;
  b_lastDERPCheck : Z;
  b_lastFullDERPCheck : Z;
  b_derpCheckID : Z;
  b_derpCheck : option derpCheckRound;
  b_derpLatency : gmap Z DERPRegionLatency
}.

#[export] Instance Bind_fields : Fields Bind := λ r, mkBind (b_cfg r) (b_open r) (b_closed r) (b_conn r)
  (b_inbound r) (b_localPort r) (b_local r) (b_stun r) (b_stunAt r) (b_peers r) (b_byDisco r) (b_byAddr r)
  (b_pending r) (b_stunPending r) (b_derpMap r) (b_selfDERP r) (b_generation r) (b_lastDERPCheck r)
  (b_lastFullDERPCheck r) (b_derpCheckID r) (b_derpCheck r) (b_derpLatency r).

(** The literal of [NewBind]. *)
Definition newBindState (cfg : BindConfig) : Bind := {|
  b_cfg := cfg; b_open := false; b_closed := false; b_conn := false; b_inbound := []; b_localPort := 0;
  b_local := []; b_stun := ∅; b_stunAt := ∅; b_peers := ∅; b_byDisco := ∅; b_byAddr := ∅; b_pending := ∅;
  b_stunPending := ∅; b_derpMap := None; b_selfDERP := 0; b_generation := 0; b_lastDERPCheck := 0;
  b_lastFullDERPCheck := 0; b_derpCheckID := 0; b_derpCheck := None; b_derpLatency := ∅ |}.

(** What the transport does to the outside. *)
Inductive BindOut :=
| OutUDP (packet : list byte) (addr : AddrPort)                       (* [conn.WriteToUDPAddrPort] *)
| OutDERP (region : Z) (node : NodePublic) (packet : list byte)       (* [b.derp.send] *)
| OutPath (update : PathUpdate)                                       (* [cfg.OnPath] *)
| OutEndpoints (endpoints : slice EndpointCandidate)                  (* [cfg.OnEndpoints] *)
| OutLatency (report : DERPLatencyReport)                             (* [cfg.OnDERPLatency] *)
| OutDERPMap (derpMap : option DERPMap)                               (* [b.derp.updateMap] *)
| OutEnsureDERP (region : Z)                                          (* [b.derp.ensureAsync] *)
| OutQuerySTUN (checkID region : Z) (node : CDERPNode)                (* [go b.querySTUN] *)
| OutFinishCheck (checkID : Z)                                        (* [go b.finishDERPCheck] *)
| OutDERPClose (final : bool)                                         (* [b.derp.closeConnections], [close] *)
| OutConnClose.                                                       (* [conn.Close] *)

Record BindWorld := mkBindWorld { bw_bind : Bind; bw_out : list BindOut }.

Definition on_bind_state (f : Bind → Bind) (w : BindWorld) : BindWorld := mkBindWorld (f (bw_bind w)) (bw_out w).
Definition bind_emit (o : BindOut) (w : BindWorld) : BindWorld := mkBindWorld (bw_bind w) (bw_out w ++ [o]).

(** [b.byAddr[addr] == key], where an absent entry is the zero key. *)
Definition addrOwnedBy (b : Bind) (addr : AddrPort) (key : NodePublic) : bool :=
  bool_decide (default (zero_array 32) (b_byAddr b !! addr) = key).

(** [delete(b.byAddr, addr)] where the entry is [key]'s. *)
Definition dropAddr (key : NodePublic) (addr : AddrPort) (b : Bind) : Bind :=
  if addrOwnedBy b addr key then b <| b_byAddr := delete addr (b_byAddr b) |> else b.

Definition claimAddr (key : NodePublic) (addr : AddrPort) (b : Bind) : Bind :=
  b <| b_byAddr := <[addr := key]> (b_byAddr b) |>.

(** ** Candidates of a peer *)

Definition maxControlPeerEndpoints : nat := 256.
Definition maxLearnedPeerEndpoints : nat := 256.
Definition discoCandidateLifetime : Z := 2 * Minute.

(** [address.IsValid] and the other tests of an endpoint WireGuard can use. *)
Definition usableAddrPort (ap : AddrPort) : bool :=
  IsValid (ap_addr ap) && negb (IsUnspecified (ap_addr ap)) && negb (IsMulticast (ap_addr ap)) && negb (ap_port ap =? 0).

(** The loop of [sanitizeEndpoints] with the result so far. *)
Fixpoint sanitizeLoop (endpoints : list AddrPort) (result : list AddrPort) : list AddrPort :=
  match endpoints with
  | [] => result
  | endpoint :: endpoints =>
      let endpoint := mkAddrPort (Unmap (ap_addr endpoint)) (ap_port endpoint) in
      if negb (usableAddrPort endpoint) || bool_decide (endpoint ∈ result) then sanitizeLoop endpoints result
      else
        let result := result ++ [endpoint] in
        if (maxControlPeerEndpoints <=? length result)%nat then result else sanitizeLoop endpoints result
  end.

Definition sanitizeEndpoints (endpoints : slice AddrPort) : slice AddrPort := Some (sanitizeLoop (elems endpoints) []).

Definition peerConfigsEqual (a b : PeerConfig) : bool :=
  bool_decide (pc_NodeKey a = pc_NodeKey b) && bool_decide (pc_DiscoKey a = pc_DiscoKey b) &&
  bool_decide (elems (pc_Endpoints a) = elems (pc_Endpoints b)) && (pc_HomeDERP a =? pc_HomeDERP b) &&
  bool_decide (pc_WireGuardOnly a = pc_WireGuardOnly b).

(** The control endpoints, then the learned ones in address order. *)
Definition candidateList (endpoints : list AddrPort) (learned : gmap AddrPort Z) : list AddrPort :=
  endpoints ++ sort_func ap_compare (map_to_list learned).*1.

Definition rebuildPeerCandidates (state : peerState) : peerState :=
  state <| bp_candidates := candidateList (elems (pc_Endpoints (bp_config state))) (bp_learned state) |>.

Definition stillFresh (now : Z) (entry : AddrPort * Z) : Prop := time_sub now entry.2 ≤ discoCandidateLifetime.

#[export] Instance stillFresh_dec now entry : Decision (stillFresh now entry).
Proof. unfold stillFresh. apply _. Defined.

(** [pruneLearnedCandidatesLocked] on a peer's state and the address index.  The
    loop only deletes, so its order does not matter. *)
Definition pruneLearned (node : NodePublic) (now : Z) (state : peerState) (byAddr : gmap AddrPort NodePublic)
    : peerState * gmap AddrPort NodePublic * bool :=
  let learned := filter (stillFresh now) (bp_learned state) in
  let expired := filter (λ entry, ¬ stillFresh now entry) (bp_learned state) in
  let byAddr' := filter (λ '(addr, key), ¬ (is_Some (expired !! addr) ∧ key = node ∧ bp_direct state ≠ addr)) byAddr in
  if bool_decide (expired = ∅) then (state, byAddr, false)
  else (rebuildPeerCandidates (state <| bp_learned := learned |>), byAddr', true).

(** One endpoint of [addLearnedCandidatesLocked]. *)
Definition learnEndpoint (node : NodePublic) (now : Z) (config : PeerConfig)
    (acc : gmap AddrPort Z * gmap AddrPort NodePublic * bool) (endpoint : AddrPort) :=
  let '(learned, byAddr, changed) := acc in
  let endpoint := unmapAddrPort endpoint in
  if negb (ap_is_valid endpoint) || bool_decide (endpoint ∈ elems (pc_Endpoints config)) then acc
  else if bool_decide (is_Some (learned !! endpoint))
  then (<[endpoint := now]> learned, <[endpoint := node]> byAddr, changed)
  else if (maxLearnedPeerEndpoints <=? size learned)%nat then acc
  else (<[endpoint := now]> learned, <[endpoint := node]> byAddr, true).

Definition addLearnedCandidatesLocked (node : NodePublic) (fresh : list AddrPort) (now : Z) (b : Bind) : Bind * bool :=
  match b_peers b !! node with
  | None => (b, false)
  | Some state =>
      let '(state, byAddr, pruned) := pruneLearned node now state (b_byAddr b) in
      let '(learned, byAddr, changed) :=
        foldl (learnEndpoint node now (bp_config state)) (bp_learned state, byAddr, pruned) fresh in
      let state := state <| bp_learned := learned |> in
      let state := when changed rebuildPeerCandidates state in
      (b <| b_peers := <[node := state]> (b_peers b) |> <| b_byAddr := byAddr |>, changed)
  end.

Definition emitPath (node : NodePublic) (direct : bool) (addr : AddrPort) (latency now : Z) (w : BindWorld) : BindWorld :=
  bind_emit (OutPath (mkPathUpdate node direct addr latency now)) w.

Definition setDirect (now : Z) (node : NodePublic) (addr : AddrPort) (latency : Z) (w : BindWorld) : BindWorld :=
  let addr := unmapAddrPort addr in
  if negb (usableAddrPort addr) then w
  else match b_peers (bw_bind w) !! node with
       | None => w
       | Some state =>
           let drop := ap_is_valid (bp_direct state) && bool_decide (bp_direct state ≠ addr)
                       && negb (bool_decide (bp_direct state ∈ bp_candidates state)) in
           let changed := bool_decide (bp_direct state ≠ addr) || negb (latency =? bp_latency state) in
           let state' := state <| bp_direct := addr |> <| bp_latency := latency |> <| bp_directAt := now |> in
           let w := on_bind_state (λ b,
             let b := when drop (dropAddr node (bp_direct state)) b in
             claimAddr node addr (b <| b_peers := <[node := state']> (b_peers b) |>)) w in
           when changed (emitPath node true addr latency now) w
       end.

(** ** Configuring and removing peers *)

(** [UpdatePeer] up to the unlock; [None] when nothing changes. *)
Definition updatePeerLocked (config : PeerConfig) (b : Bind) : option Bind :=
  let config := config <| pc_Endpoints := sanitizeEndpoints (pc_Endpoints config) |> in
  let key := pc_NodeKey config in
  if match b_peers b !! key with Some state => peerConfigsEqual (bp_config state) config | None => false end then None
  else
    let state := default zeroPeerState (b_peers b !! key) in
    let oldDiscoKey := pc_DiscoKey (bp_config state) in
    let b := when (negb (key_IsZero oldDiscoKey)) (λ b, b <| b_byDisco := delete oldDiscoKey (b_byDisco b) |>) b in
    let b := foldl (λ b candidate, dropAddr key candidate b) b (bp_candidates state) in
    let state := state <| bp_config := config |> <| bp_candidates := elems (pc_Endpoints config) |>
      <| bp_learned := ∅ |> <| bp_lastProbe := 0 |> in
    let b := foldl (λ b candidate, claimAddr key candidate b) b (bp_candidates state) in
    let b := when (negb (key_IsZero (pc_DiscoKey config)))
      (λ b, b <| b_byDisco := <[pc_DiscoKey config := key]> (b_byDisco b) |>) b in
    let '(b, state) :=
      if ap_is_valid (bp_direct state) then
        if bool_decide (oldDiscoKey ≠ pc_DiscoKey config) then
          (dropAddr key (bp_direct state) b,
           state <| bp_direct := zeroAddrPort |> <| bp_latency := 0 |> <| bp_directAt := 0 |>)
        else (claimAddr key (bp_direct state) b, state)
      else (b, state) in
    Some (b <| b_peers := <[key := state]> (b_peers b) |>).

Definition RemovePeer (key : NodePublic) (b : Bind) : Bind :=
  let b :=
    match b_peers b !! key with
    | None => b
    | Some state =>
        let b := b <| b_byDisco := delete (pc_DiscoKey (bp_config state)) (b_byDisco b) |> in
        let b := foldl (λ b candidate, dropAddr key candidate b) b (bp_candidates state) in
        when (ap_is_valid (bp_direct state)) (dropAddr key (bp_direct state)) b
    end in
  b <| b_peers := delete key (b_peers b) |>
    <| b_pending := filter (λ '(_, ping), pp_node ping ≠ key) (b_pending b) |>.

(** One peer of the loop of [Open]: prune, forget the direct path, index the candidates. *)
Definition reopenPeer (now : Z) (b : Bind) (key : NodePublic) : Bind :=
  match b_peers b !! key with
  | None => b
  | Some state =>
      let '(state, byAddr, _) := pruneLearned key now state (b_byAddr b) in
      let state := state <| bp_direct := zeroAddrPort |> <| bp_latency := 0 |> <| bp_directAt := 0 |> <| bp_lastProbe := 0 |> in
      let b := b <| b_byAddr := byAddr |> <| b_peers := <[key := state]> (b_peers b) |> in
      foldl (λ b candidate, claimAddr key candidate b) b (bp_candidates state)
  end.

(** ** The index invariant *)

(** An address a peer may be reached at. *)
Definition peer_owns (p : peerState) (a : AddrPort) : Prop :=
  a ∈ bp_candidates p ∨ (bp_direct p = a ∧ ap_is_valid a = true).

Definition unmapped (ap : AddrPort) : Prop := Is4In6 (ap_addr ap) = false.

Definition endpoints_ok (l : list AddrPort) : Prop :=
  NoDup l ∧ (length l ≤ maxControlPeerEndpoints)%nat ∧ Forall (λ a, usableAddrPort a = true ∧ unmapped a) l.

Record peer_ok (k : NodePublic) (p : peerState) : Prop := {
  po_key : pc_NodeKey (bp_config p) = k;
  po_endpoints : endpoints_ok (elems (pc_Endpoints (bp_config p)));
  po_candidates : bp_candidates p = candidateList (elems (pc_Endpoints (bp_config p))) (bp_learned p);
  po_learned : (size (bp_learned p) ≤ maxLearnedPeerEndpoints)%nat;
  po_disjoint : ∀ a, is_Some (bp_learned p !! a) →
    a ∉ elems (pc_Endpoints (bp_config p)) ∧ ap_is_valid a = true ∧ unmapped a;
  po_direct : bp_direct p = zeroAddrPort ∨ usableAddrPort (bp_direct p) = true ∧ unmapped (bp_direct p)
}.

Definition peers_ok (peers : gmap NodePublic peerState) : Prop := map_Forall peer_ok peers.

(** Every address in the index belongs to the peer it names. *)
Definition addr_ok (peers : gmap NodePublic peerState) (byAddr : gmap AddrPort NodePublic) : Prop :=
  ∀ a k, byAddr !! a = Some k → ∃ p, peers !! k = Some p ∧ peer_owns p a.

Definition disco_ok (peers : gmap NodePublic peerState) (byDisco : gmap DiscoPublic NodePublic) : Prop :=
  ∀ d k, byDisco !! d = Some k → key_IsZero d = false ∧ ∃ p, peers !! k = Some p ∧ pc_DiscoKey (bp_config p) = d.

Record index_ok (b : Bind) : Prop := {
  ix_peers : peers_ok (b_peers b);
  ix_addr : addr_ok (b_peers b) (b_byAddr b);
  ix_disco : disco_ok (b_peers b) (b_byDisco b)
}.

(** The fields the invariant is about. *)
Definition index (b : Bind) := (b_peers b, b_byAddr b, b_byDisco b).

Lemma index_ok_same b b' : index b' = index b → index_ok b → index_ok b'.
Proof. unfold index. intros [= E1 E2 E3] [Hp Ha Hd]. constructor; rewrite ?E1, ?E2, ?E3; done. Qed.

(** *** Candidates *)

Lemma elem_of_candidateList a endpoints learned :
  a ∈ candidateList endpoints learned ↔ a ∈ endpoints ∨ is_Some (learned !! a).
Proof.
  unfold candidateList. rewrite elem_of_app, elem_of_sort_func. f_equiv. rewrite list_elem_of_fmap. split.
  - intros ([a' t] & -> & Hin). apply elem_of_map_to_list in Hin. by exists t.
  - intros [t Ht]. exists (a, t). split; [done|]. by apply elem_of_map_to_list.
Qed.

Lemma elem_of_candidates k p a : peer_ok k p →
  a ∈ bp_candidates p ↔ a ∈ elems (pc_Endpoints (bp_config p)) ∨ is_Some (bp_learned p !! a).
Proof. intros Hp. rewrite (po_candidates _ _ Hp). apply elem_of_candidateList. Qed.

(** No candidate is listed twice, and there are at most 512. *)
Lemma candidates_bounded k p : peer_ok k p → NoDup (bp_candidates p) ∧ (length (bp_candidates p) ≤ 512)%nat.
Proof.
  intros Hp. rewrite (po_candidates _ _ Hp). destruct (po_endpoints _ _ Hp) as (Hnd & Hl & _). unfold candidateList. split.
  - apply NoDup_app. split_and!; [done| |].
    + intros a Ha Hs. rewrite elem_of_sort_func, list_elem_of_fmap in Hs. destruct Hs as ([a' t] & -> & Hin).
      apply elem_of_map_to_list in Hin. by destruct (po_disjoint _ _ Hp a') as [? _].
    + rewrite sort_func_perm. apply NoDup_fst_map_to_list.
  - rewrite length_app, (Permutation_length (sort_func_perm ap_compare _)), length_fmap, length_map_to_list.
    pose proof (po_learned _ _ Hp). unfold maxControlPeerEndpoints, maxLearnedPeerEndpoints in *. lia.
Qed.

Lemma Unmap_unmapped a p : unmapped (mkAddrPort (Unmap a) p).
Proof. apply Unmap_not_mapped. Qed.

Lemma sanitizeLoop_ok endpoints : ∀ result, endpoints_ok result → (length result < maxControlPeerEndpoints)%nat →
  endpoints_ok (sanitizeLoop endpoints result).
Proof.
  induction endpoints as [|e endpoints IH]; intros result Hr Hl; cbn [sanitizeLoop]; [done|]. cbv zeta.
  destruct (negb _ || _) eqn:E; [by apply IH|]. apply orb_false_iff in E as [Hu Hn].
  apply negb_false_iff in Hu. apply bool_decide_eq_false in Hn.
  assert (endpoints_ok (result ++ [mkAddrPort (Unmap (ap_addr e)) (ap_port e)])) as Hok.
  { destruct Hr as (Hnd & Hlen & Hf). split_and!.
    - apply NoDup_app. split_and!; [done|set_solver|apply NoDup_singleton].
    - rewrite length_app. cbn. lia.
    - apply Forall_app. split; [done|]. apply Forall_singleton. split; [done|]. apply Unmap_unmapped. }
  destruct (Nat.leb_spec maxControlPeerEndpoints (length (result ++ [mkAddrPort (Unmap (ap_addr e)) (ap_port e)]))); [done|].
  by apply IH.
Qed.

Lemma sanitizeEndpoints_ok endpoints : endpoints_ok (elems (sanitizeEndpoints endpoints)).
Proof.
  apply sanitizeLoop_ok; [|unfold maxControlPeerEndpoints; cbn; lia].
  split_and!; [apply NoDup_nil_2|cbn; lia|apply Forall_nil_2].
Qed.

(** Sanitizing keeps the usable endpoints, in order, up to the limit. *)
Lemma sanitizeLoop_incl endpoints : ∀ result a, a ∈ sanitizeLoop endpoints result →
  a ∈ result ∨ ∃ e, e ∈ endpoints ∧ a = mkAddrPort (Unmap (ap_addr e)) (ap_port e) ∧ usableAddrPort a = true.
Proof.
  induction endpoints as [|e endpoints IH]; intros result a; cbn [sanitizeLoop]; [by left|]. cbv zeta.
  destruct (negb _ || _) eqn:E.
  { intros Ha. apply IH in Ha as [Ha|(e' & ? & ? & ?)]; [by left|]. right. exists e'. set_solver. }
  apply orb_false_iff in E as [Hu Hn]. apply negb_false_iff in Hu.
  assert (∀ a', a' ∈ result ++ [mkAddrPort (Unmap (ap_addr e)) (ap_port e)] →
    a' ∈ result ∨ ∃ e', e' ∈ e :: endpoints ∧ a' = mkAddrPort (Unmap (ap_addr e')) (ap_port e') ∧ usableAddrPort a' = true) as Hs.
  { intros a' [Ha'| ->]%elem_of_snoc; [by left|]. right. exists e. set_solver. }
  destruct (_ <=? _)%nat; [apply Hs|]. intros Ha. apply IH in Ha as [Ha|(e' & ? & ? & ?)]; [by apply Hs|].
  right. exists e'. set_solver.
Qed.

(** *** Dropping and claiming addresses *)

Definition dropAll (key : NodePublic) (l : list AddrPort) (byAddr : gmap AddrPort NodePublic) : gmap AddrPort NodePublic :=
  filter (λ '(a, k), ¬ (k = key ∧ a ∈ l)) byAddr.

Definition claimAll (key : NodePublic) (l : list AddrPort) (byAddr : gmap AddrPort NodePublic) : gmap AddrPort NodePublic :=
  foldl (λ m a, <[a := key]> m) byAddr l.

Lemma lookup_dropAll key l byAddr a k :
  dropAll key l byAddr !! a = Some k ↔ byAddr !! a = Some k ∧ ¬ (k = key ∧ a ∈ l).
Proof. unfold dropAll. by rewrite map_lookup_filter_Some. Qed.

Lemma lookup_claimAll key l byAddr a :
  claimAll key l byAddr !! a = if decide (a ∈ l) then Some key else byAddr !! a.
Proof.
  unfold claimAll. revert byAddr. induction l as [|x l IH]; intros byAddr; cbn [foldl]; [by rewrite decide_False by set_solver|].
  rewrite IH. destruct (decide (a ∈ l)); [by rewrite decide_True by set_solver|].
  destruct (decide (a = x)) as [->|]; [by rewrite lookup_insert_eq, decide_True by set_solver|].
  by rewrite lookup_insert_ne, decide_False by set_solver.
Qed.

Lemma dropAddr_eq key a b : dropAddr key a b = b <| b_byAddr := dropAll key [a] (b_byAddr b) |>.
Proof.
  unfold dropAddr, addrOwnedBy. case_bool_decide as E.
  - assert (delete a (b_byAddr b) = dropAll key [a] (b_byAddr b)) as ->; [|done]. apply map_eq. intros x.
    apply option_eq. intros k. rewrite lookup_dropAll, list_elem_of_singleton. destruct (decide (x = a)) as [->|].
    + rewrite lookup_delete_eq. split; [done|]. intros [Hk Hn]. exfalso. apply Hn. split; [|done]. by rewrite Hk in E.
    + rewrite lookup_delete_ne by done. naive_solver.
  - assert (dropAll key [a] (b_byAddr b) = b_byAddr b) as ->; [|by destruct b]. apply map_eq. intros x.
    apply option_eq. intros k. rewrite lookup_dropAll, list_elem_of_singleton. split; [by intros [? _]|].
    intros Hk. split; [done|]. intros [-> ->]. by rewrite Hk in E.
Qed.

Lemma dropAll_app key l l' m : dropAll key l' (dropAll key l m) = dropAll key (l ++ l') m.
Proof. apply map_eq. intros x. apply option_eq. intros k. rewrite !lookup_dropAll, elem_of_app. tauto. Qed.

Lemma dropAddrs_eq key l b : foldl (λ b a, dropAddr key a b) b l = b <| b_byAddr := dropAll key l (b_byAddr b) |>.
Proof.
  revert b. induction l as [|a l IH]; intros b; cbn [foldl].
  - assert (dropAll key [] (b_byAddr b) = b_byAddr b) as ->; [|by destruct b]. apply map_eq. intros x.
    apply option_eq. intros k. rewrite lookup_dropAll. set_solver.
  - rewrite dropAddr_eq, IH. destruct b; cbn. by rewrite dropAll_app.
Qed.

Lemma claimAddrs_eq key l b : foldl (λ b a, claimAddr key a b) b l = b <| b_byAddr := claimAll key l (b_byAddr b) |>.
Proof.
  revert b. induction l as [|a l IH]; intros b; cbn [foldl]; [by destruct b|]. rewrite IH. by destruct b.
Qed.

(** *** Preservation *)

(** Replacing one peer and the addresses it owns. *)
Lemma addr_ok_set peers byAddr byAddr' key p' : addr_ok peers byAddr →
  (∀ a k, byAddr' !! a = Some k → if decide (k = key) then peer_owns p' a else byAddr !! a = Some k) →
  addr_ok (<[key := p']> peers) byAddr'.
Proof.
  intros Ha Hs a k Hk. specialize (Hs a k Hk). destruct (decide (k = key)) as [->|].
  - exists p'. by rewrite lookup_insert_eq.
  - destruct (Ha a k Hs) as (p & Hp & ?). exists p. by rewrite lookup_insert_ne.
Qed.

Lemma disco_ok_set peers byDisco byDisco' key p' : disco_ok peers byDisco →
  (∀ d k, byDisco' !! d = Some k →
     if decide (k = key) then key_IsZero d = false ∧ pc_DiscoKey (bp_config p') = d else byDisco !! d = Some k) →
  disco_ok (<[key := p']> peers) byDisco'.
Proof.
  intros Hd Hs d k Hk. specialize (Hs d k Hk). destruct (decide (k = key)) as [->|].
  - destruct Hs. split; [done|]. exists p'. by rewrite lookup_insert_eq.
  - destruct (Hd d k Hs) as (? & p & Hp & ?). split; [done|]. exists p. by rewrite lookup_insert_ne.
Qed.

(** A peer whose disco key does not change keeps the disco index. *)
Lemma disco_ok_same peers byDisco key p p' : disco_ok peers byDisco → peers !! key = Some p →
  pc_DiscoKey (bp_config p') = pc_DiscoKey (bp_config p) → disco_ok (<[key := p']> peers) byDisco.
Proof.
  intros Hd Hp He. apply (disco_ok_set peers byDisco); [done|]. intros d k Hk. destruct (decide (k = key)) as [->|]; [|done].
  destruct (Hd d key Hk) as (? & q & Hq & ?). split; [done|]. congruence.
Qed.

Lemma peers_ok_set peers key p : peers_ok peers → peer_ok key p → peers_ok (<[key := p]> peers).
Proof. intros. by apply map_Forall_insert_2. Qed.

(** The peer an index entry names owns the address. *)
Lemma addr_ok_owns peers byAddr key p a : addr_ok peers byAddr → peers !! key = Some p →
  byAddr !! a = Some key → peer_owns p a.
Proof. intros Ha Hp Hk. destruct (Ha a key Hk) as (q & Hq & ?). congruence. Qed.

Lemma rebuild_ok k p : pc_NodeKey (bp_config p) = k → endpoints_ok (elems (pc_Endpoints (bp_config p))) →
  (size (bp_learned p) ≤ maxLearnedPeerEndpoints)%nat →
  (∀ a, is_Some (bp_learned p !! a) → a ∉ elems (pc_Endpoints (bp_config p)) ∧ ap_is_valid a = true ∧ unmapped a) →
  (bp_direct p = zeroAddrPort ∨ usableAddrPort (bp_direct p) = true ∧ unmapped (bp_direct p)) →
  peer_ok k (rebuildPeerCandidates p).
Proof. intros. destruct p; by constructor. Qed.

(** What pruning does: the state stays well formed, the index only shrinks, and
    the entries that remain for the peer are still its own. *)
Lemma pruneLearned_ok key now p byAddr : peer_ok key p →
  let '(p', byAddr', _) := pruneLearned key now p byAddr in
  peer_ok key p' ∧ bp_config p' = bp_config p ∧ bp_direct p' = bp_direct p ∧ bp_learned p' ⊆ bp_learned p ∧
  (∀ a k, byAddr' !! a = Some k → byAddr !! a = Some k ∧ (k = key → peer_owns p a → peer_owns p' a)).
Proof.
  intros Hp. unfold pruneLearned. cbv zeta.
  set (expired := filter _ _). set (learned := filter (stillFresh now) (bp_learned p)).
  assert (learned ⊆ bp_learned p) as Hsub by apply map_filter_subseteq.
  assert (∀ a, is_Some (bp_learned p !! a) → is_Some (learned !! a) ∨ is_Some (expired !! a)) as Hsplit.
  { intros a [t Ht]. destruct (decide (stillFresh now (a, t))); [left|right]; exists t; by apply map_lookup_filter_Some. }
  case_bool_decide as E; [by split_and!; try done; intros a k Hk|].
  set (p' := rebuildPeerCandidates _).
  assert (peer_ok key p') as Hp'.
  { destruct Hp as [Hk He Hc Hl Hdj Hdr]. apply rebuild_ok; [by destruct p..| | |by destruct p].
    - transitivity (size (bp_learned p)); [|done]. transitivity (size learned); [by destruct p|by apply map_subseteq_size].
    - assert (∀ a, is_Some (learned !! a) → is_Some (bp_learned p !! a)) as Hs.
      { intros a [t Ht]. exists t. by eapply lookup_weaken. }
      intros a Ha. specialize (Hdj a). specialize (Hs a). destruct p; auto. }
  split_and!; [done|by destruct p|by destruct p|by destruct p|].
  intros a k Hk. apply map_lookup_filter_Some in Hk as [Hk Hn]. split; [done|]. intros -> Hown.
  destruct (decide (bp_direct p = a)) as [Ed|Ed].
  { destruct Hown as [Hown|Hown].
    - destruct (po_direct _ _ Hp) as [Hz|[Hu _]].
      + exfalso. rewrite Ed in Hz. rewrite (elem_of_candidates key p) in Hown by done. subst a. destruct Hown as [Hin|Hin].
        * destruct (po_endpoints _ _ Hp) as (_ & _ & Hf). rewrite Forall_forall in Hf. destruct (Hf _ Hin) as [Hu _].
          rewrite Hz in Hu. done.
        * destruct (po_disjoint _ _ Hp _ Hin) as (_ & Hv & _). by rewrite Hz in Hv.
      + right. split; [by destruct p|]. rewrite <-Ed. unfold usableAddrPort in Hu. by destruct (IsValid (ap_addr (bp_direct p))) eqn:?.
    - right. split; [by destruct p|]. apply Hown. }
  left. destruct Hown as [Hown|[? _]]; [|done]. rewrite (elem_of_candidates key p') by done.
  rewrite (elem_of_candidates key p) in Hown by done. destruct Hown as [Hin|Hin]; [left; by destruct p|].
  destruct (Hsplit a Hin) as [Hl|He]; [right; by destruct p|]. exfalso. apply Hn. done.
Qed.

Lemma usable_valid a : usableAddrPort a = true → ap_is_valid a = true.
Proof. unfold usableAddrPort, ap_is_valid. by destruct (IsValid (ap_addr a)). Qed.

Lemma unmapAddrPort_unmapped a : unmapped (unmapAddrPort a).
Proof.
  unfold unmapAddrPort. destruct (negb (ap_is_valid a)) eqn:E; [|apply Unmap_unmapped].
  unfold ap_is_valid in E. destruct a as [[] ?]; done.
Qed.

(** Reading off whether an update changes who owns an address. *)
Ltac addr_cases :=
  repeat match goal with
  | H : dropAll _ _ _ !! _ = Some _ |- _ => apply lookup_dropAll in H as [? ?]
  | H : claimAll _ _ _ !! _ = Some _ |- _ => rewrite lookup_claimAll in H
  | H : context [decide (?a ∈ ?l)] |- _ => destruct (decide (a ∈ l))
  | H : <[?x := _]> _ !! ?y = Some _ |- _ =>
      destruct (decide (x = y)) as [<-|]; [rewrite lookup_insert_eq in H|rewrite lookup_insert_ne in H by done]
  | H : Some _ = Some _ |- _ => injection H as <-
  end.

Lemma setDirect_peer_ok now key p addr latency : peer_ok key p → usableAddrPort addr = true → unmapped addr →
  peer_ok key (p <| bp_direct := addr |> <| bp_latency := latency |> <| bp_directAt := now |>).
Proof. intros [? ? ? ? ? ?] ? ?. destruct p; constructor; cbn in *; auto. Qed.

Lemma index_setDirect now node addr latency w :
  index_ok (bw_bind w) → index_ok (bw_bind (setDirect now node addr latency w)).
Proof.
  intros Hi. unfold setDirect. cbv zeta. destruct (negb _) eqn:Eu; [done|]. apply negb_false_iff in Eu.
  destruct (b_peers (bw_bind w) !! node) as [p|] eqn:Ep; [|done].
  set (addr' := unmapAddrPort addr) in *. pose proof (unmapAddrPort_unmapped addr : unmapped addr') as Hum.
  set (p' := p <| bp_direct := addr' |> <| bp_latency := latency |> <| bp_directAt := now |>).
  set (drop := _ && _ && _).
  match goal with |- index_ok (bw_bind (when _ _ ?w1)) => assert (index_ok (bw_bind w1)) as Hg end.
  2: { unfold when. by destruct (_ || _). }
  destruct w as [b out]; cbn [bw_bind on_bind_state] in *. destruct Hi as [Hp Ha Hd].
  pose proof (map_Forall_lookup_1 _ _ _ _ Hp Ep) as Hpp.
  assert (index_ok (claimAddr node addr' ((when drop (dropAddr node (bp_direct p)) b) <| b_peers := <[node := p']> (b_peers b) |>))) as Hg.
  { assert (∃ m, when drop (dropAddr node (bp_direct p)) b = b <| b_byAddr := m |> ∧
      m = if drop then dropAll node [bp_direct p] (b_byAddr b) else b_byAddr b) as (m & -> & Hm).
    { unfold when. destruct drop; [rewrite dropAddr_eq; by eexists|]. exists (b_byAddr b). by destruct b. }
    destruct b as [cfg op cl conn inb lport local stun stunAt peers byDisco byAddr pend spend dmap self gen ldc lfdc dcid dchk dlat].
    cbn in *. constructor; cbn.
    - apply peers_ok_set; [done|]. by apply setDirect_peer_ok.
    - apply (addr_ok_set _ byAddr); [done|]. intros a k Hk. addr_cases.
      { rewrite decide_True by done. right. split; [by destruct p|]. by apply usable_valid. }
      assert (byAddr !! a = Some k) as Hold by (subst m; destruct drop; [by apply lookup_dropAll in Hk as [? _]|done]).
      destruct (decide (k = node)) as [->|]; [|done].
      destruct (addr_ok_owns _ _ _ _ _ Ha Ep Hold) as [Hin|[Hdir Hv]]; [left; by destruct p|].
      subst m. unfold drop in Hk. rewrite <-Hdir in Hv. rewrite Hv in Hk.
      rewrite (bool_decide_eq_true_2 (bp_direct p ≠ addr')) in Hk by congruence. cbn [andb] in Hk.
      case_bool_decide as Hc; cbn [negb] in Hk; [left; rewrite <-Hdir; by destruct p|].
      apply lookup_dropAll in Hk as [_ Hn]. exfalso. apply Hn. split; [done|]. rewrite Hdir. set_solver.
    - eapply disco_ok_same; [done|done|by destruct p]. }
  assert (b_peers (when drop (dropAddr node (bp_direct p)) b) = b_peers b) as ->; [|done].
  unfold when. destruct drop; [rewrite dropAddr_eq|]; by destruct b.
Qed.

(** The parts of the state after [updatePeerLocked]. *)
Section UpdatePeer.
Context (config : PeerConfig) (old : peerState).
Implicit Types (byDisco : gmap DiscoPublic NodePublic) (byAddr : gmap AddrPort NodePublic).

Definition discoChanged : bool := bool_decide (pc_DiscoKey (bp_config old) ≠ pc_DiscoKey config).

Definition updatedPeer : peerState :=
  let lost := ap_is_valid (bp_direct old) && discoChanged in
  mkpeerState config (elems (pc_Endpoints config)) ∅ (if lost then zeroAddrPort else bp_direct old)
    (if lost then 0 else bp_latency old) (if lost then 0 else bp_directAt old) 0.

Definition updatedDisco byDisco : gmap DiscoPublic NodePublic :=
  let byDisco := if negb (key_IsZero (pc_DiscoKey (bp_config old))) then delete (pc_DiscoKey (bp_config old)) byDisco else byDisco in
  if negb (key_IsZero (pc_DiscoKey config)) then <[pc_DiscoKey config := pc_NodeKey config]> byDisco else byDisco.

Definition updatedAddr byAddr : gmap AddrPort NodePublic :=
  let key := pc_NodeKey config in
  let byAddr := claimAll key (elems (pc_Endpoints config)) (dropAll key (bp_candidates old) byAddr) in
  if ap_is_valid (bp_direct old) then
    if discoChanged then dropAll key [bp_direct old] byAddr else <[bp_direct old := key]> byAddr
  else byAddr.

Lemma updatedPeer_ok : endpoints_ok (elems (pc_Endpoints config)) →
  (bp_direct old = zeroAddrPort ∨ usableAddrPort (bp_direct old) = true ∧ unmapped (bp_direct old)) →
  peer_ok (pc_NodeKey config) updatedPeer.
Proof.
  intros He Hdir. constructor; cbn; try done.
  - unfold candidateList. by rewrite map_to_list_empty, app_nil_r.
  - rewrite map_size_empty. lia.
  - intros a Hs. rewrite lookup_empty in Hs. by destruct Hs.
  - destruct (_ && _); [by left|done].
Qed.

Lemma updatedDisco_ok peers byDisco : disco_ok peers byDisco →
  (∀ d, byDisco !! d = Some (pc_NodeKey config) → d = pc_DiscoKey (bp_config old) ∧ key_IsZero d = false) →
  disco_ok (<[pc_NodeKey config := updatedPeer]> peers) (updatedDisco byDisco).
Proof.
  intros Hd Hold. apply (disco_ok_set peers byDisco); [done|]. intros d k Hk. unfold updatedDisco in Hk. cbv zeta in Hk.
  set (m := if negb (key_IsZero (pc_DiscoKey (bp_config old))) then _ else _) in Hk.
  assert (m !! d = Some k → if decide (k = pc_NodeKey config) then key_IsZero d = false ∧ pc_DiscoKey config = d else byDisco !! d = Some k) as H1.
  { unfold m. intros Hk'. destruct (decide (k = pc_NodeKey config)) as [->|].
    - destruct (negb _) eqn:Ez; [apply lookup_delete_Some in Hk' as [Hne Hk']|]; destruct (Hold d Hk') as [-> Hz]; [done|].
      by rewrite Hz in Ez.
    - destruct (negb (key_IsZero (pc_DiscoKey (bp_config old)))); [by apply lookup_delete_Some in Hk' as [_ ?]|done]. }
  destruct (negb (key_IsZero (pc_DiscoKey config))) eqn:Ez; [|by apply H1]. addr_cases; [|by apply H1].
  rewrite decide_True by done. split; [by apply negb_true_iff in Ez|done].
Qed.

Lemma updatedAddr_ok peers byAddr : addr_ok peers byAddr →
  (∀ a, byAddr !! a = Some (pc_NodeKey config) → peer_owns old a) →
  addr_ok (<[pc_NodeKey config := updatedPeer]> peers) (updatedAddr byAddr).
Proof.
  intros Ha Hown. apply (addr_ok_set _ byAddr); [done|]. intros a k Hk. unfold updatedAddr in Hk. cbv zeta in Hk.
  set (m := claimAll _ _ _) in Hk.
  assert (m !! a = Some k → if decide (k = pc_NodeKey config)
    then a ∈ elems (pc_Endpoints config) ∨ bp_direct old = a ∧ ap_is_valid a = true else byAddr !! a = Some k) as H1.
  { intros Hm. unfold m in Hm. addr_cases; [rewrite decide_True by done; by left|].
    destruct (decide (k = pc_NodeKey config)) as [->|]; [|done]. destruct (Hown a) as [|]; [done|tauto|by right]. }
  unfold peer_owns, updatedPeer. cbv zeta. cbn [bp_candidates bp_direct]. clearbody m.
  destruct (ap_is_valid (bp_direct old)) eqn:Ev; cbn [andb]; [|by apply H1]. destruct discoChanged.
  - apply lookup_dropAll in Hk as [Hk Hn]. specialize (H1 Hk). destruct (decide (k = pc_NodeKey config)) as [->|]; [|done].
    destruct H1 as [|[<- _]]; [by left|]. exfalso. apply Hn. set_solver.
  - destruct (decide (bp_direct old = a)) as [<-|]; [rewrite lookup_insert_eq in Hk|rewrite lookup_insert_ne in Hk by done; by apply H1].
    injection Hk as <-. rewrite decide_True by done. by right.
Qed.
End UpdatePeer.

Definition sanitized (config : PeerConfig) : PeerConfig := config <| pc_Endpoints := sanitizeEndpoints (pc_Endpoints config) |>.

Lemma updatePeerLocked_index config b b' : updatePeerLocked config b = Some b' →
  let config := sanitized config in
  let old := default zeroPeerState (b_peers b !! pc_NodeKey config) in
  index b' = (<[pc_NodeKey config := updatedPeer config old]> (b_peers b), updatedAddr config old (b_byAddr b),
              updatedDisco config old (b_byDisco b)).
Proof.
  unfold updatePeerLocked. cbv zeta. fold (sanitized config). generalize (sanitized config). clear config. intros config.
  destruct (match b_peers b !! _ with Some _ => _ | None => _ end); [done|]. generalize (default zeroPeerState (b_peers b !! pc_NodeKey config)).
  intros old. rewrite dropAddrs_eq, claimAddrs_eq, !dropAddr_eq. unfold index, updatedPeer, updatedAddr, updatedDisco, discoChanged, when, claimAddr.
  destruct b, old as [oc ocand ol od olat oat olp]; cbn.
  destruct (ap_is_valid od); cbn; [destruct (bool_decide _); cbn|];
    (destruct (negb (key_IsZero (pc_DiscoKey oc))), (negb (key_IsZero (pc_DiscoKey config))); cbn; intros [= <-]; reflexivity).
Qed.

Lemma index_updatePeer config b b' : updatePeerLocked config b = Some b' → index_ok b → index_ok b'.
Proof.
  intros Hu [Hp Ha Hd]. apply updatePeerLocked_index in Hu. cbv zeta in Hu. unfold index in Hu.
  assert (endpoints_ok (elems (pc_Endpoints (sanitized config)))) as He by (destruct config; apply sanitizeEndpoints_ok).
  revert Hu He. generalize (sanitized config). clear config. intros config [= E1 E2 E3] He. set (old := default zeroPeerState _) in *.
  constructor; rewrite ?E1, ?E2, ?E3.
  - apply peers_ok_set, updatedPeer_ok; [done..|]. unfold old. destruct (b_peers b !! _) as [q|] eqn:Eq; [|by left].
    apply (po_direct (pc_NodeKey config)). by apply (map_Forall_lookup_1 _ _ _ _ Hp).
  - apply updatedAddr_ok; [done|]. intros a Hk. destruct (Ha a _ Hk) as (q & Hq & ?). unfold old. by rewrite Hq.
  - apply updatedDisco_ok; [done|]. intros d Hk. destruct (Hd d _ Hk) as (? & q & Hq & ?). unfold old. by rewrite Hq.
Qed.

Lemma RemovePeer_index key b :
  index (RemovePeer key b) =
  match b_peers b !! key with
  | None => (delete key (b_peers b), b_byAddr b, b_byDisco b)
  | Some p => (delete key (b_peers b),
      dropAll key (bp_candidates p ++ if ap_is_valid (bp_direct p) then [bp_direct p] else []) (b_byAddr b),
      delete (pc_DiscoKey (bp_config p)) (b_byDisco b))
  end.
Proof.
  unfold RemovePeer. cbv zeta. destruct (b_peers b !! key) as [p|]; [|by destruct b].
  unfold when. rewrite dropAddrs_eq, dropAddr_eq. unfold index. rewrite <-dropAll_app. destruct b; cbn.
  destruct (ap_is_valid (bp_direct p)); cbn; [done|].
  assert (∀ m, dropAll key [] m = m) as ->; [|done]. intros m. apply map_eq. intros x. apply option_eq. intros k.
  rewrite lookup_dropAll. set_solver.
Qed.

Lemma index_RemovePeer key b : index_ok b → index_ok (RemovePeer key b).
Proof.
  intros [Hp Ha Hd]. pose proof (RemovePeer_index key b) as Hr. unfold index in Hr.
  destruct (b_peers b !! key) as [p|] eqn:Ep; injection Hr as E1 E2 E3; constructor; rewrite ?E1, ?E2, ?E3.
  - by apply map_Forall_delete.
  - intros a k Hk. apply lookup_dropAll in Hk as [Hk Hn]. destruct (decide (k = key)) as [->|Hne].
    + exfalso. apply Hn. split; [done|]. apply elem_of_app.
      destruct (addr_ok_owns _ _ _ _ _ Ha Ep Hk) as [|[<- Hv]]; [by left|]. right. rewrite Hv. set_solver.
    + destruct (Ha a k Hk) as (q & Hq & ?). exists q. by rewrite lookup_delete_ne.
  - intros d k Hk. apply lookup_delete_Some in Hk as [Hne Hk]. destruct (Hd d k Hk) as (? & q & Hq & Hqd). split; [done|].
    exists q. rewrite lookup_delete_ne; [done|]. intros ->. congruence.
  - by apply map_Forall_delete.
  - intros a k Hk. destruct (Ha a k Hk) as (q & Hq & ?). exists q. rewrite lookup_delete_ne; [done|]. congruence.
  - intros d k Hk. destruct (Hd d k Hk) as (? & q & Hq & ?). split; [done|]. exists q. rewrite lookup_delete_ne; [done|]. congruence.
Qed.

(** What the loop of [addLearnedCandidatesLocked] keeps. *)
Definition learning (node : NodePublic) (config : PeerConfig) (byAddr0 : gmap AddrPort NodePublic) (learned0 : gmap AddrPort Z)
    (acc : gmap AddrPort Z * gmap AddrPort NodePublic * bool) : Prop :=
  let '(learned, byAddr, changed) := acc in
  (size learned ≤ maxLearnedPeerEndpoints)%nat ∧
  (∀ a, is_Some (learned !! a) → a ∉ elems (pc_Endpoints config) ∧ ap_is_valid a = true ∧ unmapped a) ∧
  (∀ a k, byAddr !! a = Some k → k = node ∧ is_Some (learned !! a) ∨ byAddr0 !! a = Some k) ∧
  (∀ a, is_Some (learned0 !! a) → is_Some (learned !! a)) ∧
  (changed = false → dom learned = dom learned0).

Lemma learnEndpoint_keeps node now config byAddr0 learned0 acc endpoint :
  learning node config byAddr0 learned0 acc → learning node config byAddr0 learned0 (learnEndpoint node now config acc endpoint).
Proof.
  destruct acc as [[learned byAddr] changed]. intros (Hs & Hl & Hb & Hm & Hc). unfold learnEndpoint. cbv zeta.
  pose proof (unmapAddrPort_unmapped endpoint) as Hum. set (e := unmapAddrPort endpoint) in *. clearbody e.
  destruct (negb _ || _) eqn:E; [done|]. apply orb_false_iff in E as [Hv Hn].
  apply negb_false_iff in Hv. apply bool_decide_eq_false in Hn.
  assert (∀ ch, (size (<[e := now]> learned) ≤ maxLearnedPeerEndpoints)%nat →
    (ch = false → dom (<[e := now]> learned) = dom learned0) →
    learning node config byAddr0 learned0 (<[e := now]> learned, <[e := node]> byAddr, ch)) as Hins.
  { intros ch Hsz Hch. split_and!; [done| | | |done].
    - intros a Ha. destruct (decide (a = e)) as [->|]; [done|]. rewrite lookup_insert_ne in Ha by done. by apply Hl.
    - intros a k Hk. destruct (decide (a = e)) as [->|].
      + rewrite lookup_insert_eq in Hk. rewrite lookup_insert_eq. injection Hk as <-. left. split; [done|]. by eexists.
      + rewrite lookup_insert_ne in Hk by done. rewrite lookup_insert_ne by done. by apply Hb.
    - intros a Ha. apply Hm in Ha. destruct (decide (a = e)) as [->|]; [rewrite lookup_insert_eq; by eexists|].
      by rewrite lookup_insert_ne. }
  case_bool_decide as He.
  - apply Hins; [by rewrite map_size_insert_Some by done|]. intros Hf. rewrite dom_insert_lookup_L by done. auto.
  - destruct (Nat.leb_spec maxLearnedPeerEndpoints (size learned)); [done|]. apply Hins; [|done].
    rewrite map_size_insert_None by by apply eq_None_not_Some. lia.
Qed.

Lemma dom_candidateList endpoints (l l' : gmap AddrPort Z) : dom l = dom l' → candidateList endpoints l = candidateList endpoints l'.
Proof.
  intros Hd. unfold candidateList. f_equal. apply (sort_func_unique ap_compare _ _). apply NoDup_Permutation; [apply NoDup_fst_map_to_list..|].
  intros a. rewrite !list_elem_of_fmap. assert (∀ (m : gmap AddrPort Z), (∃ y, a = y.1 ∧ y ∈ map_to_list m) ↔ a ∈ dom m) as Hm.
  { intros m. rewrite elem_of_dom. split.
    - intros ([a' t] & -> & Hin). apply elem_of_map_to_list in Hin. by eexists.
    - intros [t Ht]. exists (a, t). split; [done|]. by apply elem_of_map_to_list. }
  by rewrite !Hm, Hd.
Qed.

Lemma index_addLearned node fresh now b : index_ok b → index_ok (addLearnedCandidatesLocked node fresh now b).1.
Proof.
  intros [Hp Ha Hd]. unfold addLearnedCandidatesLocked. destruct (b_peers b !! node) as [p|] eqn:Ep; [|done].
  pose proof (map_Forall_lookup_1 _ _ _ _ Hp Ep) as Hpp. pose proof (pruneLearned_ok node now p (b_byAddr b) Hpp) as Hpr.
  destruct (pruneLearned node now p (b_byAddr b)) as [[p1 byAddr1] pruned].
  destruct Hpr as (Hp1 & Hcfg & Hdir & _ & Hown).
  assert (learning node (bp_config p1) byAddr1 (bp_learned p1)
    (foldl (learnEndpoint node now (bp_config p1)) (bp_learned p1, byAddr1, pruned) fresh)) as Hl.
  { apply foldl_preserves; [|intros; by apply learnEndpoint_keeps].
    split_and!; [by apply (po_learned node)|by apply (po_disjoint node)|by right|done|done]. }
  destruct (foldl _ _ fresh) as [[learned byAddr2] changed]. destruct Hl as (Hs & Hl & Hb & Hm & Hc). cbn [fst].
  set (p2 := when changed rebuildPeerCandidates (p1 <| bp_learned := learned |>)).
  assert (peer_ok node p2 ∧ bp_config p2 = bp_config p1 ∧ bp_direct p2 = bp_direct p1 ∧ bp_learned p2 = learned) as (Hp2 & Hcfg2 & Hdir2 & Hl2).
  { unfold p2, when. destruct changed.
    - split; [|by destruct p1]. apply rebuild_ok; destruct p1, Hp1; done.
    - split; [|by destruct p1]. destruct p1 as [c1 cand1 l1 d1 lat1 at1 lp1], Hp1; cbn in *. constructor; cbn; try done.
      rewrite (dom_candidateList _ learned l1); auto. }
  clearbody p2. assert (bp_candidates p1 = candidateList (elems (pc_Endpoints (bp_config p1))) (bp_learned p1)) by apply (po_candidates _ _ Hp1).
  destruct b; cbn in *. constructor; cbn.
  - by apply peers_ok_set.
  - apply (addr_ok_set _ b_byAddr0); [done|]. intros a k Hk. destruct (decide (k = node)) as [->|].
    + destruct (Hb a node Hk) as [[_ Hin]|Hold]; [left; rewrite (elem_of_candidates node) by done; right; by rewrite Hl2|].
      destruct (Hown a node Hold) as [H0 H1]. specialize (H1 eq_refl (addr_ok_owns _ _ _ _ _ Ha Ep H0)).
      destruct H1 as [Hc1|[H1 H2]]; [|right; by rewrite Hdir2]. left. rewrite (elem_of_candidates node) by done.
      rewrite (elem_of_candidates node p1) in Hc1 by done. rewrite Hcfg2, Hl2. destruct Hc1; [by left|right; by apply Hm].
    + destruct (Hb a k Hk) as [[? _]|Hold]; [done|]. by destruct (Hown a k Hold).
  - eapply disco_ok_same; [done|done|]. by rewrite Hcfg2, Hcfg.
Qed.

(** The loop of [Open] over the peers, started with an empty address index. *)
Definition reopenPeers `{RangeOrder} (now : Z) (b : Bind) : Bind :=
  foldl (reopenPeer now) (b <| b_byAddr := ∅ |>) (map fst (range 20 (b_peers b))).

Lemma reopenPeer_step now key b : index_ok b → (∀ a, b_byAddr b !! a ≠ Some key) →
  index_ok (reopenPeer now b key) ∧ (∀ a k, b_byAddr (reopenPeer now b key) !! a = Some k → k = key ∨ b_byAddr b !! a = Some k).
Proof.
  intros [Hp Ha Hd] Hno. unfold reopenPeer. destruct (b_peers b !! key) as [p|] eqn:Ep; [|by split; [|right]].
  pose proof (map_Forall_lookup_1 _ _ _ _ Hp Ep) as Hpp. pose proof (pruneLearned_ok key now p (b_byAddr b) Hpp) as Hpr.
  destruct (pruneLearned key now p (b_byAddr b)) as [[p1 byAddr1] pruned]. destruct Hpr as (Hp1 & Hcfg & _ & _ & Hown). cbv zeta.
  set (p2 := p1 <| bp_direct := _ |> <| bp_latency := _ |> <| bp_directAt := _ |> <| bp_lastProbe := _ |>).
  assert (peer_ok key p2 ∧ bp_config p2 = bp_config p1) as [Hp2 Hcfg2].
  { split; [|by destruct p1]. destruct p1, Hp1; constructor; cbn in *; auto. }
  clearbody p2. rewrite claimAddrs_eq.
  assert (∀ a k, claimAll key (bp_candidates p2) byAddr1 !! a = Some k → k = key ∧ a ∈ bp_candidates p2 ∨ b_byAddr b !! a = Some k) as Hcl.
  { intros a k Hk. addr_cases; [by left|]. right. by apply Hown. }
  destruct b; cbn in *. split; [|intros a k Hk; destruct (Hcl a k Hk) as [[? _]|]; auto]. constructor; cbn.
  - by apply peers_ok_set.
  - apply (addr_ok_set _ b_byAddr0); [done|]. intros a k Hk. destruct (Hcl a k Hk) as [[-> Hin]|Hk'].
    + rewrite decide_True by done. by left.
    + rewrite decide_False; [done|]. intros ->. by apply (Hno a).
  - eapply disco_ok_same; [done|done|]. by rewrite Hcfg2, Hcfg.
Qed.

Lemma reopen_loop now keys : ∀ b, NoDup keys → index_ok b → (∀ a k, b_byAddr b !! a = Some k → k ∉ keys) →
  index_ok (foldl (reopenPeer now) b keys).
Proof.
  induction keys as [|key keys IH]; intros b Hnd Hi Hno; cbn [foldl]; [done|]. apply NoDup_cons in Hnd as [Hk Hnd].
  destruct (reopenPeer_step now key b Hi) as [Hi' Hb']; [intros a E; apply (Hno a key E); set_solver|].
  apply IH; [done..|]. intros a k E. destruct (Hb' a k E) as [->|E']; [done|]. specialize (Hno a k E'). set_solver.
Qed.

Lemma index_reopen `{RangeOrder} now b : index_ok b → index_ok (reopenPeers now b).
Proof.
  intros [Hp Ha Hd]. apply reopen_loop; [apply NoDup_range| |].
  - destruct b; by constructor.
  - intros a k Hk. destruct b; cbn in Hk. by rewrite lookup_empty in Hk.
Qed.
