(* ===== verification/Disco.v ===== *)
(** * Path discovery ([internal/tailnet/disco.go])

    Peers find direct UDP paths with sealed pings and pongs, and announce
    their endpoints over DERP with CallMeMaybe.  The handlers are functions on
    the transport's world; a slice expression out of range is a panic, written
    [None]. *)

From Stdlib Require Import ZArith Lia String Strings.Byte.
From S2P Require Export Transport.
Open Scope Z_scope.

(** ["TS"] followed by U+1F4AC. *)
Definition discoMagic : list byte := [x54; x53; xf0; x9f; x92; xac].
Definition discoHeaderLen : nat := length discoMagic + 32.
Definition discoPing : byte := x01.
Definition discoPong : byte := x02.
Definition discoCallMe : byte := x03.
Definition discoVersion : byte := x00.
Definition discoEndpoint : nat := 16 + 2.
Definition maxCallMeMaybeEndpoints : nat := 256.

Section Disco.
Context `{BoxOps} `{RangeOrder}.
Implicit Types w : BindWorld.

(** ** Local endpoints *)

Definition candidate_cmp (a c : EndpointCandidate) : Z :=
  let compare := ap_compare (ec_Addr a) (ec_Addr c) in
  if negb (compare =? 0) then compare else ec_Type a - ec_Type c.

Definition endpointsLocked (b : Bind) : list EndpointCandidate :=
  compact_func (λ a c, bool_decide (ec_Addr a = ec_Addr c))
    (sort_func candidate_cmp (b_local b ++ map snd (range 21 (b_stun b)))).

Definition CurrentEndpoints (b : Bind) : slice EndpointCandidate :=
  if cfg_DisableDiscovery (b_cfg b) then None else Some (endpointsLocked b).

Definition notifyEndpoints w : BindWorld := bind_emit (OutEndpoints (CurrentEndpoints (bw_bind w))) w.

(** ** Sending *)

(** The outcome of a UDP write. *)
Definition UDPWrite : Type := list byte → AddrPort → option error.

Fixpoint writeAll (udp : UDPWrite) (bufs : list (list byte)) (addr : AddrPort) w : BindWorld * option error :=
  match bufs with
  | [] => (w, None)
  | packet :: bufs =>
      let w := bind_emit (OutUDP packet addr) w in
      match udp packet addr with
      | Some e => (w, Some e)
      | None => writeAll udp bufs addr w
      end
  end.

Definition sendUDP (udp : UDPWrite) (bufs : list (list byte)) (addr : AddrPort) w : BindWorld * option error :=
  if negb (b_open (bw_bind w)) || negb (b_conn (bw_bind w)) then (w, Some ErrNetClosed)
  else writeAll udp bufs addr w.

Definition wrapDisco (cfg : BindConfig) (nonce : option (array 24)) (peer : DiscoPublic) (payload : list byte)
    : result string (list byte) :=
  match SealDisco (DiscoShared (cfg_DiscoPrivate cfg) peer) nonce payload with
  | Err e => Err e
  | Ok sealed => Ok (AppendTo (PublicDisco (cfg_DiscoPrivate cfg)) discoMagic ++ sealed)
  end.

(** ** Probing *)

(** The transaction, nonce and time of one ping. *)
Record ProbeRand := mkProbeRand { pr_tx : option (array 12); pr_nonce : option (array 24); pr_sent : Z }.

Definition expirePingsLocked (now : Z) (b : Bind) : Bind :=
  b <| b_pending := filter (λ '(_, ping), time_sub now (pp_sent ping) ≤ Minute) (b_pending b) |>.

Definition pingPayload (cfg : BindConfig) (tx : array 12) : list byte :=
  [discoPing; discoVersion] ++ arr_bytes tx ++ arr_bytes (PublicNode (cfg_NodePrivate cfg)).

(** One candidate of the loop of [probePeer]. *)
Definition pingCandidate (udp : UDPWrite) (rand : ProbeRand) (node : NodePublic) (discoKey : DiscoPublic)
    (candidate : AddrPort) w : BindWorld :=
  match pr_tx rand with
  | None => w
  | Some tx =>
      match wrapDisco (b_cfg (bw_bind w)) (pr_nonce rand) discoKey (pingPayload (b_cfg (bw_bind w)) tx) with
      | Err _ => w
      | Ok packet =>
          let w := on_bind_state (λ b, b <| b_pending := <[tx := mkpendingPing node candidate (pr_sent rand)]> (b_pending b) |>) w in
          (sendUDP udp [packet] candidate w).1
      end
  end.

Fixpoint pingCandidates (udp : UDPWrite) (rands : nat → ProbeRand) (i : nat) (node : NodePublic) (discoKey : DiscoPublic)
    (candidates : list AddrPort) w : BindWorld :=
  match candidates with
  | [] => w
  | candidate :: candidates =>
      pingCandidates udp rands (S i) node discoKey candidates (pingCandidate udp (rands i) node discoKey candidate w)
  end.

Definition callMePayload (localEndpoints : list EndpointCandidate) : list byte :=
  [discoCallMe; discoVersion] ++ concat (map (λ endpoint,
    if ap_is_valid (ec_Addr endpoint) then As16 (ap_addr (ec_Addr endpoint)) ++ be_encode 2 (ap_port (ec_Addr endpoint)) else [])
    localEndpoints).

(** Whether [probePeer] may probe now. *)
Definition probeDue (now : Z) (b : Bind) (peer : peerState) : bool :=
  negb (key_IsZero (pc_DiscoKey (bp_config peer))) && b_open b
  && negb (negb (time_is_zero (bp_lastProbe peer)) && (time_sub now (bp_lastProbe peer) <? 5 * Second)).

(** [callMeNonce] is the nonce of the CallMeMaybe message. *)
Definition probePeer (now : Z) (udp : UDPWrite) (rands : nat → ProbeRand) (callMeNonce : option (array 24))
    (node : NodePublic) w : BindWorld :=
  let b := bw_bind w in
  if cfg_DisableDiscovery (b_cfg b) then w
  else match b_peers b !! node with
       | None => w
       | Some peer =>
           if negb (probeDue now b peer) then w
           else
             let localEndpoints := endpointsLocked b in
             let w := on_bind_state (λ b,
               let b := b <| b_peers := <[node := peer <| bp_lastProbe := now |>]> (b_peers b) |> in
               let b := expirePingsLocked now b in
               b <| b_pending := filter (λ '(_, ping), pp_node ping ≠ node) (b_pending b) |>) w in
             let discoKey := pc_DiscoKey (bp_config peer) in
             let w := pingCandidates udp rands 0 node discoKey (bp_candidates peer) w in
             if cfg_DisableDERP (b_cfg b) || (pc_HomeDERP (bp_config peer) =? 0) || bool_decide (localEndpoints = []) then w
             else match wrapDisco (b_cfg b) callMeNonce discoKey (callMePayload localEndpoints) with
                  | Err _ => w
                  | Ok packet => bind_emit (OutDERP (pc_HomeDERP (bp_config peer)) node packet) w
                  end
       end.

(** ** Receiving *)

(** The packet as [handleDisco] sees it before it looks at the message. *)
Inductive DiscoPacket :=
| NotDisco
| DiscoIgnored
| DiscoFrom (node : NodePublic) (sender : DiscoPublic) (cleartext : list byte).

Definition openDiscoPacket (b : Bind) (packet : list byte) (derpSource : NodePublic) (viaDERP : bool) : option DiscoPacket :=
  if cfg_DisableDiscovery (b_cfg b) then Some NotDisco
  else if (length packet <? discoHeaderLen + 24)%nat then Some NotDisco
  else
    magic ← subslice 0 (length discoMagic) packet;
    if negb (bool_decide (magic = discoMagic)) then Some NotDisco
    else
      senderBytes ← subslice (length discoMagic) discoHeaderLen packet;
      let sender := to_array 32 senderBytes in
      let node := default (zero_array 32) (b_byDisco b !! sender) in
      if bool_decide (b_byDisco b !! sender = None) || bool_decide (b_peers b !! node = None)
         || (viaDERP && negb (bool_decide (derpSource = node))) then Some DiscoIgnored
      else
        sealed ← subslice discoHeaderLen (length packet) packet;
        match OpenDisco (DiscoShared (cfg_DiscoPrivate (b_cfg b)) sender) sealed with
        | None => Some DiscoIgnored
        | Some cleartext =>
            if (length cleartext <? 2)%nat then Some DiscoIgnored
            else
              version ← cleartext !! 1%nat;
              if negb (bool_decide (version = discoVersion)) then Some DiscoIgnored
              else Some (DiscoFrom node sender cleartext)
        end.

Definition pongPayload (tx : array 12) (source : AddrPort) : list byte :=
  [discoPong; discoVersion] ++ arr_bytes tx ++ As16 (ap_addr source) ++ be_encode 2 (ap_port source).

Definition handlePing (now : Z) (udp : UDPWrite) (nonce : option (array 24)) (node : NodePublic) (sender : DiscoPublic)
    (cleartext : list byte) (source : AddrPort) (viaDERP : bool) w : option BindWorld :=
  if (length cleartext <? 14)%nat || viaDERP || negb (ap_is_valid source) then Some w
  else
    claimed ← (if (46 <=? length cleartext)%nat then Some <$> subslice 14 46 cleartext else Some None);
    if match claimed with Some c => negb (bool_decide (to_array 32 c = node)) | None => false end then Some w
    else
      txBytes ← subslice 2 14 cleartext;
      let w := setDirect now node source 0 w in
      match wrapDisco (b_cfg (bw_bind w)) nonce sender (pongPayload (to_array 12 txBytes) source) with
      | Err _ => Some w
      | Ok response => Some (sendUDP udp [response] source w).1
      end.

Definition handlePong (now : Z) (node : NodePublic) (cleartext : list byte) (source : AddrPort) (viaDERP : bool) w
    : option BindWorld :=
  if (length cleartext <? 32)%nat || viaDERP || negb (ap_is_valid source) then Some w
  else
    txBytes ← subslice 2 14 cleartext;
    let tx := to_array 12 txBytes in
    match b_pending (bw_bind w) !! tx with
    | None => Some w
    | Some pending =>
        let w := on_bind_state (λ b, b <| b_pending := delete tx (b_pending b) |>) w in
        if bool_decide (pp_node pending = node) then Some (setDirect now node source (time_sub now (pp_sent pending)) w)
        else Some w
    end.

(** An endpoint of CallMeMaybe worth probing. *)
Definition callMeUsable (ap : AddrPort) : bool :=
  let addr := ap_addr ap in
  IsValid addr && negb (IsUnspecified addr) && negb (IsMulticast addr) && negb (IsLoopback addr)
  && negb (IsLinkLocalUnicast addr) && negb (ap_port ap =? 0).

Fixpoint callMeLoop (fuel : nat) (data : list byte) (fresh : list AddrPort) : option (list AddrPort) :=
  match fuel with
  | O => None
  | S fuel =>
      if (length data <? discoEndpoint)%nat then Some fresh
      else if (maxCallMeMaybeEndpoints <=? length fresh)%nat then Some fresh
      else
        raw ← subslice 0 16 data; portBytes ← subslice 16 18 data;
        let ap := mkAddrPort (Unmap (AddrFrom16 raw)) (be_decode portBytes) in
        rest ← subslice discoEndpoint (length data) data;
        callMeLoop fuel rest (if callMeUsable ap then fresh ++ [ap] else fresh)
  end.

Definition handleCallMe (now : Z) (udp : UDPWrite) (rands : nat → ProbeRand) (nonce : option (array 24)) (node : NodePublic)
    (cleartext : list byte) (viaDERP : bool) w : option BindWorld :=
  if negb viaDERP || (length cleartext <=? 2)%nat || negb ((length cleartext - 2) mod discoEndpoint =? 0)%nat then Some w
  else
    data ← subslice 2 (length cleartext) cleartext;
    fresh ← callMeLoop (S (length data)) data [];
    if bool_decide (fresh = []) then Some w
    else
      let '(b, changed) := addLearnedCandidatesLocked node fresh now (bw_bind w) in
      let w := mkBindWorld b (bw_out w) in
      Some (when changed (probePeer now udp rands nonce node) w).

Definition handleDisco (now : Z) (udp : UDPWrite) (rands : nat → ProbeRand) (nonce : option (array 24))
    (packet : list byte) (source : AddrPort) (derpSource : NodePublic) (viaDERP : bool) w : option (BindWorld * bool) :=
  opened ← openDiscoPacket (bw_bind w) packet derpSource viaDERP;
  match opened with
  | NotDisco => Some (w, false)
  | DiscoIgnored => Some (w, true)
  | DiscoFrom node sender cleartext =>
      kind ← cleartext !! 0%nat;
      w ← (if bool_decide (kind = discoPing) then handlePing now udp nonce node sender cleartext source viaDERP w
           else if bool_decide (kind = discoPong) then handlePong now node cleartext source viaDERP w
           else if bool_decide (kind = discoCallMe) then handleCallMe now udp rands nonce node cleartext viaDERP w
           else Some w);
      Some (w, true)
  end.

(** ** The indexes stay consistent *)

Lemma writeAll_bind udp bufs addr w : bw_bind (writeAll udp bufs addr w).1 = bw_bind w.
Proof. revert w. induction bufs as [|p bufs IH]; intros w; cbn; [done|]. destruct (udp p addr); [done|]. by rewrite IH. Qed.

Lemma sendUDP_bind udp bufs addr w : bw_bind (sendUDP udp bufs addr w).1 = bw_bind w.
Proof. unfold sendUDP. destruct (_ || _); [done|]. apply writeAll_bind. Qed.

(** Probing adds pings, nothing else. *)
Lemma pingCandidate_bind udp rand node d candidate w :
  ∃ pending, bw_bind (pingCandidate udp rand node d candidate w) = bw_bind w <| b_pending := pending |>.
Proof.
  unfold pingCandidate. destruct (pr_tx rand) as [tx|]; [|exists (b_pending (bw_bind w)); by destruct (bw_bind w)].
  destruct (wrapDisco _ _ _ _); [|exists (b_pending (bw_bind w)); by destruct (bw_bind w)].
  rewrite sendUDP_bind. by eexists.
Qed.

Lemma pingCandidates_bind udp rands node d candidates : ∀ i w,
  ∃ pending, bw_bind (pingCandidates udp rands i node d candidates w) = bw_bind w <| b_pending := pending |>.
Proof.
  induction candidates as [|c candidates IH]; intros i w; cbn; [exists (b_pending (bw_bind w)); by destruct (bw_bind w)|].
  destruct (IH (S i) (pingCandidate udp (rands i) node d c w)) as [p2 ->].
  destruct (pingCandidate_bind udp (rands i) node d c w) as [p1 ->]. exists p2. by destruct (bw_bind w).
Qed.

Lemma probePeer_bind now udp rands nonce node w :
  bw_bind (probePeer now udp rands nonce node w) = bw_bind w ∨
  ∃ peer pending, b_peers (bw_bind w) !! node = Some peer ∧ probeDue now (bw_bind w) peer = true ∧
    bw_bind (probePeer now udp rands nonce node w) =
      bw_bind w <| b_peers := <[node := peer <| bp_lastProbe := now |>]> (b_peers (bw_bind w)) |> <| b_pending := pending |>.
Proof.
  unfold probePeer. cbv zeta. destruct (cfg_DisableDiscovery _); [by left|]. destruct (b_peers (bw_bind w) !! node) as [peer|]; [|by left].
  destruct (probeDue now (bw_bind w) peer) eqn:Ed; cbn [negb]; [|by left]. right. exists peer.
  set (w1 := on_bind_state _ w). destruct (pingCandidates_bind udp rands node (pc_DiscoKey (bp_config peer)) (bp_candidates peer) 0 w1) as [p Hp].
  exists p. split; [done|]. split; [done|].
  assert (bw_bind (pingCandidates udp rands 0 node (pc_DiscoKey (bp_config peer)) (bp_candidates peer) w1) =
    bw_bind w <| b_peers := <[node := peer <| bp_lastProbe := now |>]> (b_peers (bw_bind w)) |> <| b_pending := p |>) as E.
  { rewrite Hp. unfold w1. by destruct w as [[] ?]. }
  destruct (_ || _ || _); [done|]. by destruct (wrapDisco _ _ _ _).
Qed.

Lemma lastProbe_peer_ok now key p : peer_ok key p → peer_ok key (p <| bp_lastProbe := now |>).
Proof. intros []. destruct p; by constructor. Qed.

Lemma index_probePeer now udp rands nonce node w :
  index_ok (bw_bind w) → index_ok (bw_bind (probePeer now udp rands nonce node w)).
Proof.
  intros Hi. destruct (probePeer_bind now udp rands nonce node w) as [->|(peer & pending & Ep & _ & ->)]; [done|].
  destruct Hi as [Hp Ha Hd], (bw_bind w) as [cfg op cl conn inb lport local stun stunAt peers byDisco byAddr pend spend dmap self gen ldc lfdc dcid dchk dlat].
  cbn in *. constructor; cbn.
  - apply peers_ok_set; [done|]. apply lastProbe_peer_ok. by apply (map_Forall_lookup_1 _ _ _ _ Hp).
  - apply (addr_ok_set _ byAddr); [done|]. intros a k Hk. destruct (decide (k = node)) as [->|]; [|done].
    destruct (addr_ok_owns _ _ _ _ _ Ha Ep Hk) as [|[]]; [left|right]; by destruct peer.
  - eapply disco_ok_same; [done|done|by destruct peer].
Qed.

(** A handler that returns keeps the indexes. *)
Lemma index_handlePing now udp nonce node sender cleartext source viaDERP w w' :
  handlePing now udp nonce node sender cleartext source viaDERP w = Some w' → index_ok (bw_bind w) → index_ok (bw_bind w').
Proof.
  unfold handlePing. intros E Hi. destruct (_ || _ || _); [by injection E as <-|].
  destruct (if (46 <=? _)%nat then _ else _) as [claimed|]; [|done]. cbn [mbind option_bind] in E.
  destruct (match claimed with Some _ => _ | None => _ end); [by injection E as <-|].
  destruct (subslice 2 14 cleartext); [|done]. cbn [mbind option_bind] in E. cbv zeta in E.
  destruct (wrapDisco _ _ _ _); injection E as <-; rewrite ?sendUDP_bind; by apply index_setDirect.
Qed.

Lemma index_pending b pending : index_ok b → index_ok (b <| b_pending := pending |>).
Proof. apply index_ok_same. by destruct b. Qed.

Lemma index_handlePong now node cleartext source viaDERP w w' :
  handlePong now node cleartext source viaDERP w = Some w' → index_ok (bw_bind w) → index_ok (bw_bind w').
Proof.
  unfold handlePong. intros E Hi. destruct (_ || _ || _); [by injection E as <-|].
  destruct (subslice 2 14 cleartext); [|done]. cbn [mbind option_bind] in E. cbv zeta in E.
  destruct (_ !! _) as [pending|]; [|by injection E as <-]. destruct (bool_decide _); injection E as <-.
  - by apply index_setDirect, index_pending.
  - by apply index_pending.
Qed.

Lemma index_handleCallMe now udp rands nonce node cleartext viaDERP w w' :
  handleCallMe now udp rands nonce node cleartext viaDERP w = Some w' → index_ok (bw_bind w) → index_ok (bw_bind w').
Proof.
  unfold handleCallMe. intros E Hi. destruct (_ || _ || _); [by injection E as <-|].
  destruct (subslice 2 _ cleartext) as [data|]; [|done]. cbn [mbind option_bind] in E.
  destruct (callMeLoop _ data []) as [fresh|]; [|done]. cbn [mbind option_bind] in E.
  destruct (bool_decide _); [by injection E as <-|].
  pose proof (index_addLearned node fresh now (bw_bind w) Hi) as Hl.
  destruct (addLearnedCandidatesLocked node fresh now (bw_bind w)) as [b changed]. injection E as <-. cbn [fst] in Hl.
  unfold when. destruct changed; [by apply index_probePeer|done].
Qed.

Lemma index_handleDisco now udp rands nonce packet source derpSource viaDERP w w' r :
  handleDisco now udp rands nonce packet source derpSource viaDERP w = Some (w', r) →
  index_ok (bw_bind w) → index_ok (bw_bind w').
Proof.
  unfold handleDisco. intros E Hi. destruct (openDiscoPacket _ _ _ _) as [opened|]; [|done]. cbn [mbind option_bind] in E.
  destruct opened as [| |node sender cleartext]; [by injection E as <- <-..|].
  destruct (cleartext !! 0%nat) as [kind|]; [|done]. cbn [mbind option_bind] in E.
  destruct (if bool_decide (kind = discoPing) then _ else _) as [w1|] eqn:E1; [|done]. injection E as <- <-.
  repeat case_bool_decide; simplify_eq; eauto using index_handlePing, index_handlePong, index_handleCallMe.
Qed.

(** ** No packet makes the handler panic *)

Lemma callMeLoop_total fuel : ∀ data fresh, (length data < fuel)%nat → is_Some (callMeLoop fuel data fresh).
Proof.
  induction fuel as [|fuel IH]; intros data fresh Hf; [lia|]. cbn [callMeLoop].
  destruct (Nat.ltb_spec (length data) discoEndpoint) as [|Hge]; [done|]. destruct (_ <=? _)%nat; [done|].
  unfold discoEndpoint in *. cbn in Hge.
  rewrite (subslice_Some 0 16) by lia. rewrite (subslice_Some 16 18) by lia. rewrite (subslice_Some (16 + 2)) by (cbn; lia).
  cbn [mbind option_bind]. apply IH. rewrite length_take, length_drop. cbn. lia.
Qed.

Lemma openDiscoPacket_total b packet derpSource viaDERP : ∃ opened, openDiscoPacket b packet derpSource viaDERP = Some opened ∧
  match opened with
  | DiscoFrom node sender cleartext =>
      (2 ≤ length cleartext)%nat ∧ cleartext !! 1%nat = Some discoVersion ∧ b_byDisco b !! sender = Some node ∧
      is_Some (b_peers b !! node) ∧ (viaDERP = true → derpSource = node) ∧
      OpenDisco (DiscoShared (cfg_DiscoPrivate (b_cfg b)) sender) (drop discoHeaderLen packet) = Some cleartext ∧
      take discoHeaderLen packet = discoMagic ++ arr_bytes sender ∧ cfg_DisableDiscovery (b_cfg b) = false
  | _ => True
  end.
Proof.
  unfold openDiscoPacket. destruct (cfg_DisableDiscovery _) eqn:Ec; [by eexists|].
  destruct (Nat.ltb_spec (length packet) (discoHeaderLen + 24)) as [|Hl]; [by eexists|]. unfold discoHeaderLen in *. cbn [length discoMagic Nat.add] in *.
  rewrite (subslice_Some 0 6) by lia. cbn [mbind option_bind]. case_bool_decide as Em; cbn [negb]; [|by eexists].
  rewrite (subslice_Some 6 38) by lia. cbn [mbind option_bind]. cbv zeta. set (sender := to_array 32 _).
  destruct (b_byDisco b !! sender) as [node|] eqn:Ed; [|by eexists].
  rewrite (bool_decide_eq_false_2 (Some node = None)) by done. cbn [from_option id orb].
  destruct (b_peers b !! node) as [p|] eqn:Ep; [|by eexists].
  rewrite (bool_decide_eq_false_2 (Some p = None)) by done. cbn [orb].
  destruct (viaDERP && _) eqn:Ev; [by eexists|]. rewrite (subslice_Some 38) by lia. cbn [mbind option_bind].
  rewrite (take_ge (drop 38 packet)) by (rewrite length_drop; lia).
  destruct (OpenDisco _ _) as [cleartext|] eqn:Eo; [|by eexists].
  destruct (Nat.ltb_spec (length cleartext) 2); [by eexists|].
  destruct (lookup_lt_is_Some_2 cleartext 1) as [version Hv]; [lia|]. rewrite Hv. cbn [mbind option_bind].
  destruct (decide (version = discoVersion)) as [->|Hn]; [|rewrite (bool_decide_eq_false_2 _ Hn); by eexists].
  rewrite bool_decide_eq_true_2 by done. cbn [negb]. eexists. split; [done|].
  split_and!; [done..|lia|done|done|by eexists| |done| |done].
  - intros ->. cbn in Ev. apply negb_false_iff, bool_decide_eq_true in Ev. done.
  - rewrite <-Em. unfold sender. rewrite arr_bytes_to_array by (rewrite length_take, length_drop; lia).
    rewrite drop_0, take_take_drop. done.
Qed.

Lemma handleDisco_total now udp rands nonce packet source derpSource viaDERP w :
  is_Some (handleDisco now udp rands nonce packet source derpSource viaDERP w).
Proof.
  unfold handleDisco. destruct (openDiscoPacket_total (bw_bind w) packet derpSource viaDERP) as (opened & -> & Ho).
  cbn [mbind option_bind]. destruct opened as [| |node sender cleartext]; [done..|]. destruct Ho as (Hl & _).
  destruct (lookup_lt_is_Some_2 cleartext 0) as [kind ->]; [lia|]. cbn [mbind option_bind].
  enough (is_Some (if bool_decide (kind = discoPing) then handlePing now udp nonce node sender cleartext source viaDERP w
    else if bool_decide (kind = discoPong) then handlePong now node cleartext source viaDERP w
    else if bool_decide (kind = discoCallMe) then handleCallMe now udp rands nonce node cleartext viaDERP w else Some w)) as [w' ->] by done.
  destruct (bool_decide (kind = discoPing)).
  { unfold handlePing. destruct (_ || viaDERP || _) eqn:Eg; [done|]. apply orb_false_iff in Eg as [[Eg _]%orb_false_iff _].
    apply Nat.ltb_ge in Eg. assert (is_Some (if (46 <=? length cleartext)%nat then Some <$> subslice 14 46 cleartext else Some None)) as [cl ->].
    { destruct (Nat.leb_spec 46 (length cleartext)); [|done]. rewrite subslice_Some by lia. done. }
    cbn [mbind option_bind]. destruct (match cl with Some _ => _ | None => _ end); [done|].
    rewrite subslice_Some by lia. cbn [mbind option_bind]. by destruct (wrapDisco _ _ _ _). }
  destruct (bool_decide (kind = discoPong)).
  { unfold handlePong. destruct (_ || viaDERP || _) eqn:Eg; [done|]. apply orb_false_iff in Eg as [[Eg _]%orb_false_iff _].
    apply Nat.ltb_ge in Eg. rewrite subslice_Some by lia. cbn [mbind option_bind]. cbv zeta.
    destruct (_ !! _); [|done]. by destruct (bool_decide _). }
  destruct (bool_decide (kind = discoCallMe)); [|done].
  unfold handleCallMe. destruct (_ || _ || _); [done|]. rewrite subslice_Some by lia. cbn [mbind option_bind].
  destruct (callMeLoop_total (S (length (take (length cleartext - 2) (drop 2 cleartext)))) (take (length cleartext - 2) (drop 2 cleartext)) []) as [fresh ->]; [lia|].
  cbn [mbind option_bind]. destruct (bool_decide _); [done|]. by destruct (addLearnedCandidatesLocked _ _ _ _).
Qed.

(** ** What a handler may change *)

(** Only [node]'s entry changes; a message that came over DERP leaves its direct
    path alone, one that came over UDP its candidates, and a new direct path is
    the source of the packet. *)
Definition disco_frame (node : NodePublic) (source : AddrPort) (viaDERP : bool) (b b' : Bind) : Prop :=
  (∀ k, k ≠ node → b_peers b' !! k = b_peers b !! k) ∧ b_byDisco b' = b_byDisco b ∧
  ∀ p, b_peers b !! node = Some p → ∃ p', b_peers b' !! node = Some p' ∧ bp_config p' = bp_config p ∧
    (if viaDERP then bp_direct p' = bp_direct p
     else bp_candidates p' = bp_candidates p ∧ (bp_direct p' = bp_direct p ∨ bp_direct p' = unmapAddrPort source)).

Lemma disco_frame_refl node source viaDERP b : disco_frame node source viaDERP b b.
Proof. split_and!; [done..|]. intros p Hp. exists p. destruct viaDERP; auto. Qed.

(** The state of the peer after [setDirect], when the address is usable. *)
Lemma setDirect_peers now node addr latency w p : usableAddrPort (unmapAddrPort addr) = true →
  b_peers (bw_bind w) !! node = Some p →
  b_peers (bw_bind (setDirect now node addr latency w)) =
    <[node := p <| bp_direct := unmapAddrPort addr |> <| bp_latency := latency |> <| bp_directAt := now |>]> (b_peers (bw_bind w))
  ∧ b_byDisco (bw_bind (setDirect now node addr latency w)) = b_byDisco (bw_bind w)
  ∧ b_pending (bw_bind (setDirect now node addr latency w)) = b_pending (bw_bind w)
  ∧ b_open (bw_bind (setDirect now node addr latency w)) = b_open (bw_bind w)
  ∧ b_conn (bw_bind (setDirect now node addr latency w)) = b_conn (bw_bind w)
  ∧ b_cfg (bw_bind (setDirect now node addr latency w)) = b_cfg (bw_bind w)
  ∧ b_byAddr (bw_bind (setDirect now node addr latency w)) !! unmapAddrPort addr = Some node.
Proof.
  intros Hu Hp. unfold setDirect. cbv zeta. rewrite Hu, Hp. cbn [negb]. unfold when. destruct w as [b out].
  destruct (_ || _), (_ && _ && _); cbn; rewrite ?dropAddr_eq; destruct b; cbn; by rewrite ?lookup_insert_eq.
Qed.

Lemma setDirect_frame now node source latency w :
  disco_frame node source false (bw_bind w) (bw_bind (setDirect now node source latency w)).
Proof.
  destruct (usableAddrPort (unmapAddrPort source)) eqn:Hu.
  2: { unfold setDirect. cbv zeta. rewrite Hu. apply disco_frame_refl. }
  destruct (b_peers (bw_bind w) !! node) as [p|] eqn:Hp.
  2: { unfold setDirect. cbv zeta. rewrite Hu, Hp. apply disco_frame_refl. }
  destruct (setDirect_peers now node source latency w p Hu Hp) as (Epeers & Edisco & _). split_and!; [|done|].
  - intros k Hk. rewrite Epeers. by rewrite lookup_insert_ne.
  - intros q Hq. rewrite Epeers, lookup_insert_eq. eexists. split; [done|]. simplify_eq. destruct p; cbn; auto.
Qed.

Lemma disco_frame_pending node source viaDERP b b' pending :
  disco_frame node source viaDERP (b <| b_pending := pending |>) b' → disco_frame node source viaDERP b b'.
Proof. by destruct b. Qed.

Lemma probePeer_frame now udp rands nonce node source w :
  disco_frame node source true (bw_bind w) (bw_bind (probePeer now udp rands nonce node w)).
Proof.
  destruct (probePeer_bind now udp rands nonce node w) as [->|(peer & pending & Ep & _ & ->)]; [apply disco_frame_refl|].
  destruct (bw_bind w) as [cfg op cl conn inb lport local stun stunAt peers byDisco byAddr pend spend dmap self gen ldc lfdc dcid dchk dlat].
  cbn in *. split_and!; cbn; [|done|].
  - intros k Hk. by rewrite lookup_insert_ne.
  - intros q Hq. rewrite lookup_insert_eq. eexists. split; [done|]. simplify_eq. by destruct peer.
Qed.

Lemma addLearned_frame node source fresh now b :
  disco_frame node source true b (addLearnedCandidatesLocked node fresh now b).1.
Proof.
  unfold addLearnedCandidatesLocked. destruct (b_peers b !! node) as [p|] eqn:Ep; [|apply disco_frame_refl].
  assert (bp_config (pruneLearned node now p (b_byAddr b)).1.1 = bp_config p ∧
          bp_direct (pruneLearned node now p (b_byAddr b)).1.1 = bp_direct p) as [Hc Hd].
  { unfold pruneLearned. cbv zeta. case_bool_decide; by destruct p. }
  destruct (pruneLearned node now p (b_byAddr b)) as [[p1 byAddr1] pruned]. cbn in Hc, Hd.
  destruct (foldl _ _ fresh) as [[learned byAddr2] changed]. cbn [fst].
  destruct b as [cfg op cl conn inb lport local stun stunAt peers byDisco byAddr pend spend dmap self gen ldc lfdc dcid dchk dlat].
  cbn in *. split_and!; cbn; [|done|].
  - intros k Hk. by rewrite lookup_insert_ne.
  - intros q Hq. rewrite lookup_insert_eq. eexists. split; [done|]. simplify_eq. unfold when.
    destruct changed, p1; cbn in *; by subst.
Qed.

Lemma disco_frame_trans node source viaDERP b1 b2 b3 : viaDERP = true →
  disco_frame node source viaDERP b1 b2 → disco_frame node source viaDERP b2 b3 → disco_frame node source viaDERP b1 b3.
Proof.
  intros -> (H1 & D1 & P1) (H2 & D2 & P2). split_and!.
  - intros k Hk. by rewrite H2, H1.
  - by rewrite D2, D1.
  - intros p Hp. destruct (P1 p Hp) as (p' & Hp' & Hc' & Hd'). destruct (P2 p' Hp') as (p'' & Hp'' & Hc'' & Hd'').
    exists p''. split; [done|]. split; congruence.
Qed.
End Disco.
