(* ===== verification/DiscoProtocol.v ===== *)
(** * Theorems on path discovery

    What a packet can do to the transport: nothing unless it is a box sealed
    by a known peer, never a panic, and only to that peer's entry.  And what
    the protocol achieves: two transports that know each other end up with a
    direct path after one ping and one pong. *)

From Stdlib Require Import ZArith Lia String Strings.Byte.
From S2P Require Export Disco.
Open Scope Z_scope.

(** What it takes for a packet to have an effect: its sender is the disco key of
    a configured peer, and the rest is a box sealed for us by that key. *)
Record authentic `{BoxOps} (b : Bind) (packet : list byte) (derpSource : NodePublic) (viaDERP : bool)
    (node : NodePublic) (cleartext : list byte) : Prop := {
  au_enabled : cfg_DisableDiscovery (b_cfg b) = false;
  au_sender : ∃ sender p, take discoHeaderLen packet = discoMagic ++ arr_bytes sender ∧
    b_byDisco b !! sender = Some node ∧ b_peers b !! node = Some p ∧
    OpenDisco (DiscoShared (cfg_DiscoPrivate (b_cfg b)) sender) (drop discoHeaderLen packet) = Some cleartext;
  au_derp : viaDERP = true → derpSource = node
}.

(** A ping answers itself, a pong needs a ping of ours that is still pending. *)
Definition expected_message (b : Bind) (node : NodePublic) (cleartext : list byte) (viaDERP : bool) : Prop :=
  if viaDERP then cleartext !! 0%nat = Some discoCallMe
  else cleartext !! 0%nat = Some discoPing ∨
       cleartext !! 0%nat = Some discoPong ∧ is_Some (b_pending b !! to_array 12 (take 12 (drop 2 cleartext))).

Section Protocol.
Context `{BoxOps} `{RangeOrder}.
Implicit Types w : BindWorld.

Lemma handlePing_frame now udp nonce node sender cleartext source viaDERP w w' :
  handlePing now udp nonce node sender cleartext source viaDERP w = Some w' →
  w' = w ∨ viaDERP = false ∧ disco_frame node source false (bw_bind w) (bw_bind w').
Proof.
  unfold handlePing. intros E. destruct viaDERP; [rewrite orb_true_r in E; left; by injection E as <-|].
  destruct (_ || _); [left; by injection E as <-|].
  destruct (if (46 <=? _)%nat then _ else _) as [claimed|]; [|done]. cbn [mbind option_bind] in E.
  destruct (match claimed with Some _ => _ | None => _ end); [left; by injection E as <-|].
  destruct (subslice 2 14 cleartext); [|done]. cbn [mbind option_bind] in E. cbv zeta in E. right. split; [done|].
  destruct (wrapDisco _ _ _ _); injection E as <-; rewrite ?sendUDP_bind; apply setDirect_frame.
Qed.

Lemma handlePong_frame now node cleartext source viaDERP w w' :
  handlePong now node cleartext source viaDERP w = Some w' →
  w' = w ∨ viaDERP = false ∧ disco_frame node source false (bw_bind w) (bw_bind w') ∧
    is_Some (b_pending (bw_bind w) !! to_array 12 (take 12 (drop 2 cleartext))).
Proof.
  unfold handlePong. intros E. destruct viaDERP; [rewrite orb_true_r in E; left; by injection E as <-|].
  destruct (_ || _) eqn:Eg; [left; by injection E as <-|]. apply orb_false_iff in Eg as [[Eg _]%orb_false_iff _].
  apply Nat.ltb_ge in Eg. rewrite subslice_Some in E by lia. cbn [mbind option_bind] in E. cbv zeta in E. change (14 - 2)%nat with 12%nat in E.
  destruct (_ !! _) as [pending|]; [|left; by injection E as <-]. right. split; [done|].
  split; [|by eexists]. destruct (bool_decide _); injection E as <-.
  - apply (disco_frame_pending _ _ _ _ _ (delete (to_array 12 (take 12 (drop 2 cleartext))) (b_pending (bw_bind w)))).
    set (w1 := on_bind_state _ w). exact (setDirect_frame now node source (time_sub now (pp_sent pending)) w1).
  - eapply disco_frame_pending, disco_frame_refl.
Qed.

Lemma handleCallMe_frame now udp rands nonce node cleartext source viaDERP w w' :
  handleCallMe now udp rands nonce node cleartext viaDERP w = Some w' →
  w' = w ∨ viaDERP = true ∧ disco_frame node source true (bw_bind w) (bw_bind w').
Proof.
  unfold handleCallMe. intros E. destruct viaDERP; cbn [negb orb] in E; [|left; by injection E as <-].
  destruct (_ || _); [left; by injection E as <-|].
  destruct (subslice 2 _ cleartext) as [data|]; [|done]. cbn [mbind option_bind] in E.
  destruct (callMeLoop _ data []) as [fresh|]; [|done]. cbn [mbind option_bind] in E.
  destruct (bool_decide _); [left; by injection E as <-|]. right. split; [done|].
  pose proof (addLearned_frame node source fresh now (bw_bind w)) as Hl.
  destruct (addLearnedCandidatesLocked node fresh now (bw_bind w)) as [b changed]. injection E as <-. cbn [fst] in Hl.
  unfold when. destruct changed; [|done]. eapply disco_frame_trans; [done|done|]. apply probePeer_frame.
Qed.


(** ** The handshake *)

Lemma length_As16 a : length (As16 a) = 16%nat.
Proof. destruct a; cbn [As16]; [by rewrite length_replicate|apply length_be_encode..]. Qed.

Lemma length_pingPayload cfg tx : length (pingPayload cfg tx) = 46%nat.
Proof. unfold pingPayload. rewrite !length_app, !arr_length. done. Qed.

Lemma length_pongPayload tx source : length (pongPayload tx source) = 32%nat.
Proof. unfold pongPayload. rewrite !length_app, arr_length, length_As16, length_be_encode. done. Qed.

(** Output only grows. *)
Lemma writeAll_out udp bufs addr : ∀ w, bw_out w `prefix_of` bw_out (writeAll udp bufs addr w).1.
Proof.
  induction bufs as [|p bufs IH]; intros w; cbn; [done|]. destruct (udp p addr); cbn; [by apply prefix_app_r|].
  etransitivity; [|apply IH]. by apply prefix_app_r.
Qed.

Lemma sendUDP_out udp bufs addr w : bw_out w `prefix_of` bw_out (sendUDP udp bufs addr w).1.
Proof. unfold sendUDP. destruct (_ || _); [done|]. apply writeAll_out. Qed.

Lemma sendUDP_sent udp packet addr w : b_open (bw_bind w) = true → b_conn (bw_bind w) = true →
  OutUDP packet addr ∈ bw_out (sendUDP udp [packet] addr w).1.
Proof. intros Ho Hc. unfold sendUDP. rewrite Ho, Hc. cbn. destruct (udp packet addr); cbn; set_solver. Qed.

Lemma pingCandidate_out udp rand node d c w : bw_out w `prefix_of` bw_out (pingCandidate udp rand node d c w).
Proof.
  unfold pingCandidate. destruct (pr_tx rand); [|done]. destruct (wrapDisco _ _ _ _); [|done].
  etransitivity; [|apply sendUDP_out]. done.
Qed.

Lemma pingCandidates_out udp rands node d candidates : ∀ i w,
  bw_out w `prefix_of` bw_out (pingCandidates udp rands i node d candidates w).
Proof.
  induction candidates as [|c candidates IH]; intros i w; cbn; [done|]. etransitivity; [apply pingCandidate_out|apply IH].
Qed.

(** A ping to [node] is pending under [tx]. *)
Definition pinged (node : NodePublic) (tx : array 12) w : Prop :=
  ∃ ping, b_pending (bw_bind w) !! tx = Some ping ∧ pp_node ping = node.

Lemma pingCandidate_keeps udp rand node d c tx w : pinged node tx w → pinged node tx (pingCandidate udp rand node d c w).
Proof.
  intros (ping & Hp & Hn). unfold pingCandidate. destruct (pr_tx rand) as [tx'|]; [|by exists ping].
  destruct (wrapDisco _ _ _ _); [|by exists ping]. unfold pinged. rewrite sendUDP_bind.
  destruct w as [b out]; destruct b; cbn in *. destruct (decide (tx' = tx)) as [->|].
  - rewrite lookup_insert_eq. by eexists.
  - rewrite lookup_insert_ne by done. by exists ping.
Qed.

Lemma pingCandidates_keeps udp rands node d tx candidates : ∀ i w,
  pinged node tx w → pinged node tx (pingCandidates udp rands i node d candidates w).
Proof. induction candidates as [|c candidates IH]; intros i w Hp; cbn; [done|]. by apply IH, pingCandidate_keeps. Qed.

(** Every candidate is pinged. *)
Lemma pingCandidates_sends udp rands node d candidates : ∀ i w j c tx packet,
  b_open (bw_bind w) = true → b_conn (bw_bind w) = true → candidates !! j = Some c → pr_tx (rands (i + j)%nat) = Some tx →
  wrapDisco (b_cfg (bw_bind w)) (pr_nonce (rands (i + j)%nat)) d (pingPayload (b_cfg (bw_bind w)) tx) = Ok packet →
  let w' := pingCandidates udp rands i node d candidates w in OutUDP packet c ∈ bw_out w' ∧ pinged node tx w'.
Proof.
  induction candidates as [|c0 candidates IH]; intros i w j c tx packet Ho Hcn Hc Ht Hw; [done|]. cbn [pingCandidates].
  destruct j as [|j]; cbn in Hc.
  - injection Hc as ->. rewrite Nat.add_0_r in Ht, Hw. split.
    + destruct (pingCandidates_out udp rands node d candidates (S i) (pingCandidate udp (rands i) node d c w)) as [rest ->].
      apply elem_of_app. left. unfold pingCandidate. rewrite Ht, Hw. apply sendUDP_sent; by destruct w as [[] ?].
    + apply pingCandidates_keeps. unfold pingCandidate, pinged. rewrite Ht, Hw, sendUDP_bind. destruct w as [[] ?]; cbn.
      rewrite lookup_insert_eq. by eexists.
  - destruct (pingCandidate_bind udp (rands i) node d c0 w) as [pending E].
    rewrite <-Nat.add_succ_comm in Ht, Hw. apply (IH (S i) (pingCandidate udp (rands i) node d c0 w) j); rewrite ?E; try done;
      destruct w as [[] ?]; done.
Qed.

(** A probe that is due pings every candidate. *)
Lemma probePeer_pings now udp rands callNonce node w p j c tx packet :
  cfg_DisableDiscovery (b_cfg (bw_bind w)) = false → b_peers (bw_bind w) !! node = Some p → probeDue now (bw_bind w) p = true →
  bp_candidates p !! j = Some c → b_conn (bw_bind w) = true → pr_tx (rands j) = Some tx →
  wrapDisco (b_cfg (bw_bind w)) (pr_nonce (rands j)) (pc_DiscoKey (bp_config p)) (pingPayload (b_cfg (bw_bind w)) tx) = Ok packet →
  OutUDP packet c ∈ bw_out (probePeer now udp rands callNonce node w) ∧ pinged node tx (probePeer now udp rands callNonce node w).
Proof.
  intros Hdis Hp Hdue Hc Hcn Ht Hw. unfold probePeer. cbv zeta. rewrite Hdis, Hp, Hdue. cbn [negb].
  set (w1 := on_bind_state _ w). assert (b_open (bw_bind w1) = true) as Ho.
  { unfold probeDue in Hdue. apply andb_true_iff in Hdue as [[_ Ho]%andb_true_iff _]. by destruct w as [[] ?]. }
  destruct (pingCandidates_sends udp rands node (pc_DiscoKey (bp_config p)) (bp_candidates p) 0 w1 j c tx packet) as [Hs Hpi];
    [done|by destruct w as [[] ?]|done|done|by destruct w as [[] ?]|].
  destruct (_ || _ || _); [done|]. destruct (wrapDisco _ callNonce _ _); [|done]. split; [|done]. cbn. set_solver.
Qed.

(** [b] has [node] configured with the public key of [discoPrivate]. *)
Definition knows (b : Bind) (node : NodePublic) (discoPrivate : PrivateKey) : Prop :=
  cfg_DisableDiscovery (b_cfg b) = false ∧ b_byDisco b !! PublicDisco discoPrivate = Some node ∧
  ∃ p, b_peers b !! node = Some p ∧ pc_DiscoKey (bp_config p) = PublicDisco discoPrivate.
End Protocol.

Section Handshake.
Context `{BL : BoxLaws} `{RangeOrder}.
Implicit Types w : BindWorld.

(** A packet of a known peer opens to its payload. *)
Lemma openDisco_wrapped cfg nonce payload packet b node derpSource viaDERP :
  wrapDisco cfg (Some nonce) (PublicDisco (cfg_DiscoPrivate (b_cfg b))) payload = Ok packet →
  knows b node (cfg_DiscoPrivate cfg) → payload !! 1%nat = Some discoVersion → (viaDERP = true → derpSource = node) →
  openDiscoPacket b packet derpSource viaDERP = Some (DiscoFrom node (PublicDisco (cfg_DiscoPrivate cfg)) payload).
Proof.
  intros Hw (Hc & Hd & p & Hp & _) Hv Hs. unfold wrapDisco in Hw. destruct (SealDisco _ _ _) as [sealed|] eqn:Es; [|done].
  injection Hw as Hw. destruct (disco_box_roundtrip _ _ _ _ _ Es) as [Ho Hl].
  set (sender := PublicDisco (cfg_DiscoPrivate cfg)) in *. clearbody sender.
  assert (packet = discoMagic ++ arr_bytes sender ++ sealed) as Ek by (rewrite <-Hw; unfold AppendTo; by rewrite app_assoc).
  assert (length packet = 38 + length sealed)%nat as El by (rewrite Ek, !length_app, arr_length; done).
  assert (subslice 0 6 packet = Some discoMagic) as Em by (rewrite Ek; apply (subslice_mid 0 6 []); done).
  assert (subslice 6 38 packet = Some (arr_bytes sender)) as Esd by (rewrite Ek; apply subslice_mid; rewrite ?arr_length; done).
  assert (subslice 38 (length packet) packet = Some sealed) as Ese.
  { rewrite El, Ek, app_assoc. pose proof (subslice_mid 38 (38 + length sealed) (discoMagic ++ arr_bytes sender) sealed []) as Hs'.
    rewrite app_nil_r in Hs'. apply Hs'; rewrite ?length_app, ?arr_length; done. }
  clear Hw Ek. unfold openDiscoPacket. rewrite Hc. unfold discoHeaderLen. change (length discoMagic) with 6%nat.
  change (6 + 32)%nat with 38%nat. rewrite (proj2 (Nat.ltb_ge _ _)) by lia. rewrite Em. cbn [mbind option_bind].
  rewrite bool_decide_eq_true_2 by done. cbn [negb]. rewrite Esd. cbn [mbind option_bind].
  cbv zeta. rewrite to_array_arr_bytes, Hd. cbn [from_option id].
  rewrite Hp, !(bool_decide_eq_false_2 (Some _ = None)) by done. cbn [orb].
  assert (viaDERP && negb (bool_decide (derpSource = node)) = false) as ->.
  { destruct viaDERP; [|done]. rewrite bool_decide_eq_true_2 by auto. done. }
  rewrite Ese.
  cbn [mbind option_bind]. rewrite Ho. destruct (Nat.ltb_spec (length payload) 2) as [Hlt|_].
  { apply lookup_lt_Some in Hv. lia. }
  rewrite Hv. cbn [mbind option_bind]. by rewrite bool_decide_eq_true_2.
Qed.

Lemma wrapDisco_ok cfg nonce d payload : arr_bytes (DiscoShared (cfg_DiscoPrivate cfg) d) ≠ replicate 32 x00 →
  ∃ packet, wrapDisco cfg (Some nonce) d payload = Ok packet.
Proof. intros Hs. unfold wrapDisco, SealDisco. rewrite bool_decide_eq_false_2 by done. by eexists. Qed.

(** The transport sends packets for [node] to [addr], and knows packets from there. *)
Definition direct_path (b : Bind) (node : NodePublic) (addr : AddrPort) : Prop :=
  b_byAddr b !! addr = Some node ∧ ∃ p, b_peers b !! node = Some p ∧ bp_direct p = addr.

Lemma setDirect_path now node addr latency w : usableAddrPort (unmapAddrPort addr) = true → is_Some (b_peers (bw_bind w) !! node) →
  direct_path (bw_bind (setDirect now node addr latency w)) node (unmapAddrPort addr).
Proof.
  intros Hu [p Hp]. destruct (setDirect_peers now node addr latency w p Hu Hp) as (E & _ & _ & _ & _ & _ & Ha).
  split; [done|]. rewrite E, lookup_insert_eq. eexists. split; [done|]. by destruct p.
Qed.

(** A ping from a known peer sets its direct path and is answered. *)
Lemma ping_answered now udp rands cfg nonce nonce' tx packet source derpSource w node :
  node = PublicNode (cfg_NodePrivate cfg) → knows (bw_bind w) node (cfg_DiscoPrivate cfg) →
  wrapDisco cfg (Some nonce) (PublicDisco (cfg_DiscoPrivate (b_cfg (bw_bind w)))) (pingPayload cfg tx) = Ok packet →
  arr_bytes (DiscoShared (cfg_DiscoPrivate (b_cfg (bw_bind w))) (PublicDisco (cfg_DiscoPrivate cfg))) ≠ replicate 32 x00 →
  b_open (bw_bind w) = true → b_conn (bw_bind w) = true → usableAddrPort (unmapAddrPort source) = true → ap_is_valid source = true →
  ∃ w' pong, handleDisco now udp rands (Some nonce') packet source derpSource false w = Some (w', true) ∧
    direct_path (bw_bind w') node (unmapAddrPort source) ∧ OutUDP pong source ∈ bw_out w' ∧
    wrapDisco (b_cfg (bw_bind w)) (Some nonce') (PublicDisco (cfg_DiscoPrivate cfg)) (pongPayload tx source) = Ok pong.
Proof.
  intros Hn Hk Hw Hs Ho Hc Hu Hv. unfold handleDisco. rewrite (openDisco_wrapped cfg nonce _ _ _ node _ _ Hw Hk) by done.
  cbn [mbind option_bind pingPayload app lookup list_lookup]. rewrite bool_decide_eq_true_2 by done. fold (pingPayload cfg tx).
  assert (pingPayload cfg tx = [discoPing; discoVersion] ++ arr_bytes tx ++ arr_bytes (PublicNode (cfg_NodePrivate cfg)) ++ []) as Er
    by by rewrite app_nil_r.
  unfold handlePing. change (discoPing :: discoVersion :: arr_bytes tx ++ arr_bytes (PublicNode (cfg_NodePrivate cfg))) with (pingPayload cfg tx).
  rewrite length_pingPayload, Hv. cbn [Nat.ltb Nat.leb orb negb].
  assert (subslice 14 46 (pingPayload cfg tx) = Some (arr_bytes node)) as ->.
  { rewrite Er, app_assoc. subst node. apply subslice_mid; rewrite ?length_app, !arr_length; done. }
  assert (subslice 2 14 (pingPayload cfg tx) = Some (arr_bytes tx)) as ->.
  { rewrite Er. apply subslice_mid; rewrite ?arr_length; done. }
  cbn [fmap option_fmap option_map mbind option_bind]. rewrite to_array_arr_bytes, bool_decide_eq_true_2 by done. cbn [negb].
  cbv zeta. destruct Hk as (_ & _ & p & Hp & _). destruct (setDirect_peers now node source 0 w p Hu Hp) as (_ & _ & _ & Eo & Ec & Ecfg & _).
  rewrite Ecfg, to_array_arr_bytes. destruct (wrapDisco_ok (b_cfg (bw_bind w)) nonce' _ (pongPayload tx source) Hs) as [pong Hpong].
  rewrite Hpong. eexists _, pong. split; [done|]. rewrite sendUDP_bind. split_and!; [|by apply sendUDP_sent; rewrite ?Eo, ?Ec|done].
  apply setDirect_path; [done|]. by eexists.
Qed.

(** A pong to a pending ping sets the direct path. *)
Lemma pong_accepted now udp rands callNonce cfg nonce tx packet claimed source derpSource w node :
  knows (bw_bind w) node (cfg_DiscoPrivate cfg) → pinged node tx w →
  wrapDisco cfg (Some nonce) (PublicDisco (cfg_DiscoPrivate (b_cfg (bw_bind w)))) (pongPayload tx claimed) = Ok packet →
  usableAddrPort (unmapAddrPort source) = true → ap_is_valid source = true →
  ∃ w', handleDisco now udp rands callNonce packet source derpSource false w = Some (w', true) ∧
    direct_path (bw_bind w') node (unmapAddrPort source).
Proof.
  intros Hk (ping & Hping & Hnode) Hw Hu Hv. unfold handleDisco. rewrite (openDisco_wrapped cfg nonce _ _ _ node _ _ Hw Hk) by done.
  cbn [mbind option_bind pongPayload app lookup list_lookup]. rewrite bool_decide_eq_false_2 by done. rewrite bool_decide_eq_true_2 by done.
  unfold handlePong. match goal with |- context [(length ?l <? 32)%nat] => change l with (pongPayload tx claimed) end.
  rewrite length_pongPayload, Hv. cbn [Nat.ltb Nat.leb orb negb].
  assert (subslice 2 14 (pongPayload tx claimed) = Some (arr_bytes tx)) as -> by (apply subslice_mid; rewrite ?arr_length; done).
  cbn [mbind option_bind]. cbv zeta. rewrite to_array_arr_bytes, Hping, bool_decide_eq_true_2 by done. cbn [mbind option_bind].
  eexists. split; [done|]. apply setDirect_path; [done|]. destruct Hk as (_ & _ & p & Hp & _). exists p. by destruct w as [[] ?].
Qed.

(** C11. Liveness of path discovery: transports [wa] and [wb] know each other.
    When a probe of [wa] is due, it pings every candidate address of the peer;
    when one of these pings reaches [wb] from [srcA], [wb] sends its packets to
    [srcA] from then on and answers; when the answer comes back from the address
    that was pinged, [wa] has a direct path to it.  So one round trip through
    any candidate, whatever the other candidates do, makes the path direct in
    both directions. *)
Theorem disco_handshake now1 now2 now3 udpA udpB randsA randsB nonceA nonce nonceB wa wb j tx p srcA addrB
    (nodeA := PublicNode (cfg_NodePrivate (b_cfg (bw_bind wa)))) (nodeB := PublicNode (cfg_NodePrivate (b_cfg (bw_bind wb))))
    (wa1 := probePeer now1 udpA randsA nonceA nodeB wa)
    (HA : knows (bw_bind wa) nodeB (cfg_DiscoPrivate (b_cfg (bw_bind wb))))
    (HB : knows (bw_bind wb) nodeA (cfg_DiscoPrivate (b_cfg (bw_bind wa))))
    (Hshared : arr_bytes (DiscoShared (cfg_DiscoPrivate (b_cfg (bw_bind wa))) (PublicDisco (cfg_DiscoPrivate (b_cfg (bw_bind wb))))) ≠ replicate 32 x00)
    (Hpeer : b_peers (bw_bind wa) !! nodeB = Some p) (Hdue : probeDue now1 (bw_bind wa) p = true)
    (Hcand : bp_candidates p !! j = Some addrB)
    (HconnA : b_conn (bw_bind wa) = true) (HopenB : b_open (bw_bind wb) = true) (HconnB : b_conn (bw_bind wb) = true)
    (Htx : pr_tx (randsA j) = Some tx) (Hnonce : pr_nonce (randsA j) = Some nonce)
    (HsrcA : usableAddrPort (unmapAddrPort srcA) = true ∧ ap_is_valid srcA = true)
    (HaddrB : usableAddrPort (unmapAddrPort addrB) = true ∧ ap_is_valid addrB = true) :
  ∃ ping pong wa' wb',
    OutUDP ping addrB ∈ bw_out wa1 ∧
    handleDisco now2 udpB randsB (Some nonceB) ping srcA (zero_array 32) false wb = Some (wb', true) ∧
    direct_path (bw_bind wb') nodeA (unmapAddrPort srcA) ∧ OutUDP pong srcA ∈ bw_out wb' ∧
    handleDisco now3 udpA randsA nonceA pong addrB (zero_array 32) false wa1 = Some (wa', true) ∧
    direct_path (bw_bind wa') nodeB (unmapAddrPort addrB).
Proof.
  destruct HA as (Hdis & HdA & q & Hq & Hqd). rewrite Hpeer in Hq. injection Hq as <-.
  destruct (wrapDisco_ok (b_cfg (bw_bind wa)) nonce _ (pingPayload (b_cfg (bw_bind wa)) tx) Hshared) as [ping Hping].
  assert (OutUDP ping addrB ∈ bw_out wa1 ∧ pinged nodeB tx wa1 ∧ knows (bw_bind wa1) nodeB (cfg_DiscoPrivate (b_cfg (bw_bind wb))) ∧
    b_cfg (bw_bind wa1) = b_cfg (bw_bind wa)) as (Hsent & Hpinged & HA1 & Hcfg1).
  { destruct (probePeer_pings now1 udpA randsA nonceA nodeB wa p j addrB tx ping) as [? ?]; [done..|by rewrite Hnonce, Hqd|].
    split_and!; [done|done| |]; unfold wa1; destruct (probePeer_bind now1 udpA randsA nonceA nodeB wa) as [->|(p' & pending & Ep' & _ & ->)]; try done.
    - by split_and!; [..|exists p].
    - assert (p' = p) as -> by congruence. destruct (bw_bind wa), p; cbn in *. split_and!; [done..|]. cbn. rewrite lookup_insert_eq. by eexists.
    - by destruct (bw_bind wa). }
  destruct (ping_answered now2 udpB randsB _ nonce nonceB tx ping srcA (zero_array 32) wb nodeA eq_refl HB Hping) as (wb' & pong & Hh & Hd & Ho & Hpong);
    [by unfold DiscoShared, PublicDisco in *; rewrite Precompute_comm|tauto..|].
  destruct (pong_accepted now3 udpA randsA nonceA (b_cfg (bw_bind wb)) nonceB tx pong srcA addrB (zero_array 32) wa1 nodeB HA1 Hpinged) as (wa' & Hh' & Hd');
    [by rewrite Hcfg1|tauto..|].
  by exists ping, pong, wa', wb'.
Qed.
End Handshake.

(** ** Example *)

(** A box for examples: the shared key is the exclusive or of the keys. *)
#[local] Instance xor_box : BoxOps := {|
  ScalarBaseMult k := k;
  Precompute a b := to_array 32 (xor_bytes (arr_bytes a) (arr_bytes b));
  SealAfterPrecomputation msg _ _ := msg;
  OpenAfterPrecomputation msg _ _ := Some msg |}.

#[local] Instance xor_box_laws : BoxLaws xor_box.
Proof.
  constructor; [|done]. intros a b. cbn. f_equal. unfold xor_bytes.
  generalize (arr_bytes a) (arr_bytes b). induction l as [|x l IH]; intros [|y l']; [done..|]. cbn. rewrite IH. f_equal.
  unfold xor_byte. by rewrite Z.lxor_comm.
Qed.

Definition demo_cfgA : BindConfig := mkBindConfig (to_array 32 [x01]) (to_array 32 [x02]) false false.
Definition demo_cfgB : BindConfig := mkBindConfig (to_array 32 [x03]) (to_array 32 [x04]) false false.
Definition demo_addrA : AddrPort := mkAddrPort (Addr4 167772161) 41641.
Definition demo_addrB : AddrPort := mkAddrPort (Addr4 167772162) 41642.

(** An open transport that knows one peer. *)
Definition demo_bind (cfg : BindConfig) (peer : PeerConfig) : Bind :=
  let b := newBindState cfg <| b_open := true |> <| b_conn := true |> in
  default b (updatePeerLocked peer b).

Definition demo_wa : BindWorld := mkBindWorld
  (demo_bind demo_cfgA (mkPeerConfig (to_array 32 [x03]) (to_array 32 [x04]) (Some [demo_addrA; demo_addrB]) 1 false)) [].
Definition demo_wb : BindWorld := mkBindWorld
  (demo_bind demo_cfgB (mkPeerConfig (to_array 32 [x01]) (to_array 32 [x02]) (Some []) 1 false)) [].
Definition demo_rands (i : nat) : ProbeRand :=
  mkProbeRand (Some (to_array 12 (be_encode 12 (Z.of_nat i)))) (Some (zero_array 24)) Second.
Definition demo_udp : UDPWrite := λ _ _, None.

#[local] Existing Instance canonical_order.

Definition demo_node (w : BindWorld) : NodePublic := PublicNode (cfg_NodePrivate (b_cfg (bw_bind w))).

Lemma disco_handshake_witness :
  let wa1 := probePeer Second demo_udp demo_rands None (demo_node demo_wb) demo_wa in
  ∃ ping pong wa' wb',
    OutUDP ping demo_addrB ∈ bw_out wa1 ∧
    handleDisco Second demo_udp demo_rands (Some (zero_array 24)) ping demo_addrA (zero_array 32) false demo_wb = Some (wb', true) ∧
    direct_path (bw_bind wb') (demo_node demo_wa) (unmapAddrPort demo_addrA) ∧ OutUDP pong demo_addrA ∈ bw_out wb' ∧
    handleDisco Second demo_udp demo_rands None pong demo_addrB (zero_array 32) false wa1 = Some (wa', true) ∧
    direct_path (bw_bind wa') (demo_node demo_wb) (unmapAddrPort demo_addrB).
Proof.
  assert (∃ p, b_peers (bw_bind demo_wa) !! demo_node demo_wb = Some p ∧ probeDue Second (bw_bind demo_wa) p = true ∧
    bp_candidates p !! 1%nat = Some demo_addrB ∧ pc_DiscoKey (bp_config p) = to_array 32 [x04]) as (p & Hp & Hdue & Hc & Hd).
  { eexists. split; [vm_compute; reflexivity|]. split_and!; vm_compute; reflexivity. }
  assert (∃ q, b_peers (bw_bind demo_wb) !! demo_node demo_wa = Some q ∧ pc_DiscoKey (bp_config q) = to_array 32 [x02]) as (q & Hq & Hqd).
  { eexists. split; vm_compute; reflexivity. }
  apply (disco_handshake Second Second Second demo_udp demo_udp demo_rands demo_rands None (zero_array 24) (zero_array 24)
    demo_wa demo_wb 1 (to_array 12 (be_encode 12 1)) p demo_addrA demo_addrB); [..|split; vm_compute; reflexivity|split; vm_compute; reflexivity].
  - split_and!; [vm_compute; reflexivity..|]. exists p. split; [done|]. rewrite Hd. vm_compute. reflexivity.
  - split_and!; [vm_compute; reflexivity..|]. exists q. split; [done|]. rewrite Hqd. vm_compute. reflexivity.
  - vm_compute. discriminate.
  - done.
  - done.
  - done.
  - vm_compute. reflexivity.
  - vm_compute. reflexivity.
  - vm_compute. reflexivity.
  - vm_compute. reflexivity.
  - reflexivity.
Defined.
