(* ===== verification/Netcheck.v ===== *)
(** * Measuring DERP regions ([internal/tailnet/netcheck.go], [stun.go])

    A check round sends one STUN probe per selected region, waits for the
    answers, falls back to HTTPS when none came, and reports the latencies.
    The goroutines of a round are steps on the transport: [querySTUN] and
    [handleSTUN] per probe, [recordDERPLatency] per measurement, and the two
    ends of [finishDERPCheck]. *)

From Stdlib Require Import ZArith Lia String Strings.Byte.
From S2P Require Export Disco.
Open Scope Z_scope.

Definition derpCheckMinInterval : Z := 10 * Second.
Definition derpFullCheckInterval : Z := 5 * Minute.
Definition derpSTUNProbeTimeout : Z := 2 * Second.
Definition derpHTTPSProbeTimeout : Z := 5 * Second.
Definition maxIncrementalDERPRegions : nat := 3.
Definition maxFullDERPRegions : nat := 64.

Definition DERPLatencySTUN : string := "stun-udp".
Definition DERPLatencyHTTPS : string := "https".

(** ** Choosing the regions to probe *)

Definition isRegion (home : Z) (target : derpProbeTarget) : bool := tg_regionID target =? home.

(** [slices.IndexFunc] *)
Fixpoint IndexFunc {A} (f : A → bool) (l : list A) : option nat :=
  match l with
  | [] => None
  | x :: l => if f x then Some 0%nat else S <$> IndexFunc f l
  end.

(** [limit <= 0] gives a nil slice, which a loop sees as an empty one. *)
Definition limitDERPProbeTargets (targets : list derpProbeTarget) (home : Z) (limit : nat) : list derpProbeTarget :=
  if (limit =? 0)%nat then []
  else if (length targets <=? limit)%nat then targets
  else
    let selected := take limit targets in
    if (home =? 0) || existsb (isRegion home) selected then selected
    else match IndexFunc (isRegion home) (drop limit targets) with
         | Some homeIndex =>
             match targets !! (limit + homeIndex)%nat with
             | Some target => <[(length selected - 1)%nat := target]> selected
             | None => selected
             end
         | None => selected
         end.

(** One node of a region: the first that answers STUN, the first that relays. *)
Definition targetNode (regionID : Z) (target : derpProbeTarget) (node : option CDERPNode) : derpProbeTarget :=
  match node with
  | None => target
  | Some node =>
      let copyNode := if CDERPNode_RegionID node =? 0 then node <| CDERPNode_RegionID := regionID |> else node in
      let target := match tg_stun target with
        | None => if 0 <=? CDERPNode_STUNPort copyNode then mkderpProbeTarget (tg_regionID target) (Some copyNode) (tg_https target) else target
        | Some _ => target
        end in
      match tg_https target with
      | None => if negb (CDERPNode_STUNOnly copyNode) then mkderpProbeTarget (tg_regionID target) (tg_stun target) (Some copyNode) else target
      | Some _ => target
      end
  end.

Definition regionTarget (entry : Z * option CDERPRegion) : option derpProbeTarget :=
  match entry.2 with
  | None => None
  | Some region =>
      if CDERPRegion_NoMeasureNoHome region then None
      else
        let regionID := if entry.1 =? 0 then CDERPRegion_RegionID region else entry.1 in
        let target := foldl (targetNode regionID) (mkderpProbeTarget regionID None None) (elems (CDERPRegion_Nodes region)) in
        match tg_https target with
        | Some _ => Some target
        | None => None
        end
  end.

(** Measured regions first, by latency, then by id. *)
Definition target_cmp (latest : gmap Z DERPRegionLatency) (a c : derpProbeTarget) : Z :=
  match latest !! tg_regionID a, latest !! tg_regionID c with
  | Some _, None => -1
  | None, Some _ => 1
  | Some aMetric, Some cMetric =>
      if negb (rl_Latency aMetric =? rl_Latency cMetric) then if rl_Latency aMetric <? rl_Latency cMetric then -1 else 1
      else zcmp (tg_regionID a) (tg_regionID c)
  | None, None => zcmp (tg_regionID a) (tg_regionID c)
  end.

Section Netcheck.
Context `{BoxOps} `{RangeOrder}.
Implicit Types w : BindWorld.

(** Equal targets of the unstable sort come in any order, as the map's order is
    any order. *)
Definition measurableTargets (derpMap : DERPMap) (latest : gmap Z DERPRegionLatency) : list derpProbeTarget :=
  sort_func (target_cmp latest) (omap regionTarget (range 22 (default ∅ (DERPMap_Regions derpMap)))).

Definition selectDERPProbeTargets (derpMap : option DERPMap) (home : Z) (latest : gmap Z DERPRegionLatency) (full : bool)
    : list derpProbeTarget :=
  match derpMap with
  | None => []
  | Some derpMap =>
      let all := measurableTargets derpMap latest in
      if full || (length all <=? maxIncrementalDERPRegions)%nat then all
      else
        let selected := take maxIncrementalDERPRegions all in
        if (home =? 0) || existsb (isRegion home) selected then selected
        else match IndexFunc (isRegion home) all with
             | Some index =>
                 match all !! index with
                 | Some target => sort_func (λ a c, zcmp (tg_regionID a) (tg_regionID c)) (<[(length selected - 1)%nat := target]> selected)
                 | None => selected
                 end
             | None => selected
             end
  end.

(** ** Starting a round *)

Definition pruneSTUNEndpointsLocked (now : Z) (b : Bind) : Bind * bool :=
  let expired := filter (λ entry : AddrPort * Z, ¬ time_sub now entry.2 ≤ stunEndpointLifetime) (b_stunAt b) in
  (b <| b_stunAt := filter (λ entry : AddrPort * Z, time_sub now entry.2 ≤ stunEndpointLifetime) (b_stunAt b) |>
     <| b_stun := filter (λ entry : AddrPort * EndpointCandidate, ¬ is_Some (expired !! entry.1)) (b_stun b) |>,
   bool_decide (expired ≠ ∅)).

(** The targets of the round [kickDiscovery] starts, and whether it is full. *)
Definition roundTargets (b : Bind) (fullRequested : bool) : list derpProbeTarget * bool :=
  let targets := selectDERPProbeTargets (b_derpMap b) (b_selfDERP b) (b_derpLatency b) fullRequested in
  let '(targets, full) :=
    if (maxFullDERPRegions <? length targets)%nat then (limitDERPProbeTargets targets (b_selfDERP b) maxFullDERPRegions, false)
    else (targets, fullRequested) in
  if cfg_DisableDERP (b_cfg b) && (maxIncrementalDERPRegions <? length targets)%nat
  then (limitDERPProbeTargets targets (b_selfDERP b) maxIncrementalDERPRegions, false)
  else (targets, full).

Definition fullRequested (now : Z) (b : Bind) : bool :=
  negb (cfg_DisableDERP (b_cfg b)) &&
  (time_is_zero (b_lastFullDERPCheck b) || (derpFullCheckInterval <=? time_sub now (b_lastFullDERPCheck b))).

(** The STUN probes of a round. *)
Definition stunTargets (targets : list derpProbeTarget) : list (Z * CDERPNode) :=
  omap (λ target, pair (tg_regionID target) <$> tg_stun target) targets.

Definition startRound (now : Z) (b : Bind) : Bind * option derpCheckRound :=
  if negb (b_open b) || bool_decide (b_derpMap b = None) || (time_sub now (b_lastDERPCheck b) <? derpCheckMinInterval) then (b, None)
  else
    let b := b <| b_stunPending := filter (λ '(_, probe), time_sub now (sp_sent probe) ≤ Minute) (b_stunPending b) |> in
    let requested := fullRequested now b in
    let '(targets, full) := roundTargets b requested in
    if bool_decide (targets = []) then (b, None)
    else
      let b := b <| b_lastDERPCheck := now |> in
      let b := when requested (λ b, b <| b_lastFullDERPCheck := now |>) b in
      let b := b <| b_derpCheckID := uwrap 64 (b_derpCheckID b + 1) |> in
      let remaining := if negb (cfg_DisableDiscovery (b_cfg b)) && b_conn b then Z.of_nat (length (stunTargets targets)) else 0 in
      let round := mkderpCheckRound (b_derpCheckID b) full now targets remaining ∅ (remaining =? 0) in
      (b <| b_derpCheck := Some round |>, Some round).

Definition kickDiscovery (now : Z) w : BindWorld :=
  if cfg_DisableDiscovery (b_cfg (bw_bind w)) && cfg_DisableDERP (b_cfg (bw_bind w)) then w
  else
    let '(b, pruned) := pruneSTUNEndpointsLocked now (bw_bind w) in
    let '(b, round) := startRound now b in
    let w := mkBindWorld b (bw_out w) in
    let w := match round with
      | None => w
      | Some round =>
          let w := if rd_remaining round =? 0 then w
            else foldl (λ w '(regionID, node), bind_emit (OutQuerySTUN (rd_id round) regionID node) w) w (stunTargets (rd_targets round)) in
          bind_emit (OutFinishCheck (rd_id round)) w
      end in
    when pruned notifyEndpoints w.

(** ** The steps of a round *)

Definition completeSTUNProbe (checkID : Z) (b : Bind) : Bind :=
  match b_derpCheck b with
  | None => b
  | Some round =>
      if negb (rd_id round =? checkID) || (rd_remaining round =? 0) then b
      else
        let round := round <| rd_remaining := rd_remaining round - 1 |> in
        b <| b_derpCheck := Some (when (rd_remaining round =? 0) (λ round, round <| rd_stunDone := true |>) round) |>
  end.

Definition recordDERPLatency (now checkID regionID latency : Z) (source : string) (b : Bind) : Bind :=
  if (regionID =? 0) || (latency <=? 0) then b
  else match b_derpCheck b with
       | None => b
       | Some round =>
           if negb (rd_id round =? checkID) then b
           else if match rd_latencies round !! regionID with Some previous => rl_Latency previous <=? latency | None => false end then b
           else b <| b_derpCheck := Some (round <| rd_latencies :=
                  <[regionID := mkDERPRegionLatency regionID latency source now]> (rd_latencies round) |>) |>
       end.

(** The addresses [querySTUN] tries: the literal ones, or what the name resolves to. *)
Definition stunAddresses (lookup : string → option (list Addr)) (node : CDERPNode) : option (list Addr) :=
  let addresses := omap (λ raw, addr ← ParseAddr raw; if IsValid addr then Some (Unmap addr) else None)
    [CDERPNode_STUNTestIP node; CDERPNode_IPv4 node; CDERPNode_IPv6 node] in
  if bool_decide (addresses = []) && negb (bool_decide (CDERPNode_HostName node = ""))
  then (λ resolved, map Unmap (List.filter IsValid resolved)) <$> lookup (CDERPNode_HostName node)
  else Some addresses.

(** The addresses in turn, until a write succeeds. *)
Fixpoint writeFirst (udp : UDPWrite) (request : list byte) (port : Z) (addresses : list Addr) w : BindWorld * bool :=
  match addresses with
  | [] => (w, false)
  | addr :: addresses =>
      let ap := mkAddrPort (Unmap addr) (uwrap 16 port) in
      let w := bind_emit (OutUDP request ap) w in
      match udp request ap with
      | None => (w, true)
      | Some _ => writeFirst udp request port addresses w
      end
  end.

(** [sameCtx] is [b.ctx == ctx]: the transport has not been reopened since. *)
Definition querySTUN (now : Z) (udp : UDPWrite) (lookup : string → option (list Addr)) (rand : option (array 12)) (sameCtx : bool)
    (checkID regionID : Z) (node : CDERPNode) w : BindWorld :=
  let failed := on_bind_state (completeSTUNProbe checkID) in
  let port := if CDERPNode_STUNPort node =? 0 then 3478 else CDERPNode_STUNPort node in
  if (port <? 1) || (65535 <? port) then failed w
  else match stunAddresses lookup node with
       | None | Some [] => failed w
       | Some addresses =>
           match rand with
           | None => failed w
           | Some tx =>
               if negb (b_open (bw_bind w)) || negb sameCtx || negb (b_conn (bw_bind w)) then failed w
               else
                 let w := on_bind_state (λ b, b <| b_stunPending := <[tx := mkstunProbe now checkID regionID]> (b_stunPending b) |>) w in
                 let '(w, sent) := writeFirst udp (stunRequest tx) port addresses w in
                 if sent then w
                 else failed (on_bind_state (λ b, b <| b_stunPending := delete tx (b_stunPending b) |>) w)
           end
       end.

Definition handleSTUN (now : Z) (packet : list byte) w : option (BindWorld * bool) :=
  message ← stunMessage packet;
  match message with
  | StunNone => Some (w, false)
  | StunIgnored => Some (w, true)
  | StunResponse tx attrs =>
      match b_stunPending (bw_bind w) !! tx with
      | None => Some (w, true)
      | Some probe =>
          let w := on_bind_state (λ b, b <| b_stunPending := delete tx (b_stunPending b) |>) w in
          mapped ← stunMapped tx attrs;
          if negb (usableAddrPort mapped) then Some (on_bind_state (completeSTUNProbe (sp_checkID probe)) w, true)
          else
            let w := on_bind_state (recordDERPLatency now (sp_checkID probe) (sp_regionID probe) (time_sub now (sp_sent probe)) DERPLatencySTUN) w in
            let w := on_bind_state (completeSTUNProbe (sp_checkID probe)) w in
            let existed := bool_decide (is_Some (b_stun (bw_bind w) !! mapped)) in
            let w := on_bind_state (λ b, b <| b_stun := <[mapped := mkEndpointCandidate mapped EndpointSTUN]> (b_stun b) |>
              <| b_stunAt := <[mapped := now]> (b_stunAt b) |>) w in
            Some (when (negb existed) notifyEndpoints w, true)
      end
  end.

(** The round [checkID] is still the current one. *)
Definition currentRound (checkID : Z) (b : Bind) : option derpCheckRound :=
  round ← b_derpCheck b; if rd_id round =? checkID then Some round else None.

(** [finishDERPCheck] after the wait for STUN: the regions to measure over HTTPS. *)
Definition httpsTargets (checkID : Z) (b : Bind) : list derpProbeTarget :=
  match currentRound checkID b with
  | None => []
  | Some round =>
      if bool_decide (rd_latencies round = ∅) && negb (cfg_DisableDERP (b_cfg b))
      then List.filter (λ target, bool_decide (is_Some (tg_https target))) (rd_targets round)
      else []
  end.

(** The last part of [finishDERPCheck], which reports the round. *)
Definition reportDERPCheck (now checkID : Z) w : BindWorld :=
  match currentRound checkID (bw_bind w) with
  | None => w
  | Some round =>
      let regions := sort_func (λ a c, zcmp (rl_RegionID a) (rl_RegionID c)) (map snd (range 23 (rd_latencies round))) in
      let w := on_bind_state (λ b,
        let b := when (rd_full round) (λ b, b <| b_derpLatency := ∅ |>) b in
        b <| b_derpLatency := foldl (λ m metric, <[rl_RegionID metric := metric]> m) (b_derpLatency b) regions |>
          <| b_derpCheck := None |>) w in
      bind_emit (OutLatency (mkLatencyReport regions (rd_full round) now)) w
  end.

(** The whole of [finishDERPCheck] when nothing else happens meanwhile.  [measure]
    is [measureDERPHTTPSLatency]; the probes run concurrently and finish in the
    order [arrange] gives. *)
Definition finishDERPCheck (now checkID : Z) (canceled : bool) (measure : CDERPNode → result error Z)
    (arrange : list derpProbeTarget → list derpProbeTarget) w : BindWorld :=
  if canceled then w
  else match currentRound checkID (bw_bind w) with
       | None => w
       | Some _ =>
           let w := on_bind_state (λ b, foldl (λ b target,
             match measure <$> tg_https target with
             | Some (Ok latency) => recordDERPLatency now checkID (tg_regionID target) latency DERPLatencyHTTPS b
             | _ => b
             end) b (arrange (httpsTargets checkID b))) w in
           reportDERPCheck now checkID w
       end.
End Netcheck.

(** ** The HTTPS probe *)

(** The request of a latency check. *)
Record LatencyRequest := mkLatencyRequest { lq_urlHost : string; lq_path : string; lq_host : string }.

(** What the network and TLS do during one probe: the error of each call, the
    status of the response, and the two clock readings. *)
Record HTTPSProbe := mkHTTPSProbe {
  hp_dial : string → option error;
  hp_handshake : string → bool → option error;
  hp_write : LatencyRequest → option error;
  hp_flush : option error;
  hp_response : result error (Z * string);
  hp_copy : option error;
  hp_started : Z;
  hp_ended : Z
}.

Definition first_nonempty (a b : string) : string := if bool_decide (a = "") then b else a.

(** [tlsServerName] is the server name of the configured TLS settings. *)
Definition measureDERPHTTPSLatency (tlsServerName : string) (io : HTTPSProbe) (node : CDERPNode) : result error Z :=
  let host := first_nonempty (first_nonempty (CDERPNode_HostName node) (CDERPNode_IPv4 node)) (CDERPNode_IPv6 node) in
  if bool_decide (host = "") then Err (ErrText "DERP node has no address")
  else
    let port := if CDERPNode_DERPPort node =? 0 then 443 else CDERPNode_DERPPort node in
    match hp_dial io (JoinHostPort host (Itoa port)) with
    | Some e => Err e
    | None =>
        let serverName := first_nonempty (first_nonempty (CDERPNode_CertName node) (CDERPNode_HostName node)) host in
        match hp_handshake io (first_nonempty tlsServerName serverName) (CDERPNode_InsecureForTests node) with
        | Some e => Err e
        | None =>
            let requestHost := first_nonempty (CDERPNode_HostName node) host in
            match hp_write io (mkLatencyRequest (JoinHostPort requestHost (Itoa port)) "/derp/latency-check" requestHost) with
            | Some e => Err e
            | None =>
                match hp_flush io, hp_response io, hp_copy io with
                | Some e, _, _ => Err e
                | None, Err e, _ => Err e
                | None, Ok (code, status), copied =>
                    if 299 <? code then Err (ErrText ("DERP latency check: " +:+ status))
                    else match copied with
                         | Some e => Err e
                         | None => Ok (time_sub (hp_ended io) (hp_started io))
                         end
                end
            end
        end
    end.

(** ** The invariant *)

(** Latencies are filed under their region and positive. *)
Definition latency_ok (m : gmap Z DERPRegionLatency) : Prop :=
  map_Forall (λ id metric, rl_RegionID metric = id ∧ id ≠ 0 ∧ 0 < rl_Latency metric) m.

(** Every public address is the one it is filed under, usable, and has its time. *)
Definition stun_ok (b : Bind) : Prop :=
  dom (b_stun b) = dom (b_stunAt b) ∧
  map_Forall (λ a c, c = mkEndpointCandidate a EndpointSTUN ∧ usableAddrPort a = true) (b_stun b).

(** The current round is the latest; it is within the limits, and it is signalled
    as done exactly when no STUN probe is outstanding. *)
Record round_ok (b : Bind) (round : derpCheckRound) : Prop := {
  ro_id : rd_id round = b_derpCheckID b;
  ro_targets : rd_targets round ≠ [] ∧ (length (rd_targets round) ≤ maxFullDERPRegions)%nat;
  ro_limited : cfg_DisableDERP (b_cfg b) = true → (length (rd_targets round) ≤ maxIncrementalDERPRegions)%nat;
  ro_remaining : 0 ≤ rd_remaining round ≤ Z.of_nat (length (rd_targets round));
  ro_done : rd_stunDone round = true ↔ rd_remaining round = 0;
  ro_latencies : latency_ok (rd_latencies round)
}.

Record netcheck_ok (b : Bind) : Prop := {
  nc_stun : stun_ok b;
  nc_latency : latency_ok (b_derpLatency b);
  nc_round : ∀ round, b_derpCheck b = Some round → round_ok b round
}.

(** The fields the invariant is about. *)
Definition netcheck_view (b : Bind) :=
  (b_stun b, b_stunAt b, b_derpLatency b, b_derpCheck b, (b_derpCheckID b, cfg_DisableDERP (b_cfg b))).

Lemma netcheck_ok_same b b' : netcheck_view b' = netcheck_view b → netcheck_ok b → netcheck_ok b'.
Proof.
  unfold netcheck_view. intros [= E1 E2 E3 E4 E5 E6] [[Hs1 Hs2] Hl Hr]. constructor; [split|..]; rewrite ?E1, ?E2, ?E3; try done.
  intros round Hround. rewrite E4 in Hround. destruct (Hr _ Hround). constructor; rewrite ?E5, ?E6; done.
Qed.

(** *** Targets *)

Section Targets.
Context `{RangeOrder}.

Lemma IndexFunc_Some {A} (f : A → bool) l i : IndexFunc f l = Some i → ∃ x, l !! i = Some x ∧ f x = true.
Proof.
  revert i. induction l as [|x l IH]; intros i; cbn; [done|]. destruct (f x) eqn:E; [intros [= <-]; by exists x|].
  destruct (IndexFunc f l) as [j|]; [|done]. intros [= <-]. by apply IH.
Qed.

Lemma IndexFunc_None {A} (f : A → bool) l x : IndexFunc f l = None → x ∈ l → f x = false.
Proof.
  induction l as [|y l IH]; cbn; [set_solver|]. destruct (f y) eqn:E; [done|]. destruct (IndexFunc f l); [done|].
  intros _ [->|]%elem_of_cons; auto.
Qed.

Lemma existsb_region home l : existsb (isRegion home) l = true ↔ ∃ t, t ∈ l ∧ tg_regionID t = home.
Proof.
  rewrite existsb_exists. unfold isRegion. split; intros (t & Hin & Ht).
  - exists t. split; [by apply list_elem_of_In|by apply Z.eqb_eq].
  - exists t. split; [by apply list_elem_of_In|by apply Z.eqb_eq].
Qed.

(** [home] is among the targets. *)
Definition has_region (home : Z) (targets : list derpProbeTarget) : Prop := ∃ t, t ∈ targets ∧ tg_regionID t = home.

(** A selection of at most [limit] targets that keeps the home region. *)
Definition selection (home : Z) (limit : nat) (all selected : list derpProbeTarget) : Prop :=
  (length selected ≤ limit)%nat ∧ (∀ t, t ∈ selected → t ∈ all) ∧ (home ≠ 0 → has_region home all → has_region home selected).

(** Replacing the last of the first [limit] targets by the home region. *)
Lemma selection_replace home limit all selected target : (0 < limit)%nat → (limit ≤ length all)%nat → target ∈ all → tg_regionID target = home →
  selected ≡ₚ <[(length (take limit all) - 1)%nat := target]> (take limit all) → selection home limit all selected.
Proof.
  intros H0 Hl Hin Hr Hp. assert (∀ t, t ∈ selected ↔ t ∈ <[(length (take limit all) - 1)%nat := target]> (take limit all)) as He by (intros; by rewrite Hp).
  split_and!.
  - rewrite Hp, length_insert, length_take. lia.
  - intros t Ht. apply He in Ht. apply list_elem_of_lookup in Ht as [i Hi]. apply list_lookup_insert_Some in Hi as [(_ & <- & _)|[_ Hi]]; [done|].
    apply list_elem_of_lookup_2 in Hi. eapply elem_of_take in Hi as (j & Hj & _). by eapply list_elem_of_lookup_2.
  - intros _ _. exists target. split; [|done]. apply He. eapply list_elem_of_lookup_2, list_lookup_insert_eq. rewrite length_take. lia.
Qed.

Lemma selection_take home limit all : (home ≠ 0 → has_region home all → has_region home (take limit all)) → selection home limit all (take limit all).
Proof.
  intros Hh. split_and!; [rewrite length_take; lia| |done]. intros t Ht. apply elem_of_take in Ht as (j & Hj & _). by eapply list_elem_of_lookup_2.
Qed.

Lemma limitDERPProbeTargets_ok targets home limit : (0 < limit)%nat → selection home limit targets (limitDERPProbeTargets targets home limit).
Proof.
  intros Hl. unfold limitDERPProbeTargets. destruct (Nat.eqb_spec limit 0); [lia|].
  destruct (Nat.leb_spec (length targets) limit) as [|Hlen]; [by split_and!|]. cbv zeta.
  destruct (_ || _) eqn:Eh.
  { apply selection_take. intros Hn _. apply orb_true_iff in Eh as [Eh|Eh]; [apply Z.eqb_eq in Eh; lia|]. by apply existsb_region. }
  apply orb_false_iff in Eh as [_ Eh]. destruct (IndexFunc _ _) as [i|] eqn:Ei.
  - apply IndexFunc_Some in Ei as (t & Ht & Hr). rewrite lookup_drop in Ht. rewrite Ht.
    apply (selection_replace _ _ _ _ t); [done|lia|by eapply list_elem_of_lookup_2|by apply Z.eqb_eq|done].
  - apply selection_take. intros _ (t & Hin & Ht). exfalso. rewrite <-(take_drop limit targets) in Hin. apply elem_of_app in Hin as [Hin|Hin].
    + apply not_true_iff_false in Eh. apply Eh, existsb_region. by exists t.
    + eapply IndexFunc_None in Ei; [|done]. unfold isRegion in Ei. lia.
Qed.

Lemma selectDERPProbeTargets_ok derpMap home latest :
  selection home maxIncrementalDERPRegions (measurableTargets derpMap latest) (selectDERPProbeTargets (Some derpMap) home latest false).
Proof.
  unfold selectDERPProbeTargets. cbn [orb]. set (all := measurableTargets derpMap latest).
  destruct (Nat.leb_spec (length all) maxIncrementalDERPRegions) as [|Hlen]; [by split_and!|].
  destruct (_ || _) eqn:Eh.
  { apply selection_take. intros Hn _. apply orb_true_iff in Eh as [Eh|Eh]; [apply Z.eqb_eq in Eh; lia|]. by apply existsb_region. }
  destruct (IndexFunc _ _) as [i|] eqn:Ei.
  - apply IndexFunc_Some in Ei as (t & Ht & Hr). rewrite Ht.
    apply (selection_replace _ _ _ _ t); [unfold maxIncrementalDERPRegions; lia|lia|by eapply list_elem_of_lookup_2|by apply Z.eqb_eq|].
    apply sort_func_perm.
  - apply selection_take. intros _ (t & Hin & Ht). exfalso. eapply IndexFunc_None in Ei; [|done]. unfold isRegion in Ei. lia.
Qed.

Lemma selection_trans home limit limit' all s s' : selection home limit all s → selection home limit' s s' → selection home limit' all s'.
Proof. intros (_ & H1 & H2) (Hl & H1' & H2'). split_and!; [done|auto|auto]. Qed.

(** A target is a region the map lets us measure and that has a relay. *)
Lemma elem_of_measurable derpMap latest t : t ∈ measurableTargets derpMap latest →
  is_Some (tg_https t) ∧ ∃ id region, default ∅ (DERPMap_Regions derpMap) !! id = Some (Some region) ∧
    CDERPRegion_NoMeasureNoHome region = false ∧ regionTarget (id, Some region) = Some t.
Proof.
  unfold measurableTargets. rewrite elem_of_sort_func. intros ([id r] & Hin & Ht)%list_elem_of_omap. apply elem_of_range in Hin.
  pose proof Ht as Ht'. unfold regionTarget in Ht. cbn [fst snd] in Ht. destruct r as [region|]; [|done].
  destruct (CDERPRegion_NoMeasureNoHome region) eqn:En; [done|]. destruct (tg_https (foldl _ _ _)) eqn:Eh; [|done].
  injection Ht as <-. split; [by rewrite Eh|]. by exists id, region.
Qed.

Lemma regionTarget_id id region t : regionTarget (id, Some region) = Some t →
  tg_regionID t = if id =? 0 then CDERPRegion_RegionID region else id.
Proof.
  unfold regionTarget. cbn [fst snd]. destruct (CDERPRegion_NoMeasureNoHome region); [done|].
  cbv zeta. set (r := if id =? 0 then _ else _). set (t0 := foldl _ _ _). destruct (tg_https t0); [|done]. intros Ht. injection Ht as <-. unfold t0. clear t0. clearbody r.
  apply (foldl_preserves (λ t, tg_regionID t = r)); [done|]. intros node t Hin Ht. unfold targetNode.
  destruct node as [node|]; [|done]. cbv zeta. generalize (if CDERPNode_RegionID node =? 0 then node <| CDERPNode_RegionID := r |> else node). intros copyNode.
  destruct t as [tid [st|] [ht|]]; cbn in *; repeat (destruct (_ <=? _); cbn); repeat (destruct (negb _); cbn); done.
Qed.

(** The targets of a round, and what a full round means. *)
Lemma roundTargets_ok b derpMap requested : b_derpMap b = Some derpMap →
  let all := measurableTargets derpMap (b_derpLatency b) in
  let '(targets, full) := roundTargets b requested in
  selection (b_selfDERP b) (if requested && negb (cfg_DisableDERP (b_cfg b)) then maxFullDERPRegions else maxIncrementalDERPRegions) all targets ∧
  (full = true → requested = true ∧ targets = all).
Proof.
  intros Hmap all. unfold roundTargets. rewrite Hmap. set (sel := selectDERPProbeTargets _ _ _ _).
  assert (selection (b_selfDERP b) (if requested then length all else maxIncrementalDERPRegions) all sel ∧ (requested = true → sel = all)) as [Hsel Hfull].
  { unfold sel. destruct requested; [|split; [apply selectDERPProbeTargets_ok|done]]. cbn. fold all. by split_and!. }
  clearbody sel. set (first := if (maxFullDERPRegions <? length sel)%nat then _ else _).
  assert (selection (b_selfDERP b) (if requested then maxFullDERPRegions else maxIncrementalDERPRegions) all first.1 ∧
    (first.2 = true → requested = true ∧ first.1 = all)) as [H1 H2].
  { unfold first. destruct (Nat.ltb_spec maxFullDERPRegions (length sel)) as [Hlt|Hle]; cbn [fst snd].
    - split; [|done]. destruct requested; [|destruct Hsel; unfold maxFullDERPRegions, maxIncrementalDERPRegions in *; lia].
      eapply selection_trans; [done|]. apply limitDERPProbeTargets_ok. unfold maxFullDERPRegions. lia.
    - split; [|auto]. destruct requested; [|done]. destruct Hsel as (_ & ? & ?). by split_and!. }
  clearbody first. destruct first as [targets full]. cbn [fst snd] in *.
  destruct (cfg_DisableDERP (b_cfg b)); cbn [andb negb]; [|rewrite andb_true_r; by split].
  rewrite andb_false_r. destruct (Nat.ltb_spec maxIncrementalDERPRegions (length targets)).
  - split; [|done]. eapply selection_trans; [done|]. apply limitDERPProbeTargets_ok. unfold maxIncrementalDERPRegions. lia.
  - split; [|done]. destruct H1 as (_ & ? & ?). by split_and!.
Qed.

(** C15. The regions of a check: never more than 64, and at most three when the
    check is not a full one or DERP is disabled.  The home region is always
    among them when it can be measured, and only regions of the DERP map that
    may be measured and have a relay are probed.  A round that is reported as
    full has probed every such region. *)
Theorem roundTargets_spec (b : Bind) (derpMap : DERPMap) (requested : bool) (Hmap : b_derpMap b = Some derpMap) :
  let all := measurableTargets derpMap (b_derpLatency b) in
  let '(targets, full) := roundTargets b requested in
  selection (b_selfDERP b) (if requested && negb (cfg_DisableDERP (b_cfg b)) then maxFullDERPRegions else maxIncrementalDERPRegions) all targets ∧
  (full = true → requested = true ∧ targets = all) ∧
  (∀ t, t ∈ targets → is_Some (tg_https t) ∧ ∃ id region, default ∅ (DERPMap_Regions derpMap) !! id = Some (Some region) ∧
     CDERPRegion_NoMeasureNoHome region = false ∧ tg_regionID t = (if id =? 0 then CDERPRegion_RegionID region else id)).
Proof.
  pose proof (roundTargets_ok b derpMap requested Hmap) as Hr. cbv zeta in *. set (all := measurableTargets derpMap (b_derpLatency b)) in *.
  destruct (roundTargets b requested) as [targets full]. destruct Hr as [Hs Hf]. split_and!; [done|done|]. intros t Ht.
  destruct Hs as (_ & Hs & _). destruct (elem_of_measurable _ _ _ (Hs t Ht)) as (? & id & region & Hid & Hn & Hreg).
  split; [done|]. exists id, region. split_and!; [done|done|]. by apply regionTarget_id.
Qed.
End Targets.

(** *** Preservation *)

Section Preservation.
Context `{BoxOps} `{RangeOrder}.
Implicit Types w : BindWorld.

Lemma prune_ok now b : netcheck_ok b → netcheck_ok (pruneSTUNEndpointsLocked now b).1.
Proof.
  intros [[Hd Hs] Hl Hr]. unfold pruneSTUNEndpointsLocked. cbv zeta. cbn [fst]. set (expired := filter (λ entry : AddrPort * Z, ¬ _) (b_stunAt b)).
  assert (∀ a, is_Some (expired !! a) ↔ ∃ t, b_stunAt b !! a = Some t ∧ ¬ time_sub now t ≤ stunEndpointLifetime) as He.
  { intros a. split.
    - intros [t Ht]. apply map_lookup_filter_Some in Ht as [? ?]. by exists t.
    - intros (t & ? & ?). exists t. by apply map_lookup_filter_Some. }
  destruct b as [cfg op cl conn inb lport local stun stunAt peers byDisco byAddr pend spend dmap self gen ldc lfdc dcid dchk dlat].
  cbn in *. constructor; cbn; [|done|]; [split; cbn|].
  - apply set_eq. intros a. rewrite !elem_of_dom. assert (a ∈ dom stun ↔ a ∈ dom stunAt) as Hda by (by rewrite Hd). rewrite !elem_of_dom in Hda. split.
    + intros [c Hc]. apply map_lookup_filter_Some in Hc as [Hc Hn]. destruct (proj1 Hda) as [t Ht]; [by eexists|]. exists t.
      apply map_lookup_filter_Some. split; [done|]. cbn in *. destruct (decide (time_sub now t ≤ stunEndpointLifetime)); [done|].
      exfalso. apply Hn, He. by exists t.
    + intros [t Ht]. apply map_lookup_filter_Some in Ht as [Ht Hf]. destruct (proj2 Hda) as [c Hc]; [by eexists|]. exists c.
      apply map_lookup_filter_Some. split; [done|]. cbn in *. rewrite He. intros (t' & Ht' & ?). by simplify_eq.
  - intros a c Hc. apply map_lookup_filter_Some in Hc as [Hc _]. by apply Hs.
  - intros round Hround. by destruct (Hr round Hround).
Qed.

Lemma length_stunTargets targets : (length (stunTargets targets) ≤ length targets)%nat.
Proof. unfold stunTargets. induction targets as [|t targets IH]; cbn; [done|]. destruct (tg_stun t); cbn; lia. Qed.

Lemma startRound_ok now b : netcheck_ok b → netcheck_ok (startRound now b).1 ∧
  ∀ round, (startRound now b).2 = Some round → b_derpCheck (startRound now b).1 = Some round.
Proof.
  intros Hn. unfold startRound. destruct (negb _ || _ || _) eqn:Eg; [done|].
  apply orb_false_iff in Eg as [[_ Em]%orb_false_iff _]. apply bool_decide_eq_false in Em.
  destruct (b_derpMap b) as [derpMap|] eqn:Edm; [|done].
  set (b1 := b <| b_stunPending := _ |>). assert (b_derpMap b1 = Some derpMap) as Hm by by destruct b.
  assert (netcheck_ok b1) as Hn1 by (apply (netcheck_ok_same b); [by destruct b|done]). clearbody b1.
  pose proof (roundTargets_ok b1 derpMap (fullRequested now b1) Hm) as Ht. cbv zeta in *.
  destruct (roundTargets b1 (fullRequested now b1)) as [targets full]. destruct Ht as ((Hlen & _) & _).
  destruct (bool_decide (targets = [])) eqn:Et; [done|]. apply bool_decide_eq_false in Et.
  split; [|intros round E; injection E as <-; by destruct b1, (fullRequested _ _)]. cbn [fst]. destruct Hn1 as [[Hd Hs] Hl Hr].
  assert (length targets ≤ maxFullDERPRegions)%nat as H64.
  { etransitivity; [done|]. destruct (_ && _); unfold maxFullDERPRegions, maxIncrementalDERPRegions; lia. }
  assert (cfg_DisableDERP (b_cfg b1) = true → length targets ≤ maxIncrementalDERPRegions)%nat as Hlim.
  { intros Hdis. by rewrite Hdis, andb_false_r in Hlen. }
  clear Hlen. pose proof (length_stunTargets targets) as Hst. unfold when.
  destruct b1; destruct (fullRequested _ _); cbn in *; (constructor; cbn; [done|done|]); intros round [= <-];
    (constructor; cbn; [done|done| | | |apply map_Forall_empty]).
  all: first [done|rewrite Z.eqb_eq; done|destruct (_ && _); lia].
Qed.

(** Changing the current round. *)
Lemma set_round_ok b round : netcheck_ok b → round_ok b round → netcheck_ok (b <| b_derpCheck := Some round |>).
Proof.
  intros [Hs Hl Hr] Hro. destruct b; constructor; cbn in *; [done..|]. intros r [= <-]. by destruct Hro.
Qed.

Lemma completeSTUNProbe_ok checkID b : netcheck_ok b → netcheck_ok (completeSTUNProbe checkID b).
Proof.
  intros Hn. unfold completeSTUNProbe. destruct (b_derpCheck b) as [round|] eqn:Er; [|done].
  destruct (_ || _) eqn:Eg; [done|]. apply orb_false_iff in Eg as [_ Eg]. apply Z.eqb_neq in Eg.
  apply set_round_ok; [done|]. destruct (nc_round _ Hn _ Er) as [Hid Ht Hlim Hrem Hd Hl].
  unfold when. destruct round as [id full started targets remaining lat done]; cbn in *.
  destruct (Z.eqb_spec (remaining - 1) 0) as [E|E]; constructor; cbn; try done; try lia. rewrite Hd. lia.
Qed.

Lemma recordDERPLatency_ok now checkID regionID latency source b : netcheck_ok b →
  netcheck_ok (recordDERPLatency now checkID regionID latency source b).
Proof.
  intros Hn. unfold recordDERPLatency. destruct (_ || _) eqn:Eg; [done|]. apply orb_false_iff in Eg as [E1 E2].
  destruct (b_derpCheck b) as [round|] eqn:Er; [|done]. destruct (negb _); [done|].
  destruct (match rd_latencies round !! regionID with Some _ => _ | None => _ end); [done|].
  apply set_round_ok; [done|]. destruct (nc_round _ Hn _ Er) as [Hid Ht Hlim Hrem Hd Hl].
  destruct round; constructor; cbn in *; try done. apply map_Forall_insert_2; [|done]. cbn. lia.
Qed.

(** The operations of a round leave the peers and their indexes alone. *)
Lemma completeSTUNProbe_index checkID b : index (completeSTUNProbe checkID b) = index b.
Proof. unfold completeSTUNProbe. destruct (b_derpCheck b); [|done]. destruct (_ || _); [done|]. by destruct b. Qed.

Lemma recordDERPLatency_index now checkID regionID latency source b : index (recordDERPLatency now checkID regionID latency source b) = index b.
Proof.
  unfold recordDERPLatency. destruct (_ || _); [done|]. destruct (b_derpCheck b); [|done]. destruct (negb _); [done|].
  destruct (match _ with Some _ => _ | None => _ end); [done|]. by destruct b.
Qed.

Lemma startRound_index now b : index (startRound now b).1 = index b.
Proof.
  unfold startRound. destruct (_ || _ || _); [done|]. destruct (roundTargets _ _) as [targets full].
  destruct (bool_decide _); [by destruct b|]. unfold when. destruct (fullRequested _ _); by destruct b.
Qed.

Lemma kickDiscovery_bind now w : bw_bind (kickDiscovery now w) =
  if cfg_DisableDiscovery (b_cfg (bw_bind w)) && cfg_DisableDERP (b_cfg (bw_bind w)) then bw_bind w
  else (startRound now (pruneSTUNEndpointsLocked now (bw_bind w)).1).1.
Proof.
  unfold kickDiscovery. destruct (_ && _); [done|]. destruct (pruneSTUNEndpointsLocked now (bw_bind w)) as [b pruned]. cbn [fst].
  destruct (startRound now b) as [b' [round|]]; unfold when; destruct pruned; cbn; try done; destruct (rd_remaining round =? 0); cbn; try done;
    apply (foldl_preserves (λ w, bw_bind w = b')); [done|by intros [] ? ? ?|done|by intros [] ? ? ?].
Qed.

Lemma writeFirst_bind udp request port addresses : ∀ w, bw_bind (writeFirst udp request port addresses w).1 = bw_bind w.
Proof. induction addresses as [|a addresses IH]; intros w; cbn; [done|]. destruct (udp _ _); [by rewrite IH|done]. Qed.

(** The state after [querySTUN]: the probe is pending, or it is completed. *)
Lemma querySTUN_bind now udp lookup rand sameCtx checkID regionID node w :
  ∃ pending, bw_bind (querySTUN now udp lookup rand sameCtx checkID regionID node w) = bw_bind w <| b_stunPending := pending |> ∨
    bw_bind (querySTUN now udp lookup rand sameCtx checkID regionID node w) = completeSTUNProbe checkID (bw_bind w <| b_stunPending := pending |>).
Proof.
  unfold querySTUN. cbv zeta.
  assert (completeSTUNProbe checkID (bw_bind w) = completeSTUNProbe checkID (bw_bind w <| b_stunPending := b_stunPending (bw_bind w) |>)) as Esame.
  { f_equal. by destruct (bw_bind w). }
  destruct (_ || _); [eexists; right; exact Esame|]. destruct (stunAddresses lookup node) as [[|a addresses]|]; [eexists; right; exact Esame| |eexists; right; exact Esame].
  destruct rand as [tx|]; [|eexists; right; exact Esame]. destruct (_ || _ || _); [eexists; right; exact Esame|].
  set (w1 := on_bind_state _ w). destruct (writeFirst udp (stunRequest tx) _ (a :: addresses) w1) as [w2 sent] eqn:E2.
  assert (bw_bind w2 = bw_bind w1) as Hb by (change w2 with (w2, sent).1; rewrite <-E2; apply writeFirst_bind).
  destruct sent; [eexists; left; rewrite Hb; done|]. eexists. right. cbn. rewrite Hb. by destruct w as [[] ?].
Qed.

(** The state after a STUN answer with a usable address. *)
Definition stunAnswered (now : Z) (tx : array 12) (probe : stunProbe) (mapped : AddrPort) (b : Bind) : Bind :=
  let b := b <| b_stunPending := delete tx (b_stunPending b) |> in
  let b := recordDERPLatency now (sp_checkID probe) (sp_regionID probe) (time_sub now (sp_sent probe)) DERPLatencySTUN b in
  let b := completeSTUNProbe (sp_checkID probe) b in
  b <| b_stun := <[mapped := mkEndpointCandidate mapped EndpointSTUN]> (b_stun b) |> <| b_stunAt := <[mapped := now]> (b_stunAt b) |>.

Lemma handleSTUN_cases now packet w : ∃ w' handled, handleSTUN now packet w = Some (w', handled) ∧
  (w' = w ∨ handled = true ∧ ∃ tx attrs probe mapped, stunMessage packet = Some (StunResponse tx attrs) ∧
     b_stunPending (bw_bind w) !! tx = Some probe ∧ stunMapped tx attrs = Some mapped ∧
     bw_bind w' = if usableAddrPort mapped then stunAnswered now tx probe mapped (bw_bind w)
                  else completeSTUNProbe (sp_checkID probe) (bw_bind w <| b_stunPending := delete tx (b_stunPending (bw_bind w)) |>)).
Proof.
  unfold handleSTUN. destruct (stunMessage_total packet) as (m & Em & Hm). rewrite Em. cbn [mbind option_bind].
  destruct m as [| |tx attrs]; [eexists _, _; by split; [|left]..|].
  destruct (b_stunPending (bw_bind w) !! tx) as [probe|] eqn:Ep; [|eexists _, _; by split; [|left]].
  destruct (stunAttrs_total (S (length attrs)) attrs tx zeroAddrPort) as [mapped Emap]; [lia|].
  unfold stunMapped. rewrite Emap. cbn [mbind option_bind]. cbv zeta.
  destruct (usableAddrPort mapped) eqn:Eu; cbn [negb].
  - eexists _, _. split; [done|]. right. split; [done|]. exists tx, attrs, probe, mapped. split_and!; [done..|]. rewrite Eu.
    unfold when. by destruct (negb _).
  - eexists _, _. split; [done|]. right. split; [done|]. exists tx, attrs, probe, mapped. split_and!; [done..|]. by rewrite Eu.
Qed.

Lemma handleSTUN_answer now tx attrs mapped probe w :
  Z.of_nat (length attrs) < 65536 ∧ stunMapped tx attrs = Some mapped → usableAddrPort mapped = true → b_stunPending (bw_bind w) !! tx = Some probe →
  ∃ w', handleSTUN now (encodeResponse tx attrs) w = Some (w', true) ∧ bw_bind w' = stunAnswered now tx probe mapped (bw_bind w).
Proof.
  intros [Hlen Hm] Hu Hp. unfold handleSTUN. rewrite stunMessage_response by done. cbn [mbind option_bind]. rewrite Hp, Hm. cbn [mbind option_bind].
  cbv zeta. rewrite Hu. cbn [negb]. eexists. split; [done|]. unfold when. by destruct (negb _).
Qed.

Lemma stunAnswered_ok now tx probe mapped b : usableAddrPort mapped = true → netcheck_ok b → netcheck_ok (stunAnswered now tx probe mapped b).
Proof.
  intros Hu Hn. unfold stunAnswered. set (b0 := b <| b_stunPending := _ |>).
  assert (netcheck_ok b0) as Hn0 by (apply (netcheck_ok_same b); [by destruct b|done]). clearbody b0. cbv zeta.
  set (b1 := completeSTUNProbe _ _). assert (netcheck_ok b1) as [[Hd Hs] Hl Hr] by by apply completeSTUNProbe_ok, recordDERPLatency_ok.
  clearbody b1. destruct b1; constructor; cbn in *; [split; cbn|done|].
  - rewrite !dom_insert_L. by rewrite Hd.
  - by apply map_Forall_insert_2.
  - intros round Hround. by destruct (Hr round Hround).
Qed.

Lemma stunAnswered_index now tx probe mapped b : index (stunAnswered now tx probe mapped b) = index b.
Proof.
  unfold stunAnswered. cbv zeta. set (b1 := completeSTUNProbe _ _). transitivity (index b1); [by destruct b1|]. unfold b1.
  rewrite completeSTUNProbe_index, recordDERPLatency_index. by destruct b.
Qed.

(** What a report adds to the known latencies. *)
Definition mergedLatency (round : derpCheckRound) (known : gmap Z DERPRegionLatency) : gmap Z DERPRegionLatency :=
  if rd_full round then rd_latencies round else rd_latencies round ∪ known.

Lemma lookup_fold_metrics (l : list DERPRegionLatency) : ∀ (m : gmap Z DERPRegionLatency) k,
  NoDup (map rl_RegionID l) → foldl (λ m metric, <[rl_RegionID metric := metric]> m) m l !! k =
    match list_find (λ metric, rl_RegionID metric = k) l with Some (_, metric) => Some metric | None => m !! k end.
Proof.
  induction l as [|x l IH]; intros m k Hnd; cbn [foldl list_find]; [done|]. apply NoDup_cons in Hnd as [Hx Hnd]. rewrite IH by done.
  case_decide as Ek.
  - assert (list_find (λ metric, rl_RegionID metric = k) l = None) as ->.
    { apply list_find_None, Forall_forall. intros y Hy Hyk. apply Hx. rewrite Ek, <-Hyk. by apply list_elem_of_fmap_2. }
    rewrite <-Ek. by rewrite lookup_insert_eq.
  - destruct (list_find _ l) as [[? ?]|]; [done|]. by rewrite lookup_insert_ne.
Qed.

Definition by_region (a c : DERPRegionLatency) : Z := zcmp (rl_RegionID a) (rl_RegionID c).

Lemma sorted_metrics (m : gmap Z DERPRegionLatency) : latency_ok m → let regions := sort_func by_region (map snd (range 23 m)) in
  map rl_RegionID regions ≡ₚ (range 23 m).*1 ∧ (∀ metric, metric ∈ regions ↔ m !! rl_RegionID metric = Some metric) ∧
  StronglySorted (cmp_le by_region) regions.
Proof.
  intros Hl regions. assert (∀ id metric, (id, metric) ∈ range 23 m → rl_RegionID metric = id) as Hid.
  { intros id metric Hin. apply elem_of_range in Hin. by destruct (map_Forall_lookup_1 _ _ _ _ Hl Hin). }
  split_and!.
  - unfold regions. change (map rl_RegionID) with (fmap rl_RegionID : list _ → list Z). rewrite sort_func_perm. revert Hid. generalize (range 23 m).
    intros l Hid. assert (rl_RegionID <$> map snd l = l.*1) as ->; [|done]. induction l as [|[k v] l IH]; cbn; [done|]. rewrite (Hid k v) by set_solver. f_equal. apply IH. intros. apply Hid. set_solver.
  - intros metric. unfold regions. rewrite elem_of_sort_func, list_elem_of_fmap. split.
    + intros ([id metric'] & -> & Hin). cbn. rewrite (Hid _ _ Hin). by apply elem_of_range in Hin.
    + intros Hm. exists (rl_RegionID metric, metric). split; [done|]. by apply (elem_of_range 23).
  - apply sort_func_sorted.
    + intros a c. unfold cmp_le, by_region. rewrite !zcmp_le. lia.
    + intros a c d. unfold cmp_le, by_region. rewrite !zcmp_le. lia.
Qed.

Lemma sorted_strict regions : StronglySorted (cmp_le by_region) regions → NoDup (map rl_RegionID regions) →
  StronglySorted Z.lt (map rl_RegionID regions).
Proof.
  induction 1 as [|x l Hs IH Hf]; cbn; [constructor|]. intros [Hx Hnd]%NoDup_cons. constructor; [auto|].
  rewrite Forall_forall in Hf. apply Forall_forall. intros id Hid. apply list_elem_of_fmap in Hid as (y & -> & Hy).
  specialize (Hf y Hy). unfold cmp_le, by_region in Hf. rewrite zcmp_le in Hf.
  assert (rl_RegionID x ≠ rl_RegionID y) by (intros E; apply Hx; rewrite E; by apply list_elem_of_fmap_2). lia.
Qed.

Lemma report_merge round known : latency_ok (rd_latencies round) →
  foldl (λ m metric, <[rl_RegionID metric := metric]> m) (if rd_full round then ∅ else known)
    (sort_func by_region (map snd (range 23 (rd_latencies round)))) = mergedLatency round known.
Proof.
  intros Hl. destruct (sorted_metrics _ Hl) as (Hperm & Hin & _). set (regions := sort_func by_region _) in *.
  apply map_eq. intros k. rewrite lookup_fold_metrics by (rewrite Hperm; apply NoDup_range).
  assert (match list_find (λ metric, rl_RegionID metric = k) regions with Some (_, metric) => Some metric | None => None end = rd_latencies round !! k) as Hf.
  { destruct (list_find _ regions) as [[i metric]|] eqn:Ef.
    - apply list_find_Some in Ef as (Hi & <- & _). symmetry. apply Hin. by eapply list_elem_of_lookup_2.
    - destruct (rd_latencies round !! k) as [metric|] eqn:Em; [|done]. exfalso.
      assert (rl_RegionID metric = k) as Hk by by destruct (map_Forall_lookup_1 _ _ _ _ Hl Em).
      apply list_find_None in Ef. rewrite Forall_forall in Ef. apply (Ef metric); [|done]. apply Hin. by rewrite Hk. }
  unfold mergedLatency. destruct (rd_full round).
  - rewrite <-Hf. destruct (list_find _ regions) as [[? ?]|]; [done|]. apply lookup_empty.
  - rewrite lookup_union, <-Hf. destruct (list_find _ regions) as [[? ?]|]; cbn; [by destruct (known !! k)|by destruct (known !! k)].
Qed.

Lemma reportDERPCheck_bind now checkID w round : netcheck_ok (bw_bind w) → currentRound checkID (bw_bind w) = Some round →
  bw_bind (reportDERPCheck now checkID w) =
    bw_bind w <| b_derpLatency := mergedLatency round (b_derpLatency (bw_bind w)) |> <| b_derpCheck := None |>.
Proof.
  intros Hn Hc. unfold reportDERPCheck. rewrite Hc. cbv zeta. unfold currentRound in Hc.
  destruct (b_derpCheck (bw_bind w)) as [r|] eqn:Er; [|done]. cbn [mbind option_bind] in Hc. destruct (_ =? _); [|done]. injection Hc as <-.
  rewrite <-(report_merge r) by apply (ro_latencies _ _ (nc_round _ Hn _ Er)).
  unfold when. fold by_region. destruct w as [[] ?]; cbn in *. by destruct (rd_full r).
Qed.

Lemma mergedLatency_ok round known : latency_ok (rd_latencies round) → latency_ok known → latency_ok (mergedLatency round known).
Proof. intros H1 H2. unfold mergedLatency. destruct (rd_full round); [done|]. by apply map_Forall_union_2. Qed.

(** C37. The report of a check, whether its latencies came over STUN or HTTPS: a
    check that is no longer the current one reports nothing and changes nothing.
    The current one ends, its report lists each measured region once, by id,
    and the known latencies are replaced by the measured ones (a full check)
    or updated with them. *)
Theorem reportDERPCheck_exact now checkID w (Hn : netcheck_ok (bw_bind w)) :
  match currentRound checkID (bw_bind w) with
  | None => reportDERPCheck now checkID w = w
  | Some round =>
      ∃ regions, reportDERPCheck now checkID w =
        mkBindWorld (bw_bind w <| b_derpLatency := mergedLatency round (b_derpLatency (bw_bind w)) |> <| b_derpCheck := None |>)
          (bw_out w ++ [OutLatency (mkLatencyReport regions (rd_full round) now)]) ∧
      StronglySorted Z.lt (map rl_RegionID regions) ∧
      (∀ metric, metric ∈ regions ↔ rd_latencies round !! rl_RegionID metric = Some metric)
  end.
Proof.
  destruct (currentRound checkID (bw_bind w)) as [round|] eqn:Ec; [|unfold reportDERPCheck; by rewrite Ec].
  assert (latency_ok (rd_latencies round)) as Hl.
  { unfold currentRound in Ec. destruct (b_derpCheck (bw_bind w)) as [r|] eqn:Er; [|done]. cbn [mbind option_bind] in Ec.
    destruct (_ =? _); [|done]. injection Ec as <-. apply (ro_latencies _ _ (nc_round _ Hn _ Er)). }
  destruct (sorted_metrics _ Hl) as (Hperm & Hin & Hs). exists (sort_func by_region (map snd (range 23 (rd_latencies round)))). split_and!; [| |done].
  - pose proof (reportDERPCheck_bind now checkID w round Hn Ec) as Hb. revert Hb. unfold reportDERPCheck. rewrite Ec. cbv zeta.
    unfold bind_emit. cbn [bw_bind on_bind_state bw_out]. intros ->. done.
  - apply sorted_strict; [done|]. rewrite Hperm. apply NoDup_range.
Qed.

(** *** A STUN exchange *)

Lemma writeFirst_sent udp request port addresses : ∀ w,
  Exists (λ a, udp request (mkAddrPort (Unmap a) (uwrap 16 port)) = None) addresses →
  ∃ w' a, writeFirst udp request port addresses w = (w', true) ∧ bw_bind w' = bw_bind w ∧
    a ∈ addresses ∧ last (bw_out w') = Some (OutUDP request (mkAddrPort (Unmap a) (uwrap 16 port))).
Proof.
  induction addresses as [|a addresses IH]; intros w He; [by apply Exists_nil in He|]. cbn [writeFirst].
  destruct (udp request _) eqn:Eu.
  - apply Exists_cons in He as [He|He]; [congruence|]. destruct (IH (bind_emit (OutUDP request (mkAddrPort (Unmap a) (uwrap 16 port))) w) He) as (w' & a' & ? & ? & ? & ?).
    exists w', a'. split_and!; [done..|by right|done].
  - eexists _, a. split_and!; [done|done|by left|]. cbn. by rewrite last_snoc.
Qed.

Lemma recordDERPLatency_current now checkID regionID latency source b round : currentRound checkID b = Some round → regionID ≠ 0 → 0 < latency →
  ∃ round', currentRound checkID (recordDERPLatency now checkID regionID latency source b) = Some round' ∧
    rd_remaining round' = rd_remaining round ∧ ∃ metric, rd_latencies round' !! regionID = Some metric ∧ rl_Latency metric ≤ latency.
Proof.
  intros Hc Hr Hl. unfold recordDERPLatency. destruct (Z.eqb_spec regionID 0); [done|]. destruct (Z.leb_spec latency 0); [lia|]. cbn [orb].
  unfold currentRound in Hc |- *. destruct (b_derpCheck b) as [r|] eqn:Er; [|done]. cbn [mbind option_bind] in Hc.
  destruct (rd_id r =? checkID) eqn:Ei; [|done]. injection Hc as ->. cbn [negb].
  destruct (rd_latencies round !! regionID) as [previous|] eqn:Ep.
  - destruct (Z.leb_spec (rl_Latency previous) latency).
    + rewrite Er. cbn [mbind option_bind]. rewrite Ei. exists round. split_and!; [done..|]. by exists previous.
    + destruct b, round; cbn in *. rewrite Ei. eexists. split_and!; [done..|]. cbn. rewrite lookup_insert_eq. by eexists.
  - destruct b, round; cbn in *. rewrite Ei. eexists. split_and!; [done..|]. cbn. rewrite lookup_insert_eq. by eexists.
Qed.

Lemma completeSTUNProbe_current checkID b round : currentRound checkID b = Some round → 0 < rd_remaining round →
  ∃ round', currentRound checkID (completeSTUNProbe checkID b) = Some round' ∧ rd_latencies round' = rd_latencies round ∧
    rd_remaining round' = rd_remaining round - 1 ∧ (rd_remaining round = 1 → rd_stunDone round' = true).
Proof.
  intros Hc Hr. unfold completeSTUNProbe. unfold currentRound in Hc |- *. destruct (b_derpCheck b) as [r|] eqn:Er; [|done].
  cbn [mbind option_bind] in Hc. destruct (rd_id r =? checkID) eqn:Ei; [|done]. injection Hc as ->. cbn [negb].
  destruct (Z.eqb_spec (rd_remaining round) 0); [lia|]. cbn [orb]. unfold when.
  destruct b, round as [id full started targets remaining lat d]; cbn in *.
  destruct (Z.eqb_spec (remaining - 1) 0); cbn; rewrite Ei; eexists; split_and!; try done; intros; cbn in *; lia || done.
Qed.

(** C14. A STUN exchange: when one of the addresses of a region's node accepts the
    request, and a server answers that request with our mapped address in a
    well-formed response, the address becomes an endpoint of the transport, the
    round records a latency of the region no greater than the round trip, and
    one probe fewer is outstanding (the last one ends the wait). *)
Theorem stun_exchange now1 now2 udp lookup tx checkID regionID node addresses w round ap pre tail
    (port := if CDERPNode_STUNPort node =? 0 then 3478 else CDERPNode_STUNPort node)
    (attrs := concat (map (λ a, encodeAttr a.1 a.2) pre) ++ encodeAttr stunXORMapped (xorMappedValue tx ap) ++ tail)
    (Hround : currentRound checkID (bw_bind w) = Some round) (Hleft : 0 < rd_remaining round)
    (Hopen : b_open (bw_bind w) = true) (Hconn : b_conn (bw_bind w) = true) (Hport : 1 ≤ port ≤ 65535)
    (Haddr : stunAddresses lookup node = Some addresses)
    (Hsent : Exists (λ a, udp (stunRequest tx) (mkAddrPort (Unmap a) (uwrap 16 port)) = None) addresses)
    (Hregion : regionID ≠ 0) (Htime : 0 < time_sub now2 now1)
    (Hap : reportable ap) (Husable : usableAddrPort ap = true) (Hpre : Forall other_attr pre) (Hlen : Z.of_nat (length attrs) < 65536) :
  let w1 := querySTUN now1 udp lookup (Some tx) true checkID regionID node w in
  (∃ a, a ∈ addresses ∧ last (bw_out w1) = Some (OutUDP (stunRequest tx) (mkAddrPort (Unmap a) port))) ∧
  ∃ w2 round', handleSTUN now2 (encodeResponse tx attrs) w1 = Some (w2, true) ∧
    b_stun (bw_bind w2) !! ap = Some (mkEndpointCandidate ap EndpointSTUN) ∧
    currentRound checkID (bw_bind w2) = Some round' ∧ rd_remaining round' = rd_remaining round - 1 ∧
    (rd_remaining round = 1 → rd_stunDone round' = true) ∧
    ∃ metric, rd_latencies round' !! regionID = Some metric ∧ rl_Latency metric ≤ time_sub now2 now1.
Proof.
  cbv zeta. unfold querySTUN. cbv zeta. fold port.
  destruct (Z.ltb_spec port 1); [lia|]. destruct (Z.ltb_spec 65535 port); [lia|]. cbn [orb]. rewrite Haddr.
  destruct addresses as [|a0 addresses]; [by apply Exists_nil in Hsent|]. rewrite Hopen, Hconn. cbn [negb orb].
  set (w0 := on_bind_state _ w). destruct (writeFirst_sent udp (stunRequest tx) port (a0 :: addresses) w0 Hsent) as (w1 & a & Ew & Hb & Hin & Hlast).
  rewrite Ew. split. { exists a. split; [done|]. rewrite Hlast. do 3 f_equal. apply uwrap_small. lia. }
  assert (b_stunPending (bw_bind w1) !! tx = Some (mkstunProbe now1 checkID regionID) ∧ currentRound checkID (bw_bind w1) = Some round) as [Hp Hc].
  { rewrite Hb. destruct w as [[] ?]; cbn in *. by rewrite lookup_insert_eq. }
  clear Ew Hlast Hb w0. destruct (handleSTUN_answer now2 tx attrs ap (mkstunProbe now1 checkID regionID) w1) as (w2 & E2 & Hb2); [|done..|].
  { split; [done|]. by apply stunMapped_finds. }
  exists w2. cbn [sp_checkID sp_regionID sp_sent] in *. unfold stunAnswered in Hb2. cbn [sp_checkID sp_regionID sp_sent] in Hb2. cbv zeta in Hb2.
  set (b0 := bw_bind w1 <| b_stunPending := _ |>) in Hb2. assert (currentRound checkID b0 = Some round) as Hc0 by by destruct w1 as [[] ?].
  destruct (recordDERPLatency_current now2 checkID regionID (time_sub now2 now1) DERPLatencySTUN b0 round Hc0 Hregion Htime) as (r1 & Hr1 & Hrem1 & metric & Hm & Hle).
  destruct (completeSTUNProbe_current checkID _ r1 Hr1) as (r2 & Hr2 & Hl2 & Hrem2 & Hd2); [by rewrite Hrem1|].
  exists r2. rewrite Hb2. set (b2 := completeSTUNProbe _ _) in *. clearbody b2.
  split_and!; [done|destruct b2; cbn; by rewrite lookup_insert_eq|by destruct b2|by rewrite Hrem2, Hrem1|by rewrite <-Hrem1|].
  exists metric. by rewrite Hl2.
Qed.
End Preservation.

(** ** Examples *)

#[local] Existing Instance canonical_order.

Definition demo_derp_node (host : string) : CDERPNode := zeroCDERPNode <| CDERPNode_HostName := host |> <| CDERPNode_IPv4 := "192.0.2.1" |>.
Definition demo_region (id : Z) : option CDERPRegion :=
  Some (zeroCDERPRegion <| CDERPRegion_RegionID := id |> <| CDERPRegion_Nodes := Some [Some (demo_derp_node "derp.example")] |>).
Definition demo_derp_map : DERPMap :=
  mkDERPMap (Some (list_to_map (map (λ id, (id, demo_region id)) [1; 2; 3; 4; 5]))) false.

(** A transport in the middle of a check of five regions, home in region 5. *)
Definition demo_checking : BindWorld :=
  let b := newBindState (mkBindConfig (to_array 32 [x01]) (to_array 32 [x02]) false false) in
  kickDiscovery (100 * Second) (mkBindWorld (b <| b_open := true |> <| b_conn := true |> <| b_derpMap := Some demo_derp_map |> <| b_selfDERP := 5 |>) []).

Lemma roundTargets_spec_witness :
  let '(targets, full) := roundTargets (bw_bind demo_checking) false in has_region 5 targets ∧ (length targets ≤ 3)%nat.
Proof.
  pose proof (roundTargets_spec (bw_bind demo_checking) demo_derp_map false) as Hr. specialize (Hr ltac:(vm_compute; reflexivity)). cbv zeta in Hr.
  destruct (roundTargets (bw_bind demo_checking) false) as [targets full]. destruct Hr as ((Hl & _ & Hh) & _). split; [|exact Hl].
  assert (b_selfDERP (bw_bind demo_checking) = 5) as E5 by (vm_compute; reflexivity). rewrite E5 in Hh. apply Hh; [discriminate|].
  apply existsb_region. vm_compute. reflexivity.
Defined.

Lemma stun_exchange_witness :
  ∃ w2, handleSTUN (101 * Second) (encodeResponse (zero_array 12) (encodeAttr stunXORMapped (xorMappedValue (zero_array 12) (mkAddrPort (Addr4 167772161) 41641))))
      (querySTUN (100 * Second) (λ _ _, None) (λ _, None) (Some (zero_array 12)) true 1 1 (demo_derp_node "derp.example") demo_checking) = Some (w2, true) ∧
    b_stun (bw_bind w2) !! mkAddrPort (Addr4 167772161) 41641 = Some (mkEndpointCandidate (mkAddrPort (Addr4 167772161) 41641) EndpointSTUN).
Proof.
  assert (∃ round, currentRound 1 (bw_bind demo_checking) = Some round ∧ rd_remaining round = 5) as (round & Hr & Hrem).
  { eexists. split; vm_compute; reflexivity. }
  destruct (stun_exchange (100 * Second) (101 * Second) (λ _ _, None) (λ _, None) (zero_array 12) 1 1 (demo_derp_node "derp.example")
    [Addr4 3221225985] demo_checking round (mkAddrPort (Addr4 167772161) 41641) [] []) as (_ & w2 & r2 & Hh & Hs & _).
  - exact Hr.
  - lia.
  - vm_compute. reflexivity.
  - vm_compute. reflexivity.
  - vm_compute. split; discriminate.
  - vm_compute. reflexivity.
  - apply Exists_cons. left. reflexivity.
  - discriminate.
  - vm_compute. reflexivity.
  - unfold reportable. vm_compute. repeat split; discriminate.
  - vm_compute. reflexivity.
  - constructor.
  - vm_compute. reflexivity.
  - exists w2. split; [|exact Hs]. cbn [map concat app] in Hh. rewrite app_nil_r in Hh. exact Hh.
Defined.

Lemma reportDERPCheck_exact_witness :
  bw_bind (reportDERPCheck (102 * Second) 1 demo_checking) = bw_bind demo_checking <| b_derpLatency := ∅ |> <| b_derpCheck := None |>.
Proof.
  assert (netcheck_ok (bw_bind demo_checking)) as Hn.
  { unfold demo_checking. rewrite kickDiscovery_bind. apply startRound_ok, prune_ok. constructor; [split|..]; cbn; try done; apply map_Forall_empty. }
  pose proof (reportDERPCheck_exact (102 * Second) 1 demo_checking Hn) as He.
  assert (∃ round, currentRound 1 (bw_bind demo_checking) = Some round ∧ mergedLatency round (b_derpLatency (bw_bind demo_checking)) = ∅) as (round & Hr & Hm).
  { eexists. split; vm_compute; reflexivity. }
  rewrite Hr in He. destruct He as (regions & -> & _). cbn [bw_bind]. by rewrite Hm.
Defined.
