(* ===== verification/TransportOps.v ===== *)
(** * The operations of the transport ([internal/tailnet/bind.go])

    [Open], [Close], [Send], the peer and DERP map updates, the receive loop and
    the maintenance tick, as functions on the transport's world.

    A background goroutine belongs to the generation of the [Open] that started
    it; its context is cancelled by the [Close] that ends the generation. *)

From Stdlib Require Import ZArith Lia Ascii String Strings.Byte.
From S2P Require Export Netcheck.
Open Scope Z_scope.

Definition batchSize : nat := 1.
Definition inboundCapacity : nat := 256.

(** Errors of other packages, by name. *)
Definition ErrBindAlreadyOpen : error := ErrText "batchudp.ErrBindAlreadyOpen".
Definition ErrWrongEndpointType : error := ErrText "batchudp.ErrWrongEndpointType".
Definition ErrReadBufferTooShort : error := ErrText "batchudp.ErrReadBufferTooShort".
Definition ErrShortBuffer : error := ErrText "short buffer".
Definition ErrParse (what : string) : error := ErrText ("parse " +:+ what).

(** The rest of [tailnet.Config] that [NewBind] checks: whether there are a
    network and TLS settings. *)
Definition NewBind (haveNetwork haveTLS : bool) (cfg : BindConfig) : result error Bind :=
  if negb haveNetwork then Err (ErrText "tailnet: nil network")
  else if PrivateKey_IsZero (cfg_NodePrivate cfg) || PrivateKey_IsZero (cfg_DiscoPrivate cfg) then Err (ErrText "tailnet: zero identity key")
  else if negb haveTLS then Err (ErrText "tailnet: nil TLS config")
  else Ok (newBindState cfg).

(** ** Addresses *)

(** [addrPort] of a [net.Addr], given as what its [String] method returns. *)
Definition addrPort (addr : option string) : result error AddrPort :=
  match addr with
  | None => Err (ErrText "nil address")
  | Some s =>
      match ParseAddrPort s with
      | None => Err (ErrParse s)
      | Some value => Ok (unmapAddrPort value)
      end
  end.

(** [add] of [localEndpointsLocked], on the result so far. *)
Definition addLocal (port : Z) (result : list EndpointCandidate) (addr : Addr) : list EndpointCandidate :=
  let addr := Unmap addr in
  if negb (IsValid addr) || IsUnspecified addr || IsLoopback addr || IsMulticast addr || IsLinkLocalUnicast addr then result
  else
    let ap := mkAddrPort addr port in
    if bool_decide (ap ∈ map ec_Addr result) then result else result ++ [mkEndpointCandidate ap EndpointLocal].

(** The address of an interface: a prefix, or a bare address. *)
Definition ifaceAddr (text : string) : option Addr :=
  match ParsePrefix text with
  | Some prefix => Some (p_addr prefix)
  | None => ParseAddr text
  end.

(** [interfaces] is what the network reports: [None] when that fails, and [None]
    for an interface whose addresses cannot be read. *)
Definition localEndpointsLocked (interfaces : option (list (option (list string)))) (actual : AddrPort) : list EndpointCandidate :=
  let result := if IsValid (ap_addr actual) && negb (IsUnspecified (ap_addr actual)) then addLocal (ap_port actual) [] (ap_addr actual) else [] in
  let texts := concat (map (default []) (default [] interfaces)) in
  sort_func candidate_cmp (foldl (addLocal (ap_port actual)) result (omap ifaceAddr texts)).

Section Operations.
Context `{BoxOps} `{RangeOrder}.
Implicit Types w : BindWorld.

(** ** Opening and closing *)

(** [listen] is [Network.ListenUDP]: an error, or a socket with its local address. *)
Definition listenUDP (listen : string → result error (option string)) (port : Z) : result error (option string) :=
  match listen (JoinHostPort "::" (Itoa port)) with
  | Ok conn => Ok conn
  | Err ipv6Err =>
      match listen (JoinHostPort "0.0.0.0" (Itoa port)) with
      | Ok conn => Ok conn
      | Err ipv4Err => Err (ErrJoin ipv6Err ipv4Err)
      end
  end.

(** The new generation of [Open]. *)
Definition openState (now : Z) (interfaces : option (list (option (list string)))) (conn : bool) (actual : AddrPort) (b : Bind) : Bind :=
  let b := b <| b_generation := uwrap 64 (b_generation b + 1) |> <| b_conn := conn |> <| b_open := true |> <| b_closed := false |>
    <| b_localPort := ap_port actual |> <| b_inbound := [] |> <| b_stun := ∅ |> <| b_stunAt := ∅ |>
    <| b_stunPending := ∅ |> <| b_pending := ∅ |> in
  let b := reopenPeers now b in
  b <| b_local := if conn && negb (cfg_DisableDiscovery (b_cfg b)) then localEndpointsLocked interfaces actual else [] |>
    <| b_lastDERPCheck := 0 |> <| b_lastFullDERPCheck := 0 |> <| b_derpCheck := None |>.

Definition Open (now : Z) (interfaces : option (list (option (list string)))) (listen : string → result error (option string)) (port : Z) w
    : BindWorld * result error Z :=
  if b_open (bw_bind w) then (w, Err ErrBindAlreadyOpen)
  else
    let w := on_bind_state (λ b, b <| b_closed := false |>) w in
    let opened conn actual :=
      let w := on_bind_state (openState now interfaces conn actual) w in
      (kickDiscovery now (notifyEndpoints w), Ok (ap_port actual)) in
    match listenUDP listen port with
    | Err listenErr =>
        if cfg_DisableDERP (b_cfg (bw_bind w)) then (w, Err (ErrWrap "tailnet: open UDP bind" listenErr))
        else opened false zeroAddrPort
    | Ok local =>
        match addrPort local with
        | Err err => (bind_emit OutConnClose w, Err (ErrWrap "tailnet: local UDP address" err))
        | Ok actual => opened true actual
        end
    end.

(** [closeErr] is what closing the socket returns. *)
Definition Close (closeErr : option error) w : BindWorld * option error :=
  if negb (b_open (bw_bind w)) then (on_bind_state (λ b, b <| b_closed := true |>) w, None)
  else
    let conn := b_conn (bw_bind w) in
    let w := on_bind_state (λ b, b <| b_open := false |> <| b_closed := true |> <| b_conn := false |>) w in
    let w := bind_emit (OutDERPClose false) w in
    if conn then (bind_emit OutConnClose w, closeErr) else (w, None).

Definition Shutdown (closeErr : option error) w : BindWorld * option error :=
  let '(w, err) := Close closeErr w in (bind_emit (OutDERPClose true) w, err).

(** ** Endpoints of WireGuard *)

Definition ParseEndpoint (text : string) : result error logicalEndpoint :=
  if HasPrefix text "nodekey:" then
    match UnmarshalText "nodekey:" (zero_array 32) (bytes_of_string text) with
    | (_, Some err) => Err (ErrText err)
    | (key, None) => Ok (mklogicalEndpoint key zeroAddrPort)
    end
  else match CutPrefix text "udp:" with
       | Some rest =>
           match ParseAddrPort rest with
           | None => Err (ErrParse rest)
           | Some addr => Ok (mklogicalEndpoint (zero_array 32) (unmapAddrPort addr))
           end
       | None => Err (ErrText ("tailnet: unsupported endpoint " +:+ Quote text))
       end.

Definition DstToString (e : logicalEndpoint) : string :=
  if negb (key_IsZero (ep_node e)) then NodePublic_String (ep_node e) else "udp:" +:+ ap_string (ep_direct e).

Definition DstToBytes (e : logicalEndpoint) : list byte :=
  if negb (key_IsZero (ep_node e)) then AppendTo (ep_node e) [] else bytes_of_string (ap_string (ep_direct e)).

Definition DstIP (b : Bind) (e : logicalEndpoint) : Addr :=
  if ap_is_valid (ep_direct e) then ap_addr (ep_direct e)
  else match b_peers b !! ep_node e with
       | Some peer => if ap_is_valid (bp_direct peer) then ap_addr (bp_direct peer) else AddrZero
       | None => AddrZero
       end.

(** ** Sending *)

(** The outcome of [b.derp.send]. *)
Definition DERPSend : Type := Z → NodePublic → list byte → option error.

Fixpoint derpSendAll (derp : DERPSend) (region : Z) (node : NodePublic) (bufs : list (list byte)) w : BindWorld * option error :=
  match bufs with
  | [] => (w, None)
  | packet :: bufs =>
      let w := bind_emit (OutDERP region node packet) w in
      match derp region node packet with
      | Some e => (w, Some e)
      | None => derpSendAll derp region node bufs w
      end
  end.

(** The last resort of [Send]: the first candidate, after a failure [derpErr] of
    DERP.  Joining a nil error with another is the other. *)
Definition sendCandidate (now : Z) (udp : UDPWrite) (bufs : list (list byte)) (node : NodePublic) (candidates : list AddrPort)
    (derpErr : option error) (none : error) w : BindWorld * option error :=
  match candidates with
  | [] => (w, Some (default none derpErr))
  | candidate :: _ =>
      let '(w, err) := sendUDP udp bufs candidate w in
      match err with
      | Some e => (w, Some (match derpErr with Some d => ErrJoin d e | None => e end))
      | None => (emitPath node true candidate 0 now w, None)
      end
  end.

(** [Send] once the peer's paths have been read: the direct path, then DERP, then
    the first candidate. *)
Definition sendPeer (now : Z) (udp : UDPWrite) (derp : DERPSend) (bufs : list (list byte)) (node : NodePublic)
    (direct : AddrPort) (candidates : list AddrPort) (homeDERP : Z) (wgOnly : bool) w : BindWorld * option error :=
  let '(w, sent) :=
    if ap_is_valid direct then let '(w, err) := sendUDP udp bufs direct w in (w, bool_decide (err = None)) else (w, false) in
  if sent then (w, None)
  else if wgOnly then sendCandidate now udp bufs node candidates None (ErrText "tailnet: WireGuard-only peer has no direct endpoint") w
  else
    let none := ErrText "tailnet: no usable direct or DERP path" in
    if negb (cfg_DisableDERP (b_cfg (bw_bind w))) && negb (homeDERP =? 0) then
      let '(w, derpErr) := derpSendAll derp homeDERP node bufs w in
      match derpErr with
      | None => (emitPath node false zeroAddrPort 0 now w, None)
      | Some _ => sendCandidate now udp bufs node candidates derpErr none w
      end
    else sendCandidate now udp bufs node candidates None none w.

(** [endpoint] is [None] for an endpoint of another transport. *)
Definition Send (now : Z) (udp : UDPWrite) (derp : DERPSend) (rands : nat → ProbeRand) (nonce : option (array 24))
    (bufs : list (list byte)) (endpoint : option logicalEndpoint) w : BindWorld * option error :=
  match endpoint with
  | None => (w, Some ErrWrongEndpointType)
  | Some ep =>
      if (batchSize <? length bufs)%nat
      then (w, Some (ErrText ("tailnet: send batch " +:+ Itoa (Z.of_nat (length bufs)) +:+ " exceeds " +:+ Itoa (Z.of_nat batchSize))))
      else if ap_is_valid (ep_direct ep) then sendUDP udp bufs (ep_direct ep) w
      else match b_peers (bw_bind w) !! ep_node ep with
           | None => (w, Some (ErrText "tailnet: unknown peer"))
           | Some peer =>
               let direct := if ap_is_valid (bp_direct peer) && (2 * Minute <? time_sub now (bp_directAt peer)) then zeroAddrPort else bp_direct peer in
               let shouldProbe := negb (cfg_DisableDiscovery (b_cfg (bw_bind w))) && (5 * Second <=? time_sub now (bp_lastProbe peer)) in
               if negb (b_open (bw_bind w)) then (w, Some ErrNetClosed)
               else
                 let w := when shouldProbe (probePeer now udp rands nonce (ep_node ep)) w in
                 sendPeer now udp derp bufs (ep_node ep) direct (bp_candidates peer) (pc_HomeDERP (bp_config peer)) (pc_WireGuardOnly (bp_config peer)) w
           end
  end.

(** ** Updates from the client *)

Definition UpdatePeer (now : Z) (udp : UDPWrite) (rands : nat → ProbeRand) (nonce : option (array 24)) (config : PeerConfig) w : BindWorld :=
  match updatePeerLocked config (bw_bind w) with
  | None => w
  | Some b =>
      let w := mkBindWorld b (bw_out w) in
      when (negb (cfg_DisableDiscovery (b_cfg b))) (probePeer now udp rands nonce (pc_NodeKey config)) w
  end.

(** The package's own copy of the client's function. *)
Definition tailnetCloneDERPMap (derpMap : option DERPMap) : option DERPMap := cloneDERPMap derpMap.

Definition UpdateDERPMap (now : Z) (derpMap : option DERPMap) (selfHome : Z) w : BindWorld :=
  let copyMap := tailnetCloneDERPMap derpMap in
  if (b_selfDERP (bw_bind w) =? selfHome) && bool_decide (b_derpMap (bw_bind w) = copyMap) then w
  else
    let w := on_bind_state (λ b, b <| b_derpMap := copyMap |> <| b_selfDERP := selfHome |>) w in
    let w := bind_emit (OutDERPMap copyMap) w in
    let w := when (negb (cfg_DisableDERP (b_cfg (bw_bind w))) && negb (selfHome =? 0)) (bind_emit (OutEnsureDERP selfHome)) w in
    kickDiscovery now w.

(** ** Background work *)

(** One peer of the loop of [maintain]. *)
Definition prunePeer (now : Z) (b : Bind) (key : NodePublic) : Bind :=
  match b_peers b !! key with
  | None => b
  | Some state =>
      let '(state, byAddr, _) := pruneLearned key now state (b_byAddr b) in
      b <| b_peers := <[key := state]> (b_peers b) |> <| b_byAddr := byAddr |>
  end.

(** [local] is the socket's address. *)
Definition refreshLocalEndpoints (interfaces : option (list (option (list string)))) (local : option string) (generation : Z) w : BindWorld :=
  let b := bw_bind w in
  if cfg_DisableDiscovery (b_cfg b) then w
  else if negb (b_open b) || negb (b_generation b =? generation) || negb (b_conn b) then w
  else match addrPort local with
       | Err _ => w
       | Ok actual =>
           let endpoints := localEndpointsLocked interfaces actual in
           if bool_decide (b_local b = endpoints) then w
           else notifyEndpoints (on_bind_state (λ b, b <| b_local := endpoints |>) w)
       end.

(** One tick of [maintain]; [false] when the goroutine ends. *)
Definition maintainTick (now : Z) (udp : UDPWrite) (rands : NodePublic → nat → ProbeRand) (nonces : NodePublic → option (array 24))
    (interfaces : option (list (option (list string)))) (local : option string) (generation : Z) w : BindWorld * bool :=
  if negb (b_generation (bw_bind w) =? generation) || negb (b_open (bw_bind w)) then (w, false)
  else
    let selfDERP := b_selfDERP (bw_bind w) in
    let keys := map fst (range 24 (b_peers (bw_bind w))) in
    let w := on_bind_state (λ b, foldl (prunePeer now) b keys) w in
    let w := refreshLocalEndpoints interfaces local generation w in
    let w := kickDiscovery now w in
    let w := foldl (λ w key, probePeer now udp (rands key) (nonces key) key w) w keys in
    (when (negb (cfg_DisableDERP (b_cfg (bw_bind w))) && negb (selfDERP =? 0)) (bind_emit (OutEnsureDERP selfDERP)) w, true).

(** A packet for WireGuard; it is dropped when the queue is full. *)
Definition deliver (packet : inboundPacket) (b : Bind) : Bind :=
  if (length (b_inbound b) <? inboundCapacity)%nat then b <| b_inbound := b_inbound b ++ [packet] |> else b.

(** One packet of [readUDP], read from the socket of [generation]; [false] when
    the loop ends.  [None] is a panic. *)
Definition readUDP (now : Z) (udp : UDPWrite) (rands : nat → ProbeRand) (nonce : option (array 24)) (generation : Z)
    (packet : list byte) (source : AddrPort) w : option (BindWorld * bool) :=
  let source := unmapAddrPort source in
  match handleSTUN now packet w with
  | None => None
  | Some (w, true) => Some (w, true)
  | Some (w, false) =>
      match (if negb (cfg_DisableDiscovery (b_cfg (bw_bind w)))
             then handleDisco now udp rands nonce packet source (zero_array 32) false w else Some (w, false)) with
      | None => None
      | Some (w, true) => Some (w, true)
      | Some (w, false) =>
          if negb (b_generation (bw_bind w) =? generation) || negb (b_open (bw_bind w)) then Some (w, false)
          else
            let endpoint := match b_byAddr (bw_bind w) !! source with
              | Some node => mklogicalEndpoint node zeroAddrPort
              | None => mklogicalEndpoint (zero_array 32) source
              end in
            Some (on_bind_state (deliver (mkinboundPacket packet endpoint)) w, true)
      end
  end.

Definition handleDERPPacket (now : Z) (udp : UDPWrite) (rands : nat → ProbeRand) (nonce : option (array 24))
    (source : NodePublic) (data : list byte) w : option BindWorld :=
  match handleDisco now udp rands nonce data zeroAddrPort source true w with
  | None => None
  | Some (w, true) => Some w
  | Some (w, false) =>
      if negb (b_open (bw_bind w)) || bool_decide (b_peers (bw_bind w) !! source = None) then Some w
      else Some (on_bind_state (deliver (mkinboundPacket data (mklogicalEndpoint source zeroAddrPort))) w)
  end.

(** The receive function of [Open] with buffers of the given lengths; [canceled]
    when the closed context is seen first.  [None] when it blocks. *)
Definition receiveFunc (packets sizes eps : list nat) (canceled : bool) (b : Bind) : option (Bind * result error inboundPacket) :=
  match packets, sizes, eps with
  | buffer :: _, _ :: _, _ :: _ =>
      if canceled then Some (b, Err ErrNetClosed)
      else match b_inbound b with
           | [] => None
           | packet :: rest =>
               let b := b <| b_inbound := rest |> in
               if (buffer <? length (ip_data packet))%nat then Some (b, Err ErrShortBuffer) else Some (b, Ok packet)
           end
  | _, _, _ => Some (b, Err ErrReadBufferTooShort)
  end.
End Operations.
