(* ===== verification/TransportInv.v ===== *)
(** * The invariant of the transport

    The steps of the transport and its background goroutines, in any order,
    keep the indexes consistent, the latency checks within their limits and the
    queue of received packets bounded. *)

From Stdlib Require Import ZArith Lia Ascii String Strings.Byte.
From S2P Require Export TransportOps.
Open Scope Z_scope.

Record bind_inv (b : Bind) : Prop := {
  bi_index : index_ok b;
  bi_netcheck : netcheck_ok b;
  bi_inbound : (length (b_inbound b) ≤ inboundCapacity)%nat;
  bi_conn : b_conn b = true → b_open b = true
}.

(** What the peers and their indexes have nothing to do with, and the converse. *)
Definition rest_view (b : Bind) := (netcheck_view b, (b_inbound b, b_open b, b_conn b)).
Definition main_view (b : Bind) := (index b, (b_inbound b, b_open b, b_conn b)).

Lemma inv_rest b b' : index_ok b' → rest_view b' = rest_view b → bind_inv b → bind_inv b'.
Proof.
  intros Hi E [_ Hn Hin Hc]. 
  pose proof (f_equal fst E) as E1. pose proof (f_equal snd E) as E'. injection E' as E2 E3 E4. cbn [fst rest_view] in E1.
  constructor; rewrite ?E2, ?E3, ?E4; [done| |done|done].
  by apply (netcheck_ok_same b).
Qed.

Lemma inv_main b b' : netcheck_ok b' → main_view b' = main_view b → bind_inv b → bind_inv b'.
Proof.
  intros Hn E [Hi _ Hin Hc]. 
  pose proof (f_equal fst E) as E1. pose proof (f_equal snd E) as E'. injection E' as E2 E3 E4. cbn [fst main_view] in E1.
  constructor; rewrite ?E2, ?E3, ?E4; [|done..].
  by apply (index_ok_same b).
Qed.

Lemma inv_bind_new cfg : bind_inv (newBindState cfg).
Proof.
  constructor; [constructor|constructor| |done]; cbn.
  - apply map_Forall_empty.
  - intros a k Hk. by rewrite lookup_empty in Hk.
  - intros a k Hk. by rewrite lookup_empty in Hk.
  - split; [done|apply map_Forall_empty].
  - apply map_Forall_empty.
  - done.
  - lia.
Qed.

Section Invariant.
Context `{BoxOps} `{RangeOrder}.
Implicit Types w : BindWorld.

(** ** Frames *)

Lemma rest_dropAddr key a b : rest_view (dropAddr key a b) = rest_view b.
Proof. unfold dropAddr. destruct (addrOwnedBy _ _ _); by destruct b. Qed.

Lemma rest_setDirect now node addr latency w : rest_view (bw_bind (setDirect now node addr latency w)) = rest_view (bw_bind w).
Proof.
  unfold setDirect. cbv zeta. destruct (negb _); [done|]. destruct (b_peers (bw_bind w) !! node) as [p|]; [|done].
  set (drop := _ && _ && _). unfold when.
  assert (∀ b p', rest_view (claimAddr node (unmapAddrPort addr) (b <| b_peers := p' |>)) = rest_view b) as Hc by by intros [] ?.
  destruct (_ || _); cbn; rewrite Hc; destruct drop; rewrite ?rest_dropAddr; done.
Qed.

Lemma rest_probePeer now udp rands nonce node w : rest_view (bw_bind (probePeer now udp rands nonce node w)) = rest_view (bw_bind w).
Proof. destruct (probePeer_bind now udp rands nonce node w) as [->|(p & pending & _ & _ & ->)]; [done|]. by destruct (bw_bind w). Qed.

Lemma rest_addLearned node fresh now b : rest_view (addLearnedCandidatesLocked node fresh now b).1 = rest_view b.
Proof.
  unfold addLearnedCandidatesLocked. destruct (b_peers b !! node); [|done]. destruct (pruneLearned _ _ _ _) as [[? ?] ?].
  destruct (foldl _ _ _) as [[? ?] ?]. by destruct b.
Qed.

Lemma rest_handleDisco now udp rands nonce packet source derpSource viaDERP w w' r :
  handleDisco now udp rands nonce packet source derpSource viaDERP w = Some (w', r) → rest_view (bw_bind w') = rest_view (bw_bind w).
Proof.
  unfold handleDisco. intros E. destruct (openDiscoPacket _ _ _ _) as [opened|]; [|done]. cbn [mbind option_bind] in E.
  destruct opened as [| |node sender cleartext]; [by injection E as <- <-..|].
  destruct (cleartext !! 0%nat) as [kind|]; [|done]. cbn [mbind option_bind] in E.
  destruct (if bool_decide (kind = discoPing) then _ else _) as [w1|] eqn:E1; [|done]. injection E as <- <-.
  destruct (bool_decide (kind = discoPing)).
  { unfold handlePing in E1. destruct (_ || _ || _); [by injection E1 as <-|].
    destruct (if (46 <=? _)%nat then _ else _) as [claimed|]; [|done]. cbn [mbind option_bind] in E1.
    destruct (match claimed with Some _ => _ | None => _ end); [by injection E1 as <-|].
    destruct (subslice 2 14 cleartext); [|done]. cbn [mbind option_bind] in E1. cbv zeta in E1.
    destruct (wrapDisco _ _ _ _); injection E1 as <-; rewrite ?sendUDP_bind; apply rest_setDirect. }
  destruct (bool_decide (kind = discoPong)).
  { unfold handlePong in E1. destruct (_ || _ || _); [by injection E1 as <-|].
    destruct (subslice 2 14 cleartext); [|done]. cbn [mbind option_bind] in E1. cbv zeta in E1.
    destruct (_ !! _) as [pending|]; [|by injection E1 as <-].
    destruct (bool_decide _); injection E1 as <-; rewrite ?rest_setDirect; by destruct w as [[] ?]. }
  destruct (bool_decide (kind = discoCallMe)); [|by injection E1 as <-].
  unfold handleCallMe in E1. destruct (_ || _ || _); [by injection E1 as <-|].
  destruct (subslice 2 _ cleartext) as [data|]; [|done]. cbn [mbind option_bind] in E1.
  destruct (callMeLoop _ data []) as [fresh|]; [|done]. cbn [mbind option_bind] in E1.
  destruct (bool_decide _); [by injection E1 as <-|]. pose proof (rest_addLearned node fresh now (bw_bind w)) as Hl.
  destruct (addLearnedCandidatesLocked node fresh now (bw_bind w)) as [b changed]. injection E1 as <-. cbn [fst] in Hl.
  unfold when. destruct changed; [by rewrite rest_probePeer|done].
Qed.

Lemma rest_foldl {A} (f : Bind → A → Bind) l : (∀ b x, rest_view (f b x) = rest_view b) → ∀ b, rest_view (foldl f b l) = rest_view b.
Proof. intros Hf. induction l as [|x l IH]; intros b; cbn; [done|]. by rewrite IH, Hf. Qed.

Lemma rest_claimAddr key a b : rest_view (claimAddr key a b) = rest_view b.
Proof. by destruct b. Qed.

Lemma rest_updatePeer config b b' : updatePeerLocked config b = Some b' → rest_view b' = rest_view b.
Proof.
  unfold updatePeerLocked. cbv zeta. destruct (match _ with Some _ => _ | None => _ end); [done|].
  rewrite dropAddrs_eq, claimAddrs_eq, dropAddr_eq. unfold when. destruct b; cbn.
  destruct (ap_is_valid _); cbn; [destruct (bool_decide _); cbn|];
    (destruct (negb (key_IsZero _)); cbn; destruct (negb (key_IsZero _)); cbn; intros [= <-]; reflexivity).
Qed.

Lemma rest_RemovePeer key b : rest_view (RemovePeer key b) = rest_view b.
Proof.
  unfold RemovePeer. cbv zeta. destruct (b_peers b !! key) as [p|]; [|by destruct b].
  unfold when. rewrite dropAddrs_eq, dropAddr_eq. destruct (ap_is_valid _); by destruct b.
Qed.

Lemma rest_reopen now b : rest_view (reopenPeers now b) = rest_view b.
Proof.
  unfold reopenPeers. rewrite rest_foldl; [by destruct b|]. clear b. intros b key. unfold reopenPeer. destruct (b_peers b !! key); [|done].
  destruct (pruneLearned _ _ _ _) as [[p1 byAddr1] pruned]. cbv zeta. rewrite rest_foldl; [by destruct b|]. intros. apply rest_claimAddr.
Qed.

Lemma rest_prunePeer now b key : rest_view (prunePeer now b key) = rest_view b.
Proof. unfold prunePeer. destruct (b_peers b !! key); [|done]. destruct (pruneLearned _ _ _ _) as [[? ?] ?]. by destruct b. Qed.

Lemma main_completeSTUNProbe checkID b : main_view (completeSTUNProbe checkID b) = main_view b.
Proof. unfold completeSTUNProbe. destruct (b_derpCheck b); [|done]. destruct (_ || _); [done|]. by destruct b. Qed.

Lemma main_recordDERPLatency now checkID regionID latency source b : main_view (recordDERPLatency now checkID regionID latency source b) = main_view b.
Proof.
  unfold recordDERPLatency. destruct (_ || _); [done|]. destruct (b_derpCheck b); [|done]. destruct (negb _); [done|].
  destruct (match _ with Some _ => _ | None => _ end); [done|]. by destruct b.
Qed.

Lemma main_startRound now b : main_view (startRound now b).1 = main_view b.
Proof.
  unfold startRound. destruct (_ || _ || _); [done|]. destruct (roundTargets _ _) as [targets full].
  destruct (bool_decide _); [by destruct b|]. unfold when. destruct (fullRequested _ _); by destruct b.
Qed.

Lemma main_prune now b : main_view (pruneSTUNEndpointsLocked now b).1 = main_view b.
Proof. unfold pruneSTUNEndpointsLocked. by destruct b. Qed.

(** ** Preservation, one operation at a time *)

Lemma inv_probePeer now udp rands nonce node w : bind_inv (bw_bind w) → bind_inv (bw_bind (probePeer now udp rands nonce node w)).
Proof. intros Hb. eapply inv_rest; [|apply rest_probePeer|done]. by apply index_probePeer, (bi_index _ Hb). Qed.

Lemma inv_kickDiscovery now w : bind_inv (bw_bind w) → bind_inv (bw_bind (kickDiscovery now w)).
Proof.
  intros Hb. rewrite kickDiscovery_bind. destruct (_ && _); [done|]. eapply inv_main; [|by rewrite main_startRound, main_prune|done].
  by apply startRound_ok, prune_ok, (bi_netcheck _ Hb).
Qed.

Lemma inv_stunPending b pending : bind_inv b → bind_inv (b <| b_stunPending := pending |>).
Proof. intros Hb. apply (inv_main b); [|by destruct b|done]. apply (netcheck_ok_same b); [by destruct b|apply (bi_netcheck _ Hb)]. Qed.

Lemma inv_completeSTUNProbe checkID b : bind_inv b → bind_inv (completeSTUNProbe checkID b).
Proof. intros Hb. eapply inv_main; [|apply main_completeSTUNProbe|done]. by apply completeSTUNProbe_ok, (bi_netcheck _ Hb). Qed.

Lemma inv_recordDERPLatency now checkID regionID latency source b : bind_inv b → bind_inv (recordDERPLatency now checkID regionID latency source b).
Proof. intros Hb. eapply inv_main; [|apply main_recordDERPLatency|done]. by apply recordDERPLatency_ok, (bi_netcheck _ Hb). Qed.

Lemma inv_querySTUN now udp lookup rand sameCtx checkID regionID node w : bind_inv (bw_bind w) →
  bind_inv (bw_bind (querySTUN now udp lookup rand sameCtx checkID regionID node w)).
Proof.
  intros Hb. destruct (querySTUN_bind now udp lookup rand sameCtx checkID regionID node w) as (pending & [->| ->]).
  - by apply inv_stunPending.
  - by apply inv_completeSTUNProbe, inv_stunPending.
Qed.

Lemma inv_handleSTUN now packet w w' r : handleSTUN now packet w = Some (w', r) → bind_inv (bw_bind w) → bind_inv (bw_bind w').
Proof.
  intros E Hb. destruct (handleSTUN_cases now packet w) as (w1 & r1 & E1 & Hc). rewrite E in E1. injection E1 as <- <-.
  destruct Hc as [->|(_ & tx & attrs & probe & mapped & _ & _ & _ & ->)]; [done|]. destruct (usableAddrPort mapped) eqn:Eu.
  - apply (inv_main (bw_bind w)); [by apply stunAnswered_ok, (bi_netcheck _ Hb)| |done].
    unfold stunAnswered. cbv zeta. set (b1 := completeSTUNProbe _ _). transitivity (main_view b1); [by destruct b1|]. unfold b1.
    rewrite main_completeSTUNProbe, main_recordDERPLatency. by destruct w as [[] ?].
  - by apply inv_completeSTUNProbe, inv_stunPending.
Qed.

Lemma inv_reportDERPCheck now checkID w : bind_inv (bw_bind w) → bind_inv (bw_bind (reportDERPCheck now checkID w)).
Proof.
  intros Hb. pose proof (bi_netcheck _ Hb) as Hn. destruct (currentRound checkID (bw_bind w)) as [round|] eqn:Ec.
  2: { unfold reportDERPCheck. by rewrite Ec. }
  rewrite (reportDERPCheck_bind _ _ _ round) by done. assert (latency_ok (rd_latencies round)) as Hl.
  { unfold currentRound in Ec. destruct (b_derpCheck (bw_bind w)) as [r|] eqn:Er; [|done]. cbn [mbind option_bind] in Ec.
    destruct (_ =? _); [|done]. injection Ec as <-. apply (ro_latencies _ _ (nc_round _ Hn _ Er)). }
  apply (inv_main (bw_bind w)); [|by destruct (bw_bind w)|done]. destruct Hn as [Hs Hk Hr]. pose proof (mergedLatency_ok _ _ Hl Hk) as Hm.
  destruct (bw_bind w); cbn in *. by constructor.
Qed.

Lemma inv_finishDERPCheck now checkID canceled measure arrange w : bind_inv (bw_bind w) →
  bind_inv (bw_bind (finishDERPCheck now checkID canceled measure arrange w)).
Proof.
  intros Hb. unfold finishDERPCheck. destruct canceled; [done|]. destruct (currentRound _ _); [|done]. cbv zeta. apply inv_reportDERPCheck. cbn.
  apply foldl_preserves; [done|]. intros target b _ Hb'. destruct (measure <$> tg_https target) as [[latency|]|]; [|done..].
  by apply inv_recordDERPLatency.
Qed.

Lemma inv_deliver packet b : bind_inv b → bind_inv (deliver packet b).
Proof.
  intros Hb. unfold deliver. destruct (Nat.ltb_spec (length (b_inbound b)) inboundCapacity) as [Hl|]; [|done]. destruct Hb as [Hi Hn Hin Hc].
  constructor; [apply (index_ok_same b); [by destruct b|done]|apply (netcheck_ok_same b); [by destruct b|done]| |by destruct b].
  destruct b; cbn in *. rewrite length_app. cbn. lia.
Qed.

Lemma inv_handleDisco now udp rands nonce packet source derpSource viaDERP w w' r :
  handleDisco now udp rands nonce packet source derpSource viaDERP w = Some (w', r) → bind_inv (bw_bind w) → bind_inv (bw_bind w').
Proof. intros E Hb. eapply inv_rest; [|by eapply rest_handleDisco|done]. by eapply index_handleDisco, (bi_index _ Hb). Qed.

Lemma inv_readUDP now udp rands nonce generation packet source w w' r :
  readUDP now udp rands nonce generation packet source w = Some (w', r) → bind_inv (bw_bind w) → bind_inv (bw_bind w').
Proof.
  intros E Hb. unfold readUDP in E. destruct (handleSTUN now packet w) as [[w1 [|]]|] eqn:E1; [injection E as <- <-| |done].
  { by eapply inv_handleSTUN. }
  assert (bind_inv (bw_bind w1)) as Hb1 by by eapply inv_handleSTUN.
  destruct (if negb _ then _ else _) as [[w2 [|]]|] eqn:E2; [injection E as <- <-| |done]; (assert (bind_inv (bw_bind w2)) as Hb2
    by (destruct (negb _); [by eapply inv_handleDisco|by injection E2 as <-])); [done|].
  destruct (_ || _); injection E as <- <-; [done|]. by apply inv_deliver.
Qed.

Lemma inv_handleDERPPacket now udp rands nonce source data w w' :
  handleDERPPacket now udp rands nonce source data w = Some w' → bind_inv (bw_bind w) → bind_inv (bw_bind w').
Proof.
  intros E Hb. unfold handleDERPPacket in E. destruct (handleDisco _ _ _ _ _ _ _ _ _) as [[w1 [|]]|] eqn:E1; [injection E as <-| |done];
    (assert (bind_inv (bw_bind w1)) as Hb1 by by eapply inv_handleDisco); [done|].
  destruct (_ || _); injection E as <-; [done|]. by apply inv_deliver.
Qed.

Lemma index_prunePeer now b key : index_ok b → index_ok (prunePeer now b key).
Proof.
  intros [Hp Ha Hd]. unfold prunePeer. destruct (b_peers b !! key) as [p|] eqn:Ep; [|done].
  pose proof (map_Forall_lookup_1 _ _ _ _ Hp Ep) as Hpp. pose proof (pruneLearned_ok key now p (b_byAddr b) Hpp) as Hpr.
  destruct (pruneLearned key now p (b_byAddr b)) as [[p1 byAddr1] pruned]. destruct Hpr as (Hp1 & Hcfg & _ & _ & Hown).
  destruct b as [cfg op cl conn inb lport local stun stunAt peers byDisco byAddr pend spend dmap self gen ldc lfdc dcid dchk dlat]. cbn in *.
  constructor; cbn.
  - by apply peers_ok_set.
  - apply (addr_ok_set _ byAddr); [done|]. intros a k Hk. destruct (Hown a k Hk) as [Hold Hkeep].
    destruct (decide (k = key)) as [->|]; [|done]. apply Hkeep; [done|]. by eapply addr_ok_owns.
  - eapply disco_ok_same; [done|done|]. by rewrite Hcfg.
Qed.

Lemma inv_openState now interfaces conn actual b : bind_inv b → bind_inv (openState now interfaces conn actual b).
Proof.
  intros Hb. unfold openState. cbv zeta. set (b0 := b <| b_generation := _ |> <| b_conn := _ |> <| b_open := _ |> <| b_closed := _ |>
    <| b_localPort := _ |> <| b_inbound := _ |> <| b_stun := _ |> <| b_stunAt := _ |> <| b_stunPending := _ |> <| b_pending := _ |>).
  assert (index_ok b0) as Hi0 by (apply (index_ok_same b); [by destruct b|apply (bi_index _ Hb)]).
  assert (b_stun b0 = ∅ ∧ b_stunAt b0 = ∅ ∧ latency_ok (b_derpLatency b0) ∧ b_inbound b0 = [] ∧ b_open b0 = true) as (Es & Ea & El & Ei & Eo).
  { destruct Hb as [_ [_ Hl _] _ _]. by destruct b. }
  clearbody b0. pose proof (index_reopen now b0 Hi0) as Hi1. pose proof (rest_reopen now b0) as Hr1. set (b1 := reopenPeers now b0) in *.
  clearbody b1. pose proof (f_equal fst Hr1) as E1. pose proof (f_equal snd Hr1) as E2. injection E2 as E2 E3 E4. injection E1 as E5 E6 E7 E8 E9 E10.
  constructor.
  - apply (index_ok_same b1); [by destruct b1|done].
  - rewrite <-E7 in El. rewrite Es in E5. rewrite Ea in E6. destruct b1; cbn in *. constructor; cbn; [|done|done]. subst. split; [done|apply map_Forall_empty].
  - rewrite Ei in E2. destruct b1; cbn in *. rewrite E2. cbn. lia.
  - rewrite Eo in E3. by destruct b1.
Qed.

Lemma inv_closed b flag : bind_inv b → bind_inv (b <| b_closed := flag |>).
Proof. intros Hb. apply (inv_main b); [|by destruct b|done]. apply (netcheck_ok_same b); [by destruct b|apply (bi_netcheck _ Hb)]. Qed.

Lemma inv_Open now interfaces listen port w : bind_inv (bw_bind w) → bind_inv (bw_bind (Open now interfaces listen port w).1).
Proof.
  intros Hb. unfold Open. destruct (b_open (bw_bind w)); [done|]. cbv zeta. set (w1 := on_bind_state _ w).
  assert (bind_inv (bw_bind w1)) as Hb1 by by apply inv_closed. clearbody w1.
  destruct (listenUDP listen port) as [local|e].
  - destruct (addrPort local) as [actual|]; [|done]. apply inv_kickDiscovery. by apply inv_openState.
  - destruct (cfg_DisableDERP _); [done|]. apply inv_kickDiscovery. by apply inv_openState.
Qed.

Lemma inv_bind_Close closeErr w : bind_inv (bw_bind w) → bind_inv (bw_bind (Close closeErr w).1).
Proof.
  intros Hb. unfold Close. destruct (b_open (bw_bind w)) eqn:Eo; cbn [negb]; [|by apply inv_closed].
  assert (bind_inv (bw_bind w <| b_open := false |> <| b_closed := true |> <| b_conn := false |>)) as Hb1.
  { destruct Hb as [Hi Hn Hin Hc]. constructor; [apply (index_ok_same (bw_bind w)); [by destruct (bw_bind w)|done]|
      apply (netcheck_ok_same (bw_bind w)); [by destruct (bw_bind w)|done]|by destruct (bw_bind w)|by destruct (bw_bind w)]. }
  by destruct (b_conn (bw_bind w)).
Qed.

Lemma sendCandidate_bind now udp bufs node candidates derpErr none w : bw_bind (sendCandidate now udp bufs node candidates derpErr none w).1 = bw_bind w.
Proof.
  unfold sendCandidate. destruct candidates as [|c candidates]; [done|]. pose proof (sendUDP_bind udp bufs c w) as Hb.
  destruct (sendUDP udp bufs c w) as [w1 [e|]]; done.
Qed.

Lemma derpSendAll_bind derp region node bufs : ∀ w, bw_bind (derpSendAll derp region node bufs w).1 = bw_bind w.
Proof. induction bufs as [|p bufs IH]; intros w; cbn; [done|]. destruct (derp region node p); [done|]. by rewrite IH. Qed.

Lemma sendPeer_bind now udp derp bufs node direct candidates homeDERP wgOnly w :
  bw_bind (sendPeer now udp derp bufs node direct candidates homeDERP wgOnly w).1 = bw_bind w.
Proof.
  unfold sendPeer. set (r := if ap_is_valid direct then _ else _). assert (bw_bind r.1 = bw_bind w) as Hr.
  { unfold r. destruct (ap_is_valid direct); [|done]. pose proof (sendUDP_bind udp bufs direct w). by destruct (sendUDP udp bufs direct w). }
  destruct r as [w1 [|]]; [done|]. cbn [fst] in Hr. destruct wgOnly; [by rewrite sendCandidate_bind|].
  destruct (_ && _); [|by rewrite sendCandidate_bind]. pose proof (derpSendAll_bind derp homeDERP node bufs w1) as Hd.
  destruct (derpSendAll derp homeDERP node bufs w1) as [w2 [e|]]; cbn [fst] in Hd; [by rewrite sendCandidate_bind, Hd|]. cbn. by rewrite Hd.
Qed.

Lemma inv_Send now udp derp rands nonce bufs endpoint w : bind_inv (bw_bind w) → bind_inv (bw_bind (Send now udp derp rands nonce bufs endpoint w).1).
Proof.
  intros Hb. unfold Send. destruct endpoint as [ep|]; [|done]. destruct (_ <? _)%nat; [done|].
  destruct (ap_is_valid _); [by rewrite sendUDP_bind|]. destruct (b_peers _ !! _) as [peer|]; [|done]. destruct (negb _); [done|].
  rewrite sendPeer_bind. unfold when. destruct (_ && _); [by apply inv_probePeer|done].
Qed.

Lemma inv_UpdatePeer now udp rands nonce config w : bind_inv (bw_bind w) → bind_inv (bw_bind (UpdatePeer now udp rands nonce config w)).
Proof.
  intros Hb. unfold UpdatePeer. destruct (updatePeerLocked config (bw_bind w)) as [b|] eqn:E; [|done].
  assert (bind_inv b) as Hb'. { eapply inv_rest; [|by eapply rest_updatePeer|done]. by eapply index_updatePeer, (bi_index _ Hb). }
  unfold when. destruct (negb _); [by apply inv_probePeer|done].
Qed.

Lemma inv_RemovePeer key b : bind_inv b → bind_inv (RemovePeer key b).
Proof. intros Hb. eapply inv_rest; [|apply rest_RemovePeer|done]. by apply index_RemovePeer, (bi_index _ Hb). Qed.

Lemma inv_UpdateDERPMap now derpMap selfHome w : bind_inv (bw_bind w) → bind_inv (bw_bind (UpdateDERPMap now derpMap selfHome w)).
Proof.
  intros Hb. unfold UpdateDERPMap. cbv zeta. destruct (_ && _); [done|]. apply inv_kickDiscovery. unfold when.
  assert (bind_inv (bw_bind w <| b_derpMap := tailnetCloneDERPMap derpMap |> <| b_selfDERP := selfHome |>)) as Hb1.
  { apply (inv_main (bw_bind w)); [|by destruct (bw_bind w)|done]. apply (netcheck_ok_same (bw_bind w)); [by destruct (bw_bind w)|apply (bi_netcheck _ Hb)]. }
  by destruct (_ && _).
Qed.

Lemma inv_maintainTick now udp rands nonces interfaces local generation w : bind_inv (bw_bind w) →
  bind_inv (bw_bind (maintainTick now udp rands nonces interfaces local generation w).1).
Proof.
  intros Hb. unfold maintainTick. destruct (_ || _); [done|]. cbv zeta. set (keys := map fst _). set (w1 := on_bind_state _ w).
  assert (bind_inv (bw_bind w1)) as Hb1.
  { change (bw_bind w1) with (foldl (prunePeer now) (bw_bind w) keys). apply (inv_rest (bw_bind w)); [|apply rest_foldl; intros; apply rest_prunePeer|done].
    apply foldl_preserves; [apply (bi_index _ Hb)|]. intros. by apply index_prunePeer. }
  clearbody w1. set (w2 := refreshLocalEndpoints _ _ _ w1). assert (bind_inv (bw_bind w2)) as Hb2.
  { unfold w2, refreshLocalEndpoints. cbv zeta. destruct (cfg_DisableDiscovery _); [done|]. destruct (_ || _ || _); [done|].
    destruct (addrPort local) as [actual|]; [|done]. destruct (bool_decide _); [done|]. cbn.
    apply (inv_main (bw_bind w1)); [|by destruct (bw_bind w1)|done]. apply (netcheck_ok_same (bw_bind w1)); [by destruct (bw_bind w1)|apply (bi_netcheck _ Hb1)]. }
  clearbody w2. set (w3 := foldl _ _ keys). assert (bind_inv (bw_bind w3)) as Hb3.
  { apply (foldl_preserves (λ w, bind_inv (bw_bind w))); [by apply inv_kickDiscovery|]. intros. by apply inv_probePeer. }
  clearbody w3. unfold when. by destruct (_ && _).
Qed.

Lemma inv_receive packets sizes eps canceled b b' r : receiveFunc packets sizes eps canceled b = Some (b', r) → bind_inv b → bind_inv b'.
Proof.
  intros E Hb. unfold receiveFunc in E. destruct packets as [|buffer ?], sizes, eps; try by injection E as <- <-.
  destruct canceled; [by injection E as <- <-|]. destruct (b_inbound b) as [|packet rest] eqn:Ei; [done|].
  assert (bind_inv (b <| b_inbound := rest |>)) as Hb'.
  { destruct Hb as [Hi Hn Hin Hc]. constructor; [apply (index_ok_same b); [by destruct b|done]|apply (netcheck_ok_same b); [by destruct b|done]| |by destruct b].
    rewrite Ei in Hin. destruct b; cbn in *. lia. }
  destruct (_ <? _)%nat; by injection E as <- <-.
Qed.
End Invariant.
