(* ===== verification/TransportProps.v ===== *)
(** * Theorems on the transport

    The invariant holds in every reachable state; [Send] finds a path exactly
    when there is one; endpoints can be written and read back; and two updates
    that lose entries of the indexes. *)

From Stdlib Require Import ZArith Lia Ascii String Strings.Byte.
From S2P Require Export TransportInv DiscoProtocol.
Open Scope Z_scope.

Section Reachable.
Context `{BoxOps} `{RangeOrder}.
Implicit Types w : BindWorld.

(** One step: a call of the client or of WireGuard, a packet, a tick, or a step
    of a latency check. *)
Inductive bind_step : BindWorld → BindWorld → Prop :=
| step_Open now interfaces listen port w : bind_step w (Open now interfaces listen port w).1
| step_Close closeErr w : bind_step w (Close closeErr w).1
| step_Shutdown closeErr w : bind_step w (Shutdown closeErr w).1
| step_Send now udp derp rands nonce bufs endpoint w : bind_step w (Send now udp derp rands nonce bufs endpoint w).1
| step_receive packets sizes eps canceled w b r :
    receiveFunc packets sizes eps canceled (bw_bind w) = Some (b, r) → bind_step w (mkBindWorld b (bw_out w))
| step_UpdatePeer now udp rands nonce config w : bind_step w (UpdatePeer now udp rands nonce config w)
| step_RemovePeer key w : bind_step w (on_bind_state (RemovePeer key) w)
| step_UpdateDERPMap now derpMap selfHome w : bind_step w (UpdateDERPMap now derpMap selfHome w)
| step_maintain now udp rands nonces interfaces local generation w :
    bind_step w (maintainTick now udp rands nonces interfaces local generation w).1
| step_readUDP now udp rands nonce generation packet source w w' r :
    readUDP now udp rands nonce generation packet source w = Some (w', r) → bind_step w w'
| step_DERP now udp rands nonce source data w w' :
    handleDERPPacket now udp rands nonce source data w = Some w' → bind_step w w'
| step_querySTUN now udp lookup rand sameCtx checkID regionID node w :
    bind_step w (querySTUN now udp lookup rand sameCtx checkID regionID node w)
| step_latency now checkID regionID latency source w :
    bind_step w (on_bind_state (recordDERPLatency now checkID regionID latency source) w)
| step_report now checkID w : bind_step w (reportDERPCheck now checkID w)
| step_finish now checkID canceled measure arrange w : bind_step w (finishDERPCheck now checkID canceled measure arrange w).

Lemma inv_bind_step w w' : bind_step w w' → bind_inv (bw_bind w) → bind_inv (bw_bind w').
Proof.
  intros Hs Hb. destruct Hs; cbn [bw_bind on_bind_state].
  - by apply inv_Open.
  - by apply inv_bind_Close.
  - unfold Shutdown. pose proof (inv_bind_Close closeErr w Hb) as Hc. by destruct (Close closeErr w).
  - by apply inv_Send.
  - by eapply inv_receive.
  - by apply inv_UpdatePeer.
  - by apply inv_RemovePeer.
  - by apply inv_UpdateDERPMap.
  - by apply inv_maintainTick.
  - by eapply inv_readUDP.
  - by eapply inv_handleDERPPacket.
  - by apply inv_querySTUN.
  - by apply inv_recordDERPLatency.
  - by apply inv_reportDERPCheck.
  - by apply inv_finishDERPCheck.
Qed.

(** C3. The invariant of the transport: from a new transport, whatever calls,
    packets and background steps happen in whatever order, every address and
    disco key in the indexes belongs to the configured peer it names, a peer
    has at most 256 control and 256 learned addresses without duplicates, the
    latency check in progress is the latest one with at most 64 regions and is
    signalled done exactly when no probe is outstanding, every recorded latency
    is positive, at most 256 packets wait for WireGuard, and a transport with a
    socket is open. *)
Theorem reachable_bind_inv cfg w (Hreach : rtc bind_step (mkBindWorld (newBindState cfg) []) w) :
  bind_inv (bw_bind w) ∧
  (∀ k p, b_peers (bw_bind w) !! k = Some p → NoDup (bp_candidates p) ∧ (length (bp_candidates p) ≤ 512)%nat).
Proof.
  assert (bind_inv (bw_bind w)) as Hb.
  { assert (bind_inv (bw_bind (mkBindWorld (newBindState cfg) []))) as Hb0 by apply inv_bind_new.
    induction Hreach as [|w1 w2 w3 Hs _ IH]; [done|]. apply IH. by eapply inv_bind_step. }
  split; [done|]. intros k p Hp. eapply candidates_bounded. apply (map_Forall_lookup_1 _ _ _ _ (ix_peers _ (bi_index _ Hb)) Hp).
Qed.

(** No packet from the network stops the receive loops with a panic. *)
Lemma readUDP_total now udp rands nonce generation packet source w : is_Some (readUDP now udp rands nonce generation packet source w).
Proof.
  unfold readUDP. destruct (handleSTUN_cases now packet w) as (w1 & r1 & -> & _). destruct r1; [by eexists|].
  assert (is_Some (if negb (cfg_DisableDiscovery (b_cfg (bw_bind w1)))
    then handleDisco now udp rands nonce packet (unmapAddrPort source) (zero_array 32) false w1 else Some (w1, false))) as [[w2 r2] ->].
  { destruct (negb _); [apply handleDisco_total|by eexists]. }
  destruct r2; [by eexists|]. destruct (_ || _); by eexists.
Qed.

Lemma handleDERPPacket_total now udp rands nonce source data w : is_Some (handleDERPPacket now udp rands nonce source data w).
Proof.
  unfold handleDERPPacket. destruct (handleDisco_total now udp rands nonce data zeroAddrPort source true w) as [[w1 r1] ->].
  destruct r1; [by eexists|]. destruct (_ || _); by eexists.
Qed.

(** ** Sending *)

(** All packets of the batch are accepted. *)
Definition udp_accepts (udp : UDPWrite) (bufs : list (list byte)) (b : Bind) (addr : AddrPort) : Prop :=
  b_open b = true ∧ b_conn b = true ∧ Forall (λ packet, udp packet addr = None) bufs.

Lemma writeAll_None udp bufs addr : ∀ w, (writeAll udp bufs addr w).2 = None ↔ Forall (λ packet, udp packet addr = None) bufs.
Proof.
  induction bufs as [|p bufs IH]; intros w; cbn; [by split; [intros; apply Forall_nil_2|]|]. rewrite Forall_cons.
  destruct (udp p addr); [naive_solver|]. rewrite IH. naive_solver.
Qed.

Lemma sendUDP_None udp bufs addr w : (sendUDP udp bufs addr w).2 = None ↔ udp_accepts udp bufs (bw_bind w) addr.
Proof.
  unfold sendUDP, udp_accepts. destruct (b_open (bw_bind w)), (b_conn (bw_bind w)); cbn; try (split; [done|intros (? & ? & ?); done]).
  rewrite writeAll_None. naive_solver.
Qed.

Lemma derpSendAll_None derp region node bufs : ∀ w, (derpSendAll derp region node bufs w).2 = None ↔ Forall (λ packet, derp region node packet = None) bufs.
Proof.
  induction bufs as [|p bufs IH]; intros w; cbn; [by split; [intros; apply Forall_nil_2|]|]. rewrite Forall_cons.
  destruct (derp region node p); [naive_solver|]. rewrite IH. naive_solver.
Qed.

Lemma sendCandidate_None now udp bufs node candidates derpErr none w :
  (sendCandidate now udp bufs node candidates derpErr none w).2 = None ↔ ∃ c, head candidates = Some c ∧ udp_accepts udp bufs (bw_bind w) c.
Proof.
  unfold sendCandidate. destruct candidates as [|c candidates]; cbn.
  { split; [done|]. by intros (? & ? & _). }
  pose proof (sendUDP_None udp bufs c w) as Hs. destruct (sendUDP udp bufs c w) as [w1 [e|]]; cbn in *; naive_solver.
Qed.

Lemma sendPeer_None now udp derp bufs node direct candidates homeDERP wgOnly w :
  (sendPeer now udp derp bufs node direct candidates homeDERP wgOnly w).2 = None ↔
    (ap_is_valid direct = true ∧ udp_accepts udp bufs (bw_bind w) direct) ∨
    (wgOnly = false ∧ cfg_DisableDERP (b_cfg (bw_bind w)) = false ∧ homeDERP ≠ 0 ∧ Forall (λ packet, derp homeDERP node packet = None) bufs) ∨
    (∃ c, head candidates = Some c ∧ udp_accepts udp bufs (bw_bind w) c).
Proof.
  unfold sendPeer. set (r := if ap_is_valid direct then _ else _).
  assert (bw_bind r.1 = bw_bind w ∧ (r.2 = true ↔ ap_is_valid direct = true ∧ udp_accepts udp bufs (bw_bind w) direct)) as [Hr Hr2].
  { unfold r. destruct (ap_is_valid direct); [|naive_solver]. pose proof (sendUDP_bind udp bufs direct w). pose proof (sendUDP_None udp bufs direct w).
    destruct (sendUDP udp bufs direct w) as [w1 err]; cbn in *. rewrite bool_decide_eq_true. naive_solver. }
  destruct r as [w1 sent]. cbn [fst snd] in *. destruct sent; [tauto|].
  assert (¬ (ap_is_valid direct = true ∧ udp_accepts udp bufs (bw_bind w) direct)) as Hnd by (rewrite <-Hr2; done). clear Hr2.
  set (viaCandidate := ∃ c, _).
  assert (∀ derpErr none, (sendCandidate now udp bufs node candidates derpErr none w1).2 = None ↔ viaCandidate) as Hc.
  { intros. by rewrite sendCandidate_None, Hr. }
  clearbody viaCandidate. destruct wgOnly; [rewrite Hc; split; [tauto|intros [?|[(? & _)|?]]; done]|]. rewrite Hr.
  destruct (cfg_DisableDERP _); cbn [negb andb]; [rewrite Hc; split; [tauto|intros [?|[(_ & ? & _)|?]]; done]|].
  destruct (Z.eqb_spec homeDERP 0); cbn [negb]; [rewrite Hc; split; [tauto|intros [?|[(_ & _ & ? & _)|?]]; done]|].
  pose proof (derpSendAll_None derp homeDERP node bufs w1) as Hd. pose proof (derpSendAll_bind derp homeDERP node bufs w1) as Hb.
  destruct (derpSendAll derp homeDERP node bufs w1) as [w2 [e|]]; cbn [fst snd] in *; [|tauto].
  rewrite sendCandidate_None, Hb, <-(Hc None e), sendCandidate_None, <-Hr. split; [tauto|]. intros [?|[(_ & _ & _ & Hf)|?]]; [by rewrite Hr in *|by apply Hd in Hf|done].
Qed.

(** The direct path of a peer, unless it is older than two minutes. *)
Definition freshDirect (now : Z) (peer : peerState) (addr : AddrPort) : Prop :=
  bp_direct peer = addr ∧ ap_is_valid addr = true ∧ time_sub now (bp_directAt peer) ≤ 2 * Minute.

Lemma probePeer_same now udp rands nonce node w : let b := bw_bind (probePeer now udp rands nonce node w) in
  b_open b = b_open (bw_bind w) ∧ b_conn b = b_conn (bw_bind w) ∧ b_cfg b = b_cfg (bw_bind w).
Proof. cbv zeta. destruct (probePeer_bind now udp rands nonce node w) as [->|(p & pending & _ & _ & ->)]; [done|]. by destruct (bw_bind w). Qed.

(** C13. [Send] to a known peer of an open transport succeeds exactly when one of
    the peer's paths takes the packet: its direct path, if it was confirmed in
    the last two minutes; its home relay, unless the peer is WireGuard-only,
    DERP is disabled or it has no home; or its first candidate address. *)
Theorem Send_complete now udp derp rands nonce bufs node peer w
    (Hbatch : (length bufs ≤ batchSize)%nat) (Hpeer : b_peers (bw_bind w) !! node = Some peer) (Hopen : b_open (bw_bind w) = true) :
  (Send now udp derp rands nonce bufs (Some (mklogicalEndpoint node zeroAddrPort)) w).2 = None ↔
    (∃ addr, freshDirect now peer addr ∧ udp_accepts udp bufs (bw_bind w) addr) ∨
    (pc_WireGuardOnly (bp_config peer) = false ∧ cfg_DisableDERP (b_cfg (bw_bind w)) = false ∧ pc_HomeDERP (bp_config peer) ≠ 0 ∧
     Forall (λ packet, derp (pc_HomeDERP (bp_config peer)) node packet = None) bufs) ∨
    (∃ c, head (bp_candidates peer) = Some c ∧ udp_accepts udp bufs (bw_bind w) c).
Proof.
  unfold Send. cbn [ep_direct ep_node]. destruct (Nat.ltb_spec batchSize (length bufs)); [lia|]. change (ap_is_valid zeroAddrPort) with false. cbn iota.
  rewrite Hpeer, Hopen. cbn [negb]. cbv zeta. rewrite sendPeer_None. set (w1 := when _ _ w).
  assert (b_open (bw_bind w1) = b_open (bw_bind w) ∧ b_conn (bw_bind w1) = b_conn (bw_bind w) ∧ b_cfg (bw_bind w1) = b_cfg (bw_bind w)) as (Eo & Ec & Ecfg).
  { unfold w1, when. destruct (_ && _); [apply probePeer_same|done]. }
  assert (∀ a, udp_accepts udp bufs (bw_bind w1) a ↔ udp_accepts udp bufs (bw_bind w) a) as Hu by (intros a; unfold udp_accepts; by rewrite Eo, Ec).
  rewrite Ecfg. setoid_rewrite Hu. clear Hu. unfold freshDirect.
  destruct (ap_is_valid (bp_direct peer)) eqn:Ev; cbn [andb].
  - destruct (Z.ltb_spec (2 * Minute) (time_sub now (bp_directAt peer))).
    + split; [intros [[? _]|[?|?]]; [done|auto..]|]. intros [(a & (<- & _ & ?) & _)|[?|?]]; [lia|auto..].
    + rewrite Ev. split; [intros [[_ ?]|[?|?]]; [left; by exists (bp_direct peer)|auto..]|]. intros [(a & (<- & _ & _) & ?)|[?|?]]; auto.
  - rewrite Ev. split; [intros [[? _]|[?|?]]; [done|auto..]|]. intros [(a & (<- & ? & _) & _)|[?|?]]; [congruence|auto..].
Qed.
End Reachable.

(** ** Endpoints as text *)

Lemma HasPrefix_app p s : HasPrefix (p +:+ s) p = true.
Proof. unfold HasPrefix. induction p as [|c p IH]; [by destruct s|]. rewrite string_app_cons. cbn. by destruct (ascii_dec c c). Qed.

(** Endpoints as the transport hands them out: a peer, or an address it has no
    peer for, here an IPv4 address. *)
Definition printable (e : logicalEndpoint) : Prop :=
  (key_IsZero (ep_node e) = false ∧ ep_direct e = zeroAddrPort) ∨
  (ep_node e = zero_array 32 ∧ ∃ v p, ep_direct e = mkAddrPort (Addr4 v) p ∧ 0 ≤ v < 2 ^ 32 ∧ 0 ≤ p < 65536).

(** C36. [ParseEndpoint] reads back what [DstToString] writes: WireGuard stores
    endpoints as text, and gets the same peer, or the same (IPv4) UDP address,
    when the text is parsed again. *)
Theorem endpoint_roundtrip e (He : printable e) : ParseEndpoint (DstToString e) = Ok e.
Proof.
  destruct e as [node direct]. unfold printable in He. cbn in He. unfold DstToString, ParseEndpoint. cbn [ep_node ep_direct].
  destruct He as [[Hz ->]|(-> & v & p & -> & Hv & Hp)].
  - rewrite Hz. cbn [negb]. unfold NodePublic_String. assert (HasPrefix (key_String "nodekey:" node) "nodekey:" = true) as -> by apply HasPrefix_app.
    unfold UnmarshalText. rewrite string_of_bytes_of_string, parseKey_String by done. done.
  - change (key_IsZero (zero_array 32)) with (arr_is_zero (zero_array 32)). unfold arr_is_zero. rewrite bool_decide_eq_true_2 by done. cbn [negb].
    change (HasPrefix ("udp:" +:+ _) "nodekey:") with false. cbn iota. rewrite CutPrefix_app, ParseAddrPort_string4 by done. done.
Qed.

Lemma endpoint_roundtrip_witness :
  ParseEndpoint (DstToString (mklogicalEndpoint (zero_array 32) demo_addrA)) = Ok (mklogicalEndpoint (zero_array 32) demo_addrA).
Proof.
  apply endpoint_roundtrip. right. split; [done|]. exists 167772161, 41641. split_and!; [done|lia..].
Defined.

(** ** Entries the indexes lose *)

(** A peer whose disco key changes loses its direct path.  When the path's address
    is also one of the control endpoints, the entry just made for that endpoint
    is removed with it: the address stays a candidate of the peer, but packets
    from it are no longer attributed to the peer. *)
Theorem UpdatePeer_unindexes_candidate (config : PeerConfig) (b b' : Bind) (old : peerState) (a : AddrPort)
    (Hold : b_peers b !! pc_NodeKey config = Some old) (Hdirect : bp_direct old = a) (Hvalid : ap_is_valid a = true)
    (Hdisco : pc_DiscoKey (bp_config old) ≠ pc_DiscoKey config) (Hin : a ∈ elems (sanitizeEndpoints (pc_Endpoints config)))
    (Hu : updatePeerLocked config b = Some b') :
  b_byAddr b' !! a = None ∧ ∃ p, b_peers b' !! pc_NodeKey config = Some p ∧ a ∈ bp_candidates p.
Proof.
  apply updatePeerLocked_index in Hu. cbv zeta in Hu.
  assert (pc_NodeKey (sanitized config) = pc_NodeKey config ∧ pc_DiscoKey (sanitized config) = pc_DiscoKey config ∧
    elems (pc_Endpoints (sanitized config)) = elems (sanitizeEndpoints (pc_Endpoints config))) as (Ek & Ed & Ee) by by destruct config.
  rewrite Ek, Hold in Hu. cbn [from_option id] in Hu. unfold index in Hu. injection Hu as -> -> _.
  assert (discoChanged (sanitized config) old = true) as Hch by (unfold discoChanged; rewrite Ed; by apply bool_decide_eq_true_2).
  split.
  - unfold updatedAddr. cbv zeta. rewrite Hdirect, Hvalid, Hch. apply eq_None_not_Some. intros [k Hk].
    apply lookup_dropAll in Hk as [Hk Hn]. rewrite lookup_claimAll, Ee, decide_True in Hk by done. injection Hk as <-. apply Hn. set_solver.
  - rewrite lookup_insert_eq. eexists. split; [done|]. unfold updatedPeer. cbv zeta. cbn. by rewrite Ee.
Qed.

(** Two peers with the same disco key, as when a node has rotated its node key and
    the removal of the old peer was delayed: removing the old one also removes
    the new one from the index, so that every discovery message of the peer that
    remains is ignored. *)
Theorem RemovePeer_unindexes_disco `{BoxOps} (b : Bind) (k1 k2 : NodePublic) (p1 p2 : peerState) (d : DiscoPublic)
    (H1 : b_peers b !! k1 = Some p1) (H2 : b_peers b !! k2 = Some p2) (Hne : k1 ≠ k2)
    (Hd1 : pc_DiscoKey (bp_config p1) = d) (Hd2 : pc_DiscoKey (bp_config p2) = d) (Hidx : b_byDisco b !! d = Some k2) :
  let b' := RemovePeer k1 b in
  b_peers b' !! k2 = Some p2 ∧ b_byDisco b' !! d = None ∧
  ∀ packet derpSource viaDERP opened,
    subslice (length discoMagic) discoHeaderLen packet = Some (arr_bytes d) →
    openDiscoPacket b' packet derpSource viaDERP = Some opened → opened = NotDisco ∨ opened = DiscoIgnored.
Proof.
  cbv zeta. pose proof (RemovePeer_index k1 b) as Hr. rewrite H1 in Hr. unfold index in Hr. injection Hr as Ep Ea Ed.
  rewrite Ep, Ed, Hd1. split_and!; [by rewrite lookup_delete_ne|apply lookup_delete_eq|].
  intros packet derpSource viaDERP opened Hs Ho. unfold openDiscoPacket in Ho. destruct (cfg_DisableDiscovery _); [injection Ho as <-; auto|].
  destruct (_ <? _)%nat; [injection Ho as <-; auto|]. destruct (subslice 0 _ packet); [|done]. cbn [mbind option_bind] in Ho.
  destruct (negb _); [injection Ho as <-; auto|]. rewrite Hs in Ho. cbn [mbind option_bind] in Ho. cbv zeta in Ho.
  rewrite to_array_arr_bytes, Ed, Hd1, lookup_delete_eq in Ho. rewrite (bool_decide_eq_true_2 (None = None)) in Ho by done. injection Ho as <-. auto.
Qed.

(** ** Examples *)

#[local] Existing Instance xor_box.
#[local] Existing Instance xor_box_laws.
#[local] Existing Instance canonical_order.

(** A socket is always available. *)
Definition demo_listen : string → result error (option string) := λ _, Ok (Some "0.0.0.0:41641").
Definition demo_peer (disco : byte) : PeerConfig := mkPeerConfig (to_array 32 [x03]) (to_array 32 [disco]) (Some [demo_addrB]) 1 false.

(** A transport that is opened, gets a peer, and a direct path to it. *)
Definition demo_opened : BindWorld := (Open Second None demo_listen 41641 (mkBindWorld (newBindState demo_cfgA) [])).1.
Definition demo_known : BindWorld := UpdatePeer Second demo_udp demo_rands None (demo_peer x04) demo_opened.
Definition demo_direct : BindWorld := setDirect Second (to_array 32 [x03]) demo_addrB 5 demo_known.

Lemma reachable_bind_inv_witness : bind_inv (bw_bind demo_known) ∧ b_byAddr (bw_bind demo_known) !! demo_addrB = Some (to_array 32 [x03]).
Proof.
  split; [|vm_compute; reflexivity]. apply (reachable_bind_inv demo_cfgA).
  eapply rtc_l; [apply (step_Open Second None demo_listen 41641)|]. eapply rtc_l; [apply (step_UpdatePeer Second demo_udp demo_rands None (demo_peer x04))|].
  apply rtc_refl.
Defined.

Lemma Send_complete_witness :
  (Send Second demo_udp (λ _ _ _, None) demo_rands None [[x01]] (Some (mklogicalEndpoint (to_array 32 [x03]) zeroAddrPort)) demo_known).2 = None.
Proof.
  assert (∃ p, b_peers (bw_bind demo_known) !! to_array 32 [x03] = Some p ∧ head (bp_candidates p) = Some demo_addrB) as (p & Hp & Hc).
  { eexists. split; vm_compute; reflexivity. }
  apply (Send_complete Second demo_udp (λ _ _ _, None) demo_rands None [[x01]] (to_array 32 [x03]) p demo_known); [done|done|vm_compute; reflexivity|].
  right. right. exists demo_addrB. split; [done|]. split_and!; [vm_compute; reflexivity..|]. by constructor.
Defined.

Lemma UpdatePeer_unindexes_candidate_witness : ∃ b', updatePeerLocked (demo_peer x05) (bw_bind demo_direct) = Some b' ∧ b_byAddr b' !! demo_addrB = None.
Proof.
  assert (∃ old, b_peers (bw_bind demo_direct) !! to_array 32 [x03] = Some old ∧ bp_direct old = demo_addrB ∧ pc_DiscoKey (bp_config old) = to_array 32 [x04]) as (old & Ho & Hd & Hk).
  { eexists. split; [vm_compute; reflexivity|]. split; vm_compute; reflexivity. }
  assert (is_Some (updatePeerLocked (demo_peer x05) (bw_bind demo_direct))) as [b' Eu] by (vm_compute; eexists; reflexivity). exists b'. split; [exact Eu|].
  apply (UpdatePeer_unindexes_candidate (demo_peer x05) (bw_bind demo_direct) b' old demo_addrB Ho Hd eq_refl); [rewrite Hk; by vm_compute| |exact Eu].
  vm_compute. left.
Defined.

Definition demo_rotated : BindWorld := UpdatePeer Second demo_udp demo_rands None
  (mkPeerConfig (to_array 32 [x07]) (to_array 32 [x04]) (Some []) 1 false) demo_known.

Lemma RemovePeer_unindexes_disco_witness : b_byDisco (RemovePeer (to_array 32 [x03]) (bw_bind demo_rotated)) !! to_array 32 [x04] = None.
Proof.
  assert (∃ p1, b_peers (bw_bind demo_rotated) !! to_array 32 [x03] = Some p1 ∧ pc_DiscoKey (bp_config p1) = to_array 32 [x04]) as (p1 & H1 & Hd1).
  { eexists. split; vm_compute; reflexivity. }
  assert (∃ p2, b_peers (bw_bind demo_rotated) !! to_array 32 [x07] = Some p2 ∧ pc_DiscoKey (bp_config p2) = to_array 32 [x04]) as (p2 & H2 & Hd2).
  { eexists. split; vm_compute; reflexivity. }
  apply (RemovePeer_unindexes_disco (bw_bind demo_rotated) (to_array 32 [x03]) (to_array 32 [x07]) p1 p2 (to_array 32 [x04]) H1 H2); [by vm_compute|done|done|].
  vm_compute. reflexivity.
Defined.
