(* ===== verification/Derp.v ===== *)
(** * The DERP relay client ([internal/tailnet/derp.go])

    Frames, the handshake with a relay, the receive loop, and the manager that
    keeps at most one connection per region.

    Goroutines hold pointers to region slots, also to slots that the manager has
    dropped; the model keeps the slots in a heap, and connections are numbers.
    A connection is in [dm_open] until it is closed. *)

From Stdlib Require Import ZArith Lia Ascii String Strings.Byte.
From S2P Require Export TransportOps.
Open Scope Z_scope.

(** ["DERP"] followed by U+1F511. *)
Definition derpMagic : list byte := [x44; x45; x52; x50; xf0; x9f; x94; x91].
Definition derpFrameServerKey : byte := x01.
Definition derpFrameClientInfo : byte := x02.
Definition derpFrameServerInfo : byte := x03.
Definition derpFrameSend : byte := x04.
Definition derpFrameRecv : byte := x05.
Definition derpFrameKeepAlive : byte := x06.
Definition derpFramePing : byte := x12.
Definition derpFramePong : byte := x13.
Definition derpMaxFrame : Z := 2 ^ 20.
Definition derpMaxPacket : Z := 64 * 2 ^ 10.
Definition derpSendTimeout : Z := 15 * Second.

(** ** Frames *)

Definition readDERPFrame (stream : list byte) : result error (byte * list byte * list byte) :=
  match ReadFull 5 stream with
  | Err e => Err e
  | Ok (header, stream) =>
      let length := be_decode (drop 1 header) in
      if derpMaxFrame <? length then Err (ErrText ("tailnet: oversized DERP frame: " +:+ Itoa length))
      else match ReadFull (Z.to_nat length) stream with
           | Err e => Err e
           | Ok (payload, stream) => Ok (nth 0 header x00, payload, stream)
           end
  end.

(** The bytes written, unless the frame is too large. *)
Definition writeDERPFrame (frameType : byte) (payload : list byte) : result error (list byte) :=
  if derpMaxFrame <? Z.of_nat (length payload) then Err (ErrText "tailnet: DERP frame too large")
  else Ok (frameType :: be_encode 4 (Z.of_nat (length payload)) ++ payload).

(** ** The handshake *)

(** The client information, as [json.Marshal] writes it. *)
Definition clientInfo : list byte :=
  bytes_of_string ("{" +:+ Quote "version" +:+ ":2," +:+ Quote "CanAckPings" +:+ ":true," +:+ Quote "AppName" +:+ ":" +:+ Quote "wgo-tailscale" +:+ "}").

(** What the network does during [dialDERP]: the error of each call, the answer to
    the upgrade request (status code and line, and the body), and the bytes that
    follow it. *)
Record DERPDial := mkDERPDial {
  dd_dial : string → option error;
  dd_handshake : string → bool → option error;
  dd_request : LatencyRequest → option error;
  dd_flush : option error;
  dd_response : result error (Z * string * string);
  dd_stream : list byte;
  dd_nonce : array 24;
  dd_write : list byte → option error;
  dd_flush2 : option error
}.

(** A connected client: the frame sent to the relay, and what is left to read. *)
Record DERPSession := mkDERPSession { ss_sent : list byte; ss_stream : list byte }.

(** The greeting of the relay. *)
Definition serverGreeting (frameType : byte) (greeting : list byte) : option NodePublic :=
  if negb (bool_decide (frameType = derpFrameServerKey)) || (length greeting <? 40)%nat || negb (bool_decide (take 8 greeting = derpMagic)) then None
  else Some (to_array 32 (take 32 (drop 8 greeting))).

Section Dial.
Context `{BoxOps}.

Definition clientAuth (nodePrivate : PrivateKey) (server : NodePublic) (nonce : array 24) : list byte :=
  AppendTo (PublicNode nodePrivate) [] ++ SealToNode nodePrivate server nonce clientInfo.

Definition dialDERP (nodePrivate : PrivateKey) (tlsServerName : string) (io : DERPDial) (node : CDERPNode) : result error DERPSession :=
  let host := first_nonempty (first_nonempty (CDERPNode_HostName node) (CDERPNode_IPv4 node)) (CDERPNode_IPv6 node) in
  if bool_decide (host = "") then Err (ErrText "DERP node has no address")
  else
    let port := if CDERPNode_DERPPort node =? 0 then 443 else CDERPNode_DERPPort node in
    match dd_dial io (JoinHostPort host (Itoa port)) with
    | Some e => Err e
    | None =>
        let serverName := first_nonempty (first_nonempty (CDERPNode_CertName node) (CDERPNode_HostName node)) host in
        match dd_handshake io (first_nonempty tlsServerName serverName) (CDERPNode_InsecureForTests node) with
        | Some e => Err e
        | None =>
            let requestHost := first_nonempty (CDERPNode_HostName node) host in
            match dd_request io (mkLatencyRequest (JoinHostPort requestHost (Itoa port)) "/derp" requestHost), dd_flush io, dd_response io with
            | Some e, _, _ => Err e
            | None, Some e, _ => Err e
            | None, None, Err e => Err e
            | None, None, Ok (code, status, body) =>
                if negb (code =? 101) then Err (ErrText ("DERP upgrade: " +:+ status +:+ ": " +:+ body))
                else match readDERPFrame (dd_stream io) with
                     | Err e => Err e
                     | Ok (frameType, greeting, stream) =>
                         match serverGreeting frameType greeting with
                         | None => Err (ErrText "invalid DERP server greeting")
                         | Some server =>
                             match writeDERPFrame derpFrameClientInfo (clientAuth nodePrivate server (dd_nonce io)) with
                             | Err e => Err e
                             | Ok frame =>
                                 match dd_write io frame, dd_flush2 io with
                                 | Some e, _ => Err e
                                 | None, Some e => Err e
                                 | None, None => Ok (mkDERPSession frame stream)
                                 end
                             end
                         end
                     end
            end
        end
    end.
End Dial.

(** ** Sending and receiving packets *)

(** [derpClient.send]: [ctxErr] is the state of the context, [deadlineErr] the
    error of setting the write deadline, [write] the connection. *)
Definition clientSend (ctxErr deadlineErr : option error) (write : list byte → option error) (destination : NodePublic) (packet : list byte)
    : option error :=
  if derpMaxPacket <? Z.of_nat (length packet) then Some (ErrText "tailnet: DERP packet exceeds 64 KiB")
  else
    let payload := AppendTo destination [] ++ packet in
    match ctxErr, deadlineErr with
    | Some e, _ => Some e
    | None, Some e => Some e
    | None, None =>
        match writeDERPFrame derpFrameSend payload with
        | Err e => Some e
        | Ok frame => write frame
        end
    end.

(** What the receive loop does: hand a packet to the transport, or answer a ping. *)
Inductive DERPEvent :=
| PacketFrom (source : NodePublic) (data : list byte)
| PongSent (frame : list byte).

(** One frame of the loop; [None] when the loop ends. *)
Definition handleFrame (write : list byte → option error) (frameType : byte) (payload : list byte) : option (list DERPEvent) :=
  if bool_decide (frameType = derpFrameRecv) then
    if (length payload <? 32)%nat then Some [] else Some [PacketFrom (to_array 32 (take 32 payload)) (drop 32 payload)]
  else if bool_decide (frameType = derpFramePing) then
    match writeDERPFrame derpFramePong payload with
    | Err _ => None
    | Ok frame => match write frame with Some _ => None | None => Some [PongSent frame] end
    end
  else Some [].

(** [readLoop] on everything the connection delivers; each frame takes at least
    five bytes, so that one more than the length of the stream is fuel enough. *)
Fixpoint readLoop (fuel : nat) (write : list byte → option error) (stream : list byte) : option (list DERPEvent) :=
  match fuel with
  | O => None
  | S fuel =>
      match readDERPFrame stream with
      | Err _ => Some []
      | Ok (frameType, payload, stream) =>
          match handleFrame write frameType payload with
          | None => Some []
          | Some events => events' ← readLoop fuel write stream; Some (events ++ events')
          end
      end
  end.

(** ** The manager *)

Record derpRegionSlot := mkderpRegionSlot {
  sl_region : Z;
  sl_config : option CDERPRegion;
  sl_client : option nat;
  sl_connecting : bool;
  sl_connected : bool
}.

#[export] Instance derpRegionSlot_fields : Fields derpRegionSlot := λ r, mkderpRegionSlot (sl_region r) (sl_config r) (sl_client r) (sl_connecting r) (sl_connected r).

Record derpManager := mkderpManager {
  dm_closed : bool;
  dm_mapv : option DERPMap;
  dm_slots : gmap Z nat;
  dm_heap : gmap nat derpRegionSlot;
  dm_nextClient : nat;
  dm_open : gset nat
}.

#[export] Instance derpManager_fields : Fields derpManager := λ r, mkderpManager (dm_closed r) (dm_mapv r) (dm_slots r) (dm_heap r) (dm_nextClient r) (dm_open r).

Definition newDERPManager : derpManager := mkderpManager false None ∅ ∅ 0 ∅.

(** [client.close()]. *)
Definition closeClient (c : nat) (m : derpManager) : derpManager := m <| dm_open := dm_open m ∖ {[c]} |>.

(** [s.clear(expected)] *)
Definition clearSlot (expected : option nat) (ptr : nat) (m : derpManager) : derpManager :=
  match dm_heap m !! ptr with
  | None => m
  | Some s =>
      if bool_decide (is_Some expected) && negb (bool_decide (sl_client s = expected)) then m
      else
        let m := m <| dm_heap := <[ptr := s <| sl_client := None |> <| sl_connected := false |>]> (dm_heap m) |> in
        on_some (sl_client s) closeClient m
  end.

(** One slot of the loop of [updateMap]. *)
Definition updateSlot (value : option DERPMap) (m : derpManager) (entry : Z * nat) : derpManager :=
  let '(id, ptr) := entry in
  match dm_heap m !! ptr with
  | None => m
  | Some s =>
      match mjoin ((λ v, region_at v id) <$> value) with
      | Some region => m <| dm_heap := <[ptr := s <| sl_config := Some region |>]> (dm_heap m) |>
      | None =>
          let s' := s <| sl_config := None |> in
          let s' := when (bool_decide (is_Some (sl_client s))) (λ s', s' <| sl_client := None |> <| sl_connected := false |>) s' in
          let m := on_some (sl_client s) closeClient m in
          m <| dm_heap := <[ptr := s']> (dm_heap m) |> <| dm_slots := delete id (dm_slots m) |>
      end
  end.

Section Manager.
Context `{RangeOrder}.

Definition updateMap (value : option DERPMap) (m : derpManager) : derpManager :=
  if dm_closed m then m
  else foldl (updateSlot value) (m <| dm_mapv := value |>) (range 25 (dm_slots m)).

(** The slot of a region, made when there is none. *)
Definition getSlot (regionID : Z) (m : derpManager) : derpManager * result error nat :=
  if dm_closed m then (m, Err ErrNetClosed)
  else match mjoin ((λ v, region_at v regionID) <$> dm_mapv m) with
       | None => (m, Err (ErrText ("tailnet: DERP region " +:+ Itoa regionID +:+ " is unavailable")))
       | Some region =>
           match dm_slots m !! regionID with
           | Some ptr => (m, Ok ptr)
           | None =>
               let ptr := fresh (dom (dm_heap m)) in
               (m <| dm_heap := <[ptr := mkderpRegionSlot regionID (Some region) None false false]> (dm_heap m) |>
                  <| dm_slots := <[regionID := ptr]> (dm_slots m) |>, Ok ptr)
           end
       end.

(** The loop of [getClient]: the first node that can be dialed, or the first error. *)
Fixpoint dialNodes (dial : CDERPNode → option error) (nodes : list (option CDERPNode)) (firstErr : option error) : result (option error) CDERPNode :=
  match nodes with
  | [] => Err firstErr
  | None :: nodes => dialNodes dial nodes firstErr
  | Some node :: nodes =>
      if CDERPNode_STUNOnly node then dialNodes dial nodes firstErr
      else match dial node with
           | None => Ok node
           | Some e => dialNodes dial nodes (match firstErr with Some _ => firstErr | None => Some e end)
           end
  end.

(** [dial] is the outcome of [dialDERP] for a node. *)
Definition getClient (dial : CDERPNode → option error) (ptr : nat) (m : derpManager) : derpManager * result error nat :=
  match dm_heap m !! ptr with
  | None => (m, Err ErrNetClosed)
  | Some s =>
      match sl_client s, sl_config s with
      | Some c, _ => (m <| dm_heap := <[ptr := s <| sl_connected := true |>]> (dm_heap m) |>, Ok c)
      | None, None => (m, Err (ErrText ("tailnet: DERP region " +:+ Itoa (sl_region s) +:+ " was removed")))
      | None, Some config =>
          match dialNodes dial (elems (CDERPRegion_Nodes config)) None with
          | Ok _ =>
              let c := dm_nextClient m in
              (m <| dm_heap := <[ptr := s <| sl_client := Some c |> <| sl_connected := true |>]> (dm_heap m) |>
                 <| dm_nextClient := S c |> <| dm_open := {[c]} ∪ dm_open m |>, Ok c)
          | Err firstErr =>
              (m, Err (ErrWrap ("tailnet: connect DERP region " +:+ Itoa (sl_region s)) (default (ErrText "no relay-capable DERP nodes") firstErr)))
          end
      end
  end.

(** [ensureAsync] up to its goroutine: the slot to connect, if any. *)
Definition ensureAsync (region : Z) (m : derpManager) : derpManager * option nat :=
  match getSlot region m with
  | (m, Err _) => (m, None)
  | (m, Ok ptr) =>
      match dm_heap m !! ptr with
      | None => (m, None)
      | Some s =>
          if sl_connecting s || sl_connected s then (m, None)
          else (m <| dm_heap := <[ptr := s <| sl_connecting := true |>]> (dm_heap m) |>, Some ptr)
      end
  end.

(** The goroutine of [ensureAsync]. *)
Definition ensureConnect (dial : CDERPNode → option error) (ptr : nat) (m : derpManager) : derpManager :=
  let m := (getClient dial ptr m).1 in
  match dm_heap m !! ptr with
  | None => m
  | Some s => m <| dm_heap := <[ptr := s <| sl_connecting := false |>]> (dm_heap m) |>
  end.

(** [ctx] is [None] when the context is nil, and otherwise its error.  [transmit]
    is [client.send]. *)
Definition derpSend (ctx : option (option error)) (dial : CDERPNode → option error) (transmit : nat → NodePublic → list byte → option error)
    (region : Z) (destination : NodePublic) (packet : list byte) (m : derpManager) : derpManager * option error :=
  match ctx with
  | None => (m, Some ErrNetClosed)
  | Some (Some e) => (m, Some e)
  | Some None =>
      match getSlot region m with
      | (m, Err e) => (m, Some e)
      | (m, Ok ptr) =>
          match getClient dial ptr m with
          | (m, Err e) => (m, Some e)
          | (m, Ok client) =>
              match transmit client destination packet with
              | Some e => (clearSlot (Some client) ptr m, Some e)
              | None => (m, None)
              end
          end
      end
  end.

Definition closeConnections (m : derpManager) : derpManager :=
  foldl (λ m entry, clearSlot None entry.2 m) m (range 26 (dm_slots m)).

Definition derpClose (m : derpManager) : derpManager :=
  if dm_closed m then m
  else closeConnections (m <| dm_closed := true |>).
End Manager.

(** ** Frames can be read back *)

Lemma be_decode_encode4 n : 0 ≤ n < 2 ^ 32 → be_decode (be_encode 4 n) = n.
Proof. intros Hn. apply be_decode_encode. change (256 ^ Z.of_nat 4) with (2 ^ 32). lia. Qed.

Lemma readDERPFrame_written frameType payload frame rest : writeDERPFrame frameType payload = Ok frame →
  readDERPFrame (frame ++ rest) = Ok (frameType, payload, rest).
Proof.
  unfold writeDERPFrame. destruct (Z.ltb_spec derpMaxFrame (Z.of_nat (length payload))) as [|Hle]; [done|]. intros Hw.
  assert (frame = frameType :: be_encode 4 (Z.of_nat (length payload)) ++ payload) as -> by congruence. clear Hw.
  unfold readDERPFrame, ReadFull. set (len := be_encode 4 (Z.of_nat (length payload))). assert (length len = 4%nat) as Hlen by apply length_be_encode.
  assert (be_decode len = Z.of_nat (length payload)) as Hdec by (apply be_decode_encode4; unfold derpMaxFrame in *; lia). clearbody len.
  assert ((frameType :: len ++ payload) ++ rest = (frameType :: len) ++ payload ++ rest) as -> by by rewrite app_comm_cons, <-app_assoc.
  assert (length (frameType :: len) = 5%nat) as H5 by (cbn; by rewrite Hlen).
  rewrite (proj2 (Nat.leb_le _ _)) by (rewrite length_app; lia).
  rewrite take_field, drop_field by done. cbv zeta. change (drop 1 (frameType :: len)) with len. unfold derpMaxFrame in *.
  rewrite Hdec.
  destruct (Z.ltb_spec (2 ^ 20) (Z.of_nat (length payload))); [lia|]. rewrite Nat2Z.id.
  rewrite (proj2 (Nat.leb_le _ _)) by (rewrite length_app; lia). rewrite take_field, drop_field by done. done.
Qed.

Lemma readDERPFrame_shorter stream frameType payload rest : readDERPFrame stream = Ok (frameType, payload, rest) →
  (length rest + 5 ≤ length stream)%nat.
Proof.
  unfold readDERPFrame, ReadFull. destruct (Nat.leb_spec 5 (length stream)); [|done]. cbv zeta.
  destruct (_ <? _); [done|]. destruct (Nat.leb_spec (Z.to_nat (be_decode (drop 1 (take 5 stream)))) (length (drop 5 stream))); [|done].
  intros [= _ _ <-]. rewrite !length_drop in *. lia.
Qed.

Lemma readLoop_total write fuel : ∀ stream, (length stream < fuel)%nat → is_Some (readLoop fuel write stream).
Proof.
  induction fuel as [|fuel IH]; intros stream Hf; [lia|]. cbn [readLoop].
  destruct (readDERPFrame stream) as [[[frameType payload] rest]|] eqn:Er; [|by eexists]. apply readDERPFrame_shorter in Er.
  destruct (handleFrame write frameType payload); [|by eexists]. destruct (IH rest) as [events ->]; [lia|]. by eexists.
Qed.

(** What the frames of a relay amount to, up to the first ping that cannot be answered. *)
Fixpoint framesEvents (write : list byte → option error) (frames : list (byte * list byte)) : list DERPEvent :=
  match frames with
  | [] => []
  | (frameType, payload) :: frames =>
      match handleFrame write frameType payload with
      | None => []
      | Some events => events ++ framesEvents write frames
      end
  end.

(** The bytes of the frames, one after the other. *)
Definition encodeFrames (frames : list (byte * list byte)) : list byte :=
  concat (map (λ '(frameType, payload), frameType :: be_encode 4 (Z.of_nat (length payload)) ++ payload) frames).

Definition frame_ok (frame : byte * list byte) : Prop := Z.of_nat (length frame.2) ≤ derpMaxFrame.

Lemma writeDERPFrame_ok frameType payload : frame_ok (frameType, payload) →
  writeDERPFrame frameType payload = Ok (frameType :: be_encode 4 (Z.of_nat (length payload)) ++ payload).
Proof. unfold frame_ok, writeDERPFrame. cbn. intros. destruct (Z.ltb_spec derpMaxFrame (Z.of_nat (length payload))); [lia|done]. Qed.



(** ** The handshake *)

Section Handshake.
Context `{BL : BoxLaws}.

Lemma node_box_roundtrip a b nonce msg : OpenFromNode b (PublicNode a) (SealToNode a (PublicNode b) nonce msg) = Some msg.
Proof. unfold OpenFromNode, SealToNode, PublicNode. rewrite open_sealed, Precompute_comm, Open_Seal. done. Qed.

(** C38. The handshake with a relay: when [dialDERP] succeeds, the relay greeted
    with a server key, and the one frame sent to it is a client-info frame that
    names this node's key and holds the client information sealed for that
    server: the holder of the matching private key, and the name in the frame,
    open it. *)
Theorem dialDERP_authenticates nodePrivate tlsServerName io node session serverPrivate
    (Hdial : dialDERP nodePrivate tlsServerName io node = Ok session) :
  ∃ greeting server payload,
    readDERPFrame (dd_stream io) = Ok (derpFrameServerKey, greeting, ss_stream session) ∧
    take 40 greeting = derpMagic ++ arr_bytes server ∧
    readDERPFrame (ss_sent session) = Ok (derpFrameClientInfo, payload, []) ∧
    take 32 payload = arr_bytes (PublicNode nodePrivate) ∧
    (server = PublicNode serverPrivate →
     OpenFromNode serverPrivate (to_array 32 (take 32 payload)) (drop 32 payload) = Some clientInfo).
Proof.
  unfold dialDERP in Hdial. cbv zeta in Hdial. destruct (bool_decide _); [done|]. destruct (dd_dial io _); [done|].
  destruct (dd_handshake io _ _); [done|]. destruct (dd_request io _); [done|]. destruct (dd_flush io); [done|].
  destruct (dd_response io) as [[[code status] body]|]; [|done]. destruct (negb _); [done|].
  destruct (readDERPFrame (dd_stream io)) as [[[frameType greeting] stream]|] eqn:Er; [|done].
  destruct (serverGreeting frameType greeting) as [server|] eqn:Eg; [|done].
  destruct (writeDERPFrame derpFrameClientInfo _) as [frame|] eqn:Ew; [|done].
  destruct (dd_write io frame); [done|]. destruct (dd_flush2 io); [done|]. injection Hdial as <-. cbn [ss_sent ss_stream].
  unfold serverGreeting in Eg. destruct (_ || _ || _) eqn:Ec; [done|]. apply orb_false_iff in Ec as [[Et El]%orb_false_iff Em].
  apply negb_false_iff, bool_decide_eq_true in Et, Em. apply Nat.ltb_ge in El. injection Eg as <-. subst frameType.
  exists greeting, (to_array 32 (take 32 (drop 8 greeting))), (clientAuth nodePrivate (to_array 32 (take 32 (drop 8 greeting))) (dd_nonce io)).
  assert (arr_bytes (to_array 32 (take 32 (drop 8 greeting))) = take 32 (drop 8 greeting)) as Ea
    by (apply arr_bytes_to_array; rewrite length_take, length_drop; lia).
  assert (take 32 (clientAuth nodePrivate (to_array 32 (take 32 (drop 8 greeting))) (dd_nonce io)) = arr_bytes (PublicNode nodePrivate)) as Ek.
  { unfold clientAuth, AppendTo. cbn [app]. apply take_field, arr_length. }
  split_and!; [done| | |exact Ek|].
  - rewrite Ea, <-Em. change 40%nat with (8 + 32)%nat. by rewrite take_take_drop.
  - rewrite <-(app_nil_r frame). by apply readDERPFrame_written.
  - intros Hs. rewrite Ek, to_array_arr_bytes. unfold clientAuth, AppendTo. cbn [app].
    rewrite drop_field by apply arr_length. rewrite Hs. apply node_box_roundtrip.
Qed.
End Handshake.
