(* ===== verification/DerpInv.v ===== *)
(** * No connection is lost or leaked

    The invariant of the DERP manager: the open connections are exactly those
    of its slots, one per region, and a closed manager has none. *)

From Stdlib Require Import ZArith Lia Ascii String Strings.Byte.
From S2P Require Export Derp.
From S2P Require Import DiscoProtocol.
Open Scope Z_scope.

Record derp_inv (m : derpManager) : Prop := {
  (** The slots the manager knows are alive, and filed under their region. *)
  di_slots : ∀ id ptr, dm_slots m !! id = Some ptr → ∃ s, dm_heap m !! ptr = Some s ∧ sl_region s = id ∧ is_Some (sl_config s);
  (** A slot it has dropped has no configuration to connect with, and no connection. *)
  di_dead : ∀ ptr s, dm_heap m !! ptr = Some s → (∀ id, dm_slots m !! id ≠ Some ptr) → sl_config s = None ∧ sl_client s = None;
  (** The open connections are the clients of the slots. *)
  di_open : ∀ c, c ∈ dm_open m ↔ ∃ ptr s, dm_heap m !! ptr = Some s ∧ sl_client s = Some c;
  di_unique : ∀ p1 p2 s1 s2 c, dm_heap m !! p1 = Some s1 → dm_heap m !! p2 = Some s2 →
    sl_client s1 = Some c → sl_client s2 = Some c → p1 = p2;
  di_fresh : ∀ c, c ∈ dm_open m → (c < dm_nextClient m)%nat;
  di_connected : ∀ ptr s, dm_heap m !! ptr = Some s → sl_connected s = bool_decide (is_Some (sl_client s));
  di_closed : dm_closed m = true → dm_open m = ∅
}.

Lemma derp_inv_new : derp_inv newDERPManager.
Proof. constructor; cbn; intros; rewrite ?lookup_empty in *; try done. set_solver. Qed.

(** ** Changing one slot *)

(** A change that keeps the client. *)
Lemma inv_keep_client m ptr s s' : derp_inv m → dm_heap m !! ptr = Some s → sl_client s' = sl_client s → sl_region s' = sl_region s →
  sl_config s' = sl_config s ∨ (is_Some (sl_config s') ∧ ∃ id, dm_slots m !! id = Some ptr) →
  sl_connected s' = bool_decide (is_Some (sl_client s')) →
  derp_inv (m <| dm_heap := <[ptr := s']> (dm_heap m) |>).
Proof.
  intros [Hs Hd Ho Hu Hf Hc Hcl] Hp Ec Er Eg En. destruct m as [cl mapv slots heap next op]; cbn in *.
  assert (∀ q t, <[ptr := s']> heap !! q = Some t → ∃ t0, heap !! q = Some t0 ∧ sl_client t = sl_client t0) as Hb.
  { intros q t. destruct (decide (q = ptr)) as [->|]; [rewrite lookup_insert_eq; intros [= <-]; by exists s|]. rewrite lookup_insert_ne by done. by exists t. }
  constructor; cbn.
  - intros id q Hq. destruct (Hs id q Hq) as (t & Ht & Hr & Hg). destruct (decide (q = ptr)) as [->|]; [|rewrite lookup_insert_ne by done; by exists t].
    rewrite lookup_insert_eq. exists s'. simplify_eq. split_and!; [done|done|]. destruct Eg as [->|[? _]]; done.
  - intros q t Hq Hno. destruct (decide (q = ptr)) as [->|]; [|rewrite lookup_insert_ne in Hq by done; by apply (Hd q)].
    rewrite lookup_insert_eq in Hq. injection Hq as <-. destruct (Hd ptr s Hp Hno) as [? ?]. destruct Eg as [->|[_ [id Hid]]]; [by rewrite Ec|]. by destruct (Hno id).
  - intros c. rewrite Ho. split.
    + intros (q & t & Hq & Ht). destruct (decide (q = ptr)) as [->|]; [exists ptr, s'; rewrite lookup_insert_eq; split; congruence|].
      exists q, t. by rewrite lookup_insert_ne.
    + intros (q & t & Hq & Ht). destruct (Hb q t Hq) as (t0 & Hq0 & E). exists q, t0. by rewrite <-E.
  - intros p1 p2 s1 s2 c H1 H2 E1 E2. destruct (Hb _ _ H1) as (t1 & H1' & F1). destruct (Hb _ _ H2) as (t2 & H2' & F2).
    apply (Hu p1 p2 t1 t2 c); congruence.
  - done.
  - intros q t. destruct (decide (q = ptr)) as [->|]; [rewrite lookup_insert_eq; by intros [= <-]|]. rewrite lookup_insert_ne by done. apply Hc.
  - done.
Qed.

(** Dropping the client of a slot closes its connection. *)
Lemma inv_drop_client m ptr s s' slots' : derp_inv m → dm_heap m !! ptr = Some s → sl_client s' = None → sl_region s' = sl_region s → sl_connected s' = false →
  (slots' = dm_slots m ∧ sl_config s' = sl_config s ∨ slots' = delete (sl_region s) (dm_slots m) ∧ sl_config s' = None ∧ dm_slots m !! sl_region s = Some ptr) →
  derp_inv ((on_some (sl_client s) closeClient m) <| dm_heap := <[ptr := s']> (dm_heap m) |> <| dm_slots := slots' |>).
Proof.
  intros [Hs Hd Ho Hu Hf Hc Hcl] Hp Ec Er En Eg.
  assert (∃ op, on_some (sl_client s) closeClient m = m <| dm_open := op |> ∧ ∀ c, c ∈ op ↔ c ∈ dm_open m ∧ sl_client s ≠ Some c) as (op & -> & Hop).
  { destruct (sl_client s) as [c|]; cbn; [eexists; split; [done|]; set_solver|]. exists (dm_open m). split; [by destruct m|set_solver]. }
  destruct m as [cl mapv slots heap next op0]; cbn in *.
  assert (∀ q t, <[ptr := s']> heap !! q = Some t → (q = ptr ∧ t = s') ∨ (q ≠ ptr ∧ heap !! q = Some t)) as Hb.
  { intros q t. destruct (decide (q = ptr)) as [->|]; [rewrite lookup_insert_eq; intros [= <-]; auto|]. rewrite lookup_insert_ne by done. auto. }
  assert (∀ id q, slots' !! id = Some q → slots !! id = Some q ∧ (q = ptr → sl_config s' = sl_config s)) as Hsl.
  { intros id q Hq. destruct Eg as [[-> Eg]|(-> & _ & _)]; [by split|]. apply lookup_delete_Some in Hq as [Hne Hq]. split; [done|]. intros ->.
    destruct (Hs id ptr Hq) as (t & Ht & Hr & _). congruence. }
  constructor; cbn.
  - intros id q Hq. destruct (Hsl id q Hq) as [Hq' Hcfg]. destruct (Hs id q Hq') as (t & Ht & Hr & Hg).
    destruct (decide (q = ptr)) as [->|]; [|rewrite lookup_insert_ne by done; by exists t].
    rewrite lookup_insert_eq. exists s'. simplify_eq. rewrite Hcfg by done. done.
  - intros q t Hq Hno. destruct (Hb q t Hq) as [[-> ->]|[Hne Hq']].
    + split; [|done]. destruct Eg as [[-> Eg]|(_ & Eg & _)]; [|done]. rewrite Eg. by destruct (Hd ptr s Hp Hno).
    + apply (Hd q); [done|]. intros id Hid. destruct Eg as [[-> _]|(-> & _ & Hptr)]; [by apply (Hno id)|].
      destruct (decide (id = sl_region s)) as [->|]; [congruence|]. apply (Hno id). by rewrite lookup_delete_ne.
  - intros c. rewrite Hop, Ho. split.
    + intros [(q & t & Hq & Ht) Hne]. exists q, t. destruct (decide (q = ptr)) as [->|]; [congruence|]. by rewrite lookup_insert_ne.
    + intros (q & t & Hq & Ht). destruct (Hb q t Hq) as [[-> ->]|[Hne Hq']]; [congruence|]. split; [by exists q, t|]. intros Hsc.
      apply Hne. by apply (Hu q ptr t s c).
  - intros p1 p2 s1 s2 c H1 H2 E1 E2. destruct (Hb _ _ H1) as [[-> ->]|[_ H1']]; [congruence|]. destruct (Hb _ _ H2) as [[-> ->]|[_ H2']]; [congruence|].
    by apply (Hu p1 p2 s1 s2 c).
  - intros c Hc'. apply Hop in Hc' as [? _]. auto.
  - intros q t Hq. destruct (Hb q t Hq) as [[-> ->]|[_ Hq']]; [|by apply (Hc q)]. rewrite En, Ec. done.
  - intros E. specialize (Hcl E). set_solver.
Qed.

(** ** The operations *)

Lemma inv_clearSlot expected ptr m : derp_inv m → derp_inv (clearSlot expected ptr m).
Proof.
  intros Hi. unfold clearSlot. destruct (dm_heap m !! ptr) as [s|] eqn:Ep; [|done]. destruct (_ && _); [done|]. cbv zeta.
  pose proof (inv_drop_client m ptr s (s <| sl_client := None |> <| sl_connected := false |>) (dm_slots m) Hi Ep) as Hd.
  destruct (sl_client s) as [c|] eqn:Ec; destruct m; cbn in *; apply Hd; try (by destruct s); left; by destruct s.
Qed.

Lemma clearSlot_frame expected ptr m : dm_slots (clearSlot expected ptr m) = dm_slots m ∧ dm_closed (clearSlot expected ptr m) = dm_closed m ∧
  dm_mapv (clearSlot expected ptr m) = dm_mapv m.
Proof.
  unfold clearSlot. destruct (dm_heap m !! ptr) as [s|]; [|done]. destruct (_ && _); [done|]. destruct (sl_client s); by destruct m.
Qed.

Lemma inv_updateSlot value m id ptr : derp_inv m → dm_slots m !! id = Some ptr → derp_inv (updateSlot value m (id, ptr)).
Proof.
  intros Hi Hid. unfold updateSlot. destruct (di_slots _ Hi id ptr Hid) as (s & Hs & Hr & Hg). rewrite Hs.
  destruct (mjoin _) as [region|].
  - eapply inv_keep_client; [done|done|by destruct s|by destruct s| |].
    + right. split; [by destruct s|by exists id].
    + pose proof (di_connected _ Hi _ _ Hs). by destruct s.
  - cbv zeta. subst id.
    set (s' := when _ _ _). assert (sl_client s' = None ∧ sl_region s' = sl_region s ∧ sl_connected s' = false ∧ sl_config s' = None) as (E1 & E2 & E3 & E4).
    { unfold s', when. pose proof (di_connected _ Hi _ _ Hs) as Hc. destruct s as [r g [c|] cg cd]; cbn in *; done. }
    pose proof (inv_drop_client m ptr s s' (delete (sl_region s) (dm_slots m)) Hi Hs E1 E2 E3) as Hd. clearbody s'.
    destruct (sl_client s); destruct m; cbn in *; apply Hd; auto.
Qed.

Lemma updateSlot_slots value m id ptr id' : id' ≠ id → dm_slots (updateSlot value m (id, ptr)) !! id' = dm_slots m !! id'.
Proof.
  intros Hne. unfold updateSlot. destruct (dm_heap m !! ptr) as [s|]; [|done]. destruct (mjoin _); [by destruct m|]. cbv zeta.
  destruct (sl_client s); destruct m; cbn; by rewrite lookup_delete_ne.
Qed.

Lemma inv_mapv m value : derp_inv m → derp_inv (m <| dm_mapv := value |>).
Proof. intros []. destruct m; by constructor. Qed.

Section Operations.
Context `{RangeOrder}.

Lemma inv_updateMap value m : derp_inv m → derp_inv (updateMap value m).
Proof.
  intros Hi. unfold updateMap. destruct (dm_closed m); [done|].
  assert (∀ l m, NoDup l.*1 → (∀ id ptr, (id, ptr) ∈ l → dm_slots m !! id = Some ptr) → derp_inv m → derp_inv (foldl (updateSlot value) m l)) as Hl.
  { clear. induction l as [|[id ptr] l IH]; intros m Hnd Hin Hi; cbn [foldl]; [done|]. apply NoDup_cons in Hnd as [Hn Hnd]. apply IH; [done| |].
    - intros id' ptr' Hin'. rewrite updateSlot_slots; [apply Hin; set_solver|]. intros ->. apply Hn. apply list_elem_of_fmap. by exists (id, ptr').
    - apply inv_updateSlot; [done|]. apply Hin. set_solver. }
  apply Hl; [apply NoDup_range| |by apply inv_mapv]. intros id ptr Hin. apply elem_of_range in Hin. by destruct m.
Qed.

Lemma inv_getSlot region m : derp_inv m → derp_inv (getSlot region m).1.
Proof.
  intros Hi. unfold getSlot. destruct (dm_closed m) eqn:Ec; [done|]. destruct (mjoin _) as [r|]; [|done]. destruct (dm_slots m !! region) eqn:Es; [done|]. cbv zeta. cbn [fst].
  set (ptr := fresh _). assert (dm_heap m !! ptr = None) as Hf by (apply not_elem_of_dom, is_fresh). clearbody ptr.
  destruct Hi as [Hs Hd Ho Hu Hfr Hc Hcl]. destruct m as [cl mapv slots heap next op]; cbn in *.
  assert (∀ q t, heap !! q = Some t → q ≠ ptr) as Hne by (intros q t Hq ->; congruence). constructor; cbn.
  - intros id q. destruct (decide (id = region)) as [->|]; [rewrite lookup_insert_eq|rewrite lookup_insert_ne by done].
    + intros [= <-]. rewrite lookup_insert_eq. by eexists.
    + intros Hq. destruct (Hs id q Hq) as (t & Ht & ?). exists t. rewrite lookup_insert_ne; [done|]. by eapply not_eq_sym, Hne.
  - intros q t Hq Hno. destruct (decide (q = ptr)) as [->|]; [destruct (Hno region); by rewrite lookup_insert_eq|]. rewrite lookup_insert_ne in Hq by done.
    apply (Hd q); [done|]. intros id Hid. apply (Hno id). rewrite lookup_insert_ne; [done|]. intros <-. congruence.
  - intros c. rewrite Ho. split.
    + intros (q & t & Hq & Ht). exists q, t. rewrite lookup_insert_ne; [done|]. by eapply not_eq_sym, Hne.
    + intros (q & t & Hq & Ht). destruct (decide (q = ptr)) as [->|]; [rewrite lookup_insert_eq in Hq; by simplify_eq|].
      rewrite lookup_insert_ne in Hq by done. by exists q, t.
  - intros p1 p2 s1 s2 c H1 H2 E1 E2. destruct (decide (p1 = ptr)) as [->|]; [rewrite lookup_insert_eq in H1; by simplify_eq|].
    destruct (decide (p2 = ptr)) as [->|]; [rewrite lookup_insert_eq in H2; by simplify_eq|]. rewrite lookup_insert_ne in H1, H2 by done. by apply (Hu p1 p2 s1 s2 c).
  - done.
  - intros q t. destruct (decide (q = ptr)) as [->|]; [rewrite lookup_insert_eq; by intros [= <-]|]. rewrite lookup_insert_ne by done. apply Hc.
  - done.
Qed.

(** A dial of a closed manager fails: its context is cancelled. *)
Definition dial_ok (dial : CDERPNode → option error) (m : derpManager) : Prop := dm_closed m = true → ∀ node, is_Some (dial node).

Lemma dialNodes_fail dial nodes : (∀ node, is_Some (dial node)) → ∀ firstErr, ∃ e, dialNodes dial nodes firstErr = Err e.
Proof.
  intros Hd. induction nodes as [|[node|] nodes IH]; intros firstErr; cbn [dialNodes]; [by eexists| |apply IH].
  destruct (CDERPNode_STUNOnly node); [apply IH|]. destruct (Hd node) as [e ->]. apply IH.
Qed.

Lemma inv_getClient dial ptr m : dial_ok dial m → derp_inv m → derp_inv (getClient dial ptr m).1.
Proof.
  intros Hdial Hi. unfold getClient. destruct (dm_heap m !! ptr) as [s|] eqn:Ep; [|done].
  destruct (sl_client s) as [c|] eqn:Ec.
  { eapply inv_keep_client; [done|done|by destruct s|by destruct s|left; by destruct s|]. destruct s; cbn in *. by rewrite Ec. }
  destruct (sl_config s) as [config|] eqn:Eg; [|done].
  destruct (dialNodes dial _ None) as [node|e] eqn:Ed; [|done]. cbv zeta. cbn [fst].
  destruct (dm_closed m) eqn:Ecl.
  { destruct (dialNodes_fail dial (elems (CDERPRegion_Nodes config)) (Hdial Ecl) None) as [e He]. congruence. }
  destruct Hi as [Hs Hd Ho Hu Hfr Hc Hcl]. set (c := dm_nextClient m). set (s' := s <| sl_client := Some c |> <| sl_connected := true |>).
  assert (sl_client s' = Some c ∧ sl_region s' = sl_region s ∧ sl_config s' = sl_config s ∧ sl_connected s' = true) as (E1 & E2 & E3 & E4) by by destruct s.
  clearbody s'. destruct m as [cl mapv slots heap next op]; cbn in *. subst c.
  assert (∀ q t c, heap !! q = Some t → sl_client t = Some c → (c < next)%nat) as Hlt by (intros q t c Hq Ht; apply Hfr, Ho; eauto).
  assert (∀ q t, <[ptr := s']> heap !! q = Some t → (q = ptr ∧ t = s') ∨ (q ≠ ptr ∧ heap !! q = Some t)) as Hb.
  { intros q t. destruct (decide (q = ptr)) as [->|]; [rewrite lookup_insert_eq; intros [= <-]; auto|]. rewrite lookup_insert_ne by done. auto. }
  constructor; cbn; [| | | | | |congruence].
  - intros id q Hq. destruct (Hs id q Hq) as (t & Ht & Hr & Hg). destruct (decide (q = ptr)) as [->|]; [|rewrite lookup_insert_ne by done; by exists t].
    rewrite lookup_insert_eq. exists s'. simplify_eq. by rewrite E3.
  - intros q t Hq Hno. destruct (Hb q t Hq) as [[-> ->]|[_ Hq']]; [|by apply (Hd q)]. destruct (Hd ptr s Ep Hno). congruence.
  - intros c. rewrite elem_of_union, elem_of_singleton, Ho. split.
    + intros [->|(q & t & Hq & Ht)]; [exists ptr, s'; by rewrite lookup_insert_eq|]. exists q, t. rewrite lookup_insert_ne; [done|]. congruence.
    + intros (q & t & Hq & Ht). destruct (Hb q t Hq) as [[-> ->]|[_ Hq']]; [left; congruence|]. right. by exists q, t.
  - intros p1 p2 s1 s2 c H1 H2 F1 F2. destruct (Hb _ _ H1) as [[-> ->]|[_ H1']]; destruct (Hb _ _ H2) as [[-> ->]|[_ H2']]; [done| | |by apply (Hu p1 p2 s1 s2 c)].
    + pose proof (Hlt _ _ _ H2' F2). assert (c = next) by congruence. lia.
    + pose proof (Hlt _ _ _ H1' F1). assert (c = next) by congruence. lia.
  - intros c [->%elem_of_singleton|Hc']%elem_of_union; [lia|]. specialize (Hfr c Hc'). lia.
  - intros q t Hq. destruct (Hb q t Hq) as [[-> ->]|[_ Hq']]; [by rewrite E1, E4|by apply (Hc q)].
Qed.

Lemma getSlot_closed region m : dm_closed (getSlot region m).1 = dm_closed m.
Proof. unfold getSlot. destruct (dm_closed m) eqn:E; [done|]. destruct (mjoin _); [|done]. destruct (dm_slots m !! region); by destruct m. Qed.

Lemma inv_ensureAsync region m : derp_inv m → derp_inv (ensureAsync region m).1.
Proof.
  intros Hi. unfold ensureAsync. pose proof (inv_getSlot region m Hi) as Hg. destruct (getSlot region m) as [m1 [ptr|e]]; cbn [fst] in Hg; [|done].
  destruct (dm_heap m1 !! ptr) as [s|] eqn:Ep; [|done]. destruct (_ || _); [done|]. cbn [fst].
  eapply inv_keep_client; [done|done|by destruct s|by destruct s|left; by destruct s|]. pose proof (di_connected _ Hg _ _ Ep). by destruct s.
Qed.

Lemma inv_ensureConnect dial ptr m : dial_ok dial m → derp_inv m → derp_inv (ensureConnect dial ptr m).
Proof.
  intros Hd Hi. unfold ensureConnect. cbv zeta. pose proof (inv_getClient dial ptr m Hd Hi) as Hg. set (m1 := (getClient dial ptr m).1) in *. clearbody m1.
  destruct (dm_heap m1 !! ptr) as [s|] eqn:Ep; [|done].
  eapply inv_keep_client; [done|done|by destruct s|by destruct s|left; by destruct s|]. pose proof (di_connected _ Hg _ _ Ep). by destruct s.
Qed.

Lemma inv_derpSend ctx dial transmit region destination packet m : dial_ok dial m → derp_inv m →
  derp_inv (derpSend ctx dial transmit region destination packet m).1.
Proof.
  intros Hd Hi. unfold derpSend. destruct ctx as [[e|]|]; [done| |done].
  pose proof (inv_getSlot region m Hi) as H1. pose proof (getSlot_closed region m) as Ec. destruct (getSlot region m) as [m1 [ptr|e]]; cbn [fst] in *; [|done].
  assert (dial_ok dial m1) as Hd1 by (intros E; apply Hd; congruence). pose proof (inv_getClient dial ptr m1 Hd1 H1) as H2.
  destruct (getClient dial ptr m1) as [m2 [client|e]]; cbn [fst] in *; [|done]. destruct (transmit client destination packet); [by apply inv_clearSlot|done].
Qed.

(** *** Closing *)

Definition no_client (ptr : nat) (m : derpManager) : Prop := ∀ s, dm_heap m !! ptr = Some s → sl_client s = None.

Lemma clearSlot_heap expected ptr m q : dm_heap (clearSlot expected ptr m) !! q = dm_heap m !! q ∨
  q = ptr ∧ no_client q (clearSlot expected ptr m).
Proof.
  unfold clearSlot. destruct (dm_heap m !! ptr) as [s|] eqn:Ep; [|by left]. destruct (_ && _); [by left|]. cbv zeta.
  destruct (decide (q = ptr)) as [->|]; [right; split; [done|]|left].
  - unfold no_client. destruct (sl_client s); destruct m; cbn; rewrite lookup_insert_eq; intros ? [= <-]; by destruct s.
  - destruct (sl_client s); destruct m; cbn; by rewrite lookup_insert_ne.
Qed.

Lemma clearSlot_clears ptr m : no_client ptr (clearSlot None ptr m).
Proof.
  unfold clearSlot. destruct (dm_heap m !! ptr) as [s|] eqn:Ep; [|intros s Hs; congruence]. rewrite bool_decide_eq_false_2 by (by intros []). cbn [andb]. cbv zeta.
  unfold no_client. destruct (sl_client s); destruct m; cbn; rewrite lookup_insert_eq; intros ? [= <-]; by destruct s.
Qed.

Lemma closeAll l : ∀ m, derp_inv m → let m' := foldl (λ m (entry : Z * nat), clearSlot None entry.2 m) m l in
  derp_inv m' ∧ dm_slots m' = dm_slots m ∧ dm_closed m' = dm_closed m ∧ (∀ ptr, no_client ptr m → no_client ptr m') ∧
  (∀ entry, entry ∈ l → no_client entry.2 m').
Proof.
  induction l as [|entry l IH]; intros m Hi; cbn [foldl]; [by split_and!; set_solver|]. cbv zeta.
  destruct (IH (clearSlot None entry.2 m) (inv_clearSlot None entry.2 m Hi)) as (H1 & H2 & H3 & H4 & H5).
  destruct (clearSlot_frame None entry.2 m) as (E1 & E2 & _). split_and!; [done|congruence|congruence| |].
  - intros ptr Hp. apply H4. destruct (clearSlot_heap None entry.2 m ptr) as [E|[-> ?]]; [|done]. intros s. rewrite E. apply Hp.
  - intros e [->|He]%elem_of_cons; [apply H4, clearSlot_clears|by apply H5].
Qed.

Lemma closeConnections_ok m : derp_inv m → derp_inv (closeConnections m) ∧ dm_open (closeConnections m) = ∅ ∧ dm_closed (closeConnections m) = dm_closed m.
Proof.
  intros Hi. destruct (closeAll (range 26 (dm_slots m)) m Hi) as (H1 & H2 & H3 & _ & H5). fold (closeConnections m) in *. split; [done|]. split; [|done].
  apply set_eq. intros c. rewrite (di_open _ H1). split; [|set_solver]. intros (ptr & s & Hp & Hc). exfalso.
  destruct (decide (dm_slots m !! sl_region s = Some ptr)) as [Hs|Hs].
  - assert (sl_client s = None) by (apply (H5 (sl_region s, ptr)); [by apply elem_of_range|done]). congruence.
  - destruct (di_dead _ H1 ptr s Hp) as [_ ?]; [|congruence]. intros id Hid. rewrite H2 in Hid. destruct (di_slots _ H1 id ptr) as (t & Ht & Hr & _); [by rewrite H2|].
    simplify_eq.
Qed.

Lemma clearSlot_closed expected ptr m : clearSlot expected ptr (m <| dm_closed := true |>) = clearSlot expected ptr m <| dm_closed := true |>.
Proof. unfold clearSlot. destruct m as [cl mapv slots heap next op]; cbn. destruct (heap !! ptr) as [s|]; [|done]. destruct (_ && _); [done|]. by destruct (sl_client s). Qed.

Lemma inv_derpClose m : derp_inv m → derp_inv (derpClose m) ∧ dm_open (derpClose m) = ∅ ∧ dm_closed (derpClose m) = true.
Proof.
  intros Hi. unfold derpClose. destruct (dm_closed m) eqn:Ec; [split_and!; [done|by apply (di_closed _ Hi)|done]|].
  destruct (closeConnections_ok m Hi) as (H1 & H2 & _).
  assert (closeConnections (m <| dm_closed := true |>) = closeConnections m <| dm_closed := true |>) as ->.
  { unfold closeConnections. destruct m as [cl mapv slots heap next op]; cbn. generalize (range 26 slots). intros l.
    change (mkderpManager true mapv slots heap next op) with (mkderpManager cl mapv slots heap next op <| dm_closed := true |>).
    generalize (mkderpManager cl mapv slots heap next op). induction l as [|entry l IH]; intros m; cbn [foldl]; [done|]. by rewrite clearSlot_closed, IH. }
  set (m' := closeConnections m) in *. clearbody m'. destruct H1, m'; cbn in *. split; [by constructor|done].
Qed.

(** ** Every run *)

Inductive derp_step : derpManager → derpManager → Prop :=
| dstep_updateMap value m : derp_step m (updateMap value m)
| dstep_ensure region m : derp_step m (ensureAsync region m).1
| dstep_connect dial ptr m : dial_ok dial m → derp_step m (ensureConnect dial ptr m)
| dstep_send ctx dial transmit region destination packet m : dial_ok dial m →
    derp_step m (derpSend ctx dial transmit region destination packet m).1
| dstep_readLoop_end client ptr m : derp_step m (clearSlot (Some client) ptr m)
| dstep_closeConnections m : derp_step m (closeConnections m)
| dstep_close m : derp_step m (derpClose m).

Lemma inv_derp_step m m' : derp_step m m' → derp_inv m → derp_inv m'.
Proof.
  destruct 1; intros Hi; [by apply inv_updateMap|by apply inv_ensureAsync|by apply inv_ensureConnect|by apply inv_derpSend|by apply inv_clearSlot| |].
  - by apply closeConnections_ok.
  - by apply inv_derpClose.
Qed.

(** C9. Relay connections never leak: in every reachable state of the manager,
    whatever goroutines hold of its slots, each open connection is the client
    of exactly one slot and a slot has at most one, every slot of a region
    reports itself connected exactly when it is, a region that is no longer in
    the map has neither a configuration nor a connection, and once the manager
    is closed (when dialing fails) no connection is open or will be. *)
Theorem reachable_derp_inv m (Hreach : rtc derp_step newDERPManager m) :
  derp_inv m ∧ dm_open (derpClose m) = ∅ ∧
  (∀ c, c ∈ dm_open m → exists! ptr, ∃ s, dm_heap m !! ptr = Some s ∧ sl_client s = Some c ∧ dm_slots m !! sl_region s = Some ptr).
Proof.
  assert (derp_inv m) as Hi.
  { pose proof derp_inv_new as H0. induction Hreach as [|m1 m2 m3 Hs _ IH]; [done|]. by eapply IH, inv_derp_step. }
  split; [done|]. split; [by apply inv_derpClose|]. intros c Hc. apply (di_open _ Hi) in Hc as (ptr & s & Hp & Hcl). exists ptr. split.
  - exists s. split_and!; [done..|]. destruct (decide (dm_slots m !! sl_region s = Some ptr)) as [|Hn]; [done|]. exfalso.
    destruct (di_dead _ Hi ptr s Hp) as [_ ?]; [|congruence]. intros id Hid. destruct (di_slots _ Hi id ptr Hid) as (t & Ht & Hr & _). simplify_eq.
  - intros q (t & Hq & Ht & _). by eapply (di_unique _ Hi).
Qed.
End Operations.

#[local] Existing Instance canonical_order.

Lemma reachable_derp_inv_witness :
  let m := (derpSend (Some None) (λ _, None) (λ _ _ _, None) 1 (to_array 32 [x03]) [x01] (updateMap (Some demo_derp_map) newDERPManager)).1 in
  derp_inv m ∧ 0%nat ∈ dm_open m.
Proof.
  cbv zeta. split; [|vm_compute; reflexivity].
  apply reachable_derp_inv. eapply rtc_l; [apply (dstep_updateMap (Some demo_derp_map))|]. apply rtc_once. apply dstep_send. intros E. vm_compute in E. discriminate.
Defined.

(** ** A dial that succeeds *)

#[local] Existing Instance xor_box.
#[local] Existing Instance xor_box_laws.

(** A connection without errors to a relay whose private key is [server]. *)
Definition demo_dial (server : PrivateKey) : DERPDial :=
  mkDERPDial (λ _, None) (λ _ _, None) (λ _, None) None (Ok (101, "101 Switching Protocols", ""))
    (encodeFrames [(derpFrameServerKey, derpMagic ++ arr_bytes (PublicNode server))]) (to_array 24 [x09]) (λ _, None) None.

Definition demo_derp_node : CDERPNode := mkCDERPNode "1a" 1 "relay.example" "" "" "" 0 false 0 false "".

Lemma dialDERP_authenticates_witness :
  let server := to_array 32 [x08] in
  let node := to_array 32 [x03] in
  ∃ session payload, dialDERP node "" (demo_dial server) demo_derp_node = Ok session ∧
    readDERPFrame (ss_sent session) = Ok (derpFrameClientInfo, payload, []) ∧
    take 32 payload = arr_bytes (PublicNode node).
Proof.
  cbv zeta. destruct (dialDERP (to_array 32 [x03]) "" (demo_dial (to_array 32 [x08])) demo_derp_node) as [session|e] eqn:E; [|vm_compute in E; discriminate].
  destruct (dialDERP_authenticates _ _ _ _ _ (to_array 32 [x08]) E) as (greeting & server & payload & _ & _ & Hsent & Hname & _).
  exists session, payload. split; [reflexivity|]. split; [exact Hsent|exact Hname].
Defined.
