(* ===== verification/Noise.v ===== *)
(** * The Noise channel of the control connection ([internal/controlproto/noise.go])

    The client's side of the Noise IK handshake and the record layer.  The hash,
    the key derivation, X25519 and the AEAD come from [golang.org/x/crypto] and
    are an interface, [NoiseCrypto], with their documented behaviour
    [NoiseLaws].  A Go panic is [None]; the connection is the bytes it delivers
    and the outcome of each write. *)

From Stdlib Require Import ZArith Lia Ascii String Strings.Byte.
From S2P Require Export Keys Errors.
Open Scope Z_scope.

Definition noiseProtocolName : string := "Noise_IK_25519_ChaChaPoly_BLAKE2s".
Definition noiseVersionPrefix : string := "Tailscale Control Protocol v".
Definition noiseOverhead : nat := 16.
Definition noiseHeaderLen : nat := 3.
Definition noiseMaxMessageSize : nat := 4096.
Definition noiseMaxCiphertext : nat := noiseMaxMessageSize - noiseHeaderLen.
Definition noiseMaxPlaintext : nat := noiseMaxCiphertext - noiseOverhead.
Definition noiseInvalidNonce : Z := 2 ^ 64 - 1.

(** [hkdf2 secret salt] are the first two 32-byte blocks of HKDF; [X25519] fails
    on a low-order point. *)
Class NoiseCrypto `{BoxOps} := {
  blake2s : list byte → array 32;
  hkdf2 : list byte → array 32 → array 32 * array 32;
  X25519 : array 32 → array 32 → option (array 32);
  aeadSeal : array 32 → list byte → list byte → list byte → list byte;
  aeadOpen : array 32 → list byte → list byte → list byte → option (list byte)
}.

Class NoiseLaws `(N : NoiseCrypto) := {
  (** Both sides of a Diffie-Hellman exchange compute the same secret. *)
  X25519_comm a b : X25519 a (ScalarBaseMult b) = X25519 b (ScalarBaseMult a);
  (** What is sealed opens under the same key, nonce and additional data. *)
  aeadOpen_Seal key nonce plaintext ad : aeadOpen key nonce (aeadSeal key nonce plaintext ad) ad = Some plaintext;
  (** Sealing adds a tag of 16 bytes. *)
  length_aeadSeal key nonce plaintext ad : length (aeadSeal key nonce plaintext ad) = (length plaintext + noiseOverhead)%nat
}.

Definition ErrAEAD : error := ErrText "chacha20poly1305: message authentication failed".

(** ** The handshake state *)

Record symmetricState := mksymmetricState { ns_finished : bool; ns_ck : array 32; ns_h : array 32 }.

#[export] Instance symmetricState_fields : Fields symmetricState := λ r, mksymmetricState (ns_finished r) (ns_ck r) (ns_h r).

(** An AEAD that may be used once: [None] once it has been. *)
Definition singleUseAEAD : Type := option (array 32).

Definition handshakeNonce : list byte := replicate 12 x00.

Section Noise.
Context `{NoiseCrypto}.

Definition initialize : symmetricState :=
  let h := blake2s (bytes_of_string noiseProtocolName) in mksymmetricState false h h.

(** The state, unless it is finished. *)
Definition check (s : symmetricState) : option symmetricState := if ns_finished s then None else Some s.

Definition mixHash (data : list byte) (s : symmetricState) : option symmetricState :=
  s ← check s; Some (s <| ns_h := blake2s (arr_bytes (ns_h s) ++ data) |>).

Definition newSingleUseAEAD (key : array 32) : singleUseAEAD := Some key.

Definition mixDH (private : PrivateKey) (public : MachinePublic) (s : symmetricState) : option (result error (symmetricState * singleUseAEAD)) :=
  s ← check s;
  match X25519 private public with
  | None => Some (Err (ErrText "X25519: bad input point: low order point"))
  | Some keyData =>
      let '(ck, key) := hkdf2 (arr_bytes keyData) (ns_ck s) in
      Some (Ok (s <| ns_ck := ck |>, newSingleUseAEAD key))
  end.

(** [Seal] and [Open]; both use the AEAD up. *)
Definition aead_Seal (aead : singleUseAEAD) (plaintext ad : list byte) : option (singleUseAEAD * list byte) :=
  key ← aead; Some (None, aeadSeal key handshakeNonce plaintext ad).

Definition aead_Open (aead : singleUseAEAD) (ciphertext ad : list byte) : option (singleUseAEAD * option (list byte)) :=
  key ← aead; Some (None, aeadOpen key handshakeNonce ciphertext ad).

(** [dstLen] is the length of the destination. *)
Definition encryptAndHash (aead : singleUseAEAD) (dstLen : nat) (plaintext : list byte) (s : symmetricState) : option (symmetricState * list byte) :=
  if negb (dstLen =? length plaintext + noiseOverhead)%nat then None
  else
    sealed ← aead_Seal aead plaintext (arr_bytes (ns_h s));
    s ← mixHash sealed.2 s;
    Some (s, sealed.2).

Definition decryptAndHash (aead : singleUseAEAD) (dstLen : nat) (ciphertext : list byte) (s : symmetricState) : option (result error (symmetricState * list byte)) :=
  if negb (length ciphertext =? dstLen + noiseOverhead)%nat then Some (Err (ErrText "wrong Noise handshake plaintext length"))
  else
    opened ← aead_Open aead ciphertext (arr_bytes (ns_h s));
    match opened.2 with
    | None => Some (Err ErrAEAD)
    | Some plaintext => s ← mixHash ciphertext s; Some (Ok (s, plaintext))
    end.

(** The keys of the two directions. *)
Definition split (s : symmetricState) : symmetricState * (array 32 * array 32) :=
  (s <| ns_finished := true |>, hkdf2 [] (ns_ck s)).

Definition protocolPrologue (version : Z) : list byte := bytes_of_string (noiseVersionPrefix +:+ Itoa version).

(** ** The client's handshake *)

(** The first message and what the continuation keeps; [rand] is the randomness of
    the ephemeral key. *)
Record Deferred := mkDeferred { df_initial : list byte; df_state : symmetricState; df_ephemeral : PrivateKey }.

Definition initialHeader (version : Z) : list byte := be_encode 2 version ++ [x01] ++ be_encode 2 96.

Definition clientDeferred (rand : option (array 32)) (machineKey : PrivateKey) (controlKey : MachinePublic) (version : Z)
    : option (result error Deferred) :=
  state ← mixHash (protocolPrologue version) initialize;
  state ← mixHash (arr_bytes controlKey) state;
  match NewPrivateKey rand with
  | Err e => Some (Err (ErrText e))
  | Ok ephemeral =>
      let ephemeralPublic := PublicMachine ephemeral in
      state ← mixHash (arr_bytes ephemeralPublic) state;
      es ← mixDH ephemeral controlKey state;
      match es with
      | Err e => Some (Err (ErrWrap "noise es" e))
      | Ok (state, aead) =>
          sealedKey ← encryptAndHash aead 48 (arr_bytes (PublicMachine machineKey)) state;
          ss ← mixDH machineKey controlKey sealedKey.1;
          match ss with
          | Err e => Some (Err (ErrWrap "noise ss" e))
          | Ok (state, aead) =>
              sealedNil ← encryptAndHash aead 16 [] state;
              Some (Ok (mkDeferred (initialHeader version ++ arr_bytes ephemeralPublic ++ sealedKey.2 ++ sealedNil.2) sealedNil.1 ephemeral))
          end
      end
  end.

(** One direction of the channel. *)
Record noiseDirection := mknoiseDirection {
  nd_cipher : option (array 32);
  nd_nonce : Z;
  nd_err : option error;
  nd_plain : list byte
}.

Record NoiseConn := mkNoiseConn { nc_rx : noiseDirection; nc_tx : noiseDirection }.

Definition newDirection (key : array 32) : noiseDirection := mknoiseDirection (Some key) 0 None [].

(** The continuation, on the bytes the connection delivers; what is left of them
    with the channel.  [deadlineErr] is the error of setting the deadline. *)
Definition continueHandshake (deadlineErr : option error) (machineKey : PrivateKey) (d : Deferred) (stream : list byte)
    : option (result error (NoiseConn * list byte)) :=
  match deadlineErr with
  | Some e => Some (Err e)
  | None =>
      match ReadFull 3 stream with
      | Err e => Some (Err (ErrWrap "read Noise response header" e))
      | Ok (header, stream) =>
          kind ← header !! 0%nat;
          let length := be_decode (drop 1 header) in
          if bool_decide (kind = x03) then
            (* the message of a short read is padded with zero bytes *)
            let msg := take (Z.to_nat length) (stream ++ replicate (Z.to_nat length) x00) in
            Some (Err (ErrText ("control server Noise error: " +:+ string_of_bytes msg)))
          else if negb (bool_decide (kind = x02)) || negb (length =? 48) then
            Some (Err (ErrText ("invalid Noise response type=" +:+ Itoa (b2z kind) +:+ " length=" +:+ Itoa length)))
          else match ReadFull (Z.to_nat length) stream with
               | Err e => Some (Err e)
               | Ok (payload, stream) =>
                   serverBytes ← subslice 0 32 payload;
                   let serverEphemeral := to_array 32 serverBytes in
                   state ← mixHash (arr_bytes serverEphemeral) (df_state d);
                   ee ← mixDH (df_ephemeral d) serverEphemeral state;
                   match ee with
                   | Err e => Some (Err (ErrWrap "noise ee" e))
                   | Ok (state, _) =>
                       se ← mixDH machineKey serverEphemeral state;
                       match se with
                       | Err e => Some (Err (ErrWrap "noise se" e))
                       | Ok (state, aead) =>
                           opened ← decryptAndHash aead 0 (drop 32 payload) state;
                           match opened with
                           | Err e => Some (Err (ErrWrap "authenticate Noise response" e))
                           | Ok (state, _) =>
                               let '(_, (tx, rx)) := split state in
                               Some (Ok (mkNoiseConn (newDirection rx) (newDirection tx), stream))
                           end
                       end
                   end
               end
      end
  end.

(** ** The record layer *)

(** The 12-byte nonce: four zero bytes and a 64-bit counter. *)
Definition nonceBytes (n : Z) : list byte := be_encode 4 0 ++ be_encode 8 n.
Definition nonce_valid (n : Z) : bool := negb (n =? noiseInvalidNonce).
Definition increment (n : Z) : option Z := if nonce_valid n then Some (uwrap 64 (n + 1)) else None.

(** A record as [Write] frames it. *)
Definition noiseRecord (key : array 32) (nonce : Z) (chunk : list byte) : list byte :=
  x04 :: be_encode 2 (Z.of_nat (length chunk + noiseOverhead)) ++ aeadSeal key (nonceBytes nonce) chunk [].

(** What a call of [Write] did: the direction after it, the frames handed to the
    connection, the count and the error. *)
Record WriteResult := mkWriteResult { wr_dir : noiseDirection; wr_frames : list (list byte); wr_written : Z; wr_err : option error }.

(** The loop of [Write]; every round takes at least one byte, so that the length
    of [src] is fuel enough. *)
Fixpoint writeLoop (fuel : nat) (connWrite : list byte → option error) (key : array 32) (dir : noiseDirection) (src : list byte)
    (frames : list (list byte)) (written : Z) : option WriteResult :=
  match src, fuel with
  | [], _ => Some (mkWriteResult dir frames written None)
  | _, O => None
  | _, S fuel =>
      let chunk := take noiseMaxPlaintext src in
      let frame := noiseRecord key (nd_nonce dir) chunk in
      nonce ← increment (nd_nonce dir);
      let dir := mknoiseDirection (nd_cipher dir) nonce (nd_err dir) (nd_plain dir) in
      let frames := frames ++ [frame] in
      match connWrite frame with
      | Some e => Some (mkWriteResult (mknoiseDirection None nonce (Some e) (nd_plain dir)) frames written (Some e))
      | None => writeLoop fuel connWrite key dir (drop (length chunk) src) frames (written + Z.of_nat (length chunk))
      end
  end.

Definition NoiseWrite (connWrite : list byte → option error) (src : list byte) (dir : noiseDirection) : option WriteResult :=
  match nd_err dir, nd_cipher dir with
  | Some e, _ => Some (mkWriteResult dir [] 0 (Some e))
  | None, None => Some (mkWriteResult dir [] 0 (Some ErrNetClosed))
  | None, Some key => writeLoop (length src) connWrite key dir src [] 0
  end.

(** One record of the loop of [Read]: the plaintext and what is left to read.  A
    record that does not open closes the direction. *)
Definition readRecord (key : array 32) (dir : noiseDirection) (stream : list byte)
    : option (noiseDirection * list byte * result error (list byte)) :=
  match ReadFull 3 stream with
  | Err e => Some (dir, [], Err e)
  | Ok (header, stream) =>
      kind ← header !! 0%nat;
      let length := be_decode (drop 1 header) in
      if negb (bool_decide (kind = x04)) then Some (dir, stream, Err (ErrText ("unexpected Noise record type " +:+ Itoa (b2z kind))))
      else if (Z.of_nat noiseMaxCiphertext <? length) || (length <? Z.of_nat noiseOverhead)
      then Some (dir, stream, Err (ErrText ("invalid Noise record length " +:+ Itoa length)))
      else match ReadFull (Z.to_nat length) stream with
           | Err e => Some (dir, [], Err e)
           | Ok (ciphertext, stream) =>
               let plain := aeadOpen key (nonceBytes (nd_nonce dir)) ciphertext [] in
               nonce ← increment (nd_nonce dir);
               match plain with
               | None => Some (mknoiseDirection None nonce (nd_err dir) (nd_plain dir), stream, Err ErrAEAD)
               | Some plain => Some (mknoiseDirection (nd_cipher dir) nonce (nd_err dir) plain, stream, Ok plain)
               end
           end
  end.

(** The loop of [Read]: records until there is plaintext; every record takes at
    least three bytes. *)
Fixpoint readRecords (fuel : nat) (key : array 32) (dir : noiseDirection) (stream : list byte)
    : option (noiseDirection * list byte * option error) :=
  match nd_plain dir, fuel with
  | _ :: _, _ => Some (dir, stream, None)
  | [], O => None
  | [], S fuel =>
      match readRecord key dir stream with
      | None => None
      | Some (dir, stream, Err e) => Some (dir, stream, Some e)
      | Some (dir, stream, Ok _) => readRecords fuel key dir stream
      end
  end.

(** [Read] into a buffer of [n] bytes. *)
Definition NoiseRead (n : nat) (dir : noiseDirection) (stream : list byte) : option (noiseDirection * list byte * result error (list byte)) :=
  match nd_cipher dir with
  | None => Some (dir, stream, Err ErrNetClosed)
  | Some key =>
      match readRecords (S (length stream)) key dir stream with
      | None => None
      | Some (dir, stream, Some e) => Some (dir, stream, Err e)
      | Some (dir, stream, None) =>
          Some (mknoiseDirection (nd_cipher dir) (nd_nonce dir) (nd_err dir) (drop n (nd_plain dir)), stream, Ok (take n (nd_plain dir)))
      end
  end.

(** [closeErr] is what closing the connection returns. *)
Definition NoiseClose (closeErr : option error) (c : NoiseConn) : NoiseConn * option error :=
  let closed dir := mknoiseDirection None (nd_nonce dir) (nd_err dir) (nd_plain dir) in
  (mkNoiseConn (closed (nc_rx c)) (closed (nc_tx c)), closeErr).
End Noise.
