(* ===== verification/NoiseProps.v ===== *)
(** * Theorems on the Noise channel

    What one side writes the other reads, whatever the sizes of writes and
    reads; nonces are never reused and records are bounded; and the handshake
    agrees with a responder written from the Noise IK pattern. *)

From Stdlib Require Import ZArith Lia Ascii String Strings.Byte.
From S2P Require Export Noise.
Open Scope Z_scope.

(** ** Records *)

Section Records.
Context `{NL : NoiseLaws}.

(** The records of some chunks, with consecutive nonces. *)
Fixpoint recordStream (key : array 32) (n : Z) (chunks : list (list byte)) : list (list byte) :=
  match chunks with
  | [] => []
  | chunk :: chunks => noiseRecord key n chunk :: recordStream key (n + 1) chunks
  end.

Definition chunk_ok (chunk : list byte) : Prop := (1 ≤ length chunk ≤ noiseMaxPlaintext)%nat.

Lemma increment_ok n : 0 ≤ n < noiseInvalidNonce → increment n = Some (n + 1).
Proof.
  unfold increment, nonce_valid, noiseInvalidNonce. intros Hn. destruct (Z.eqb_spec n (2 ^ 64 - 1)); [lia|]. cbn [negb].
  rewrite uwrap_small by lia. done.
Qed.

Lemma length_noiseRecord key n chunk : length (noiseRecord key n chunk) = (3 + (length chunk + noiseOverhead))%nat.
Proof. unfold noiseRecord. cbn [length]. rewrite length_app, length_be_encode, length_aeadSeal. lia. Qed.

Lemma chunk_take src : src ≠ [] → chunk_ok (take noiseMaxPlaintext src).
Proof. intros Hs. unfold chunk_ok. rewrite length_take. destruct src; [done|]. unfold noiseMaxPlaintext, noiseMaxCiphertext, noiseMaxMessageSize, noiseHeaderLen, noiseOverhead. cbn [length]. lia. Qed.

(** The loop of [Write] over a connection that takes every frame. *)
Lemma writeLoop_records connWrite key err plain : (∀ frame, connWrite frame = None) → ∀ fuel src n frames written,
  (length src ≤ fuel)%nat → 0 ≤ n → n + Z.of_nat (length src) ≤ noiseInvalidNonce →
  ∃ chunks, concat chunks = src ∧ Forall chunk_ok chunks ∧ (length chunks ≤ length src)%nat ∧
    writeLoop fuel connWrite key (mknoiseDirection (Some key) n err plain) src frames written =
      Some (mkWriteResult (mknoiseDirection (Some key) (n + Z.of_nat (length chunks)) err plain)
        (frames ++ recordStream key n chunks) (written + Z.of_nat (length src)) None).
Proof.
  intros Hc. induction fuel as [|fuel IH]; intros src n frames written Hf Hn Hmax.
  - destruct src; [|cbn in Hf; lia]. exists []. cbn. split_and!; [done|constructor|lia|]. do 2 f_equal; [f_equal; lia|by rewrite app_nil_r|lia].
  - destruct src as [|x src]; [exists []; cbn; split_and!; [done|constructor|lia|]; do 2 f_equal; [f_equal; lia|by rewrite app_nil_r|lia]|].
    set (s := x :: src) in *. assert (s ≠ []) as Hs by done. pose proof (chunk_take s Hs) as Hck. assert (length s = S (length src)) as Hls by done.
    assert (writeLoop (S fuel) connWrite key (mknoiseDirection (Some key) n err plain) s frames written =
      writeLoop fuel connWrite key (mknoiseDirection (Some key) (n + 1) err plain) (drop (length (take noiseMaxPlaintext s)) s)
        (frames ++ [noiseRecord key n (take noiseMaxPlaintext s)]) (written + Z.of_nat (length (take noiseMaxPlaintext s)))) as ->.
    { unfold s at 1. cbn [writeLoop nd_nonce nd_cipher nd_err nd_plain]. fold s. cbv zeta. rewrite increment_ok by lia. cbn [mbind option_bind]. by rewrite Hc. }
    set (chunk := take noiseMaxPlaintext s) in *. assert (length chunk + length (drop (length chunk) s) = length s)%nat as Hlen.
    { rewrite length_drop. unfold chunk. rewrite length_take. lia. }
    destruct Hck as [Hck1 Hck2]. destruct (IH (drop (length chunk) s) (n + 1) (frames ++ [noiseRecord key n chunk]) (written + Z.of_nat (length chunk)))
      as (chunks & Hcat & Hok & Hnum & ->); [lia..|].
    exists (chunk :: chunks). cbn [concat length recordStream]. split_and!.
    + rewrite Hcat. unfold chunk. rewrite length_take. destruct (Nat.le_ge_cases noiseMaxPlaintext (length s)); [rewrite Nat.min_l by done; apply take_drop|].
      rewrite Nat.min_r, take_ge, drop_ge by done. apply app_nil_r.
    + by constructor.
    + lia.
    + do 2 f_equal; [f_equal; lia|by rewrite <-app_assoc|lia].
Qed.

(** Reading back one record. *)
Lemma readRecord_written key dir chunk rest : nd_cipher dir = Some key → chunk_ok chunk → 0 ≤ nd_nonce dir < noiseInvalidNonce →
  readRecord key dir (noiseRecord key (nd_nonce dir) chunk ++ rest) =
    Some (mknoiseDirection (Some key) (nd_nonce dir + 1) (nd_err dir) chunk, rest, Ok chunk).
Proof.
  intros Hk [Hc1 Hc2] Hn. unfold noiseRecord, readRecord.
  set (len := be_encode 2 (Z.of_nat (length chunk + noiseOverhead))). set (sealed := aeadSeal key (nonceBytes (nd_nonce dir)) chunk []).
  assert (length len = 2%nat) as Hlen by apply length_be_encode.
  assert (be_decode len = Z.of_nat (length chunk + noiseOverhead)) as Hdec.
  { apply be_decode_encode. change (256 ^ Z.of_nat 2) with 65536. unfold noiseMaxPlaintext, noiseMaxCiphertext, noiseMaxMessageSize, noiseHeaderLen, noiseOverhead in *. lia. }
  assert (length sealed = (length chunk + noiseOverhead)%nat) as Hsl by apply length_aeadSeal.
  assert (aeadOpen key (nonceBytes (nd_nonce dir)) sealed [] = Some chunk) as Hopen by apply aeadOpen_Seal. clearbody len sealed.
  assert ((x04 :: len ++ sealed) ++ rest = (x04 :: len) ++ sealed ++ rest) as -> by by rewrite app_comm_cons, <-app_assoc.
  rewrite ReadFull_app by (cbn; lia). cbn [lookup list_lookup mbind option_bind]. cbv zeta. change (drop 1 (x04 :: len)) with len. rewrite Hdec.
  rewrite bool_decide_eq_true_2 by done. cbn [negb].
  destruct (Z.ltb_spec (Z.of_nat noiseMaxCiphertext) (Z.of_nat (length chunk + noiseOverhead))) as [Hbig|_].
  { unfold noiseMaxPlaintext, noiseMaxCiphertext, noiseMaxMessageSize, noiseHeaderLen, noiseOverhead in *. lia. }
  destruct (Z.ltb_spec (Z.of_nat (length chunk + noiseOverhead)) (Z.of_nat noiseOverhead)); [lia|]. cbn [orb].
  rewrite Nat2Z.id, ReadFull_app by done. rewrite increment_ok by done. cbn [mbind option_bind]. by rewrite Hopen, Hk.
Qed.

(** The reader has [plain] left and the connection holds records of the rest of [data]. *)
Definition feeds (key : array 32) (dir : noiseDirection) (stream data : list byte) : Prop :=
  nd_cipher dir = Some key ∧ ∃ chunks, Forall chunk_ok chunks ∧ stream = concat (recordStream key (nd_nonce dir) chunks) ∧
    nd_plain dir ++ concat chunks = data ∧ 0 ≤ nd_nonce dir ∧ nd_nonce dir + Z.of_nat (length chunks) ≤ noiseInvalidNonce.

(** A read returns some of what is left, and leaves the rest. *)
Lemma NoiseRead_feeds key n dir stream data : feeds key dir stream data → data ≠ [] → (0 < n)%nat →
  ∃ dir' stream' d data', NoiseRead n dir stream = Some (dir', stream', Ok d) ∧ d ≠ [] ∧ data = d ++ data' ∧ feeds key dir' stream' data'.
Proof.
  intros (Hk & chunks & Hok & -> & <- & Hn & Hmax) Hd H0. unfold NoiseRead. rewrite Hk.
  destruct (nd_plain dir) as [|x plain] eqn:Ep.
  - destruct chunks as [|chunk chunks]; [done|]. apply Forall_cons in Hok as [Hc Hok]. cbn [recordStream concat app length] in *.
    cbn [readRecords]. rewrite Ep. rewrite readRecord_written by (done || lia). cbn [nd_plain].
    destruct Hc as [Hc1 Hc2]. destruct chunk as [|y chunk]; [cbn in Hc1; lia|].
    assert (∀ fuel, readRecords fuel key (mknoiseDirection (Some key) (nd_nonce dir + 1) (nd_err dir) (y :: chunk)) (concat (recordStream key (nd_nonce dir + 1) chunks)) =
      Some (mknoiseDirection (Some key) (nd_nonce dir + 1) (nd_err dir) (y :: chunk), concat (recordStream key (nd_nonce dir + 1) chunks), None)) as Hfuel by by intros [].
    rewrite Hfuel. cbn [nd_plain nd_cipher nd_nonce nd_err]. eexists _, _, (take n (y :: chunk)), (drop n (y :: chunk) ++ concat chunks). split_and!; [done| | |].
    + destruct n; [lia|done].
    + by rewrite app_assoc, take_drop.
    + split; [done|]. exists chunks. cbn. split_and!; [done..|lia|lia].
  - assert (readRecords (S (length (concat (recordStream key (nd_nonce dir) chunks)))) key dir (concat (recordStream key (nd_nonce dir) chunks)) =
      Some (dir, concat (recordStream key (nd_nonce dir) chunks), None)) as -> by (cbn [readRecords]; by rewrite Ep).
    rewrite Ep. eexists _, _, (take n (x :: plain)), (drop n (x :: plain) ++ concat chunks). split_and!; [done| | |].
    + destruct n; [lia|done].
    + by rewrite app_assoc, take_drop.
    + split; [done|]. exists chunks. cbn [nd_plain nd_nonce]. split_and!; done.
Qed.

(** At the end of the data a read reports the end of the connection. *)
Lemma NoiseRead_end key n dir : feeds key dir [] [] → ∃ dir' stream', NoiseRead n dir [] = Some (dir', stream', Err ErrEOF).
Proof.
  intros (Hk & chunks & Hok & Hs & Hd & _). unfold NoiseRead. rewrite Hk. apply app_eq_nil in Hd as [Hp _].
  cbn [length readRecords]. rewrite Hp. eexists _, _. done.
Qed.

Lemma feeds_empty key dir stream : feeds key dir stream [] → stream = [].
Proof.
  intros (_ & chunks & Hok & -> & Hd & _). apply app_eq_nil in Hd as [_ Hc]. destruct chunks as [|chunk chunks]; [done|].
  apply Forall_cons in Hok as [[Hc1 _] _]. cbn in Hc. apply app_eq_nil in Hc as [-> _]. cbn in Hc1. lia.
Qed.

(** ** Whole conversations *)

(** Successive writes; the frames they put on the connection. *)
Fixpoint writeMany (connWrite : list byte → option error) (srcs : list (list byte)) (dir : noiseDirection) : option (noiseDirection * list (list byte)) :=
  match srcs with
  | [] => Some (dir, [])
  | src :: srcs =>
      result ← NoiseWrite connWrite src dir;
      rest ← writeMany connWrite srcs (wr_dir result);
      Some (rest.1, wr_frames result ++ rest.2)
  end.

(** Successive reads with buffers of the given sizes, until an error. *)
Fixpoint readMany (sizes : list nat) (dir : noiseDirection) (stream : list byte) : option (list byte) :=
  match sizes with
  | [] => Some []
  | n :: sizes =>
      match NoiseRead n dir stream with
      | None => None
      | Some (_, _, Err _) => Some []
      | Some (dir, stream, Ok data) => app data <$> readMany sizes dir stream
      end
  end.

Lemma recordStream_app key chunks chunks' : ∀ n, recordStream key n (chunks ++ chunks') = recordStream key n chunks ++ recordStream key (n + Z.of_nat (length chunks)) chunks'.
Proof.
  induction chunks as [|c chunks IH]; intros n; cbn [recordStream app length]; [by rewrite Z.add_0_r|]. rewrite IH. do 3 f_equal. lia.
Qed.

Lemma writeMany_records key srcs : ∀ n, 0 ≤ n → n + Z.of_nat (length (concat srcs)) ≤ noiseInvalidNonce →
  ∃ chunks, concat chunks = concat srcs ∧ Forall chunk_ok chunks ∧ (length chunks ≤ length (concat srcs))%nat ∧
    writeMany (λ _, None) srcs (mknoiseDirection (Some key) n None []) =
      Some (mknoiseDirection (Some key) (n + Z.of_nat (length chunks)) None [], recordStream key n chunks).
Proof.
  induction srcs as [|src srcs IH]; intros n Hn Hmax; cbn [concat writeMany] in *.
  { exists []. cbn. split_and!; [done|constructor|lia|]. by rewrite Z.add_0_r. }
  rewrite length_app in *. unfold NoiseWrite. cbn [nd_err nd_cipher].
  destruct (writeLoop_records (λ _, None) key None [] ltac:(done) (length src) src n [] 0) as (chunks & Hcat & Hok & Hnum & ->); [lia..|].
  cbn [mbind option_bind wr_dir wr_frames app]. destruct (IH (n + Z.of_nat (length chunks))) as (chunks' & Hcat' & Hok' & Hnum' & ->); [lia..|].
  exists (chunks ++ chunks'). rewrite concat_app, Hcat, Hcat', length_app, recordStream_app. cbn [mbind option_bind fst snd]. split_and!.
  - done.
  - by apply Forall_app.
  - lia.
  - do 3 f_equal. lia.
Qed.

Lemma recordStream_bounded key chunks : ∀ n, Forall chunk_ok chunks → Forall (λ frame, length frame ≤ noiseMaxMessageSize)%nat (recordStream key n chunks).
Proof.
  induction chunks as [|c chunks IH]; intros n Hok; cbn; [constructor|]. apply Forall_cons in Hok as [[_ Hc] Hok]. constructor; [|by apply IH].
  rewrite length_noiseRecord. unfold noiseMaxPlaintext, noiseMaxCiphertext, noiseMaxMessageSize, noiseHeaderLen, noiseOverhead in *. lia.
Qed.

Lemma readMany_feeds key sizes : ∀ dir stream data, feeds key dir stream data → Forall (λ n, 0 < n)%nat sizes → (length data ≤ length sizes)%nat →
  readMany sizes dir stream = Some data.
Proof.
  induction sizes as [|n sizes IH]; intros dir stream data Hf Hs Hl; cbn [readMany].
  { destruct data; [done|cbn in Hl; lia]. }
  apply Forall_cons in Hs as [Hn Hs]. destruct data as [|x data].
  - pose proof (feeds_empty _ _ _ Hf) as ->. destruct (NoiseRead_end _ n _ Hf) as (dir' & stream' & ->). done.
  - destruct (NoiseRead_feeds key n dir stream (x :: data) Hf ltac:(done) Hn) as (dir' & stream' & d & data' & -> & Hd & Hcat & Hf').
    rewrite (IH dir' stream' data' Hf' Hs).
    + cbn. by rewrite Hcat.
    + destruct d as [|y d]; [done|]. rewrite Hcat in Hl. rewrite length_app in Hl. cbn in Hl. lia.
Qed.

(** C10. The record layer is a byte stream: whatever is written to one end of the
    channel, in calls of any sizes, is read at the other end, in calls with
    buffers of any sizes, byte for byte and nothing else.  Each record on the
    connection is at most 4096 bytes long, and the records of all calls use
    consecutive nonces, so that none is used twice. *)
Theorem noise_stream_roundtrip key srcs sizes
    (Hmax : Z.of_nat (length (concat srcs)) ≤ noiseInvalidNonce)
    (Hpos : Forall (λ n, 0 < n)%nat sizes) (Henough : (length (concat srcs) ≤ length sizes)%nat) :
  ∃ tx frames, writeMany (λ _, None) srcs (newDirection key) = Some (tx, frames) ∧
    readMany sizes (newDirection key) (concat frames) = Some (concat srcs) ∧
    Forall (λ frame, length frame ≤ noiseMaxMessageSize)%nat frames ∧
    ∃ chunks, concat chunks = concat srcs ∧ frames = recordStream key 0 chunks ∧ nd_nonce tx = Z.of_nat (length chunks) ∧ nd_nonce tx ≤ noiseInvalidNonce.
Proof.
  destruct (writeMany_records key srcs 0) as (chunks & Hcat & Hok & Hnum & Hw); [lia..|]. eexists _, _. split; [exact Hw|]. split_and!.
  - apply (readMany_feeds key); [|done|done]. split; [done|]. exists chunks. cbn. split_and!; [done|done|done|lia|lia].
  - by apply recordStream_bounded.
  - exists chunks. cbn. split_and!; [done|done|lia|lia].
Qed.

(** A direction that has failed with [e]: it has no cipher, and no call of [Write]
    changes it or hands anything to the connection. *)
Definition direction_dead (dir : noiseDirection) (e : error) : Prop :=
  nd_cipher dir = None ∧ ∀ connWrite src, NoiseWrite connWrite src dir = Some (mkWriteResult dir [] 0 (Some e)).

(** C39. A write error is final: once the connection has refused a frame, [Write]
    returns that error for good and puts nothing more on the connection, so no
    nonce is ever used for two different records. *)
Theorem NoiseWrite_error_sticky connWrite src dir result e
    (Hw : NoiseWrite connWrite src dir = Some result) (He : wr_err result = Some e) (Hfresh : nd_err dir = None) (Hopen : is_Some (nd_cipher dir)) :
  direction_dead (wr_dir result) e.
Proof.
  destruct Hopen as [key Hk]. unfold NoiseWrite in Hw. rewrite Hfresh, Hk in Hw.
  assert (nd_err (wr_dir result) = Some e ∧ nd_cipher (wr_dir result) = None) as [E1 E2].
  { revert Hw. generalize (length src) (@nil (list byte)) 0. intros fuel. revert src dir Hfresh Hk.
    induction fuel as [|fuel IH]; intros src dir Hfresh Hk frames written Hw; cbn in Hw.
    - destruct src; [|done]. injection Hw as <-. cbn in He. done.
    - destruct src as [|x src]; [injection Hw as <-; cbn in He; done|].
      destruct (increment (nd_nonce dir)) as [nonce|]; [|done]. cbn [mbind option_bind] in Hw.
      destruct (connWrite _) as [e'|].
      + injection Hw as <-. cbn in He |- *. split; congruence.
      + eapply IH; [..|exact Hw]; done. }
  split; [done|]. intros. unfold NoiseWrite. by rewrite E1.
Qed.
End Records.

(** ** The handshake *)

(** The responder of the Noise IK pattern, as the protocol prescribes it: tokens
    [e, es, s, ss] of the first message, then [e, ee, se] of the answer.  It
    returns its answer, the initiator's static key, and the keys of the
    initiator's and of its own direction. *)
Section Responder.
Context `{NoiseCrypto}.

Definition respMix (data : list byte) (s : array 32 * array 32) : array 32 * array 32 :=
  (s.1, blake2s (arr_bytes s.2 ++ data)).

Definition respDH (private : PrivateKey) (public : MachinePublic) (s : array 32 * array 32) : option ((array 32 * array 32) * array 32) :=
  secret ← X25519 private public; let '(ck, key) := hkdf2 (arr_bytes secret) s.1 in Some ((ck, s.2), key).

Record Response := mkResponse { rs_answer : list byte; rs_peer : MachinePublic; rs_fromInitiator : array 32; rs_toInitiator : array 32 }.

Definition noiseResponder (serverKey serverEphemeral : PrivateKey) (version : Z) (initial : list byte) : option Response :=
  if negb (bool_decide (length initial = 101%nat)) || negb (bool_decide (take 5 initial = initialHeader version)) then None
  else
    let h0 := blake2s (bytes_of_string noiseProtocolName) in
    let s := respMix (arr_bytes (PublicMachine serverKey)) (respMix (protocolPrologue version) (h0, h0)) in
    let e := to_array 32 (take 32 (drop 5 initial)) in
    let s := respMix (arr_bytes e) s in
    es ← respDH serverKey e s;
    let sealedKey := take 48 (drop 37 initial) in
    static ← aeadOpen es.2 handshakeNonce sealedKey (arr_bytes es.1.2);
    let machine := to_array 32 static in
    let s := respMix sealedKey es.1 in
    ss ← respDH serverKey machine s;
    let sealedNil := drop 85 initial in
    payload ← aeadOpen ss.2 handshakeNonce sealedNil (arr_bytes ss.1.2);
    let s := respMix sealedNil ss.1 in
    let s := respMix (arr_bytes (PublicMachine serverEphemeral)) s in
    ee ← respDH serverEphemeral e s;
    se ← respDH serverEphemeral machine ee.1;
    let tag := aeadSeal se.2 handshakeNonce [] (arr_bytes se.1.2) in
    let s := respMix tag se.1 in
    let keys := hkdf2 [] s.1 in
    Some (mkResponse ([x02] ++ be_encode 2 48 ++ arr_bytes (PublicMachine serverEphemeral) ++ tag) machine keys.1 keys.2).
End Responder.

Section HandshakeProof.
Context `{NL : NoiseLaws}.

(** The client's state and the responder's agree. *)
Definition agrees (s : symmetricState) (r : array 32 * array 32) : Prop := s = mksymmetricState false r.1 r.2.

Lemma mixHash_agrees data s r : agrees s r → ∃ s', mixHash data s = Some s' ∧ agrees s' (respMix data r).
Proof. intros ->. eexists. split; [done|]. done. Qed.

(** A token of the client, and the mirrored token of the responder. *)
Lemma mixDH_agrees private public private' public' s r s' aead : agrees s r →
  X25519 private public = X25519 private' public' → mixDH private public s = Some (Ok (s', aead)) →
  ∃ r' key, respDH private' public' r = Some (r', key) ∧ agrees s' r' ∧ aead = Some key.
Proof.
  intros -> Hx. unfold mixDH, respDH, check. cbn [ns_finished mbind option_bind ns_ck]. rewrite <-Hx.
  destruct (X25519 private public) as [secret|]; [|done]. cbn [mbind option_bind]. destruct (hkdf2 _ _) as [ck key].
  intros [= <- <-]. by eexists _, _.
Qed.

Lemma mixDH_ok private public private' public' s r r' key : agrees s r →
  X25519 private public = X25519 private' public' → respDH private' public' r = Some (r', key) →
  ∃ s', mixDH private public s = Some (Ok (s', Some key)) ∧ agrees s' r'.
Proof.
  intros -> Hx. unfold mixDH, respDH, check. cbn [ns_finished mbind option_bind ns_ck]. rewrite <-Hx.
  destruct (X25519 private public) as [secret|]; [|done]. cbn [mbind option_bind]. destruct (hkdf2 _ _) as [ck k].
  intros [= <- <-]. by eexists.
Qed.

(** Sealing on one side, opening on the other. *)
Lemma encrypt_agrees key n plaintext s r s' sealed : agrees s r → encryptAndHash (Some key) n plaintext s = Some (s', sealed) →
  length sealed = n ∧ aeadOpen key handshakeNonce sealed (arr_bytes r.2) = Some plaintext ∧ agrees s' (respMix sealed r).
Proof.
  intros ->. unfold encryptAndHash. destruct (Nat.eqb_spec n (length plaintext + noiseOverhead)) as [->|]; cbn [negb]; [|done].
  cbn. intros [= <- <-]. split_and!; [apply length_aeadSeal|apply aeadOpen_Seal|done].
Qed.

(** The responder's state after the initiator's ephemeral key. *)
Definition respStart (serverKey : PrivateKey) (version : Z) (e : MachinePublic) : array 32 * array 32 :=
  let h0 := blake2s (bytes_of_string noiseProtocolName) in
  respMix (arr_bytes e) (respMix (arr_bytes (PublicMachine serverKey)) (respMix (protocolPrologue version) (h0, h0))).

(** The first message as the responder takes it apart. *)
Lemma clientDeferred_agrees rand machineKey serverKey version d :
  clientDeferred rand machineKey (PublicMachine serverKey) version = Some (Ok d) →
  let e := PublicMachine (df_ephemeral d) in
  ∃ sealedKey sealedNil r1 k1 r2 k2,
    df_initial d = initialHeader version ++ arr_bytes e ++ sealedKey ++ sealedNil ∧ length sealedKey = 48%nat ∧ length sealedNil = 16%nat ∧
    respDH serverKey e (respStart serverKey version e) = Some (r1, k1) ∧
    aeadOpen k1 handshakeNonce sealedKey (arr_bytes r1.2) = Some (arr_bytes (PublicMachine machineKey)) ∧
    respDH serverKey (PublicMachine machineKey) (respMix sealedKey r1) = Some (r2, k2) ∧
    aeadOpen k2 handshakeNonce sealedNil (arr_bytes r2.2) = Some [] ∧ agrees (df_state d) (respMix sealedNil r2).
Proof.
  intros Hd. unfold clientDeferred in Hd. set (h0 := blake2s (bytes_of_string noiseProtocolName)) in *.
  destruct (mixHash_agrees (protocolPrologue version) initialize (h0, h0) eq_refl) as (s1 & E1 & A1). rewrite E1 in Hd. cbn [mbind option_bind] in Hd.
  destruct (mixHash_agrees (arr_bytes (PublicMachine serverKey)) _ _ A1) as (s2 & E2 & A2). rewrite E2 in Hd. cbn [mbind option_bind] in Hd.
  destruct (NewPrivateKey rand) as [ephemeral|]; [|done]. cbv zeta in Hd.
  destruct (mixHash_agrees (arr_bytes (PublicMachine ephemeral)) _ _ A2) as (s3 & E3 & A3). rewrite E3 in Hd. cbn [mbind option_bind] in Hd.
  destruct (mixDH ephemeral (PublicMachine serverKey) s3) as [[[s4 aead]|]|] eqn:E4; [|done..]. cbn [mbind option_bind] in Hd.
  destruct (mixDH_agrees _ _ serverKey (PublicMachine ephemeral) _ _ _ _ A3 (X25519_comm _ _) E4) as (r1 & k1 & D1 & A4 & ->).
  destruct (encryptAndHash (Some k1) 48 _ s4) as [[s5 sealedKey]|] eqn:E5; [|done]. cbn [mbind option_bind fst snd] in Hd.
  destruct (encrypt_agrees _ _ _ _ _ _ _ A4 E5) as (L1 & O1 & A5).
  destruct (mixDH machineKey (PublicMachine serverKey) s5) as [[[s6 aead]|]|] eqn:E6; [|done..]. cbn [mbind option_bind] in Hd.
  destruct (mixDH_agrees _ _ serverKey (PublicMachine machineKey) _ _ _ _ A5 (X25519_comm _ _) E6) as (r2 & k2 & D2 & A6 & ->).
  destruct (encryptAndHash (Some k2) 16 [] s6) as [[s7 sealedNil]|] eqn:E7; [|done]. cbn [mbind option_bind fst snd] in Hd.
  destruct (encrypt_agrees _ _ _ _ _ _ _ A6 E7) as (L2 & O2 & A7).
  assert (d = mkDeferred (initialHeader version ++ arr_bytes (PublicMachine ephemeral) ++ sealedKey ++ sealedNil) s7 ephemeral) as -> by congruence.
  cbv zeta. cbn [df_ephemeral df_initial df_state]. exists sealedKey, sealedNil, r1, k1, r2, k2. split_and!; done.
Qed.

Lemma length_initialHeader version : length (initialHeader version) = 5%nat.
Proof. unfold initialHeader. rewrite !length_app, !length_be_encode. done. Qed.

Lemma respDH_some private public r : is_Some (X25519 private public) → ∃ r' key, respDH private public r = Some (r', key) ∧ r'.2 = r.2.
Proof. intros [secret E]. unfold respDH. rewrite E. cbn [mbind option_bind]. destruct (hkdf2 _ _) as [ck key]. by eexists _, _. Qed.

(** The client completes the handshake on the responder's answer. *)
Lemma continue_answer machineKey d rest server r r4 r5 k4 k5 (tag := aeadSeal k5 handshakeNonce [] (arr_bytes r5.2)) :
  agrees (df_state d) r →
  respDH (df_ephemeral d) server (respMix (arr_bytes server) r) = Some (r4, k4) → respDH machineKey server r4 = Some (r5, k5) →
  continueHandshake None machineKey d (([x02] ++ be_encode 2 48 ++ arr_bytes server ++ tag) ++ rest) =
    Some (Ok (mkNoiseConn (newDirection (hkdf2 [] r5.1).2) (newDirection (hkdf2 [] r5.1).1), rest)).
Proof.
  intros Hst D4 D5. unfold continueHandshake.
  assert (([x02] ++ be_encode 2 48 ++ arr_bytes server ++ tag) ++ rest = (x02 :: be_encode 2 48) ++ (arr_bytes server ++ tag) ++ rest) as ->.
  { cbn [app]. by rewrite <-!app_assoc. }
  rewrite ReadFull_app by done. change ((x02 :: be_encode 2 48) !! 0%nat) with (Some x02). cbn [mbind option_bind]. cbv zeta.
  change (be_decode (drop 1 (x02 :: be_encode 2 48))) with 48. rewrite bool_decide_eq_false_2 by done. rewrite bool_decide_eq_true_2 by done. cbn [negb orb Z.eqb Pos.eqb].
  assert (length tag = 16%nat) as Lt by (unfold tag; apply length_aeadSeal).
  rewrite ReadFull_app by (rewrite length_app, arr_length, Lt; done).
  assert (subslice 0 32 (arr_bytes server ++ tag) = Some (arr_bytes server)) as ->.
  { rewrite subslice_Some by (rewrite ?length_app, ?arr_length; lia). f_equal. rewrite drop_0. apply take_app_length'. by rewrite arr_length. }
  cbn [mbind option_bind]. rewrite to_array_arr_bytes.
  destruct (mixHash_agrees (arr_bytes server) _ _ Hst) as (s3 & E3 & A3). rewrite E3. cbn [mbind option_bind].
  destruct (mixDH_ok _ _ _ _ _ _ _ _ A3 eq_refl D4) as (s4 & E4 & A4). rewrite E4. cbn [mbind option_bind].
  destruct (mixDH_ok _ _ _ _ _ _ _ _ A4 eq_refl D5) as (s5 & E5 & A5). rewrite E5. cbn [mbind option_bind].
  rewrite drop_app_length' by (by rewrite arr_length). unfold decryptAndHash. rewrite Lt. cbn [Nat.eqb Nat.add noiseOverhead negb].
  destruct (mixHash_agrees tag _ _ A5) as (s6 & E6 & A6). rewrite E6. assert (ns_h s5 = r5.2) as -> by by rewrite A5.
  cbn [aead_Open mbind option_bind snd]. unfold tag. rewrite aeadOpen_Seal. cbn [mbind option_bind]. unfold split.
  assert (ns_ck s6 = r5.1) as -> by by rewrite A6. by destruct (hkdf2 [] r5.1).
Qed.

(** C7. The handshake: for every first message the client makes for a server's
    key, a responder that follows the Noise IK pattern with that key accepts it
    and learns the client's machine key; on the responder's answer, whatever
    bytes follow it, the client completes the handshake, and what one side
    sends with the other receives with. *)
Theorem noise_handshake_agrees rand machineKey serverKey serverEphemeral version d rest
    (Hd : clientDeferred rand machineKey (PublicMachine serverKey) version = Some (Ok d))
    (Hee : is_Some (X25519 serverEphemeral (PublicMachine (df_ephemeral d)))) (Hse : is_Some (X25519 serverEphemeral (PublicMachine machineKey))) :
  ∃ r, noiseResponder serverKey serverEphemeral version (df_initial d) = Some r ∧ rs_peer r = PublicMachine machineKey ∧
    continueHandshake None machineKey d (rs_answer r ++ rest) =
      Some (Ok (mkNoiseConn (newDirection (rs_toInitiator r)) (newDirection (rs_fromInitiator r)), rest)).
Proof.
  destruct (clientDeferred_agrees _ _ _ _ _ Hd) as (sealedKey & sealedNil & r1 & k1 & r2 & k2 & Hi & Lk & Ln & D1 & O1 & D2 & O2 & Hst).
  set (e := PublicMachine (df_ephemeral d)) in *. pose proof (length_initialHeader version) as Lh. pose proof (arr_length e) as Le.
  set (r3 := respMix (arr_bytes (PublicMachine serverEphemeral)) (respMix sealedNil r2)).
  destruct (respDH_some serverEphemeral e r3 Hee) as (r4 & k4 & D4 & H4).
  destruct (respDH_some serverEphemeral (PublicMachine machineKey) r4 Hse) as (r5 & k5 & D5 & H5).
  set (tag := aeadSeal k5 handshakeNonce [] (arr_bytes r5.2)). set (answer := [x02] ++ be_encode 2 48 ++ arr_bytes (PublicMachine serverEphemeral) ++ tag).
  exists (mkResponse answer (PublicMachine machineKey) (hkdf2 [] r5.1).1 (hkdf2 [] r5.1).2). split_and!; [|done|].
  - unfold noiseResponder. rewrite (bool_decide_eq_true_2 (length _ = _)) by (rewrite Hi, !length_app, Lh, Le, Lk, Ln; done).
    assert (take 5 (df_initial d) = initialHeader version ∧ take 32 (drop 5 (df_initial d)) = arr_bytes e ∧
      take 48 (drop 37 (df_initial d)) = sealedKey ∧ drop 85 (df_initial d) = sealedNil) as (T1 & T2 & T3 & T4).
    { rewrite Hi. split_and!.
      - by apply take_app_length'.
      - rewrite drop_app_length' by done. by apply take_app_length'.
      - rewrite app_assoc, drop_app_length' by (rewrite length_app, Lh, Le; done). by apply take_app_length'.
      - rewrite !app_assoc, drop_app_length'; [done|]. rewrite !length_app, Lh, Le, Lk. done. }
    rewrite (bool_decide_eq_true_2 (take 5 _ = _)) by done. cbn [negb orb]. cbv zeta. rewrite T2, T3, T4, to_array_arr_bytes.
    fold (respStart serverKey version e). rewrite D1. cbn [mbind option_bind fst snd]. rewrite O1. cbn [mbind option_bind].
    rewrite to_array_arr_bytes, D2. cbn [mbind option_bind fst snd]. rewrite O2. cbn [mbind option_bind]. fold r3. rewrite D4. cbn [mbind option_bind fst snd].
    rewrite D5. cbn [mbind option_bind fst snd]. done.
  - cbn [rs_answer rs_toInitiator rs_fromInitiator]. apply (continue_answer _ _ _ _ (respMix sealedNil r2) r4 r5 k4 k5); [done| |].
    + rewrite <-D4. unfold respDH, e, PublicMachine. by rewrite X25519_comm.
    + rewrite <-D5. unfold respDH, PublicMachine. by rewrite X25519_comm.
Qed.
End HandshakeProof.

(** ** Examples *)

(** Functions that satisfy the laws, to evaluate examples with. *)
Definition add_bytes (a b : list byte) : list byte := zip_with (λ x y, z2b (b2z x + b2z y)) a b.

#[local] Instance demo_noise_box : BoxOps := {|
  ScalarBaseMult k := k; Precompute a b := a;
  SealAfterPrecomputation m _ _ := m; OpenAfterPrecomputation m _ _ := Some m |}.

#[local] Instance demo_noise : NoiseCrypto := {|
  blake2s data := to_array 32 data;
  hkdf2 secret salt := (to_array 32 secret, salt);
  X25519 a b := Some (to_array 32 (add_bytes (arr_bytes a) (arr_bytes b)));
  aeadSeal key nonce plaintext ad := plaintext ++ replicate noiseOverhead x00;
  aeadOpen key nonce ciphertext ad := Some (take (length ciphertext - noiseOverhead) ciphertext) |}.

#[local] Instance demo_noise_laws : NoiseLaws demo_noise.
Proof.
  constructor; cbn [X25519 ScalarBaseMult aeadSeal aeadOpen demo_noise demo_noise_box].
  - intros a b. do 2 f_equal. unfold add_bytes. generalize (arr_bytes a) (arr_bytes b). induction l as [|x l IH]; intros [|y l']; [done..|].
    cbn. rewrite IH. do 2 f_equal. apply Z.add_comm.
  - intros _ _ plaintext _. f_equal. rewrite length_app. cbn [length]. rewrite Nat.add_sub. apply take_app_length.
  - intros. by rewrite length_app.
Qed.

Lemma noise_stream_roundtrip_witness :
  ∃ tx frames, writeMany (λ _, None) [[x01; x02]; [x03]] (newDirection (to_array 32 [x05])) = Some (tx, frames) ∧
    readMany [1; 2; 1]%nat (newDirection (to_array 32 [x05])) (concat frames) = Some [x01; x02; x03].
Proof.
  destruct (noise_stream_roundtrip (to_array 32 [x05]) [[x01; x02]; [x03]] [1; 2; 1]%nat) as (tx & frames & Hw & Hr & _).
  - vm_compute. discriminate.
  - repeat constructor.
  - cbn. lia.
  - by exists tx, frames.
Defined.

Lemma NoiseWrite_error_sticky_witness :
  ∃ result, NoiseWrite (λ _, Some ErrEOF) [x01] (newDirection (to_array 32 [x05])) = Some result ∧
    NoiseWrite (λ _, None) [x02] (wr_dir result) = Some (mkWriteResult (wr_dir result) [] 0 (Some ErrEOF)).
Proof.
  assert (∃ result, NoiseWrite (λ _, Some ErrEOF) [x01] (newDirection (to_array 32 [x05])) = Some result ∧ wr_err result = Some ErrEOF) as (result & Hw & He).
  { eexists. split; vm_compute; reflexivity. }
  exists result. split; [exact Hw|].
  destruct (NoiseWrite_error_sticky (λ _, Some ErrEOF) [x01] _ _ _ Hw He) as [_ Hdead]; [reflexivity|by eexists|]. apply Hdead.
Defined.

Lemma noise_handshake_agrees_witness :
  ∃ d r, clientDeferred (Some (to_array 32 [x09])) (to_array 32 [x07]) (to_array 32 [x08]) 119 = Some (Ok d) ∧
    noiseResponder (to_array 32 [x08]) (to_array 32 [x06]) 119 (df_initial d) = Some r ∧ rs_peer r = to_array 32 [x07].
Proof.
  assert (∃ d, clientDeferred (Some (to_array 32 [x09])) (to_array 32 [x07]) (to_array 32 [x08]) 119 = Some (Ok d)) as [d Hd].
  { eexists. vm_compute. reflexivity. }
  destruct (noise_handshake_agrees (Some (to_array 32 [x09])) (to_array 32 [x07]) (to_array 32 [x08]) (to_array 32 [x06]) 119 d [] Hd) as (r & Hr & Hp & _);
    [by eexists|by eexists|]. by exists d, r.
Defined.
