(* ===== verification/ControlClient.v ===== *)
(** * The control client ([internal/controlproto/client.go])

    The HTTP conversation with the control server over the Noise channel:
    fetching the server's key, opening the channel, and the register, map and
    ping requests.  HTTP and JSON are the standard library's: a request is
    answered by the argument [do], a body is decoded by an argument, and an
    encoded request is its argument. *)

From Stdlib Require Import ZArith Lia Ascii String Strings.Byte.
From S2P Require Export Noise Types.
Open Scope Z_scope.

Definition upgradeProtocol : string := "tailscale-control-protocol".
Definition upgradePath : string := "/ts2021".
Definition lbHeader : string := "Ts-Lb".
Definition maxControlBody : Z := 16 * 2 ^ 20.

(** ** HTTP *)

(** The parts of the server's URL the client uses; user information and the
    fragment are left out. *)
Record ServerURL := mkServerURL {
  su_Scheme : string;
  su_Host : string;
  su_Hostname : string;
  su_Port : string;
  su_Path : string;
  su_EscapedPath : string;
  su_Query : list (string * string)
}.

Record HTTPRequest := mkHTTPRequest {
  rq_method : string;
  rq_url : string;
  rq_query : list (string * string);
  rq_headers : list (string * string);
  rq_body : list byte
}.

(** A response: its body is what can be read of it, ended by [hr_readErr] or, when
    that is [None], by its end. *)
Record HTTPResponse := mkHTTPResponse {
  hr_StatusCode : Z;
  hr_Status : string;
  hr_header : string → string;
  hr_body : list byte;
  hr_readErr : option error
}.

Definition HTTPDo : Type := HTTPRequest → result error HTTPResponse.

(** [io.ReadAll(io.LimitReader(res.Body, limit))]: the bytes read, and the error. *)
Definition readLimited (limit : Z) (res : HTTPResponse) : list byte * option error :=
  if limit <=? Z.of_nat (length (hr_body res)) then (take (Z.to_nat limit) (hr_body res), None) else (hr_body res, hr_readErr res).

Definition upperHex (z : Z) : ascii := ascii_of_nat (Z.to_nat (if z <? 10 then 48 + z else 55 + z)).

(** The beginning of an (ASCII) body, as the verb [%.ns] prints it. *)
Definition bodyText (n : nat) (body : list byte) : string := string_of_bytes (take n body).

Definition trimSlash (s : string) : string := TrimRight (λ c, bool_decide (c = "/"%char)) s.

(** The bytes of a path that [net/url] does not escape. *)
Definition pathSafe (c : ascii) : bool :=
  is_digit c || (65 <=? chr c) && (chr c <=? 90) || (97 <=? chr c) && (chr c <=? 122)
  || ContainsChar c "-_.~$&+,/:;=@".

(** The escaped form of a path, as [URL.String] and [URL.RequestURI] write it. *)
Fixpoint escapePath (s : string) : string :=
  match s with
  | "" => ""
  | String c s =>
      if pathSafe c then String c (escapePath s)
      else String "%" (String (upperHex (chr c / 16)) (String (upperHex (chr c mod 16)) (escapePath s)))
  end.

(** ** The client *)

Record ControlClient := mkControlClient {
  cc_serverURL : ServerURL;
  cc_machineKey : PrivateKey;
  cc_serverKey : MachinePublic;
  cc_noise : bool;
  cc_closed : bool
}.

#[export] Instance ControlClient_fields : Fields ControlClient := λ r, mkControlClient (cc_serverURL r) (cc_machineKey r) (cc_serverKey r) (cc_noise r) (cc_closed r).

(** [parse] is [url.Parse]. *)
Definition NewControlClient (haveNetwork haveTLS : bool) (parse : string → result error ServerURL) (serverURL : string) (machineKey : PrivateKey)
    : result error ControlClient :=
  if negb haveNetwork then Err (ErrText "controlproto: nil network")
  else match parse (trimSlash serverURL) with
       | Err e => Err e
       | Ok u =>
           if bool_decide (su_Scheme u ≠ "http") && bool_decide (su_Scheme u ≠ "https") then Err (ErrText "controlproto: server URL must use http or https")
           else if bool_decide (su_Hostname u = "") then Err (ErrText "controlproto: server URL has no host")
           else if PrivateKey_IsZero machineKey then Err (ErrText "controlproto: zero machine key")
           else if negb haveTLS then Err (ErrText "controlproto: nil TLS config")
           else Ok (mkControlClient u machineKey (zero_array 32) false false)
       end.

Definition CloseControl (c : ControlClient) : ControlClient := c <| cc_closed := true |>.

(** The request for the server's key; [Encode] sorts the query by key. *)
Definition keyRequest (u : ServerURL) : HTTPRequest :=
  mkHTTPRequest "GET" (su_Scheme u +:+ "://" +:+ su_Host u +:+ escapePath (trimSlash (su_Path u) +:+ "/key"))
    (List.filter (λ kv, negb (bool_decide (kv.1 = "v"))) (su_Query u) ++ [("v", Itoa CurrentCapabilityVersion)]) [] [].

(** The key in the answer: JSON, or the bare hexadecimal key of old servers. *)
Definition parseServerKey (decode : list byte → result error OverTLSPublicKeyResponse) (body : list byte) : result error MachinePublic :=
  let! keys := match decode body with
    | Ok keys => Ok keys
    | Err err =>
        match hex_decode (TrimSpace (string_of_bytes body)) with
        | Some decoded => if bool_decide (length decoded = 32%nat) then Ok (mkOverTLSPublicKeyResponse (to_array 32 decoded) (zero_array 32))
                          else Err (ErrWrap "decode control key" err)
        | None => Err (ErrWrap "decode control key" err)
        end
    end in
  let key := if key_IsZero (OverTLSPublicKeyResponse_PublicKey keys) then OverTLSPublicKeyResponse_LegacyPublicKey keys
             else OverTLSPublicKeyResponse_PublicKey keys in
  if key_IsZero key then Err (ErrText "control server did not advertise a ts2021 Noise key") else Ok key.

(** [do] is the plain HTTP client.  The URLs of the client's own requests are
    well formed, so that building a request does not fail. *)
Definition ensureNoise (do : HTTPDo) (decode : list byte → result error OverTLSPublicKeyResponse) (c : ControlClient) : ControlClient * option error :=
  if cc_closed c then (c, Some ErrNetClosed)
  else if cc_noise c then (c, None)
  else
    let fetched :=
      if key_IsZero (cc_serverKey c) then
        match do (keyRequest (cc_serverURL c)) with
        | Err err => Err (ErrWrap "fetch control key" err)
        | Ok res =>
            match readLimited (64 * 2 ^ 10) res with
            | (_, Some readErr) => Err readErr
            | (body, None) =>
                if negb (hr_StatusCode res =? 200) then Err (ErrText ("fetch control key: " +:+ hr_Status res +:+ ": " +:+ bodyText 200 body))
                else parseServerKey decode body
            end
        end
      else Ok (cc_serverKey c) in
    match fetched with
    | Err e => (c, Some e)
    | Ok key => (c <| cc_serverKey := key |> <| cc_noise := true |>, None)
    end.

(** ** Opening the channel *)

(** What the network does during [dialNoise]. *)
Record NoiseDial := mkNoiseDial {
  nl_dial : string → option error;
  nl_handshake : string → option error;
  nl_write : HTTPRequest → option error;
  nl_response : result error HTTPResponse;
  nl_deadlineErr : option error;
  nl_stream : list byte;
  nl_rand : option (array 32)
}.

Definition dialAddress (u : ServerURL) : string :=
  if bool_decide (su_Port u = "") then
    if bool_decide (su_Scheme u = "https") then JoinHostPort (su_Hostname u) "443" else JoinHostPort (su_Hostname u) "80"
  else su_Host u.

(** The URL of the upgrade request: the escaped path becomes the [Path] of a new
    URL, which is escaped again when the request is written. *)
Definition upgradeURL (u : ServerURL) : string :=
  su_Scheme u +:+ "://" +:+ su_Host u +:+ escapePath (trimSlash (su_EscapedPath u) +:+ upgradePath).

(** [base64] is the standard encoding; [tlsServerName] the name in the TLS settings. *)
Definition dialNoise `{NoiseCrypto} (base64 : list byte → string) (tlsServerName : string) (io : NoiseDial) (c : ControlClient)
    : option (result error (NoiseConn * list byte)) :=
  if cc_closed c then Some (Err ErrNetClosed)
  else
    deferred ← clientDeferred (nl_rand io) (cc_machineKey c) (cc_serverKey c) CurrentCapabilityVersion;
    match deferred with
    | Err e => Some (Err e)
    | Ok d =>
        let u := cc_serverURL c in
        match nl_dial io (dialAddress u) with
        | Some e => Some (Err e)
        | None =>
            match (if bool_decide (su_Scheme u = "https")
                   then nl_handshake io (if bool_decide (tlsServerName = "") then su_Hostname u else tlsServerName) else None) with
            | Some e => Some (Err e)
            | None =>
                let request := mkHTTPRequest "POST" (upgradeURL u) []
                  [("Upgrade", upgradeProtocol); ("Connection", "upgrade"); ("X-Tailscale-Handshake", base64 (df_initial d))] [] in
                match nl_write io request, nl_response io with
                | Some e, _ => Some (Err e)
                | None, Err e => Some (Err e)
                | None, Ok res =>
                    if negb (hr_StatusCode res =? 101) || negb (bool_decide (hr_header res "Upgrade" = upgradeProtocol))
                    then Some (Err (ErrText ("control upgrade failed: " +:+ hr_Status res +:+ ": " +:+ bodyText 200 (readLimited 4096 res).1)))
                    else continueHandshake (nl_deadlineErr io) (cc_machineKey c) d (nl_stream io)
                end
            end
        end
    end.

(** [earlyPayloadConn.init] on the bytes the channel carries: what the HTTP/2
    client reads. *)
Definition earlyMagic : list byte := [xff; xff; xff; x54; x53].

Definition earlyPayload (stream : list byte) : result error (list byte) :=
  match ReadFull 9 stream with
  | Err e => Err e
  | Ok (header, rest) =>
      if negb (bool_decide (take 5 header = earlyMagic)) then Ok (header ++ rest)
      else
        let length := be_decode (drop 5 header) in
        if 10 * 2 ^ 20 <? length then Err (ErrText "control early payload is too large")
        else if Z.of_nat (List.length rest) <? length then Err ErrEOF
        else Ok (drop (Z.to_nat length) rest)
  end.

(** ** Requests *)

Definition innerURL (u : ServerURL) (path : string) : string := "https://" +:+ su_Host u +:+ trimSlash (su_EscapedPath u) +:+ path.

(** [encoded] is the request as JSON; [doNoise] the client of the Noise channel. *)
Definition doJSON (do doNoise : HTTPDo) (decode : list byte → result error OverTLSPublicKeyResponse) (path : string) (nodeKey : NodePublic)
    (encoded : result error (list byte)) (c : ControlClient) : ControlClient * result error HTTPResponse :=
  let '(c, err) := ensureNoise do decode c in
  match err, encoded with
  | Some e, _ => (c, Err e)
  | None, Err e => (c, Err e)
  | None, Ok data =>
      (c, doNoise (mkHTTPRequest "POST" (innerURL (cc_serverURL c) path) []
            ([("Content-Type", "application/json")] ++ if key_IsZero nodeKey then [] else [(lbHeader, NodePublic_String nodeKey)]) data))
  end.

(** The answer to a register request. *)
Definition registerAnswer (decode : list byte → result error RegisterResponse) (answer : result error HTTPResponse) : result error RegisterResponse :=
  match answer with
  | Err e => Err e
  | Ok res =>
      match readLimited maxControlBody res with
      | (_, Some e) => Err e
      | (body, None) =>
          if negb (hr_StatusCode res =? 200) then Err (ErrText ("register: " +:+ hr_Status res +:+ ": " +:+ bodyText 500 body))
          else match decode body with
               | Ok response => Ok response
               | Err e => Err (ErrWrap "decode register response" e)
               end
      end
  end.

Definition Register (do doNoise : HTTPDo) (decodeKey : list byte → result error OverTLSPublicKeyResponse)
    (encode : RegisterRequest → result error (list byte)) (decode : list byte → result error RegisterResponse)
    (request : RegisterRequest) (c : ControlClient) : ControlClient * result error RegisterResponse :=
  let '(c, answer) := doJSON do doNoise decodeKey "/machine/register" (RegisterRequest_NodeKey request) (encode request) c in
  (c, registerAnswer decode answer).

Definition streamRequest (request : MapRequest) : MapRequest :=
  request <| MapRequest_Stream := true |> <| MapRequest_KeepAlive := true |> <| MapRequest_Compress := "" |>.

Definition updateRequest (request : MapRequest) : MapRequest :=
  request <| MapRequest_Stream := false |> <| MapRequest_KeepAlive := false |> <| MapRequest_OmitPeers := true |>
    <| MapRequest_MapSessionHandle := "" |> <| MapRequest_MapSessionSeq := 0 |> <| MapRequest_Compress := "" |>.

(** [Node.UnmarshalJSON]: [decode] is [encoding/json] on the plain record.  The
    text is kept beside the decoded fields; a failure leaves the node alone. *)
Definition Node_UnmarshalJSON (decode : list byte → result error Node) (data : list byte) (n : Node) : Node * option error :=
  match decode data with
  | Err e => (n, Some e)
  | Ok value => (value <| Node_RawJSON := append (take 0 <$> Node_RawJSON value) data |>, None)
  end.

Section MapStream.
Context {St : Type} (decode : list byte → result error MapResponse) (onResponse : MapResponse → St → St * option error).

(** [endErr] is how the body ends. *)
Definition readBody (n : nat) (endErr : option error) (stream : list byte) : result error (list byte * list byte) :=
  match ReadFull n stream, endErr with
  | Ok r, _ => Ok r
  | Err _, Some e => Err e
  | Err e, None => Err e
  end.

Definition readMapResponse (endErr : option error) (stream : list byte) : result error (MapResponse * list byte) :=
  match readBody 4 endErr stream with
  | Err e => Err e
  | Ok (sizeBytes, stream) =>
      let size := le_decode sizeBytes in
      if maxControlBody <? size then Err (ErrText ("map response frame too large: " +:+ Itoa size))
      else match readBody (Z.to_nat size) endErr stream with
           | Err e => Err e
           | Ok (body, stream) =>
               match decode body with
               | Err e => Err (ErrWrap "decode map response" e)
               | Ok response => Ok (response, stream)
               end
           end
  end.

(** The loop of [MapStream]; [ctxErr] is the state of the context when reading
    fails.  A frame takes at least four bytes, so that one more than the length
    of the stream is fuel enough. *)
Fixpoint mapStreamLoop (fuel : nat) (ctxErr endErr : option error) (stream : list byte) (st : St) : option (St * error) :=
  match fuel with
  | O => None
  | S fuel =>
      match readMapResponse endErr stream with
      | Err e => Some (st, default e ctxErr)
      | Ok (response, stream) =>
          match onResponse response st with
          | (st, Some e) => Some (st, e)
          | (st, None) => mapStreamLoop fuel ctxErr endErr stream st
          end
      end
  end.

(** [MapStream] once the request has been answered. *)
Definition mapStreamAnswer (ctxErr : option error) (answer : result error HTTPResponse) (st : St) : option (St * error) :=
  match answer with
  | Err e => Some (st, e)
  | Ok res =>
      if negb (hr_StatusCode res =? 200)
      then Some (st, ErrText ("map stream: " +:+ hr_Status res +:+ ": " +:+ bodyText 500 (readLimited 4096 res).1))
      else mapStreamLoop (S (length (hr_body res))) ctxErr (hr_readErr res) (hr_body res) st
  end.

(** [encode] is [json.Marshal]. *)
Definition MapStream (do doNoise : HTTPDo) (decodeKey : list byte → result error OverTLSPublicKeyResponse)
    (encode : MapRequest → result error (list byte)) (ctxErr : option error) (request : MapRequest) (c : ControlClient) (st : St)
    : option (ControlClient * St * error) :=
  let request := streamRequest request in
  let '(c, answer) := doJSON do doNoise decodeKey "/machine/map" (MapRequest_NodeKey request) (encode request) c in
  '(st, e) ← mapStreamAnswer ctxErr answer st;
  Some (c, st, e).
End MapStream.

Definition mapUpdateAnswer (answer : result error HTTPResponse) : option error :=
  match answer with
  | Err e => Some e
  | Ok res =>
      if negb (hr_StatusCode res =? 200) then Some (ErrText ("map update: " +:+ hr_Status res +:+ ": " +:+ bodyText 500 (readLimited 4096 res).1))
      else (readLimited maxControlBody res).2
  end.

Definition MapUpdate (do doNoise : HTTPDo) (decodeKey : list byte → result error OverTLSPublicKeyResponse)
    (encode : MapRequest → result error (list byte)) (request : MapRequest) (c : ControlClient) : ControlClient * option error :=
  let request := updateRequest request in
  let '(c, answer) := doJSON do doNoise decodeKey "/machine/map" (MapRequest_NodeKey request) (encode request) c in
  (c, mapUpdateAnswer answer).

(** [valid] is whether the URL makes a request. *)
Definition AnswerPing (do doNoise : HTTPDo) (decode : list byte → result error OverTLSPublicKeyResponse) (valid : string → option error)
    (ping : PingRequest) (c : ControlClient) : ControlClient * option error :=
  if bool_decide (PingRequest_URL ping = "") || negb (bool_decide (PingRequest_Types ping = ""))
  then (c, Some (ErrText "controlproto: unsupported ping request"))
  else
    let '(c, err, client) := if PingRequest_URLIsNoise ping then let '(c, err) := ensureNoise do decode c in (c, err, doNoise) else (c, None, do) in
    match err, valid (PingRequest_URL ping) with
    | Some e, _ => (c, Some e)
    | None, Some e => (c, Some e)
    | None, None =>
        match client (mkHTTPRequest "HEAD" (PingRequest_URL ping) [] [] []) with
        | Err e => (c, Some e)
        | Ok res => (c, if (hr_StatusCode res <? 200) || (300 <=? hr_StatusCode res) then Some (ErrText ("control ping: " +:+ hr_Status res)) else None)
        end
    end.

(** ** The map stream *)

Section MapStreamProofs.
Context {St : Type} (decode : list byte → result error MapResponse) (onResponse : MapResponse → St → St * option error).

(** What the callbacks do with the responses, up to the first that fails. *)
Fixpoint foldResponses (responses : list MapResponse) (st : St) : St * option error :=
  match responses with
  | [] => (st, None)
  | response :: responses =>
      match onResponse response st with
      | (st, Some e) => (st, Some e)
      | (st, None) => foldResponses responses st
      end
  end.

(** A frame of the stream: the size, low byte first, and the body. *)
Definition encodeBody (body : list byte) : list byte := le_encode 4 (Z.of_nat (length body)) ++ body.

Definition body_ok (body : list byte) : Prop := Z.of_nat (length body) ≤ maxControlBody.

Lemma readMapResponse_frame endErr body response rest : body_ok body → decode body = Ok response →
  readMapResponse decode endErr (encodeBody body ++ rest) = Ok (response, rest).
Proof.
  unfold body_ok. intros Hb Hd. assert (maxControlBody < 2 ^ 32) by (vm_compute; done). unfold readMapResponse, encodeBody, readBody. rewrite <-app_assoc.
  rewrite ReadFull_app by apply length_le_encode. cbv zeta.
  rewrite le_decode_encode by (change (256 ^ Z.of_nat 4) with (2 ^ 32); lia). rewrite (proj2 (Z.ltb_ge _ _)) by done.
  rewrite Nat2Z.id, ReadFull_app by done. by rewrite Hd.
Qed.

Lemma readMapResponse_shorter endErr stream response rest : readMapResponse decode endErr stream = Ok (response, rest) → (length rest + 4 ≤ length stream)%nat.
Proof.
  unfold readMapResponse, readBody. destruct (ReadFull 4 stream) as [[sizeBytes s1]|] eqn:E1; [|by destruct endErr]. apply ReadFull_shorter in E1 as [L1 ->]. cbv zeta.
  destruct (_ <? _); [done|]. destruct (ReadFull (Z.to_nat (le_decode sizeBytes)) s1) as [[body s2]|] eqn:E2; [|by destruct endErr]. apply ReadFull_shorter in E2 as [_ ->].
  destruct (decode body); [|done]. intros [= _ <-]. rewrite !length_app. lia.
Qed.

Lemma mapStreamLoop_total ctxErr endErr fuel : ∀ stream st, (length stream < fuel)%nat → is_Some (mapStreamLoop decode onResponse fuel ctxErr endErr stream st).
Proof.
  induction fuel as [|fuel IH]; intros stream st Hf; [lia|]. cbn [mapStreamLoop].
  destruct (readMapResponse decode endErr stream) as [[response rest]|] eqn:E; [|by eexists]. apply readMapResponse_shorter in E.
  destruct (onResponse response st) as [st' [e|]]; [by eexists|]. apply IH. lia.
Qed.

Lemma mapStreamLoop_delivers ctxErr endErr bodies responses tail e :
  Forall body_ok bodies → Forall2 (λ body response, decode body = Ok response) bodies responses → readMapResponse decode endErr tail = Err e →
  ∀ fuel st, (length (concat (map encodeBody bodies) ++ tail) < fuel)%nat →
  mapStreamLoop decode onResponse fuel ctxErr endErr (concat (map encodeBody bodies) ++ tail) st =
    let '(st', err) := foldResponses responses st in Some (st', match err with Some e' => e' | None => default e ctxErr end).
Proof.
  intros Hok Hdecode Htail. induction Hdecode as [|body response bodies responses Hd _ IH]; intros fuel st Hf; (destruct fuel as [|fuel]; [lia|]).
  - cbn [map concat app mapStreamLoop foldResponses]. by rewrite Htail.
  - apply Forall_cons in Hok as [Hb Hok]. cbn [map concat foldResponses] in *. rewrite <-app_assoc in Hf |- *. cbn [mapStreamLoop].
    rewrite (readMapResponse_frame _ body response) by done. destruct (onResponse response st) as [st' [e'|]]; [done|]. apply IH; [done|].
    rewrite (length_app (encodeBody body)) in Hf. assert (4 ≤ length (encodeBody body))%nat by (unfold encodeBody; rewrite length_app, length_le_encode; lia). lia.
Qed.

Lemma MapStream_total do doNoise decodeKey encode ctxErr request c st :
  is_Some (MapStream decode onResponse do doNoise decodeKey encode ctxErr request c st).
Proof.
  unfold MapStream. cbv zeta. destruct (doJSON _ _ _ _ _ _ _) as [c' answer]. unfold mapStreamAnswer.
  destruct answer as [res|e]; [|by eexists]. destruct (negb _); [by eexists|].
  destruct (mapStreamLoop_total ctxErr (hr_readErr res) (S (length (hr_body res))) (hr_body res) st) as [[st' e] ->]; [lia|]. by eexists.
Qed.

(** C17. The map stream: [MapStream] always returns, with an error.  When the
    server's answer carries map responses, each as a size and a body of at most
    16 MiB, the callback sees exactly these responses, in order, until it fails
    itself or the stream breaks off; its error, or else that of the context or
    of the connection, is returned. *)
Theorem MapStream_delivers do doNoise decodeKey encode ctxErr request c c' res bodies responses tail e st
    (Hdo : doJSON do doNoise decodeKey "/machine/map" (MapRequest_NodeKey request) (encode (streamRequest request)) c = (c', Ok res))
    (Hstatus : hr_StatusCode res = 200) (Hbody : hr_body res = concat (map encodeBody bodies) ++ tail)
    (Hok : Forall body_ok bodies) (Hdecode : Forall2 (λ body response, decode body = Ok response) bodies responses)
    (Htail : readMapResponse decode (hr_readErr res) tail = Err e) :
  (∀ request c, is_Some (MapStream decode onResponse do doNoise decodeKey encode ctxErr request c st)) ∧
  MapStream decode onResponse do doNoise decodeKey encode ctxErr request c st =
    let '(st', err) := foldResponses responses st in Some (c', st', match err with Some e' => e' | None => default e ctxErr end).
Proof.
  split; [intros; apply MapStream_total|]. unfold MapStream. cbv zeta. assert (MapRequest_NodeKey (streamRequest request) = MapRequest_NodeKey request) as -> by by destruct request. rewrite Hdo.
  unfold mapStreamAnswer. rewrite Hstatus. cbn [Z.eqb Pos.eqb negb]. rewrite Hbody.
  rewrite (mapStreamLoop_delivers ctxErr (hr_readErr res) bodies responses tail e) by (done || lia).
  by destruct (foldResponses responses st).
Qed.
End MapStreamProofs.

(** A server that answers with two empty map responses and breaks off. *)
Definition demo_stream : HTTPResponse :=
  mkHTTPResponse 200 "200 OK" (λ _, "") (encodeBody [x7b; x7d] ++ encodeBody [x7b; x7d]) None.

Definition demo_control : ControlClient :=
  mkControlClient (mkServerURL "https" "example" "example" "" "" "" []) (to_array 32 [x01]) (to_array 32 [x02]) true false.

Lemma MapStream_delivers_witness :
  MapStream (λ body, if bool_decide (body = [x7b; x7d]) then Ok zeroMapResponse else Err ErrEOF) (λ _ n, (S n, None))
    (λ _, Err ErrEOF) (λ _, Ok demo_stream) (λ _, Err ErrEOF) (λ _, Ok []) None zeroMapRequest demo_control 0%nat = Some (demo_control, 2%nat, ErrEOF).
Proof.
  refine (proj2 (MapStream_delivers _ (λ _ n, (S n, None)) (λ _, Err ErrEOF) (λ _, Ok demo_stream) (λ _, Err ErrEOF) (λ _, Ok []) None zeroMapRequest demo_control
    demo_control demo_stream [[x7b; x7d]; [x7b; x7d]] [zeroMapResponse; zeroMapResponse] [] ErrEOF 0%nat _ _ _ _ _ _)).
  - reflexivity.
  - reflexivity.
  - vm_compute. reflexivity.
  - repeat constructor; vm_compute; discriminate.
  - repeat constructor.
  - reflexivity.
Defined.

(** ** Early payload *)

(** The early payload: a stream that starts with a server's early payload of at
    most 10 MiB is read as what follows it, and a stream of at least nine bytes
    that does not start with the marker is read unchanged, so that the HTTP/2
    connection on top sees its own bytes and no others. *)
Theorem earlyPayload_transparent (payload rest stream : list byte)
    (Hsize : Z.of_nat (length payload) ≤ 10 * 2 ^ 20) (Hlong : (9 ≤ length stream)%nat) (Hmagic : take 5 stream ≠ earlyMagic) :
  earlyPayload (earlyMagic ++ be_encode 4 (Z.of_nat (length payload)) ++ payload ++ rest) = Ok rest ∧ earlyPayload stream = Ok stream.
Proof.
  split.
  - unfold earlyPayload. rewrite app_assoc, ReadFull_app by (rewrite length_app, length_be_encode; done).
    rewrite take_app_length' by done. rewrite bool_decide_eq_true_2 by done. cbn [negb]. cbv zeta. rewrite drop_app_length' by done.
    rewrite be_decode_encode by (change (256 ^ Z.of_nat 4) with (2 ^ 32); lia). destruct (Z.ltb_spec (10 * 2 ^ 20) (Z.of_nat (length payload))); [lia|].
    rewrite length_app. destruct (Z.ltb_spec (Z.of_nat (length payload + length rest)) (Z.of_nat (length payload))); [lia|].
    by rewrite Nat2Z.id, drop_app_length.
  - unfold earlyPayload, ReadFull. rewrite (proj2 (Nat.leb_le _ _)) by done. rewrite take_take. cbn [Nat.min].
    rewrite bool_decide_eq_false_2 by done. cbn [negb]. by rewrite take_drop.
Qed.

Lemma earlyPayload_transparent_witness :
  earlyPayload (earlyMagic ++ be_encode 4 1 ++ [x61] ++ [x00; x01]) = Ok [x00; x01] ∧ earlyPayload (replicate 9 x00) = Ok (replicate 9 x00).
Proof. apply (earlyPayload_transparent [x61] [x00; x01] (replicate 9 x00)); [vm_compute; discriminate|cbn; lia|discriminate]. Defined.

(** ** The server's key *)

(** A client with a channel knows the server's key. *)
Definition control_ok (c : ControlClient) : Prop := cc_noise c = true → key_IsZero (cc_serverKey c) = false.

Lemma parseServerKey_nonzero decode body key : parseServerKey decode body = Ok key → key_IsZero key = false.
Proof.
  unfold parseServerKey. destruct (match decode body with Ok _ => _ | Err _ => _ end) as [keys|]; [|done]. cbn [result_bind]. cbv zeta.
  set (k := if key_IsZero (OverTLSPublicKeyResponse_PublicKey keys) then _ else _). clearbody k. destruct (key_IsZero k) eqn:E; [done|]. by intros [= <-].
Qed.

(** C40. The key of the control server: [ensureNoise] succeeds only on a client that
    is not closed, and then the client has a channel and a nonzero server key.
    A key once known is kept and never fetched again, whatever the server would
    answer; a failure leaves the client as it was. *)
Theorem ensureNoise_key do decode c (Hc : control_ok c) :
  let '(c', err) := ensureNoise do decode c in
  control_ok c' ∧
  match err with
  | Some _ => c' = c
  | None => cc_closed c = false ∧ cc_noise c' = true ∧ key_IsZero (cc_serverKey c') = false ∧
      (key_IsZero (cc_serverKey c) = false → cc_serverKey c' = cc_serverKey c ∧ ∀ do' decode', ensureNoise do' decode' c = (c', None)) ∧
      (∀ do' decode', ensureNoise do' decode' c' = (c', None))
  end.
Proof.
  unfold ensureNoise. destruct (cc_closed c) eqn:Ecl; [done|]. destruct (cc_noise c) eqn:En.
  { split; [done|]. split_and!; [done|done|by apply Hc|by intros _|]. intros. by rewrite Ecl, En. }
  set (fetched := if key_IsZero (cc_serverKey c) then _ else _).
  assert (∀ key, fetched = Ok key → key_IsZero key = false ∧ (key_IsZero (cc_serverKey c) = false → key = cc_serverKey c)) as Hf.
  { intros key. unfold fetched. destruct (key_IsZero (cc_serverKey c)) eqn:Ez; [|by intros [= <-]].
    destruct (do _) as [res|]; [|done]. destruct (readLimited _ res) as [body [e|]]; [done|]. destruct (negb _); [done|].
    intros Hk. split; [by eapply parseServerKey_nonzero|done]. }
  destruct fetched as [key|e]; [|done]. destruct (Hf key eq_refl) as [Hnz Hsame]. destruct c as [u mk sk noise closed]; cbn in *. subst noise closed.
  split; [by intros _|]. split_and!; [done|done|done| |done]. intros Hz. rewrite Hz. rewrite (Hsame Hz). by split.
Qed.

Lemma ensureNoise_key_witness :
  let c := mkControlClient (mkServerURL "https" "example" "example" "" "" "" []) (to_array 32 [x01]) (zero_array 32) false false in
  let do := λ _ : HTTPRequest, Ok (mkHTTPResponse 200 "200 OK" (λ _, "") (bytes_of_string (hex_encode (replicate 32 x07))) None) in
  cc_noise (ensureNoise do (λ _, Err ErrEOF) c).1 = true.
Proof.
  cbv zeta. set (c := mkControlClient _ _ _ _ _). set (do := λ _ : HTTPRequest, _).
  pose proof (ensureNoise_key do (λ _, Err ErrEOF) c) as Hk. specialize (Hk ltac:(done)).
  assert ((ensureNoise do (λ _, Err ErrEOF) c).2 = None) as He by (vm_compute; reflexivity).
  destruct (ensureNoise do (λ _, Err ErrEOF) c) as [c' err]. cbn in He. subst err. destruct Hk as (_ & _ & Hn & _). exact Hn.
Defined.

(** ** The path of the upgrade request *)

Lemma escapePath_safe s t : (∀ c, c ∈ String.list_ascii_of_string s → pathSafe c = true) → escapePath (s +:+ t) = s +:+ escapePath t.
Proof.
  induction s as [|c s IH]; intros Hs; [done|].
  change (escapePath (String c s +:+ t)) with (if pathSafe c then String c (escapePath (s +:+ t)) else String "%" (String (upperHex (chr c / 16)) (String (upperHex (chr c mod 16)) (escapePath (s +:+ t))))).
  rewrite (Hs c) by (cbn [String.list_ascii_of_string]; left). change (String c s +:+ escapePath t) with (String c (s +:+ escapePath t)). f_equal. apply IH. intros c' Hc'. apply Hs. cbn [String.list_ascii_of_string]. by right.
Qed.

(** The upgrade request goes to the path the other requests start with as long
    as that path needs no escaping; a server URL with an escaped path is asked
    for another path, where every percent sign is escaped a second time. *)
Theorem upgradeURL_paths u :
  (su_Scheme u = "https" → (∀ c, c ∈ String.list_ascii_of_string (trimSlash (su_EscapedPath u)) → pathSafe c = true) →
   upgradeURL u = innerURL u upgradePath) ∧
  (let v := mkServerURL "https" "example" "example" "" "/a b" "/a%20b" [] in
   innerURL v upgradePath = "https://example/a%20b/ts2021" ∧ upgradeURL v = "https://example/a%2520b/ts2021").
Proof.
  split; [|by vm_compute]. intros Hs Hp. unfold upgradeURL, innerURL. rewrite escapePath_safe by done. by rewrite Hs.
Qed.
